(* ===== verification/_CoqProject ===== *)
-Q . S2P
Prelude.v
Glyphs.v
Captcha.v
Base64.v
Cookie.v
CookieHash.v
Util.v
Print.v
GmTime.v
WhiteList.v
IpDb.v
Yaml.v
Float.v
World.v
Swabber.v
BanList.v
Bans.v
BotSniffer.v
WhiteLister.v
Denialator.v
RegexManager.v
Rates.v
Hits.v
Reports.v
Kafka.v
ChallengeChecks.v
Challenger.v
Failures.v
ChallengerFlow.v
CaptchaFlow.v
ChallengerConfig.v
ChallengerText.v
Muncher.v
Transaction.v
Lifecycle.v
Session.v
AuthFlow.v
CaptchaSession.v
Quarantine.v
Banjax.v
Frames.v
Leases.v
Startup.v
Plugin.v
