(* ===== verification/Prelude.v ===== *)
(** * Banjax, verified

    Banjax is a plugin of Apache Traffic Server that protects web sites from
    denial of service.  Every request goes through a chain of filters; a filter
    lets it pass, answers it itself, or exempts it from the rest of the chain.
    This library models the C++ sources under src/ as Rocq functions and proves
    what makes them correct.  This file holds what all components share.

    ** The program and the files that model it

    [Startup] (src/banjax.cpp, src/banjax_filter.h) starts the plugin and reloads
    it: [Banjax] reads the configuration files and the priorities of the filters,
    then the nodes of each filter are merged and the filters built, in order, on
    one shared white list.  Each transaction is a state machine on the events of
    Traffic Server, [Lifecycle] (src/transaction_data.cpp); its handlers are in
    [Transaction]: [handle_request] asks [Muncher] (src/transaction_muncher.cpp)
    for the parts of the request the filters want and calls the filters of the
    request queue.  The filters are

    - [WhiteLister] (src/white_lister.cpp), on the shared list of [WhiteList]
      (src/global_white_list.h);
    - [Denialator] (src/denialator.cpp), which turns away flagged addresses;
    - [RegexManager] (src/regex_manager.cpp), which bans by rate of matching
      requests, with the IEEE arithmetic of [Float];
    - [Challenger] (src/challenger.cpp, the handlers), [ChallengeChecks] (its
      pure checks) and [ChallengerConfig] (its configuration and the challenges
      that arrive over Kafka; [ChallengerText] writes a configuration down); it hands out and checks the cookies of
      [CookieHash] (src/cookiehash.cpp), which are encoded by [Base64]
      (src/base64.cpp) and read with [Cookie] (src/cookie.cpp), and serves the
      pictures of [Captcha] and [Glyphs] (src/libcaptcha.c);
    - [BotSniffer] (src/bot_sniffer.cpp, encryption and messages of
      src/util.cpp), which reports closed transactions, with the time of
      [GmTime].

    Filters report addresses to [Swabber] (src/swabber.cpp, on src/socket.h),
    which bans after a grace period, and to Kafka through [Reports]
    (src/banjax.cpp, src/kafka.cpp).  The thread that takes commands from Kafka
    is in [Kafka] (src/kafka.cpp), what the commands do in [Banjax].  What the
    filters remember of an address is in three databases of the type [IpDb]
    (src/ip_db.h).  [Util] (src/util.cpp) has the IP ranges and the quoting of
    log fields, [Print] (src/print.h) the texts of statuses, events and ranges.

    [Plugin] puts it together (src/banjax.cpp): a machine of the [Banjax] objects
    that are alive with their stores, the transactions that keep them alive, the
    Kafka consumer and the scheduled actions, whose steps are the entry points of
    the plugin; [Frames] says what these can touch.

    [World] holds the types several components exchange and the state they share
    (the databases, the swabber, the bot sniffer, the run-time challenges, what
    was sent and logged), and the monad [M] of computations over it.
    [ChallengerFlow] and [CaptchaFlow] prove what the challenger's handlers
    achieve together, [Session], [AuthFlow], [CaptchaSession] and [Quarantine]
    what whole transactions do, from the header of the request to the response;
    [Failures], [Bans], [Rates] and [Hits] what becomes of the failure counts, the
    flags and the rates when requests interleave; [Leases] how long the challenges
    that arrive over Kafka last; [BanList] is the text of the ban log.

    ** How code is modelled

    A [char] is an [ascii], strings and buffers are lists of them; integers are
    [Z] with the wrap-around of their width written out; [std::map] is [gmap], a
    list kept sorted where the order of iteration matters.  A computation ends in
    an [outcome]: a value, a C++ exception, or a [fault] (undefined behaviour, a
    failed assertion, an abort).  Stateful code is in [M]: it passes the store
    and gets every answer of the outside (clock, try-locks, binding of sockets,
    Kafka, randomness, success of a library call) from an [Env] that is queried
    with a fresh tick each time, so a theorem for all environments holds for
    every sequence of answers and every failure of a lock.  A handler is one
    computation; where threads meet between two accesses, the accesses are the
    steps of a relation ([Failures.step], [Bans.step], [Rates.step]), and in
    [Kafka.step], where a flag is read without a lock, the single assignments of a
    reload.  The entry points of the plugin are the steps of [Plugin.step], each
    taken whole.  A pointer to the shared white list is the list itself, or nothing
    when it is null; a periodic action is an event of the store, from which
    [Plugin] collects what is scheduled.

    Loops over data are structural.  Fuel occurs in four places.  The loop over a
    cookie jar and the quoting loop get the length of their input, which
    [consume_progress] and [encapsulate_in_quotes_spec] show to be enough.
    [process_config] gets the depth of file inclusion: files that include each
    other really make the calls nest without end, and for files that do not
    [include_fuel_enough] shows that fuel above the rank of a file never runs
    out.  [merge_nodes] gets the depth of the nodes, which [merge_tree_fuel] shows
    to be enough.

    Code outside the repository is a class of operations with the laws that are
    used: [Crypto] and [OpenSSL] (OpenSSL's hashes and its AES-GCM), [Inet]
    (inet_addr), [Yaml] (yaml-cpp), [Re2] (RE2), and the record [Txn] (the
    answers of Traffic Server for one transaction).  Each has an instance on
    which the witnesses of the theorems evaluate.

    ** What the theorems show

    - Who gets past the challenger: soundness ([go_ahead_sound], with
      the one exception of a locked table); whole sessions
      of a client that solves the SHA challenge ([sha_session]), that knows the
      password or does not ([auth_gate]), that reads the captcha
      ([captcha_session]), and of one that passes a captcha without reading it
      ([unsolved_token_passes_captcha]); the authenticity, round trip and memory
      safety of cookies ([ValidateCookie_sound], [Validate_Generate],
      [ValidateCookie_faults]) and the meaning of the SHA check
      ([check_sha_spec]).  The pictures are drawn inside their arrays exactly
      when the letters fit ([captcha_memory_safe]) and read back from the file
      ([makegif_roundtrip]).
    - When an address is banned: the swabber refines a state machine per address
      ([ban_refines]) and never bans early however reports interleave
      ([ban_after_flag]); its log can be read back ([ban_log_roundtrip]); a
      flagged address is turned away, and banned by its first request after the
      grace period ([quarantine]); failures are counted up to the threshold and then
      handed to the swabber ([failures_until_ban]), and never before as many were
      reported, however the requests of a client for any hosts and challenges
      interleave ([no_early_ban]); the regex manager bans at the configured number
      of hits or one later ([hits_threshold]); however requests interleave, the rates stay in shape
      ([rates_safe]) and no ban comes of fewer hits than that
      ([rate_ban_needs_hits]).
      Sessions and quarantine are stated for chains in which the challenger is the
      only filter on requests, or the denialator the first.
    - The life of a transaction: every event is answered once and the data freed
      once ([transaction_lifecycle]); a page is served exactly when a filter
      answered ([answered_request]); a request changes the records of no other address
      ([request_isolation]); filters find the parts they asked for
      ([retrieve_parts_complete], and [close_without_url] for the exception).
    - What leaves the program: the records of the bot sniffer can be read back
      ([sniffer_record]) and every close sends whole messages or fails in a known
      way ([sniffer_frames]).
    - The running plugin: over every order of transactions, reloads, commands and
      actions no pointer dangles and no object leaks, sockets belong to the
      current object, the rates fit the rules and no action of a dead object stays
      scheduled ([plugin_invariant]); what
      outlives a reload is silent ([outlived_is_silent]).
    - Configuration: inclusion, building of the filters and reload
      ([include_fuel_enough], [filters_built], [reload_starts_anew]), the white
      list and the challenges on disk ([white_lister_refines],
      [static_table_spec]), a challenger written down and read back
      ([challenger_roundtrip]), the challenges that run out
      ([challenges_are_leases]), the Kafka consumer under reloads
      ([consumer_up_to_date], [consumer_progress]).
    - The text formats: cookies and IP ranges ([cookies_print_jar],
      [make_mask_is_match]).

    The lemmas behind these say more of single components, among them
    [Decode_Encode], [sha_solver_passes], [white_listed_bypass],
    [merge_nodes_spec], [challenge_host_takes_effect], [remove_expired_exact],
    [regex_manager_safe], [print_range_roundtrip], [ban_never_early],
    [swabber_wf_invariant], [denialator_decides], [query_cannot_exempt] and
    [lost_hit].

    ** What is not modelled

    Handing debug texts to TSDebug; the stand-alone main of src/libcaptcha.c; destructors that only
    release handles of Traffic Server; the calls that register hooks and
    continuations, beyond which events they ask for; librdkafka, ZeroMQ, OpenSSL,
    RE2 and yaml-cpp themselves.  Interleavings are modelled where a computation
    gives up a lock it comes back to: the failure counts, the flags of the
    swabber, the rate windows and the consumer thread.  Data races on pointers
    that no lock protects ([current_state]) are outside the model. *)

From Stdlib Require Export Ascii ZArith Lia Bool Wf_nat.
From stdpp Require Export base option list gmap strings numbers pretty.

#[export] Set Default Goal Selector "!".
Local Open Scope Z_scope.

(** ** Characters and C++ strings

    A [std::string], a [boost::string_view] and a [char] buffer are lists of
    bytes.  [code] is the unsigned value of a byte, [chr] the conversion
    [(char)z], which keeps the low eight bits. *)

Abbreviation char := ascii.
Abbreviation str := (list ascii).

Definition lit (s : string) : str := Stdlib.Strings.String.list_ascii_of_string s.

Definition code (c : char) : Z := Z.of_N (N_of_ascii c).
Definition chr (z : Z) : char := ascii_of_N (Z.to_N (z mod 256)).

Definition NUL : char := chr 0.
Definition CR : char := chr 13.
Definition LF : char := chr 10.
Definition dquote : char := chr 34.
Definition backslash : char := chr 92.

(** [isspace] of the C locale: the blank and the bytes 9 to 13. *)
Definition isspace (c : char) : bool :=
  (code c =? 32) || ((9 <=? code c) && (code c <=? 13)).

(** [tolower] of the C locale. *)
Definition tolower (c : char) : char :=
  if (65 <=? code c) && (code c <=? 90) then chr (code c + 32) else c.

Definition isdigit (c : char) : bool := (48 <=? code c) && (code c <=? 57).

(** [s.c_str()] as a C function sees it: the bytes before the first NUL. *)
Fixpoint c_str (s : str) : str :=
  match s with
  | [] => []
  | c :: t => if bool_decide (c = NUL) then [] else c :: c_str t
  end.

Definition strlen (s : str) : nat := length (c_str s).

(** [std::to_string] of an integer. *)
Definition to_string (z : Z) : str := lit (pretty z).

Fixpoint starts_with (s p : str) {struct p} : bool :=
  match p, s with
  | [], _ => true
  | _ :: _, [] => false
  | c :: p', d :: s' => bool_decide (c = d) && starts_with s' p'
  end.

(** [s.find(p)]: the least position of [p] in [s], [None] for [npos]. *)
Fixpoint find (s p : str) : option nat :=
  if starts_with s p then Some 0%nat
  else match s with
       | [] => None
       | _ :: s' => S <$> find s' p
       end.

(** [s.find(p, pos)]. *)
Definition find_from (s p : str) (pos : nat) : option nat :=
  if (length s <? pos)%nat then None else Nat.add pos <$> find (drop pos s) p.

(** [s.rfind(p)]: the greatest position of [p] in [s]. *)
Fixpoint rfind (s p : str) : option nat :=
  match s with
  | [] => if starts_with [] p then Some 0%nat else None
  | _ :: s' =>
      match rfind s' p with
      | Some n => Some (S n)
      | None => if starts_with s p then Some 0%nat else None
      end
  end.

(** [s.replace(pos, len, t)] for [pos <= s.size()]. *)
Definition replace_at (s : str) (pos len : nat) (t : str) : str :=
  take pos s ++ t ++ drop (pos + len) s.

(** ** Machine integers: wrap-around of the widths the sources use *)

Definition u32 (z : Z) : Z := z mod 2 ^ 32.
Definition u64 (z : Z) : Z := z mod 2 ^ 64.
Definition s32 (z : Z) : Z := (z + 2 ^ 31) mod 2 ^ 32 - 2 ^ 31.
Definition s64 (z : Z) : Z := (z + 2 ^ 63) mod 2 ^ 64 - 2 ^ 63.

(** [memcpy] of a [w]-byte integer on a little-endian machine, and back. *)
Fixpoint le_split (n : nat) (z : Z) : str :=
  match n with
  | O => []
  | S n' => chr z :: le_split n' (z / 256)
  end.

Fixpoint le_combine (l : str) : Z :=
  match l with
  | [] => 0
  | c :: t => code c + 256 * le_combine t
  end.

(** ** Outcomes: values, C++ exceptions and undefined behaviour or aborts *)

Inductive exn :=
  | length_error
  | invalid_argument
  | out_of_range
  | InvalidConfException
  | EncryptionException
  | YAML_RepresentationException
  | YAML_Exception
  | YAML_BadFile
  | YAML_ParserException
  | HEADER_RETRIEVAL_ERROR.

(** [what()] of the exceptions of src/exception.h; the others are those of the
    libraries and of the muncher. *)
Definition what (e : exn) : option str :=
  match e with
  | EncryptionException => Some (lit "Errorr occured during encryption operation")
  | InvalidConfException => Some (lit "Bad configuration errror")
  | _ => None
  end.

Inductive fault :=
  | OutOfBounds      (* a read or write outside an object *)
  | BufferOverflow   (* a memcpy past the end of a fixed-size buffer *)
  | NullDeref        (* a call through a null pointer *)
  | ShiftTooWide     (* a shift by the width of the type or more *)
  | UninitRead       (* the value of a member no constructor sets *)
  | AssertFailed     (* assert() *)
  | StackOverflow    (* recursion deeper than the model follows *)
  | Rethrow          (* throw; with no active exception: std::terminate *)
  | Dangling         (* a pointer to an object that was destroyed *)
  | Aborted.         (* abort_traffic_server() *)

Inductive outcome (A : Type) :=
  | Ret (a : A)
  | Throw (e : exn)
  | Fault (f : fault).
Arguments Ret {A} a.
Arguments Throw {A} e.
Arguments Fault {A} f.

#[global] Instance exn_eq_dec : EqDecision exn.
Proof. solve_decision. Defined.
#[global] Instance fault_eq_dec : EqDecision fault.
Proof. solve_decision. Defined.
#[global] Instance outcome_eq_dec {A} `{EqDecision A} : EqDecision (outcome A).
Proof. solve_decision. Defined.

#[global] Instance outcome_ret : MRet outcome := fun A => Ret.
#[global] Instance outcome_bind : MBind outcome := fun A B k m =>
  match m with
  | Ret a => k a
  | Throw e => Throw e
  | Fault f => Fault f
  end.

(** [TSReleaseAssert(false)]: Traffic Server must not run without Banjax. *)
Definition abort_traffic_server {A} : outcome A := Fault Aborted.

(** [try { m } catch (e) { h }] for the exceptions [p] selects. *)
Definition try_catch {A} (p : exn -> bool) (m h : outcome A) : outcome A :=
  match m with
  | Throw e => if p e then h else m
  | _ => m
  end.

(** [s.substr(pos)] throws when [pos] is past the end. *)
Definition substr (s : str) (pos : nat) : outcome str :=
  if (length s <? pos)%nat then Throw out_of_range else Ret (drop pos s).

(** The value of a computation that returned. *)
Definition is_ret {A} (m : outcome A) : bool :=
  match m with Ret _ => true | _ => false end.

(** ** Automation *)

Create HintDb banjax.
Create Rewrite HintDb banjax_rw.

(** Case analysis on the first [match] or [if] of the goal. *)
Ltac case_goal :=
  match goal with
  | |- context [match ?x with _ => _ end] => destruct x eqn:?
  end.

Ltac inv_ret :=
  repeat match goal with
  | H : Ret _ = Ret _ |- _ => injection H as H
  | H : Ret _ = Throw _ |- _ => discriminate H
  | H : Ret _ = Fault _ |- _ => discriminate H
  | H : Throw _ = Ret _ |- _ => discriminate H
  | H : Fault _ = Ret _ |- _ => discriminate H
  | H : Throw _ = Fault _ |- _ => discriminate H
  | H : Fault _ = Throw _ |- _ => discriminate H
  | H : Some _ = Some _ |- _ => injection H as H
  | H : (_, _) = (_, _) |- _ => injection H as H
  end; subst.

(** Booleans of the sources to propositions. *)
Ltac boolify :=
  repeat match goal with
  | H : (_ && _) = true |- _ => apply andb_true_iff in H as [? ?]
  | H : (_ || _) = false |- _ => apply orb_false_iff in H as [? ?]
  | H : negb _ = true |- _ => apply negb_true_iff in H
  | H : negb _ = false |- _ => apply negb_false_iff in H
  | H : bool_decide _ = true |- _ => apply bool_decide_eq_true in H
  | H : bool_decide _ = false |- _ => apply bool_decide_eq_false in H
  | H : (_ <? _) = true |- _ => apply Z.ltb_lt in H
  | H : (_ <? _) = false |- _ => apply Z.ltb_ge in H
  | H : (_ <=? _) = true |- _ => apply Z.leb_le in H
  | H : (_ <=? _) = false |- _ => apply Z.leb_gt in H
  | H : (_ =? _) = true |- _ => apply Z.eqb_eq in H
  | H : (_ =? _) = false |- _ => apply Z.eqb_neq in H
  | H : (_ <? _)%nat = true |- _ => apply Nat.ltb_lt in H
  | H : (_ <? _)%nat = false |- _ => apply Nat.ltb_ge in H
  | H : (_ <=? _)%nat = true |- _ => apply Nat.leb_le in H
  | H : (_ <=? _)%nat = false |- _ => apply Nat.leb_gt in H
  | H : (_ =? _)%nat = true |- _ => apply Nat.eqb_eq in H
  | H : (_ =? _)%nat = false |- _ => apply Nat.eqb_neq in H
  end.

(** Unfold the binds of fallible computations. *)
Tactic Notation "run_outcome" := cbv [mbind outcome_bind mret outcome_ret].
Tactic Notation "run_outcome" "in" hyp(H) := cbv [mbind outcome_bind mret outcome_ret] in H.

(** Linear arithmetic with division and remainder by constants. *)
Ltac divmod := Z.to_euclidean_division_equations; lia.

(** ** Characters and integers *)

Lemma code_range c : 0 <= code c < 256.
Proof. destruct c as [[] [] [] [] [] [] [] []]; vm_compute; split; congruence. Qed.

Lemma chr_code c : chr (code c) = c.
Proof. destruct c as [[] [] [] [] [] [] [] []]; reflexivity. Qed.

Lemma code_chr z : code (chr z) = z mod 256.
Proof.
  unfold code, chr. rewrite N_ascii_embedding.
  - rewrite Z2N.id; [done|]. apply Z.mod_pos_bound; lia.
  - pose proof (Z.mod_pos_bound z 256 ltac:(lia)). lia.
Qed.

Lemma code_inj c d : code c = code d -> c = d.
Proof. intros H. by rewrite <- (chr_code c), <- (chr_code d), H. Qed.

#[export] Hint Resolve code_range : banjax.

(** [a << k | b] is [a * 2^k + b] when [b] fits in the [k] low bits. *)
Lemma lor_shiftl_add a b k :
  0 <= k -> 0 <= b < 2 ^ k -> Z.lor (Z.shiftl a k) b = a * 2 ^ k + b.
Proof.
  intros Hk Hb. rewrite <- Z.shiftl_mul_pow2 by done.
  rewrite <- Z.lxor_lor; [symmetry; apply Z.add_nocarry_lxor|].
  all: apply Z.bits_inj'; intros n Hn; rewrite Z.land_spec, Z.bits_0.
  all: destruct (Z.ltb_spec n k).
  all: try (rewrite Z.shiftl_spec_low by done; done).
  all: replace b with (b mod 2 ^ k) by (apply Z.mod_small; lia).
  all: rewrite Z.mod_pow2_bits_high by lia; apply andb_false_r.
Qed.

Lemma length_le_split n z : length (le_split n z) = n.
Proof. revert z; induction n; intros; simpl; auto. Qed.

Lemma le_combine_split n z : le_combine (le_split n z) = z mod 256 ^ Z.of_nat n.
Proof.
  revert z; induction n as [|n IH]; intros z; cbn [le_split le_combine].
  - by rewrite Z.mod_1_r.
  - rewrite IH, code_chr, Nat2Z.inj_succ, Z.pow_succ_r by lia.
    rewrite Z.rem_mul_r; lia.
Qed.

Lemma le_split_combine l : le_split (length l) (le_combine l) = l.
Proof.
  induction l as [|c t IH]; cbn [length le_split le_combine]; [done|].
  pose proof (code_range c). f_equal.
  - apply code_inj. rewrite code_chr. divmod.
  - etransitivity; [|exact IH]. f_equal. divmod.
Qed.

Lemma le_combine_range l : 0 <= le_combine l < 256 ^ Z.of_nat (length l).
Proof.
  rewrite <- (le_split_combine l) at 1 2. rewrite le_combine_split.
  apply Z.mod_pos_bound. lia.
Qed.

(** ** Fields between separators *)

Fixpoint split_on (sep : char) (s : str) : list str :=
  match s with
  | [] => [[]]
  | c :: t =>
      if bool_decide (c = sep) then [] :: split_on sep t
      else match split_on sep t with
           | [] => [[c]]
           | w :: ws => (c :: w) :: ws
           end
  end.

Lemma split_on_app sep x y : sep ∉ x -> split_on sep (x ++ sep :: y) = x :: split_on sep y.
Proof.
  induction x as [|c x IH]; cbn [app split_on]; [by rewrite bool_decide_true|].
  rewrite not_elem_of_cons. intros [? ?]. rewrite bool_decide_false by done. by rewrite IH.
Qed.

Lemma split_on_id sep x : sep ∉ x -> split_on sep x = [x].
Proof.
  induction x as [|c x IH]; [done|]. rewrite not_elem_of_cons. intros [? ?].
  cbn [split_on]. rewrite bool_decide_false by done. by rewrite IH.
Qed.

(** ** Checking a predicate on a range by computation *)

Fixpoint all_from (n : nat) (lo : Z) (f : Z -> bool) : bool :=
  match n with
  | O => true
  | S n' => if f lo then all_from n' (lo + 1) f else false
  end.

Lemma all_from_spec n f : forall lo z,
  all_from n lo f = true -> lo <= z < lo + Z.of_nat n -> f z = true.
Proof.
  induction n as [|n IH]; intros lo z H Hz; [lia|]. cbn [all_from] in H.
  destruct (f lo) eqn:E; [|done]. destruct (decide (z = lo)) as [->|Hne]; [done|].
  apply (IH (lo + 1)); [done|lia].
Qed.

(** [x & (2^k - 1)] and [x >> k] as remainder and quotient. *)
Lemma land_mask x k m : 0 <= k -> m = 2 ^ k - 1 -> Z.land x m = x mod 2 ^ k.
Proof. intros Hk ->. rewrite <- Z.land_ones, Z.ones_equiv by done. f_equal; lia. Qed.

(** ** Lists *)

(** Induction by groups of three elements. *)
Lemma list_three_ind {A} (P : list A -> Prop) :
  P [] -> (forall a, P [a]) -> (forall a b, P [a; b]) ->
  (forall a b c t, P t -> P (a :: b :: c :: t)) -> forall l, P l.
Proof.
  intros H0 H1 H2 H3 l.
  induction l as [l IH] using (induction_ltof1 _ (@length _)); unfold ltof in IH.
  destruct l as [|a [|b [|c t]]]; auto.
  apply H3, IH. simpl. lia.
Qed.

(** ** Strings *)

Lemma c_str_no_nul s : NUL ∉ s -> c_str s = s.
Proof.
  induction s as [|c t IH]; simpl; [done|].
  intros [H1 H2]%not_elem_of_cons. rewrite bool_decide_false by done. by rewrite IH.
Qed.

Lemma c_str_nul_free s : NUL ∉ c_str s.
Proof.
  induction s as [|c t IH]; simpl; [by apply not_elem_of_nil|].
  case_bool_decide; [by apply not_elem_of_nil|].
  by apply not_elem_of_cons.
Qed.

Lemma c_str_idem s : c_str (c_str s) = c_str s.
Proof. apply c_str_no_nul, c_str_nul_free. Qed.

Lemma starts_with_spec s p : starts_with s p = true <-> exists t, s = p ++ t.
Proof.
  revert s; induction p as [|c p IH]; intros s; simpl.
  - split; [by exists s|done].
  - destruct s as [|d s]; [split; [done|intros [t ?]; done]|].
    rewrite andb_true_iff, bool_decide_eq_true, IH. split.
    + intros [-> [t ->]]. eauto.
    + intros [t [= -> ->]]. eauto.
Qed.

Lemma starts_with_app p t : starts_with (p ++ t) p = true.
Proof. apply starts_with_spec. eauto. Qed.

Lemma starts_with_1 s c : starts_with s [c] = match s with [] => false | d :: _ => bool_decide (c = d) end.
Proof. destruct s; simpl; [done|]. by rewrite andb_true_r. Qed.

(** Searching for one character. *)
Lemma find_char_None s c : find s [c] = None <-> c ∉ s.
Proof.
  induction s as [|d s IH]; [split; [intros _; apply not_elem_of_nil|done]|].
  cbn [find]. rewrite starts_with_1, not_elem_of_cons. case_bool_decide.
  - split; [done|]. by intros [? _].
  - rewrite <- IH, fmap_None. split; [done|by intros []].
Qed.

Lemma find_char_Some s c n : find s [c] = Some n ->
  exists x y, s = x ++ c :: y /\ length x = n /\ c ∉ x.
Proof.
  revert n; induction s as [|d s IH]; intros n; [done|].
  cbn [find]. rewrite starts_with_1. case_bool_decide.
  - intros [= <-]. subst. exists [], s. split; [done|]. split; [done|]. apply not_elem_of_nil.
  - destruct (find s [c]) as [m|] eqn:E; [|done]. intros [= <-].
    destruct (IH m eq_refl) as (x & y & -> & <- & Hx).
    exists (d :: x), y. split; [done|]. split; [done|]. by apply not_elem_of_cons.
Qed.

Lemma find_char_app x y c : c ∉ x -> find (x ++ c :: y) [c] = Some (length x).
Proof.
  induction x as [|d x IH]; cbn [app find length].
  - intros _. rewrite starts_with_1. by rewrite bool_decide_true.
  - rewrite not_elem_of_cons. intros [? ?]. rewrite starts_with_1, bool_decide_false by done.
    by rewrite IH.
Qed.

Lemma replace_at_app x m y t pos len :
  pos = length x -> len = length m -> replace_at (x ++ m ++ y) pos len t = x ++ t ++ y.
Proof.
  intros -> ->. unfold replace_at. rewrite take_app_length. f_equal. f_equal.
  by rewrite <- length_app, app_assoc, drop_app_length.
Qed.

Lemma rfind_app x s p n : rfind s p = Some n -> rfind (x ++ s) p = Some (length x + n)%nat.
Proof. intros Hs. induction x as [|c x IH]; [done|]. cbn [app rfind]. by rewrite IH. Qed.

Lemma rfind_absent c s p : c ∉ s -> rfind s (c :: p) = None.
Proof.
  induction s as [|d s IH]; [done|]. intros [Hne Hc]%not_elem_of_cons. cbn [rfind starts_with].
  rewrite IH by done. by rewrite bool_decide_false.
Qed.

(** [find] returns [None] exactly when the pattern does not occur. *)
Lemma find_None s p : find s p = None <-> forall x y, s <> x ++ p ++ y.
Proof.
  induction s as [|d s IH]; cbn [find].
  - destruct (starts_with [] p) eqn:E.
    + apply starts_with_spec in E as [t E]. split; [done|]. intros H. by destruct (H [] t).
    + split; [|done]. intros _ x y H. symmetry in H. apply app_eq_nil in H as [-> H].
      assert (starts_with [] p = true); [|congruence]. apply starts_with_spec. by exists y.
  - destruct (starts_with (d :: s) p) eqn:E.
    + apply starts_with_spec in E as [t E]. split; [done|]. intros H. by destruct (H [] t).
    + rewrite fmap_None, IH. split.
      * intros H [|e x] y Hx.
        -- assert (starts_with (d :: s) p = true); [|congruence].
           apply starts_with_spec. by exists y.
        -- injection Hx as -> Hx. by apply (H x y).
      * intros H x y Hx. apply (H (d :: x) y). by rewrite Hx.
Qed.

#[export] Hint Rewrite length_le_split starts_with_app c_str_idem : banjax_rw.
