(* ===== verification/Glyphs.v ===== *)
(** * Glyphs: the tables of src/libcaptcha.c

    The letters of the captcha as the drawing routine reads them: a value from 0
    to 15 is a pixel, a negative value skips columns, -100 ends a row and -101
    ends the letter; and the wave [sw] that skews rows and columns. *)

From S2P Require Import Prelude.

Local Open Scope Z_scope.

Module Glyphs.

Definition lt0 : list Z :=
  [-100; -100; -100; -100; -100; -100; -100; -100; -100; -100; -100; -100; -100; -100; -100;
   -100; -100; -4; 11; 7; 5; 3; 1; 0; 0; 0; 1; 3; 7; 13; -100; -2; 11; 3; 0; 0; 0; 0; 0; 0; 0;
   0; 0; 0; 0; 0; 9; -100; -1; 7; 0; 0; 0; 0; 0; 0; 3; 9; 11; 9; 3; 0; 0; 0; 0; 13; -100; 9; 0;
   0; 0; 0; 0; 0; 3; -5; 3; 0; 0; 0; 7; -100; 5; 0; 0; 0; 0; 0; 1; 13; -5; 9; 0; 0; 0; 1; -100;
   7; 0; 0; 0; 0; 1; 13; -6; 13; 0; 0; 0; 0; -100; -1; 9; 1; 0; 5; 13; -8; 0; 0; 0; 0; 13; -100;
   -14; 0; 0; 0; 0; 11; -100; -14; 0; 0; 0; 0; 11; -100; -14; 0; 0; 0; 0; 11; -100; -12; 13; 5;
   0; 0; 0; 0; 11; -100; -8; 13; 9; 5; 1; 0; 0; 0; 0; 0; 0; 11; -100; -4; 13; 7; 3; 1; 0; 0; 0;
   0; 1; 1; 0; 0; 0; 0; 11; -100; -2; 13; 5; 0; 0; 0; 0; 0; 5; 9; 13; -2; 0; 0; 0; 0; 11; -100;
   -1; 13; 1; 0; 0; 0; 0; 7; -6; 0; 0; 0; 0; 11; -100; 13; 1; 0; 0; 0; 0; 13; -7; 0; 0; 0; 0;
   11; -100; 5; 0; 0; 0; 0; 5; -8; 0; 0; 0; 0; 11; -100; 0; 0; 0; 0; 0; 11; -8; 0; 0; 0; 0; 11;
   -100; 0; 0; 0; 0; 0; 13; -7; 13; 0; 0; 0; 0; 11; -100; 1; 0; 0; 0; 0; -7; 9; 0; 0; 0; 0; 0;
   9; -3; 9; -100; 5; 0; 0; 0; 0; 3; 13; -3; 11; 3; 0; 0; 0; 0; 0; 0; 0; 9; 13; 3; 5; -100; 13;
   0; 0; 0; 0; 0; 0; 1; 1; 0; 0; 0; 1; 11; 9; 0; 0; 0; 0; 0; 0; 1; 13; -100; -1; 11; 1; 0; 0; 0;
   0; 0; 0; 0; 0; 5; -3; 9; 0; 0; 0; 0; 0; 11; -100; -2; 13; 7; 3; 0; 0; 0; 3; 7; 13; -5; 9; 0;
   1; 3; 9; -100; -100; -100; -100; -100; -100; -100; -100; -100; -100; -101].

Definition lt1 : list Z :=
  [-100; -100; -4; 13; 5; 0; 3; -100; -3; 11; 1; 0; 0; 0; 7; -100; -2; 7; 0; 0; 0; 0; 0; 3;
   -100; 13; 3; 0; 0; 0; 0; 0; 0; 5; -100; 1; 0; 0; 0; 0; 0; 0; 0; 9; -100; 1; 0; 0; 0; 0; 0; 0;
   0; 13; -100; 13; 3; 0; 0; 0; 0; 0; 1; -100; -2; 5; 0; 0; 0; 0; 5; -100; -3; 0; 0; 0; 0; 9;
   -100; -3; 0; 0; 0; 0; 11; -100; -3; 0; 0; 0; 0; 11; -100; -3; 0; 0; 0; 0; 9; -100; -3; 0; 0;
   0; 0; 11; -100; -3; 0; 0; 0; 0; 11; -100; -3; 0; 0; 0; 0; 11; -100; -3; 0; 0; 0; 0; 3; 13; 9;
   5; 3; 1; 0; 0; 1; 3; 5; 9; -100; -3; 0; 0; 0; 0; 0; 0; 0; 0; 0; 0; 0; 0; 0; 0; 0; 0; 1; 13;
   -100; -3; 0; 0; 0; 0; 0; 5; 13; -2; 13; 11; 9; 5; 0; 0; 0; 0; 1; 13; -100; -3; 0; 0; 0; 0; 1;
   -8; 13; 1; 0; 0; 0; 5; -100; -3; 3; 0; 0; 0; 5; -9; 13; 0; 0; 0; 0; 11; -100; -3; 0; 0; 0; 0;
   9; -10; 7; 0; 0; 0; 5; -100; -3; 1; 0; 0; 0; 11; -10; 13; 0; 0; 0; 0; -100; -3; 3; 0; 0; 0;
   11; -11; 3; 0; 0; 0; 11; -100; -3; 1; 0; 0; 0; 11; -11; 7; 0; 0; 0; 7; -100; -3; 0; 0; 0; 0;
   11; -11; 9; 0; 0; 0; 3; -100; -3; 0; 0; 0; 0; 11; -11; 11; 0; 0; 0; 1; -100; -3; 0; 0; 0; 0;
   11; -11; 11; 0; 0; 0; 1; -100; -3; 0; 0; 0; 0; 11; -11; 11; 0; 0; 0; 0; -100; -3; 0; 0; 0; 0;
   11; -11; 9; 0; 0; 0; 0; -100; -3; 0; 0; 0; 0; 11; -11; 7; 0; 0; 0; 3; -100; -3; 0; 0; 0; 0;
   11; -11; 3; 0; 0; 0; 7; -100; -3; 0; 0; 0; 0; 11; -11; 0; 0; 0; 0; 11; -100; -3; 0; 0; 0; 0;
   11; -10; 9; 0; 0; 0; 3; -100; -3; 0; 0; 0; 0; 9; -10; 3; 0; 0; 0; 11; -100; -3; 0; 0; 0; 0;
   3; -9; 11; 0; 0; 0; 5; -100; -2; 13; 0; 0; 0; 0; 0; 9; -7; 11; 1; 0; 0; 3; -100; -2; 7; 0; 0;
   0; 0; 0; 0; 7; 13; -2; 13; 9; 3; 0; 0; 0; 3; 13; -100; -2; 13; 0; 0; 5; 13; 11; 1; 0; 0; 0;
   0; 0; 0; 0; 0; 0; 7; -100; -3; 9; 11; -4; 7; 3; 1; 0; 0; 1; 5; 9; 13; -100; -100; -100; -100;
   -100; -100; -100; -100; -100; -100; -101].

Definition lt2 : list Z :=
  [-100; -100; -100; -100; -100; -100; -100; -100; -100; -100; -100; -100; -100; -100; -100;
   -100; -100; -6; 13; 7; 3; 1; 0; 0; 1; 3; 7; 13; -100; -5; 9; 0; 0; 0; 0; 0; 0; 0; 0; 0; 0; 5;
   13; -100; -3; 13; 3; 0; 0; 0; 5; 13; 13; 7; 0; 0; 0; 0; 0; 1; 13; -100; -2; 13; 1; 0; 0; 0;
   9; -4; 7; 0; 0; 0; 0; 0; 1; -100; -1; 13; 1; 0; 0; 0; 9; -6; 5; 0; 0; 0; 0; 0; 13; -100; -1;
   5; 0; 0; 0; 3; -8; 1; 0; 0; 0; 3; -100; 13; 0; 0; 0; 0; 11; -8; 13; 3; 0; 3; -100; 7; 0; 0;
   0; 1; -100; 5; 0; 0; 0; 5; -100; 3; 0; 0; 0; 9; -100; 1; 0; 0; 0; 11; -100; 0; 0; 0; 0; 11;
   -100; 0; 0; 0; 0; 11; -100; 0; 0; 0; 0; 11; -100; 0; 0; 0; 0; 9; -100; 1; 0; 0; 0; 5; -100;
   5; 0; 0; 0; 0; 13; -100; 11; 0; 0; 0; 0; 7; -100; -1; 3; 0; 0; 0; 0; 13; -100; -1; 11; 0; 0;
   0; 0; 3; -12; 9; -100; -2; 7; 0; 0; 0; 0; 3; 13; -8; 9; 1; 3; -100; -3; 5; 0; 0; 0; 0; 1; 9;
   -5; 9; 3; 0; 0; 11; -100; -4; 5; 0; 0; 0; 0; 0; 0; 1; 1; 1; 0; 0; 0; 0; 11; -100; -5; 9; 1;
   0; 0; 0; 0; 0; 0; 0; 0; 0; 3; 13; -100; -7; 11; 7; 3; 1; 0; 1; 3; 7; 11; -100; -100; -100;
   -100; -100; -100; -100; -100; -100; -101].

Definition lt3 : list Z :=
  [-100; -100; -100; -100; -18; 11; 3; 0; -100; -16; 13; 3; 0; 0; 0; -100; -14; 9; 3; 0; 0; 0;
   0; 0; -100; -13; 3; 0; 0; 0; 0; 0; 0; 0; -100; -13; 0; 0; 0; 0; 0; 0; 0; 0; -100; -13; 9; 1;
   0; 0; 0; 0; 0; 0; -100; -15; 13; 5; 0; 0; 0; 0; -100; -17; 1; 0; 0; 0; -100; -17; 3; 0; 0; 0;
   -100; -17; 1; 0; 0; 0; -100; -17; 0; 0; 0; 0; -100; -16; 13; 0; 0; 0; 0; -100; -16; 13; 0; 0;
   0; 0; -100; -6; 11; 5; 3; 1; 0; 0; 1; 5; 9; 13; 13; 0; 0; 0; 0; -100; -4; 13; 3; 0; 0; 0; 0;
   0; 0; 0; 0; 0; 0; 3; 0; 0; 0; 0; -100; -3; 13; 1; 0; 0; 0; 0; 5; 11; -1; 13; 11; 3; 0; 0; 0;
   0; 0; 0; -100; -2; 13; 1; 0; 0; 0; 0; 7; -6; 11; 0; 0; 0; 0; 0; -100; -2; 3; 0; 0; 0; 0; 9;
   -8; 11; 0; 0; 0; 0; -100; -1; 9; 0; 0; 0; 0; 7; -9; 11; 0; 0; 0; 0; -100; -1; 1; 0; 0; 0; 0;
   13; -9; 11; 0; 0; 0; 0; -100; 11; 0; 0; 0; 0; 3; -10; 11; 0; 0; 0; 0; -100; 5; 0; 0; 0; 0;
   13; -10; 11; 0; 0; 0; 0; -100; 3; 0; 0; 0; 3; -11; 11; 0; 0; 0; 0; -100; 0; 0; 0; 0; 7; -11;
   11; 0; 0; 0; 0; -100; 0; 0; 0; 0; 11; -11; 11; 0; 0; 0; 0; -100; 0; 0; 0; 0; 11; -11; 11; 0;
   0; 0; 0; -100; 0; 0; 0; 0; 11; -11; 11; 0; 0; 0; 0; -100; 1; 0; 0; 0; 9; -11; 11; 0; 0; 0; 0;
   -100; 3; 0; 0; 0; 7; -11; 11; 0; 0; 0; 0; -100; 7; 0; 0; 0; 3; -11; 11; 0; 0; 0; 0; -100; 13;
   0; 0; 0; 0; 13; -10; 13; 0; 0; 0; 0; -100; -1; 3; 0; 0; 0; 5; -11; 0; 0; 0; 0; -100; -1; 13;
   0; 0; 0; 0; 11; -10; 0; 0; 0; 0; -100; -2; 7; 0; 0; 0; 1; 13; -8; 13; 0; 0; 0; 0; 13; -100;
   -3; 5; 0; 0; 0; 1; 11; -7; 5; 0; 0; 0; 0; 9; -100; -4; 5; 0; 0; 0; 0; 3; 9; 13; -1; 13; 11;
   1; 0; 0; 0; 0; 0; 0; 0; 5; -100; -5; 9; 1; 0; 0; 0; 0; 0; 0; 0; 0; 3; 0; 0; 0; 0; 0; 0; 0; 1;
   13; -100; -7; 9; 3; 1; 0; 0; 3; 7; 13; -1; 11; 1; 0; 1; 5; 7; 11; -100; -18; 13; -100; -100;
   -100; -100; -100; -100; -100; -100; -101].

Definition lt5 : list Z :=
  [-100; -100; -100; -100; -9; 13; 9; 3; 1; 0; 1; 5; 13; -100; -8; 7; 0; 0; 0; 0; 0; 0; 0; 3;
   -100; -7; 3; 0; 0; 0; 0; 0; 0; 0; 0; 1; -100; -6; 5; 0; 0; 0; 0; 0; 0; 0; 0; 0; 3; -100; -5;
   13; 0; 0; 3; 13; 9; 1; 0; 0; 0; 0; 11; -100; -5; 9; 0; 0; 13; -2; 13; 5; 0; 1; 9; -100; -5;
   5; 0; 0; -100; -5; 1; 0; 1; -100; -5; 1; 0; 0; -100; -5; 0; 0; 0; -100; -5; 0; 0; 0; 13;
   -100; -5; 0; 0; 0; 9; -100; -5; 0; 0; 0; 7; -100; -5; 0; 0; 0; 5; -100; -3; 13; 7; 0; 0; 0;
   0; 9; -1; 13; 11; 13; -100; 3; 0; 0; 0; 0; 0; 0; 0; 0; 0; 0; 0; 0; 0; 9; -100; 3; 0; 0; 0; 0;
   0; 0; 0; 0; 0; 0; 0; 0; 0; 9; -100; -1; 11; 13; -1; 7; 0; 0; 0; 0; 5; -1; 13; 11; 13; -100;
   -5; 0; 0; 0; 0; 11; -100; -5; 0; 0; 0; 0; 11; -100; -5; 0; 0; 0; 0; 11; -100; -5; 0; 0; 0; 0;
   11; -100; -5; 0; 0; 0; 0; 11; -100; -5; 0; 0; 0; 0; 11; -100; -5; 0; 0; 0; 0; 11; -100; -5;
   0; 0; 0; 0; 11; -100; -5; 0; 0; 0; 0; 11; -100; -5; 0; 0; 0; 0; 11; -100; -5; 0; 0; 0; 0; 11;
   -100; -5; 0; 0; 0; 0; 11; -100; -5; 0; 0; 0; 0; 11; -100; -5; 0; 0; 0; 0; 11; -100; -5; 0; 0;
   0; 0; 11; -100; -5; 0; 0; 0; 0; 7; -100; -3; 13; 5; 0; 0; 0; 0; 0; 7; 13; -100; -1; 5; 0; 0;
   0; 0; 0; 0; 0; 0; 0; 0; 0; 1; 11; -100; -1; 7; 1; 0; 0; 0; 0; 0; 0; 0; 0; 1; 3; 7; 13; -100;
   -100; -100; -100; -100; -100; -100; -100; -100; -100; -101].

Definition lt7 : list Z :=
  [-100; -100; -100; -100; -4; 13; 7; 1; 9; -100; -2; 13; 7; 0; 0; 0; 3; -100; -1; 7; 0; 0; 0;
   0; 0; 5; -100; 1; 0; 0; 0; 0; 0; 0; 7; -100; 3; 0; 0; 0; 0; 0; 0; 7; -100; 13; 7; 0; 0; 0; 0;
   0; 9; -100; -2; 5; 0; 0; 0; 0; 9; -100; -2; 11; 0; 0; 0; 0; 9; -100; -3; 0; 0; 0; 0; 9; -100;
   -3; 0; 0; 0; 0; 11; -100; -3; 0; 0; 0; 0; 11; -100; -3; 0; 0; 0; 0; 11; -100; -3; 0; 0; 0; 0;
   11; -100; -3; 0; 0; 0; 0; 11; -100; -3; 0; 0; 0; 0; 11; -5; 11; 5; 1; 0; 1; 7; -100; -3; 0;
   0; 0; 0; 11; -3; 13; 3; 0; 0; 0; 0; 0; 0; 3; -100; -3; 0; 0; 0; 0; 11; -2; 7; 0; 0; 0; 0; 0;
   0; 0; 0; 0; 9; -100; -3; 0; 0; 0; 0; 11; 11; 3; 0; 5; 11; -1; 13; 9; 1; 0; 0; 0; 3; -100; -3;
   0; 0; 0; 0; 3; 0; 1; 11; -6; 1; 0; 0; 0; 13; -100; -3; 0; 0; 0; 0; 0; 5; -8; 11; 0; 0; 0; 11;
   -100; -3; 0; 0; 0; 0; 11; -10; 0; 0; 0; 7; -100; -3; 0; 0; 0; 0; 13; -10; 0; 0; 0; 7; -100;
   -3; 0; 0; 0; 0; 11; -10; 0; 0; 0; 7; -100; -3; 0; 0; 0; 0; 11; -10; 0; 0; 0; 7; -100; -3; 0;
   0; 0; 0; 13; -10; 0; 0; 0; 9; -100; -3; 0; 0; 0; 0; 13; -10; 0; 0; 0; 9; -100; -3; 0; 0; 0;
   0; -11; 0; 0; 0; 11; -100; -3; 0; 0; 0; 1; -11; 0; 0; 0; 13; -100; -3; 0; 0; 0; 1; -11; 0; 0;
   0; 13; -100; -3; 0; 0; 0; 3; -11; 0; 0; 0; -100; -3; 0; 0; 0; 3; -11; 0; 0; 0; -100; -3; 0;
   0; 0; 3; -11; 0; 0; 0; -100; -3; 0; 0; 0; 3; -10; 13; 0; 0; 0; 13; -100; -3; 0; 0; 0; 1; -10;
   13; 0; 0; 0; 11; -100; -2; 9; 0; 0; 0; 0; -10; 11; 0; 0; 0; 5; -100; -1; 7; 0; 0; 0; 0; 0; 5;
   13; -7; 13; 3; 0; 0; 0; 0; 7; -100; 5; 0; 0; 0; 0; 0; 0; 0; 0; 3; -5; 1; 0; 0; 0; 0; 0; 0; 1;
   3; 11; -100; -100; -100; -100; -100; -100; -100; -100; -100; -100; -101].

Definition lt8 : list Z :=
  [-100; -100; -100; -100; -3; 5; 1; 0; 3; 11; -100; -2; 7; 0; 0; 0; 0; 0; 11; -100; -2; 1; 0;
   0; 0; 0; 0; 5; -100; -2; 0; 0; 0; 0; 0; 0; 5; -100; -2; 5; 0; 0; 0; 0; 0; 11; -100; -3; 7; 0;
   0; 3; 9; -100; -4; 13; -100; -100; -100; -100; -100; -100; -100; -4; 11; 3; 0; 9; -100; -2;
   9; 3; 0; 0; 0; 9; -100; 11; 1; 0; 0; 0; 0; 0; 7; -100; 1; 0; 0; 0; 0; 0; 0; 7; -100; 1; 0; 0;
   0; 0; 0; 0; 9; -100; -1; 11; 0; 0; 0; 0; 0; 9; -100; -2; 7; 0; 0; 0; 0; 11; -100; -3; 0; 0;
   0; 0; 13; -100; -3; 1; 0; 0; 0; -100; -3; 1; 0; 0; 0; 13; -100; -3; 1; 0; 0; 0; 13; -100; -3;
   0; 0; 0; 0; 11; -100; -3; 0; 0; 0; 0; 11; -100; -3; 0; 0; 0; 0; 11; -100; -3; 0; 0; 0; 0; 11;
   -100; -3; 0; 0; 0; 0; 11; -100; -3; 0; 0; 0; 0; 11; -100; -3; 0; 0; 0; 0; 11; -100; -3; 0; 0;
   0; 0; 11; -100; -2; 13; 0; 0; 0; 0; 7; -100; -2; 13; 0; 0; 0; 0; 1; -100; -2; 7; 0; 0; 0; 0;
   0; 9; -100; 7; 0; 0; 0; 0; 0; 0; 0; 0; 3; -100; 9; 5; 1; 1; 0; 0; 1; 1; 3; 5; -100; -100;
   -100; -100; -100; -100; -100; -100; -100; -100; -101].

Definition lt9 : list Z :=
  [-100; -100; -100; -100; -6; 5; 0; 1; 5; 13; -100; -5; 5; 0; 0; 0; 0; 1; -100; -5; 1; 0; 0; 0;
   0; 0; 13; -100; -5; 0; 0; 0; 0; 0; 0; -100; -5; 5; 0; 0; 0; 0; 3; -100; -6; 7; 1; 0; 5; 13;
   -100; -100; -100; -100; -100; -100; -100; -100; -6; 13; 7; 3; 0; 13; -100; -5; 7; 0; 0; 0; 0;
   11; -100; -3; 7; 1; 0; 0; 0; 0; 0; 11; -100; -2; 13; 0; 0; 0; 0; 0; 0; 0; 11; -100; -3; 11;
   3; 0; 0; 0; 0; 0; 11; -100; -5; 9; 0; 0; 0; 0; 11; -100; -6; 1; 0; 0; 0; 11; -100; -6; 3; 0;
   0; 0; 11; -100; -6; 5; 0; 0; 0; 11; -100; -6; 5; 0; 0; 0; 11; -100; -6; 5; 0; 0; 0; 11; -100;
   -6; 5; 0; 0; 0; 11; -100; -6; 3; 0; 0; 0; 11; -100; -6; 3; 0; 0; 0; 11; -100; -6; 1; 0; 0; 0;
   11; -100; -6; 1; 0; 0; 0; 13; -100; -6; 1; 0; 0; 0; 13; -100; -6; 1; 0; 0; 0; 13; -100; -6;
   1; 0; 0; 0; 13; -100; -6; 1; 0; 0; 0; 13; -100; -6; 1; 0; 0; 0; -100; -6; 1; 0; 0; 0; -100;
   -6; 1; 0; 0; 1; -100; -6; 1; 0; 0; 3; -100; -6; 0; 0; 0; 5; -100; -6; 0; 0; 0; 7; -100; -6;
   0; 0; 0; 11; -100; 11; 0; 0; 0; 5; 5; 0; 0; 5; -100; 3; 0; 0; 0; 0; 0; 0; 3; -100; 0; 0; 0;
   0; 0; 0; 0; 13; -100; 1; 0; 0; 0; 0; 0; 11; -100; 13; 3; 0; 0; 3; 11; -100; -100; -101].

Definition lt10 : list Z :=
  [-100; -100; -100; -100; -6; 9; 1; 13; -100; -3; 13; 5; 0; 0; 0; 11; -100; -1; 13; 5; 0; 0; 0;
   0; 0; 11; -100; 13; 1; 0; 0; 0; 0; 0; 0; 11; -100; 3; 0; 0; 0; 0; 0; 0; 0; 11; -100; 11; 3;
   0; 0; 0; 0; 0; 0; 11; -100; -2; 13; 0; 0; 0; 0; 0; 11; -100; -3; 9; 0; 0; 0; 0; 11; -100; -4;
   0; 0; 0; 0; 11; -100; -4; 0; 0; 0; 0; 11; -100; -4; 0; 0; 0; 0; 11; -100; -4; 0; 0; 0; 0; 11;
   -100; -4; 0; 0; 0; 0; 11; -100; -4; 0; 0; 0; 0; 11; -100; -4; 0; 0; 0; 0; 11; -100; -4; 0; 0;
   0; 0; 11; -7; 3; 0; 0; 0; 0; 0; 0; 0; 0; 0; 3; -100; -4; 0; 0; 0; 0; 11; -7; 5; 0; 0; 0; 0;
   0; 0; 0; 1; 7; 13; -100; -4; 0; 0; 0; 0; 11; -8; 9; 0; 0; 0; 1; 9; -100; -4; 0; 0; 0; 0; 11;
   -7; 13; 1; 0; 0; 7; -100; -4; 0; 0; 0; 0; 11; -7; 5; 0; 3; 13; -100; -4; 0; 0; 0; 0; 11; -6;
   5; 0; 5; -100; -4; 0; 0; 0; 0; 11; -5; 5; 1; 11; -100; -4; 0; 0; 0; 0; 11; -3; 11; 3; 1;
   -100; -4; 0; 0; 0; 0; 11; -1; 11; 3; 0; 0; 1; -100; -4; 0; 0; 0; 0; 11; 9; 0; 0; 0; 0; 0; 11;
   -100; -4; 0; 0; 0; 0; 0; 0; 1; 0; 0; 0; 0; 3; -100; -4; 0; 0; 0; 0; 0; 9; -1; 11; 1; 0; 0; 0;
   9; -100; -4; 0; 0; 0; 0; 5; -4; 3; 0; 0; 0; 11; -100; -4; 0; 0; 0; 0; 11; -4; 13; 1; 0; 0; 0;
   13; -100; -4; 0; 0; 0; 0; 11; -5; 11; 0; 0; 0; 1; 13; -100; -4; 0; 0; 0; 0; 11; -6; 3; 0; 0;
   0; 3; -100; -4; 0; 0; 0; 0; 11; -6; 11; 0; 0; 0; 0; 7; -100; -4; 0; 0; 0; 0; 11; -7; 3; 0; 0;
   0; 0; 7; -100; -3; 13; 0; 0; 0; 0; 11; -7; 13; 0; 0; 0; 0; 0; 7; -100; -2; 13; 3; 0; 0; 0; 0;
   7; -7; 9; 0; 0; 0; 0; 0; 0; 3; 11; -100; -1; 1; 0; 0; 0; 0; 0; 0; 0; 0; 1; 3; -4; 0; 0; 0; 0;
   0; 0; 0; 0; 0; 0; 3; -100; -1; 7; 1; 0; 0; 0; 0; 0; 0; 0; 0; 7; -4; 3; 0; 0; 0; 0; 0; 0; 1;
   1; 5; 9; -100; -100; -100; -100; -100; -100; -100; -100; -100; -100; -101].

Definition lt11 : list Z :=
  [-100; -100; -100; -6; 11; 7; 11; -100; -4; 11; 3; 0; 0; 5; -100; -3; 5; 0; 0; 0; 0; 5; -100;
   -1; 11; 1; 0; 0; 0; 0; 0; 7; -100; 7; 0; 0; 0; 0; 0; 0; 0; 7; -100; 0; 0; 0; 0; 0; 0; 0; 0;
   9; -100; 7; 0; 0; 0; 0; 0; 0; 0; 9; -100; -2; 9; 1; 0; 0; 0; 0; 9; -100; -3; 11; 0; 0; 0; 0;
   11; -100; -4; 0; 0; 0; 0; 11; -100; -4; 0; 0; 0; 0; 11; -100; -4; 0; 0; 0; 0; 11; -100; -4;
   0; 0; 0; 0; 11; -100; -4; 0; 0; 0; 0; 11; -100; -4; 0; 0; 0; 0; 11; -100; -4; 0; 0; 0; 0; 11;
   -100; -4; 0; 0; 0; 0; 11; -100; -4; 0; 0; 0; 0; 11; -100; -4; 0; 0; 0; 0; 11; -100; -4; 0; 0;
   0; 0; 11; -100; -4; 0; 0; 0; 0; 11; -100; -4; 0; 0; 0; 0; 11; -100; -4; 0; 0; 0; 0; 11; -100;
   -4; 0; 0; 0; 0; 11; -100; -4; 0; 0; 0; 0; 11; -100; -4; 0; 0; 0; 0; 11; -100; -4; 0; 0; 0; 0;
   11; -100; -4; 0; 0; 0; 0; 11; -100; -4; 0; 0; 0; 0; 11; -100; -4; 0; 0; 0; 0; 11; -100; -4;
   0; 0; 0; 0; 11; -100; -4; 0; 0; 0; 0; 11; -100; -4; 0; 0; 0; 0; 11; -100; -4; 0; 0; 0; 0; 11;
   -100; -4; 0; 0; 0; 0; 7; -100; -3; 5; 0; 0; 0; 0; 0; 13; -100; -1; 9; 1; 0; 0; 0; 0; 0; 0; 0;
   1; 9; -100; -1; 5; 1; 0; 0; 0; 0; 0; 0; 0; 1; 11; -100; -100; -100; -100; -100; -100; -100;
   -100; -100; -100; -101].

Definition lt12 : list Z :=
  [-100; -100; -100; -100; -100; -100; -100; -100; -100; -100; -100; -100; -100; -100; -100;
   -100; -100; -5; 11; 5; 0; -21; 7; 1; 0; 3; 9; -100; -4; 7; 0; 0; 0; 13; -4; 11; 5; 1; 1; 0;
   1; 7; -7; 11; 3; 0; 0; 0; 0; 0; 5; -100; -2; 11; 1; 0; 0; 0; 0; 11; -2; 9; 1; 0; 0; 0; 0; 0;
   0; 0; 9; -4; 13; 5; 0; 0; 0; 0; 0; 0; 0; 0; 7; -100; 13; 3; 0; 0; 0; 0; 0; 0; 7; 13; 3; 0; 0;
   0; 1; 0; 0; 0; 0; 0; 0; 7; -1; 13; 7; 0; 0; 0; 0; 0; 0; 0; 0; 0; 0; 0; 11; -100; 3; 0; 0; 0;
   0; 0; 0; 0; 1; 0; 0; 5; 11; -3; 11; 0; 0; 0; 0; 0; 0; 0; 3; 9; 13; 13; -3; 7; 0; 0; 0; 0; 5;
   -100; 13; 3; 0; 0; 0; 0; 0; 0; 0; 7; 13; -6; 3; 0; 0; 0; 0; 0; 9; -8; 5; 0; 0; 0; 1; -100;
   -2; 11; 0; 0; 0; 0; 0; 3; -8; 9; 0; 0; 0; 0; 7; -9; 11; 0; 0; 0; 0; -100; -3; 3; 0; 0; 0; 0;
   7; -8; 13; 0; 0; 0; 0; -10; 11; 0; 0; 0; 0; -100; -3; 7; 0; 0; 0; 0; 11; -9; 0; 0; 0; 0; -10;
   11; 0; 0; 0; 1; -100; -3; 11; 0; 0; 0; 0; 11; -9; 0; 0; 0; 0; -10; 11; 0; 0; 0; 3; -100; -3;
   13; 0; 0; 0; 0; 11; -8; 13; 0; 0; 0; 0; -10; 11; 0; 0; 0; 5; -100; -3; 13; 0; 0; 0; 0; 11;
   -8; 11; 0; 0; 0; 0; -10; 11; 0; 0; 0; 5; -100; -4; 0; 0; 0; 0; 13; -8; 9; 0; 0; 0; 0; -10;
   11; 0; 0; 0; 5; -100; -4; 0; 0; 0; 0; 13; -8; 11; 0; 0; 0; 0; -10; 11; 0; 0; 0; 3; -100; -4;
   0; 0; 0; 0; 13; -8; 11; 0; 0; 0; 0; -10; 11; 0; 0; 0; 0; -100; -3; 13; 0; 0; 0; 1; -9; 13; 0;
   0; 0; 0; -10; 11; 0; 0; 0; 0; -100; -3; 11; 0; 0; 0; 13; -10; 0; 0; 0; 0; -10; 11; 0; 0; 0;
   0; -100; -4; 0; 0; 0; 11; -10; 0; 0; 0; 0; -10; 11; 0; 0; 0; 0; -100; -3; 13; 0; 0; 0; 3; -9;
   13; 0; 0; 0; 0; 13; -9; 9; 0; 0; 0; 0; -100; -3; 7; 0; 0; 0; 0; 13; -8; 11; 0; 0; 0; 0; 11;
   -9; 7; 0; 0; 0; 0; 13; -100; -3; 3; 0; 0; 0; 0; 9; -8; 5; 0; 0; 0; 0; 5; -9; 5; 0; 0; 0; 0;
   7; -100; -1; 13; 3; 0; 0; 0; 0; 0; 1; 11; -6; 9; 0; 0; 0; 0; 0; 0; 3; -7; 11; 1; 0; 0; 0; 0;
   1; 13; -100; 11; 0; 0; 0; 0; 0; 0; 0; 0; 0; 3; -4; 3; 0; 0; 0; 0; 0; 0; 0; 0; 5; -5; 1; 0; 0;
   0; 0; 0; 0; 0; 0; 9; -100; 13; 1; 0; 0; 0; 0; 0; 0; 0; 1; 9; -4; 1; 0; 0; 0; 0; 0; 0; 0; 1;
   5; -5; 1; 0; 0; 0; 0; 0; 0; 0; 0; 7; -100; -100; -100; -100; -100; -100; -100; -100; -100;
   -100; -101].

Definition lt13 : list Z :=
  [-100; -100; -100; -100; -100; -100; -100; -100; -100; -100; -100; -100; -100; -100; -100;
   -100; -100; -3; 13; 7; 3; 0; 13; -5; 13; 7; 1; 0; 0; 3; 7; -100; -2; 5; 0; 0; 0; 0; -4; 13;
   3; 0; 0; 0; 0; 0; 0; 0; 7; -100; 7; 1; 0; 0; 0; 0; 0; -3; 7; 0; 0; 0; 0; 0; 0; 0; 0; 0; 0;
   13; -100; 1; 0; 0; 0; 0; 0; 0; 13; 9; 1; 0; 5; 11; 13; -1; 11; 3; 0; 0; 0; 0; 9; -100; 13; 3;
   0; 0; 0; 0; 0; 1; 1; 7; -7; 3; 0; 0; 0; 3; -100; -2; 1; 0; 0; 0; 0; 7; -9; 13; 0; 0; 0; 1;
   -100; -2; 7; 0; 0; 0; 0; -11; 1; 0; 0; 0; -100; -2; 9; 0; 0; 0; 0; -11; 1; 0; 0; 0; 13; -100;
   -2; 11; 0; 0; 0; 0; -11; 3; 0; 0; 0; 13; -100; -2; 11; 0; 0; 0; 0; -11; 5; 0; 0; 0; 11; -100;
   -2; 11; 0; 0; 0; 0; -11; 3; 0; 0; 0; 11; -100; -2; 11; 0; 0; 0; 0; -11; 1; 0; 0; 0; 11; -100;
   -2; 11; 0; 0; 0; 0; -11; 0; 0; 0; 0; 11; -100; -2; 11; 0; 0; 0; 0; -11; 0; 0; 0; 0; 11; -100;
   -2; 11; 0; 0; 0; 0; -11; 1; 0; 0; 0; 11; -100; -2; 11; 0; 0; 0; 0; -11; 3; 0; 0; 0; 11; -100;
   -2; 11; 0; 0; 0; 0; -11; 3; 0; 0; 0; 11; -100; -2; 11; 0; 0; 0; 0; 13; -10; 5; 0; 0; 0; 11;
   -100; -2; 11; 0; 0; 0; 0; 13; -10; 5; 0; 0; 0; 11; -100; -2; 11; 0; 0; 0; 0; 9; -10; 5; 0; 0;
   0; 9; -100; -2; 7; 0; 0; 0; 0; 5; -10; 3; 0; 0; 0; 7; -100; -1; 13; 1; 0; 0; 0; 0; 1; 11; -7;
   11; 5; 0; 0; 0; 0; 0; 3; 9; -100; -1; 1; 0; 0; 0; 0; 0; 0; 0; 0; 3; -4; 3; 0; 0; 0; 0; 0; 0;
   0; 0; 0; 3; -100; -1; 0; 0; 0; 0; 0; 0; 0; 0; 0; 3; -4; 5; 1; 0; 0; 0; 0; 0; 0; 0; 0; 1;
   -100; -100; -100; -100; -100; -100; -100; -100; -100; -100; -101].

Definition lt14 : list Z :=
  [-100; -100; -100; -100; -100; -100; -100; -100; -100; -100; -100; -100; -100; -100; -100;
   -100; -100; -7; 13; 7; 3; 1; 0; 0; 1; 5; 9; -100; -6; 7; 0; 0; 0; 0; 0; 0; 0; 0; 0; 1; 7;
   -100; -4; 11; 1; 0; 0; 1; 9; 13; -1; 13; 11; 5; 0; 0; 0; 3; 13; -100; -3; 11; 0; 0; 0; 3; 13;
   -6; 13; 1; 0; 0; 0; 13; -100; -2; 11; 0; 0; 0; 1; 13; -8; 13; 0; 0; 0; 5; -100; -2; 0; 0; 0;
   0; 9; -10; 5; 0; 0; 0; 11; -100; -1; 7; 0; 0; 0; 1; -11; 13; 0; 0; 0; 1; -100; -1; 1; 0; 0;
   0; 5; -12; 1; 0; 0; 0; 9; -100; 11; 0; 0; 0; 0; 11; -12; 5; 0; 0; 0; 3; -100; 7; 0; 0; 0; 0;
   13; -12; 9; 0; 0; 0; 0; -100; 3; 0; 0; 0; 0; 13; -12; 11; 0; 0; 0; 0; -100; 1; 0; 0; 0; 0;
   -13; 11; 0; 0; 0; 1; -100; 0; 0; 0; 0; 0; -13; 11; 0; 0; 0; 1; -100; 0; 0; 0; 0; 0; 13; -12;
   11; 0; 0; 0; 0; -100; 1; 0; 0; 0; 0; 13; -12; 9; 0; 0; 0; 1; -100; 5; 0; 0; 0; 0; 11; -12; 5;
   0; 0; 0; 3; -100; 9; 0; 0; 0; 0; 9; -12; 3; 0; 0; 0; 7; -100; -1; 1; 0; 0; 0; 5; -12; 0; 0;
   0; 0; 11; -100; -1; 9; 0; 0; 0; 3; -11; 13; 0; 0; 0; 3; -100; -2; 3; 0; 0; 0; 13; -10; 7; 0;
   0; 0; 11; -100; -2; 13; 1; 0; 0; 3; -9; 13; 0; 0; 0; 7; -100; -3; 13; 1; 0; 0; 3; 13; -6; 13;
   1; 0; 0; 5; -100; -4; 13; 1; 0; 0; 1; 7; 13; -3; 9; 0; 0; 0; 7; -100; -6; 7; 0; 0; 0; 0; 0;
   0; 0; 0; 0; 3; 11; -100; -7; 13; 7; 3; 0; 0; 0; 0; 3; 11; -100; -100; -100; -100; -100; -100;
   -100; -100; -100; -101].

Definition lt15 : list Z :=
  [-100; -100; -100; -100; -100; -100; -100; -100; -100; -100; -100; -100; -100; -100; -100;
   -100; -6; 11; 7; -100; -4; 11; 3; 0; 0; 7; 11; 5; 3; 0; 0; 0; 1; 5; 9; -100; -2; 11; 3; 0; 0;
   0; 0; 0; 0; 0; 0; 0; 0; 0; 0; 0; 0; 5; -100; 13; 5; 0; 0; 0; 0; 0; 0; 0; 1; 7; 11; 13; -1;
   13; 3; 0; 0; 0; 5; -100; 1; 0; 0; 0; 0; 0; 0; 0; 3; -7; 7; 0; 0; 0; 7; -100; 1; 0; 0; 0; 0;
   0; 0; 0; 11; -8; 7; 0; 0; 0; 13; -100; -1; 11; 5; 0; 0; 0; 0; 0; 11; -9; 1; 0; 0; 3; -100;
   -3; 7; 0; 0; 0; 0; 11; -9; 5; 0; 0; 0; 11; -100; -3; 9; 0; 0; 0; 0; 11; -9; 9; 0; 0; 0; 5;
   -100; -3; 11; 0; 0; 0; 0; 11; -9; 11; 0; 0; 0; 0; 13; -100; -3; 11; 0; 0; 0; 0; 11; -9; 13;
   0; 0; 0; 0; 11; -100; -3; 13; 0; 0; 0; 0; 11; -10; 0; 0; 0; 0; 11; -100; -3; 13; 0; 0; 0; 0;
   11; -10; 0; 0; 0; 0; 11; -100; -3; 13; 0; 0; 0; 0; 11; -10; 0; 0; 0; 0; 11; -100; -4; 0; 0;
   0; 0; 11; -10; 0; 0; 0; 0; 13; -100; -4; 0; 0; 0; 0; 11; -10; 0; 0; 0; 0; 13; -100; -4; 0; 0;
   0; 0; 13; -10; 0; 0; 0; 0; -100; -4; 0; 0; 0; 9; -11; 0; 0; 0; 3; -100; -4; 0; 0; 0; 3; -11;
   0; 0; 0; 9; -100; -4; 0; 0; 0; 0; 13; -10; 0; 0; 0; 13; -100; -4; 0; 0; 0; 0; 11; -9; 5; 0;
   0; 0; -100; -4; 0; 0; 0; 0; 11; -8; 7; 0; 0; 0; 7; -100; -4; 0; 0; 0; 0; 5; -7; 9; 0; 0; 0;
   3; -100; -4; 0; 0; 0; 0; 0; 3; 11; 13; -3; 9; 0; 0; 0; 1; -100; -4; 0; 0; 0; 0; 5; 7; 0; 0;
   0; 1; 1; 0; 0; 0; 1; 13; -100; -4; 0; 0; 0; 0; 11; -2; 9; 5; 1; 0; 0; 3; 7; -100; -4; 0; 0;
   0; 0; 11; -100; -4; 0; 0; 0; 0; 11; -100; -4; 0; 0; 0; 0; 11; -100; -4; 0; 0; 0; 0; 7; -100;
   -4; 0; 0; 0; 0; 3; -100; -3; 7; 0; 0; 0; 0; 0; 9; -100; -1; 5; 0; 0; 0; 0; 0; 0; 0; 0; 0; 0;
   5; -100; -1; 3; 1; 0; 0; 0; 0; 0; 0; 0; 0; 0; 5; -100; -101].

Definition lt16 : list Z :=
  [-100; -100; -100; -100; -100; -100; -100; -100; -100; -100; -100; -100; -100; -100; -100;
   -100; -19; 7; 11; -100; -6; 11; 5; 1; 0; 0; 1; 5; 11; -4; 5; 0; 3; -100; -4; 13; 3; 0; 0; 0;
   0; 0; 0; 0; 0; 1; 11; 13; 5; 0; 0; 1; -100; -3; 13; 1; 0; 0; 1; 5; 11; -3; 11; 3; 0; 0; 0; 0;
   0; 3; -100; -2; 13; 1; 0; 0; 3; -8; 3; 0; 0; 0; 0; 5; -100; -1; 13; 1; 0; 0; 0; 13; -8; 7; 0;
   0; 0; 0; 5; -100; -1; 3; 0; 0; 0; 5; -9; 11; 0; 0; 0; 0; 7; -100; 9; 0; 0; 0; 0; 11; -9; 13;
   0; 0; 0; 0; 9; -100; 3; 0; 0; 0; 0; -10; 13; 0; 0; 0; 0; 9; -100; 1; 0; 0; 0; 1; -11; 0; 0;
   0; 0; 9; -100; 0; 0; 0; 0; 3; -11; 0; 0; 0; 0; 11; -100; 0; 0; 0; 0; 5; -11; 0; 0; 0; 0; 11;
   -100; 0; 0; 0; 0; 9; -11; 0; 0; 0; 0; 11; -100; 0; 0; 0; 0; 11; -11; 0; 0; 0; 0; 11; -100; 0;
   0; 0; 0; 11; -11; 0; 0; 0; 0; 11; -100; 1; 0; 0; 0; 11; -11; 0; 0; 0; 0; 11; -100; 3; 0; 0;
   0; 9; -11; 0; 0; 0; 0; 11; -100; 7; 0; 0; 0; 5; -11; 0; 0; 0; 0; 11; -100; 11; 0; 0; 0; 0;
   -11; 0; 0; 0; 0; 11; -100; -1; 1; 0; 0; 0; 7; -9; 11; 0; 0; 0; 0; 11; -100; -1; 9; 0; 0; 0;
   0; 13; -8; 9; 0; 0; 0; 0; 11; -100; -2; 3; 0; 0; 0; 1; 13; -7; 5; 0; 0; 0; 0; 11; -100; -2;
   13; 3; 0; 0; 0; 1; 9; 13; -3; 13; 7; 0; 0; 0; 0; 0; 11; -100; -4; 9; 1; 0; 0; 0; 0; 0; 1; 0;
   0; 0; 0; 0; 0; 0; 0; 11; -100; -6; 11; 7; 3; 1; 0; 0; 5; 9; -1; 13; 0; 0; 0; 0; 11; -100;
   -16; 0; 0; 0; 0; 13; -100; -16; 0; 0; 0; 0; 13; -100; -16; 0; 0; 0; 0; 13; -100; -16; 0; 0;
   0; 0; 13; -100; -15; 13; 0; 0; 0; 0; 13; -100; -15; 9; 0; 0; 0; 0; 11; -100; -15; 1; 0; 0; 0;
   0; 5; -100; -12; 7; 5; 1; 0; 0; 0; 0; 0; 0; 1; 3; 9; -100; -11; 13; 1; 0; 0; 0; 0; 0; 0; 0;
   0; 0; 0; 7; -100; -101].

Definition lt17 : list Z :=
  [-100; -100; -100; -100; -100; -100; -100; -100; -100; -100; -100; -100; -100; -100; -100;
   -100; -100; -3; 13; 5; 0; 3; -5; 9; 3; 1; 0; 0; 3; -100; -1; 11; 3; 0; 0; 0; 0; -3; 7; 0; 0;
   0; 0; 0; 0; 0; 5; -100; 9; 0; 0; 0; 0; 0; 0; -2; 3; 0; 0; 0; 0; 0; 0; 0; 0; 1; -100; 0; 0; 0;
   0; 0; 0; 0; 11; 3; 0; 0; 0; 0; 0; 0; 0; 0; 0; 1; -100; 3; 0; 0; 0; 0; 0; 0; 0; 0; 0; 0; 0; 0;
   0; 0; 0; 0; 0; 9; -100; -1; 7; 0; 0; 0; 0; 0; 0; 7; 13; -2; 11; 7; 3; 1; 3; 11; -100; -2; 3;
   0; 0; 0; 0; 3; -100; -2; 7; 0; 0; 0; 0; 9; -100; -2; 11; 0; 0; 0; 0; 13; -100; -2; 13; 0; 0;
   0; 0; -100; -3; 0; 0; 0; 0; -100; -3; 0; 0; 0; 0; 13; -100; -3; 0; 0; 0; 0; 13; -100; -3; 0;
   0; 0; 0; 13; -100; -3; 0; 0; 0; 0; 11; -100; -3; 0; 0; 0; 0; 11; -100; -3; 0; 0; 0; 0; 11;
   -100; -3; 0; 0; 0; 0; 11; -100; -3; 0; 0; 0; 0; 11; -100; -3; 0; 0; 0; 0; 11; -100; -3; 0; 0;
   0; 0; 9; -100; -1; 13; 3; 0; 0; 0; 0; 1; 13; -100; 3; 0; 0; 0; 0; 0; 0; 0; 0; 0; 0; 13; -100;
   5; 1; 0; 0; 0; 0; 0; 0; 0; 0; 3; 13; -100; -100; -100; -100; -100; -100; -100; -100; -100;
   -100; -101].

Definition lt18 : list Z :=
  [-100; -100; -100; -100; -100; -100; -100; -100; -100; -100; -100; -100; -100; -100; -100;
   -100; -100; -3; 13; 7; 1; 0; 1; 3; 9; 11; 9; 9; 13; -100; -2; 13; 1; 0; 0; 0; 0; 0; 0; 0; 0;
   0; 5; -100; -2; 1; 0; 5; 13; -1; 13; 11; 3; 0; 0; 0; 1; -100; -1; 9; 0; 1; -6; 9; 0; 0; 0;
   13; -100; -1; 3; 0; 9; -7; 11; 1; 0; 9; -100; -1; 0; 0; -9; 13; 1; 5; -100; -1; 0; 0; 11; -9;
   13; 11; -100; 13; 0; 0; 1; 13; -100; 13; 0; 0; 0; 1; 9; -100; -1; 0; 0; 0; 0; 0; 0; 5; 9;
   -100; -1; 5; 0; 0; 0; 0; 0; 0; 0; 1; 7; 13; -100; -1; 13; 0; 0; 0; 0; 0; 0; 0; 0; 0; 0; 9;
   -100; -2; 13; 1; 0; 0; 0; 0; 0; 0; 0; 0; 0; 7; -100; -4; 11; 5; 0; 0; 0; 0; 0; 0; 0; 0; 7;
   -100; -7; 9; 5; 0; 0; 0; 0; 0; 0; 13; -100; -9; 13; 7; 0; 0; 0; 0; 7; -100; -11; 13; 3; 0; 0;
   3; -100; -13; 0; 0; 0; -100; 7; 5; -11; 1; 0; 0; -100; 1; 0; 5; -10; 1; 0; 3; -100; 0; 0; 0;
   3; -9; 0; 0; 9; -100; 1; 0; 0; 0; 3; 13; -6; 5; 0; 3; -100; 7; 0; 0; 0; 0; 1; 7; 11; 13; 13;
   9; 3; 0; 1; 13; -100; 13; 0; 0; 0; 0; 0; 0; 0; 0; 0; 0; 0; 3; 13; -100; -1; 5; 3; 9; 7; 3; 1;
   0; 0; 1; 5; 11; -100; -100; -100; -100; -100; -100; -100; -100; -100; -101].

Definition lt19 : list Z :=
  [-100; -100; -100; -100; -100; -100; -100; -100; -100; -100; -6; 5; 0; 5; -100; -5; 13; 0; 0;
   0; 7; -100; -5; 7; 0; 0; 0; 9; -100; -5; 3; 0; 0; 0; 13; -100; -4; 11; 0; 0; 0; 0; -100; -4;
   3; 0; 0; 0; 0; -100; -3; 5; 0; 0; 0; 0; 1; -100; -2; 3; 0; 0; 0; 0; 0; 7; -100; 13; 1; 0; 0;
   0; 0; 0; 0; 1; 11; -100; 3; 0; 0; 0; 0; 0; 0; 0; 0; 0; 0; 0; 0; 0; 5; 13; -100; 1; 0; 0; 0;
   0; 0; 0; 0; 0; 0; 0; 0; 0; 0; 5; -100; -3; 9; 0; 0; 0; 0; 7; 13; -100; -4; 0; 0; 0; 0; 11;
   -100; -4; 1; 0; 0; 0; 11; -100; -4; 1; 0; 0; 0; 11; -100; -4; 0; 0; 0; 0; 11; -100; -4; 0; 0;
   0; 0; 11; -100; -4; 0; 0; 0; 0; 11; -100; -4; 0; 0; 0; 0; 11; -100; -4; 1; 0; 0; 0; 11; -100;
   -4; 3; 0; 0; 0; 11; -100; -4; 5; 0; 0; 0; 11; -100; -4; 3; 0; 0; 0; 11; -100; -4; 3; 0; 0; 0;
   11; -100; -4; 1; 0; 0; 0; 9; -100; -4; 0; 0; 0; 0; 5; -100; -4; 0; 0; 0; 0; 1; -100; -4; 1;
   0; 0; 0; 0; 11; -100; -4; 3; 0; 0; 0; 0; 1; 13; -1; 9; 5; 1; 3; -100; -4; 9; 0; 0; 0; 0; 0;
   0; 0; 0; 0; 0; 5; -100; -5; 5; 0; 0; 0; 0; 0; 0; 0; 0; 5; -100; -6; 9; 3; 1; 0; 0; 1; 5; 11;
   -100; -100; -100; -100; -100; -100; -100; -100; -100; -101].

Definition lt20 : list Z :=
  [-100; -100; -100; -100; -100; -100; -100; -100; -100; -100; -100; -100; -100; -100; -100;
   -100; -4; 13; 9; 1; 0; 13; -11; 11; 5; 1; 5; -100; -2; 11; 3; 0; 0; 0; 0; 11; -8; 11; 5; 0;
   0; 0; 0; 1; -100; 13; 3; 0; 0; 0; 0; 0; 0; 11; -6; 7; 1; 0; 0; 0; 0; 0; 0; 7; -100; 5; 0; 0;
   0; 0; 0; 0; 0; 11; -5; 5; 0; 0; 0; 0; 0; 0; 0; 0; 11; -100; 11; 1; 0; 0; 0; 0; 0; 0; 11; -5;
   9; 0; 0; 0; 0; 0; 0; 0; 0; 11; -100; -2; 11; 1; 0; 0; 0; 0; 11; -6; 13; 7; 3; 0; 0; 0; 0; 0;
   11; -100; -3; 9; 0; 0; 0; 0; 11; -9; 9; 0; 0; 0; 0; 11; -100; -3; 11; 0; 0; 0; 0; 11; -10; 0;
   0; 0; 0; 11; -100; -3; 13; 0; 0; 0; 0; 11; -10; 0; 0; 0; 0; 11; -100; -4; 0; 0; 0; 0; 11;
   -10; 0; 0; 0; 0; 11; -100; -4; 0; 0; 0; 0; 11; -10; 0; 0; 0; 0; 11; -100; -4; 0; 0; 0; 0; 11;
   -10; 0; 0; 0; 0; 11; -100; -4; 0; 0; 0; 0; 11; -10; 0; 0; 0; 0; 11; -100; -4; 0; 0; 0; 0; 11;
   -10; 0; 0; 0; 0; 11; -100; -4; 0; 0; 0; 0; 11; -10; 0; 0; 0; 0; 11; -100; -4; 0; 0; 0; 0; 11;
   -10; 0; 0; 0; 0; 11; -100; -4; 0; 0; 0; 0; 11; -10; 0; 0; 0; 0; 11; -100; -4; 1; 0; 0; 0; 11;
   -9; 13; 0; 0; 0; 0; 11; -100; -4; 1; 0; 0; 0; 11; -9; 5; 0; 0; 0; 0; 11; -100; -4; 5; 0; 0;
   0; 7; -8; 7; 0; 0; 0; 0; 0; 11; -100; -4; 7; 0; 0; 0; 0; 13; -5; 13; 5; 0; 0; 0; 0; 0; 0; 11;
   -100; -4; 13; 0; 0; 0; 0; 1; 11; -1; 13; 11; 5; 0; 0; 7; 5; 0; 0; 0; 0; 3; 13; -100; -5; 3;
   0; 0; 0; 0; 0; 0; 0; 0; 0; 3; 13; -2; 0; 0; 0; 0; 0; 0; 7; -100; -5; 11; 0; 0; 0; 0; 0; 0; 0;
   1; 9; -4; 0; 0; 0; 0; 0; 0; 0; -100; -6; 13; 5; 1; 0; 1; 3; 9; -6; 3; 1; 3; 7; 9; 11; 13;
   -100; -100; -100; -100; -100; -100; -100; -100; -100; -100; -101].

Definition lt21 : list Z :=
  [-100; -100; -100; -100; -100; -100; -100; -100; -100; -100; -100; -100; -100; -100; -100;
   -100; -100; -6; 13; 9; 1; 3; 13; -5; 13; 1; 0; 0; 0; 0; 1; 3; 9; -100; 1; 0; 0; 0; 0; 0; 0;
   0; 0; 0; 1; -5; 1; 0; 0; 0; 0; 0; 0; 0; 0; 9; -100; 3; 0; 0; 0; 0; 0; 0; 0; 0; 0; 5; -5; 3;
   0; 0; 0; 0; 0; 0; 0; 0; 13; -100; -1; 9; 3; 0; 0; 0; 0; 0; 5; 13; -7; 13; 9; 0; 0; 0; 0; 1;
   11; -100; -3; 7; 0; 0; 0; 0; -11; 7; 0; 0; 5; -100; -4; 0; 0; 0; 0; 9; -10; 9; 0; 5; -100;
   -4; 5; 0; 0; 0; 1; -10; 5; 0; 11; -100; -4; 11; 0; 0; 0; 0; 9; -9; 0; 1; -100; -5; 1; 0; 0;
   0; 3; -8; 9; 0; 7; -100; -5; 7; 0; 0; 0; 0; 13; -7; 3; 0; 13; -100; -5; 13; 0; 0; 0; 0; 7;
   -6; 13; 0; 3; -100; -6; 3; 0; 0; 0; 1; -6; 7; 0; 11; -100; -6; 9; 0; 0; 0; 0; 9; -5; 0; 1;
   -100; -6; 13; 0; 0; 0; 0; 3; -4; 7; 0; 7; -100; -7; 5; 0; 0; 0; 0; 11; -3; 1; 0; 13; -100;
   -7; 11; 0; 0; 0; 0; 1; -2; 9; 0; 5; -100; -8; 1; 0; 0; 0; 0; 5; -1; 1; 0; 11; -100; -8; 7; 0;
   0; 0; 0; 0; 0; 0; 3; -100; -8; 13; 0; 0; 0; 0; 0; 0; 0; 9; -100; -9; 3; 0; 0; 0; 0; 0; 1;
   -100; -9; 9; 0; 0; 0; 0; 0; 7; -100; -10; 0; 0; 0; 0; 0; 13; -100; -10; 5; 0; 0; 0; 1; -100;
   -10; 13; 1; 0; 0; 7; -100; -11; 11; 1; 5; -100; -100; -100; -100; -100; -100; -100; -100;
   -100; -101].

Definition lt22 : list Z :=
  [-100; -100; -100; -100; -100; -100; -100; -100; -100; -100; -100; -100; -100; -100; -100;
   -100; -29; 13; -100; 5; 0; 0; 1; 1; 1; 3; 3; 5; 7; -3; 7; 0; 0; 0; 0; 0; 0; 0; 0; 0; 11; -4;
   3; 0; 0; 0; 0; 0; 0; 1; 3; 11; -100; 5; 0; 0; 0; 0; 0; 0; 0; 1; 7; -3; 9; 0; 0; 0; 0; 0; 0;
   0; 0; 1; 11; -4; 9; 1; 0; 0; 0; 0; 0; 0; 1; 13; -100; -1; 13; 5; 0; 0; 0; 0; 0; 13; -5; 13;
   5; 0; 0; 0; 0; 0; 3; -8; 9; 0; 0; 0; 0; 5; -100; -3; 5; 0; 0; 0; 0; -8; 11; 0; 0; 0; 0; 9;
   -9; 9; 0; 0; 9; -100; -4; 1; 0; 0; 0; 13; -8; 11; 0; 0; 0; 3; -10; 0; 3; -100; -4; 7; 0; 0;
   0; 11; -8; 13; 0; 0; 0; 0; 13; -8; 9; 0; 11; -100; -4; 13; 0; 0; 0; 7; -8; 11; 0; 0; 0; 0; 7;
   -8; 1; 1; -100; -5; 5; 0; 0; 1; -8; 7; 0; 0; 0; 0; 3; -8; 5; 11; -100; -5; 11; 0; 0; 0; 9;
   -7; 1; 0; 0; 0; 0; 0; 13; -100; -6; 0; 0; 0; 3; -6; 9; 0; 3; 13; 0; 0; 0; 7; -6; 5; -100; -6;
   3; 0; 0; 0; 13; -5; 1; 0; 11; -1; 3; 0; 0; 3; -6; 1; -100; -6; 9; 0; 0; 0; 9; -4; 11; 0; 3;
   -2; 7; 0; 0; 0; 13; -4; 11; 1; -100; -6; 13; 0; 0; 0; 3; -4; 5; 0; 9; -2; 13; 0; 0; 0; 7; -4;
   5; 3; -100; -7; 3; 0; 0; 0; 13; -3; 1; 1; -4; 0; 0; 0; 1; -4; 1; 7; -100; -7; 9; 0; 0; 0; 5;
   -2; 13; 0; 7; -4; 5; 0; 0; 0; 9; -2; 9; 0; 13; -100; -8; 1; 0; 0; 0; 13; -1; 7; 1; -5; 11; 0;
   0; 0; 1; -2; 1; 3; -100; -8; 7; 0; 0; 0; 1; 13; 1; 5; -6; 1; 0; 0; 0; 13; 9; 0; 9; -100; -8;
   13; 0; 0; 0; 0; 0; 0; 11; -6; 7; 0; 0; 0; 1; 0; 1; -100; -9; 3; 0; 0; 0; 0; 3; -7; 13; 0; 0;
   0; 0; 0; 9; -100; -9; 9; 0; 0; 0; 0; 5; -8; 3; 0; 0; 0; 0; 13; -100; -9; 13; 0; 0; 0; 0; 11;
   -8; 9; 0; 0; 0; 1; -100; -10; 3; 0; 0; 0; -10; 3; 0; 0; 5; -100; -10; 11; 0; 0; 7; -10; 13;
   1; 1; 13; -100; -11; 11; 11; -100; -100; -100; -100; -100; -100; -100; -100; -100; -100; -101].

Definition lt23 : list Z :=
  [-100; -100; -100; -100; -100; -100; -100; -100; -100; -100; -100; -100; -100; -100; -100;
   -100; -100; -100; -16; 13; 13; -1; 13; 9; 5; 1; 0; 1; 5; 13; -100; -1; 3; 0; 0; 0; 0; 0; 0;
   0; 0; 1; 7; -4; 1; 0; 0; 0; 0; 0; 0; 0; 0; 0; 1; -100; -1; 1; 0; 0; 0; 0; 0; 0; 0; 0; 1; 11;
   -4; 7; 0; 0; 0; 0; 0; 0; 0; 0; 0; 5; -100; -2; 13; 7; 0; 0; 0; 0; 0; 0; 13; -6; 13; 5; 0; 0;
   0; 0; 5; 9; 13; -100; -4; 13; 3; 0; 0; 0; 0; 3; -7; 13; 0; 0; 5; 13; -100; -6; 3; 0; 0; 0; 0;
   5; -6; 7; 0; 7; -100; -7; 3; 0; 0; 0; 0; 11; -4; 11; 0; 9; -100; -8; 5; 0; 0; 0; 1; -3; 11;
   0; 7; -100; -9; 3; 0; 0; 0; 1; 11; 11; 0; 7; -100; -9; 13; 1; 0; 0; 0; 0; 0; 7; -100; -10;
   13; 1; 0; 0; 0; 0; 9; -100; -11; 11; 0; 0; 0; 0; 1; -100; -12; 0; 0; 0; 0; 0; 7; -100; -11;
   9; 0; 0; 0; 0; 0; 0; 11; -100; -10; 9; 0; 5; 13; 3; 0; 0; 0; 1; 13; -100; -9; 11; 0; 3; -2;
   13; 1; 0; 0; 0; 1; 13; -100; -8; 11; 0; 3; 13; -3; 13; 1; 0; 0; 0; 1; 13; -100; -7; 9; 0; 1;
   13; -5; 11; 0; 0; 0; 0; 1; 13; -100; -6; 9; 0; 0; 7; -7; 9; 0; 0; 0; 0; 1; 11; -100; -5; 5;
   0; 0; 0; 13; -8; 7; 0; 0; 0; 0; 0; 9; -100; -3; 13; 3; 0; 0; 0; 0; 13; -8; 13; 0; 0; 0; 0; 0;
   0; 5; -100; 9; 3; 1; 0; 0; 0; 0; 0; 0; 1; 11; -6; 11; 1; 0; 0; 0; 0; 0; 0; 0; 1; 3; 13; -100;
   3; 0; 0; 0; 0; 0; 0; 0; 0; 0; 3; -6; 11; 5; 3; 1; 0; 0; 0; 1; 1; 3; 5; -100; 13; 13; 13; 13;
   -100; -100; -100; -100; -100; -100; -100; -100; -100; -101].

Definition lt24 : list Z :=
  [-100; -100; -100; -100; -100; -100; -100; -100; -100; -100; -100; -100; -100; -100; -100;
   -100; -100; -1; 13; 13; -2; 13; 13; 11; 11; 11; 13; -6; 11; 11; 11; 11; 11; 11; 11; 11; 13;
   -100; 3; 0; 0; 0; 0; 0; 0; 0; 0; 0; 0; 3; -4; 1; 0; 0; 0; 0; 0; 0; 0; 0; 1; -100; 7; 0; 0; 0;
   0; 0; 0; 0; 0; 0; 0; 5; -4; 3; 0; 0; 0; 0; 0; 0; 0; 0; 9; -100; -2; 11; 5; 0; 0; 0; 0; 0; 0;
   11; -6; 11; 0; 0; 0; 0; 1; 7; 13; -100; -4; 11; 0; 0; 0; 0; 0; -8; 9; 0; 0; 1; 13; -100; -5;
   7; 0; 0; 0; 0; 13; -7; 9; 0; 0; 13; -100; -6; 1; 0; 0; 0; 9; -7; 5; 0; 5; -100; -6; 7; 0; 0;
   0; 3; -7; 1; 0; 13; -100; -6; 13; 0; 0; 0; 0; 13; -5; 11; 0; 1; -100; -7; 5; 0; 0; 0; 7; -5;
   7; 0; 7; -100; -7; 11; 0; 0; 0; 3; -5; 1; 0; 11; -100; -8; 1; 0; 0; 0; 13; -3; 13; 0; 3;
   -100; -8; 7; 0; 0; 0; 7; -3; 7; 0; 9; -100; -8; 13; 0; 0; 0; 3; -3; 1; 1; -100; -9; 5; 0; 0;
   0; 13; -1; 9; 0; 7; -100; -9; 11; 0; 0; 0; 3; 13; 1; 0; 13; -100; -10; 1; 0; 0; 0; 0; 0; 3;
   -100; -10; 9; 0; 0; 0; 0; 0; 9; -100; -11; 1; 0; 0; 0; 1; -100; -11; 5; 0; 0; 0; 7; -100;
   -11; 9; 0; 0; 0; 13; -100; -11; 13; 0; 0; 3; -100; -12; 0; 0; 9; -100; -12; 0; 1; -100; -11;
   13; 0; 7; -100; -11; 7; 0; 11; -100; -11; 1; 0; -100; -2; 7; 0; 1; 7; -4; 11; 0; 3; -100; -1;
   11; 0; 0; 0; 0; 1; 9; 13; 11; 1; 0; 9; -100; -1; 3; 0; 0; 0; 0; 0; 0; 0; 0; 0; 3; -100; -1;
   0; 0; 0; 0; 0; 0; 0; 0; 0; 1; 13; -100; -1; 7; 0; 0; 0; 0; 0; 0; 0; 1; 13; -100; -2; 9; 3; 0;
   0; 1; 3; 7; -100; -101].

Definition lt : list (list Z) :=
  [lt0; lt1; lt2; lt3; lt0; lt5; lt0; lt7; lt8; lt9; lt10; lt11; lt12; lt13; lt14; lt15; lt16;
   lt17; lt18; lt19; lt20; lt21; lt22; lt23; lt24].

Definition sw : list Z :=
  [0; 4; 8; 12; 16; 20; 23; 27; 31; 35; 39; 43; 47; 50; 54; 58; 61; 65; 68; 71; 75; 78; 81; 84;
   87; 90; 93; 96; 98; 101; 103; 105; 108; 110; 112; 114; 115; 117; 119; 120; 121; 122; 123;
   124; 125; 126; 126; 127; 127; 127; 127; 127; 127; 127; 126; 126; 125; 124; 123; 122; 121;
   120; 119; 117; 115; 114; 112; 110; 108; 105; 103; 101; 98; 96; 93; 90; 87; 84; 81; 78; 75;
   71; 68; 65; 61; 58; 54; 50; 47; 43; 39; 35; 31; 27; 23; 20; 16; 12; 8; 4; 0; -4; -8; -12;
   -16; -20; -23; -27; -31; -35; -39; -43; -47; -50; -54; -58; -61; -65; -68; -71; -75; -78;
   -81; -84; -87; -90; -93; -96; -98; -101; -103; -105; -108; -110; -112; -114; -115; -117;
   -119; -120; -121; -122; -123; -124; -125; -126; -126; -127; -127; -127; -127; -127; -127;
   -127; -126; -126; -125; -124; -123; -122; -121; -120; -119; -117; -115; -114; -112; -110;
   -108; -105; -103; -101; -98; -96; -93; -90; -87; -84; -81; -78; -75; -71; -68; -65; -61; -58;
   -54; -50; -47; -43; -39; -35; -31; -27; -23; -20; -16; -12; -8; -4].

End Glyphs.
