(* ===== verification/Captcha.v ===== *)
(** * Captcha: drawing a captcha and writing it as a GIF (src/libcaptcha.c)

    The picture is an array of 70 rows of 200 bytes; pointers into it are
    indices.  Every read and write goes through [rd] and [wr], which fault out
    of range, so that a result without a fault is memory safe.  The random bytes
    are what the buffers hold after the calls of [read] on /dev/urandom. *)

From S2P Require Import Prelude Glyphs.

Local Open Scope Z_scope.

Module Captcha.

Definition WIDTH : Z := 200.
Definition SIZE : Z := 14000.          (* 70*200 *)
Definition gifsize : Z := 17646.
Definition NDOTS : nat := 100.

(** ** Memory *)

(** [a[i]] and [a[i] = v]. *)
Definition rd (a : list Z) (i : Z) : outcome Z :=
  if i <? 0 then Fault OutOfBounds
  else match a !! Z.to_nat i with Some v => Ret v | None => Fault OutOfBounds end.

Definition wr (a : list Z) (i v : Z) : outcome (list Z) :=
  if (0 <=? i) && (i <? Z.of_nat (length a)) then Ret (<[Z.to_nat i := v]> a)
  else Fault OutOfBounds.

(** [memcpy(a + i, bs, n)], and a run of assignments [a[i] = ..; a[i+1] = ..]. *)
Fixpoint wr_bytes (a : list Z) (i : Z) (bs : list Z) : outcome (list Z) :=
  match bs with
  | [] => Ret a
  | b :: rest => a' ← wr a i b; wr_bytes a' (i + 1) rest
  end.

(** [for (k = lo; k < lo + n; k++) s = body(k, s);] *)
Fixpoint for_loop {S} (n : nat) (lo : Z) (body : Z -> S -> outcome S) (s : S) : outcome S :=
  match n with
  | O => Ret s
  | Datatypes.S n' => s' ← body lo s; for_loop n' (lo + 1) body s'
  end.

Definition u8 (z : Z) : Z := z mod 256.

(** ** The letters *)

Definition letters : str := lit "abcdafahijklmnopqrstuvwxyz".

(** [if (sk >= 200) sk = sk % 200;] *)
Definition wrap200 (sk : Z) : Z := if 200 <=? sk then sk mod 200 else sk.

Section Letter.
Context (pos s1 s2 : Z) (swr : list Z).

(** The loop over the glyph [p]; [r] is the start of the row, [i] the pixel. *)
Fixpoint letter_loop (p : list Z) (r i sk1 sk2 mpos row : Z) (im : list Z) : outcome (Z * list Z) :=
  match p with
  | [] => Fault OutOfBounds
  | v :: p' =>
      if v =? -101 then Ret (mpos, im)
      else if v <? 0 then
        if v =? -100 then letter_loop p' (r + WIDTH) (r + WIDTH) (s1 + pos) sk2 mpos (row + 1) im
        else letter_loop p' r (i - v) sk1 sk2 mpos row im
      else
        let sk1 := wrap200 sk1 in
        w1 ← rd Glyphs.sw sk1;
        let skew := Z.quot w1 16 in
        b1 ← rd swr (pos + i - r);
        let sk1 := sk1 + Z.land b1 1 + 1 in
        let sk2 := wrap200 sk2 in
        w2 ← rd Glyphs.sw sk2;
        let skewh := Z.quot w2 70 in
        b2 ← rd swr row;
        let sk2 := sk2 + Z.land b2 1 in
        let x := i + skew * WIDTH + skewh in
        let mpos := Z.max mpos (pos + i - r) in
        im' ← (if x <? SIZE then wr im x (u8 (Z.shiftl v 4)) else Ret im);
        letter_loop p' r (i + 1) sk1 sk2 mpos row im'
  end.

Definition letter (n : Z) (im : list Z) : outcome (Z * list Z) :=
  if n <? 0 then Fault OutOfBounds
  else match Glyphs.lt !! Z.to_nat n with
       | None => Fault OutOfBounds
       | Some p => let r := WIDTH * 16 + pos in letter_loop p r r (s1 + pos) (s2 + pos) pos 0 im
       end.
End Letter.

(** ** Noise *)

Definition line_body (swr : list Z) (x : Z) (s : Z * list Z) : outcome (Z * list Z) :=
  let '(sk1, im) := s in
  let sk1 := wrap200 sk1 in
  w ← rd Glyphs.sw sk1;
  let skew := Z.quot w 16 in
  b ← rd swr x;
  let i := 200 * (45 + skew) + x in
  im1 ← wr im i 0; im2 ← wr im1 (i + 1) 0; im3 ← wr im2 (i + 200) 0; im4 ← wr im3 (i + 201) 0;
  Ret (sk1 + Z.land b 3 + 1, im4).

Definition line (im swr : list Z) (s1 : Z) : outcome (list Z) :=
  '(_, im') ← for_loop 199 0 (line_body swr) (s1, im); Ret im'.

(** [dr] holds [NDOTS] 32-bit words. *)
Definition dots_body (dr : list Z) (n : Z) (im : list Z) : outcome (list Z) :=
  v ← rd dr n;
  let i := v mod (200 * 67) in
  im1 ← wr im i 255; im2 ← wr im1 (i + 1) 255; im3 ← wr im2 (i + 2) 255;
  im4 ← wr im3 (i + 200) 255; im5 ← wr im4 (i + 201) 255; wr im5 (i + 202) 255.

Definition dots (dr im : list Z) : outcome (list Z) := for_loop NDOTS 0 (dots_body dr) im.

(** The pointer [i] advances with every pixel of both loops. *)
Definition blur_pixel (_ : Z) (s : Z * list Z) : outcome (Z * list Z) :=
  let '(i, im) := s in
  c11 ← rd im i; c12 ← rd im (i + 1); c21 ← rd im (i + 200); c22 ← rd im (i + 201);
  im' ← wr im i (u8 ((c11 + c12 + c21 + c22) / 4));
  Ret (i + 1, im').

Definition blur (im : list Z) : outcome (list Z) :=
  '(_, im') ← for_loop 68 0 (fun _ => for_loop 198 0 blur_pixel) (0, im); Ret im'.

Definition filter_pixel (im : list Z) (_ : Z) (s : Z * list Z) : outcome (Z * list Z) :=
  let '(i, om) := s in
  i0 ← rd im i; i1 ← rd im (i + 1);
  om' ← (if ((240 <? i0) && (i1 <? 240)) || ((i0 <? 240) && (240 <? i1))
         then om1 ← wr om i 0; wr om1 (i + 1) 0
         else Ret om);
  Ret (i + 1, om').

(** The copy [om] starts white and replaces the picture. *)
Definition filter (im : list Z) : outcome (list Z) :=
  '(_, om) ← for_loop 70 0 (fun _ => for_loop 192 4 (filter_pixel im))
               (0, replicate (Z.to_nat SIZE) 255);
  Ret om.

(** ** [captcha] *)

(** The bytes read from /dev/urandom, in the order of the calls. *)
Definition random_byte (random : str) (n : nat) : Z := code (default NUL (random !! n)).
Definition random_bytes (random : str) (from n : nat) : list Z :=
  map (random_byte random) (seq from n).

(** Little-endian words. *)
Definition random_word (random : str) (from : nat) : Z :=
  random_byte random from + 256 * random_byte random (from + 1)
  + 65536 * random_byte random (from + 2) + 16777216 * random_byte random (from + 3).

(** The five letters as the code leaves them in [l]. *)
Definition letter_numbers (random : str) : list Z := map (fun b => b mod 25) (random_bytes random 0 5).

Definition text_of (l : list Z) : str := map (fun n => default NUL (letters !! Z.to_nat n)) l.

Fixpoint draw (l : list Z) (p s1 s2 : Z) (swr im : list Z) : outcome (list Z) :=
  match l with
  | [] => Ret im
  | n :: rest => '(p', im') ← letter p s1 s2 swr n im; draw rest p' s1 s2 swr im'
  end.

(** The part of [captcha] after the letters are known: they are drawn, the noise
    is added, and their numbers become characters. *)
Definition captcha_draw (l swr dr : list Z) (s1 s2 : Z) : outcome (str * list Z) :=
  im ← draw l 30 s1 s2 swr (replicate (Z.to_nat SIZE) 255);
  im1 ← dots dr im;
  im2 ← blur im1;
  im3 ← filter im2;
  im4 ← line im3 swr s1;
  Ret (text_of l, im4).

(** [captcha(im, text)] for a [text] of zeros, as the challenger calls it: the
    letters and the picture.  The masks on [s1] and [s2] are applied before they
    are read, so they hold whole bytes. *)
Definition captcha (random : str) : outcome (str * list Z) :=
  captcha_draw (letter_numbers random) (random_bytes random 5 200)
    (map (fun k => random_word random (205 + 4 * k)) (seq 0 NDOTS))
    (random_byte random 605) (random_byte random 606).

(** What the call finds on the stack and in the global [dr]; the code does not
    set them when a text is given. *)
Record stale := MkStale { old_swr : list Z; old_dr : list Z; old_s1 : Z; old_s2 : Z }.

(** A given text: "so 'a' becomes zero". *)
Definition given_numbers (l : list Z) : list Z := map (fun b => u8 (b - 97)) (take 5 l).

(** [captcha(im, l)] for the six bytes [l]. *)
Definition captcha_call (random : str) (old : stale) (l : list Z) : outcome (str * list Z) :=
  if bool_decide (take 6 l = replicate 6 0) then captcha random
  else captcha_draw (given_numbers l) (old_swr old) (old_dr old)
         (Z.land (old_s1 old) 127) (Z.land (old_s2 old) 63).

(** ** [makegif] *)

(** Signature, screen of 200 by 70, sixteen greys, image descriptor, code size. *)
Definition gif_header : list Z :=
  map code (lit "GIF89a") ++ [200; 0; 70; 0; 131; 0; 0]
  ++ flat_map (fun g => [g; g; g])
       [0; 16; 32; 48; 64; 80; 96; 112; 128; 144; 160; 176; 192; 208; 224; 255]
  ++ [44; 0; 0; 0; 0; 200; 0; 70; 0; 0; 4].

Definition gif_trailer : list Z := [1; 17; 0; 59].

(** Four pixels in five bytes: each pixel's code after a clear code. *)
Definition gif_group (a b c d : Z) : list Z :=
  [u8 (Z.lor 16 (Z.shiftl a 5)); u8 (Z.lor (Z.lor (Z.shiftr a 3) 64) (Z.shiftl b 7));
   Z.shiftr b 1; u8 (Z.lor 1 (Z.shiftl c 1)); u8 (Z.lor 4 (Z.shiftl d 3))].

(** The pointers [i] into the picture and [p] into the file. *)
Definition gif_pixels4 (im : list Z) (_ : Z) (s : Z * Z * list Z) : outcome (Z * Z * list Z) :=
  let '(i, p, gif) := s in
  i0 ← rd im i; i1 ← rd im (i + 1); i2 ← rd im (i + 2); i3 ← rd im (i + 3);
  gif' ← wr_bytes gif p
           (gif_group (Z.shiftr i0 4) (Z.shiftr i1 4) (Z.shiftr i2 4) (Z.shiftr i3 4));
  Ret (i + 4, p + 5, gif').

Definition gif_row (im : list Z) (_ : Z) (s : Z * Z * list Z) : outcome (Z * Z * list Z) :=
  let '(i, p, gif) := s in
  gif' ← wr gif p 250;
  for_loop 50 0 (gif_pixels4 im) (i, p + 1, gif').

(** [old]: what the buffer holds before. *)
Definition makegif (im old : list Z) : outcome (list Z) :=
  gif0 ← wr_bytes old 0 gif_header;
  '(_, _, gif1) ← for_loop 70 0 (gif_row im) (0, 72, gif0);
  wr_bytes gif1 (gifsize - 4) gif_trailer.

(** ** Reading a GIF: what a viewer sees

    A reader of the file format: the signature, the logical screen with its
    colour table, one image that fills it, and the compressed data.  That is split
    into sub-blocks, its bits are read from the low end, five at a time for a
    code size of four; 16 clears the table of the decompressor and 17 ends the
    image.  After a clear code the next code stands for its pixel; the reader
    refuses what needs more of the decompressor than that. *)

Record header := MkHeader {
  screen : Z * Z;
  palette : list (Z * Z * Z);
  position : Z * Z;
  size : Z * Z;
  code_size : Z
}.

Record image := MkImage { width : Z; height : Z; colours : list (Z * Z * Z) }.

(** Two bytes, the low one first. *)
Definition word (lo hi : Z) : Z := lo + 256 * hi.

Fixpoint triples (l : list Z) : list (Z * Z * Z) :=
  match l with
  | r :: g :: b :: t => (r, g, b) :: triples t
  | _ => []
  end.

Definition read_header (gif : list Z) : option (header * list Z) :=
  match gif with
  | s0 :: s1 :: s2 :: s3 :: s4 :: s5 :: w0 :: w1 :: h0 :: h1 :: packed :: _ :: _ :: rest =>
      let n := Z.to_nat (3 * 2 ^ (Z.land packed 7 + 1)) in
      if bool_decide ([s0; s1; s2; s3; s4; s5] = map code (lit "GIF89a")) && Z.testbit packed 7
         && (n <=? length rest)%nat then
        match drop n rest with
        | separator :: x0 :: x1 :: y0 :: y1 :: iw0 :: iw1 :: ih0 :: ih1 :: flags :: m :: data =>
            if (separator =? 44) && negb (Z.testbit flags 7) && negb (Z.testbit flags 6) then
              Some (MkHeader (word w0 w1, word h0 h1) (triples (take n rest)) (word x0 x1, word y0 y1)
                      (word iw0 iw1, word ih0 ih1) m, data)
            else None
        | _ => None
        end
      else None
  | _ => None
  end.

Fixpoint sub_blocks (fuel : nat) (l : list Z) : option (list Z * list Z) :=
  match fuel, l with
  | Datatypes.S fuel', n :: t =>
      if n =? 0 then Some ([], t)
      else if Z.of_nat (length t) <? n then None
      else '(d, r) ← sub_blocks fuel' (drop (Z.to_nat n) t); Some (take (Z.to_nat n) t ++ d, r)
  | _, _ => None
  end.

Definition bits8 (v : Z) : list bool := map (fun k => Z.testbit v (Z.of_nat k)) (seq 0 8).

Fixpoint codes (l : list bool) : list Z :=
  match l with
  | b0 :: b1 :: b2 :: b3 :: b4 :: t =>
      (Z.b2z b0 + 2 * Z.b2z b1 + 4 * Z.b2z b2 + 8 * Z.b2z b3 + 16 * Z.b2z b4) :: codes t
  | _ => []
  end.

Fixpoint decompress (cs : list Z) : option (list Z) :=
  match cs with
  | [] => None
  | c :: t =>
      if c =? 17 then Some []
      else if c =? 16 then
        match t with
        | p :: t' => if p <? 16 then cons p <$> decompress t' else None
        | [] => None
        end
      else None
  end.

Definition read_gif (gif : list Z) : option image :=
  '(h, rest) ← read_header gif;
  '(data, trailer) ← sub_blocks (length gif) rest;
  if bool_decide (trailer = [59]) && (code_size h =? 4) && bool_decide (position h = (0, 0))
     && bool_decide (size h = screen h) then
    indices ← decompress (codes (flat_map bits8 data));
    if Z.of_nat (length indices) =? fst (size h) * snd (size h) then
      cs ← mapM (fun i => palette h !! Z.to_nat i) indices;
      Some (MkImage (fst (size h)) (snd (size h)) cs)
    else None
  else None.

(** The picture at sixteen greys: a byte is shown as the multiple of sixteen
    below it, the brightest ones as white. *)
Definition shown (v : Z) : Z * Z * Z :=
  let g := if v <? 240 then v - v mod 16 else 255 in (g, g, g).

Definition shown_image (im : list Z) : image := MkImage 200 70 (map shown im).

(** ** Memory lemmas *)

Definition byte (v : Z) : Prop := 0 <= v < 256.

(** A picture: 14000 bytes. *)
Definition picture (im : list Z) : Prop := Z.of_nat (length im) = SIZE /\ Forall byte im.

Lemma rd_in a i : 0 <= i < Z.of_nat (length a) ->
  exists v, rd a i = Ret v /\ a !! Z.to_nat i = Some v.
Proof.
  intros Hi. unfold rd. rewrite (proj2 (Z.ltb_ge _ _)) by lia.
  destruct (lookup_lt_is_Some_2 a (Z.to_nat i)) as [v Hv]; [lia|]. rewrite Hv. eauto.
Qed.

Lemma rd_out a i : Z.of_nat (length a) <= i -> rd a i = Fault OutOfBounds.
Proof.
  intros Hi. unfold rd. destruct (i <? 0); [done|].
  by rewrite lookup_ge_None_2 by lia.
Qed.

Lemma wr_in a i v : 0 <= i < Z.of_nat (length a) -> wr a i v = Ret (<[Z.to_nat i := v]> a).
Proof.
  intros Hi. unfold wr. by rewrite (proj2 (Z.leb_le _ _)), (proj2 (Z.ltb_lt _ _)) by lia.
Qed.

Lemma picture_rd im i : picture im -> 0 <= i < SIZE -> exists v, rd im i = Ret v /\ byte v.
Proof.
  intros [Hl Hb] Hi. destruct (rd_in im i) as (v & -> & Hv); [lia|].
  exists v. split; [done|]. by eapply Forall_lookup_1.
Qed.

Lemma picture_wr im i v : picture im -> 0 <= i < SIZE -> byte v ->
  exists im', wr im i v = Ret im' /\ picture im'.
Proof.
  intros [Hl Hb] Hi Hv. rewrite wr_in by lia. eexists. split; [done|].
  split; [by rewrite length_insert|]. by apply Forall_insert.
Qed.

Lemma u8_byte z : byte (u8 z).
Proof. apply Z.mod_pos_bound. lia. Qed.

(** A loop whose body keeps an invariant returns with it. *)
Lemma for_loop_inv {S} (P : Z -> S -> Prop) (body : Z -> S -> outcome S) n lo s :
  (forall k s, lo <= k < lo + Z.of_nat n -> P k s -> exists s', body k s = Ret s' /\ P (k + 1) s') ->
  P lo s -> exists s', for_loop n lo body s = Ret s' /\ P (lo + Z.of_nat n) s'.
Proof.
  revert lo s. induction n as [|n IH]; intros lo s Hbody Hs; cbn [for_loop].
  - exists s. by rewrite Z.add_0_r.
  - destruct (Hbody lo s) as (s1 & -> & H1); [lia|done|]. cbn [mbind outcome_bind].
    destruct (IH (lo + 1) s1) as (s2 & H2 & HP).
    + intros k s' Hk. apply Hbody. lia.
    + done.
    + exists s2. split; [done|]. by replace (lo + Z.of_nat (Datatypes.S n)) with (lo + 1 + Z.of_nat n) by lia.
Qed.

(** Step through a read or a write that is known to be in range. *)
Ltac read_in H im i v :=
  let E := fresh "E" in
  destruct (picture_rd im i H) as (v & E & ?); [unfold SIZE in *; lia|]; rewrite E; clear E;
  cbn [mbind outcome_bind].
Ltac write_in H im i v im' :=
  let E := fresh "E" in let H' := fresh "Hpic" in
  destruct (picture_wr im i v H) as (im' & E & H'); [unfold SIZE in *; lia| |rewrite E; clear E;
  cbn [mbind outcome_bind]].

(** ** The wave *)

Lemma sw_in k : 0 <= k < 200 -> exists w, rd Glyphs.sw k = Ret w /\ -127 <= w <= 127.
Proof.
  intros Hk. destruct (rd_in Glyphs.sw k) as (w & -> & Hw); [exact Hk|].
  exists w. split; [done|].
  assert (Hall : forallb (fun w => (-127 <=? w) && (w <=? 127)) Glyphs.sw = true) by (vm_compute; done).
  rewrite forallb_forall in Hall. apply list_elem_of_lookup_2, list_elem_of_In, Hall in Hw.
  boolify. lia.
Qed.

Lemma wrap200_range sk : 0 <= sk -> 0 <= wrap200 sk < 200.
Proof. intros. unfold wrap200. destruct (Z.leb_spec 200 sk); [|lia]. apply Z.mod_pos_bound. lia. Qed.

Lemma land_1_range b : 0 <= Z.land b 1 <= 1.
Proof. rewrite (land_mask b 1 1) by done. pose proof (Z.mod_pos_bound b (2 ^ 1) eq_refl). lia. Qed.

Lemma land_3_range b : 0 <= Z.land b 3 <= 3.
Proof. rewrite (land_mask b 2 3) by done. pose proof (Z.mod_pos_bound b (2 ^ 2) eq_refl). lia. Qed.

(** ** Letters *)

(** The last column a glyph draws in, starting in column [col]. *)
Fixpoint extent (p : list Z) (col : Z) : Z :=
  match p with
  | [] => -1
  | v :: p' =>
      if v =? -101 then -1
      else if v <? 0 then if v =? -100 then extent p' 0 else extent p' (col - v)
      else Z.max col (extent p' (col + 1))
  end.

(** It has an end, and so many rows before it. *)
Fixpoint rows (p : list Z) : option Z :=
  match p with
  | [] => None
  | v :: p' =>
      if v =? -101 then Some 0
      else n ← rows p'; Some (if v =? -100 then n + 1 else n)
  end.

Lemma rows_nonneg p n : rows p = Some n -> 0 <= n.
Proof.
  revert n; induction p as [|v p IH]; intros n; cbn [rows]; [done|].
  destruct (v =? -101); [intros [= <-]; done|].
  destruct (rows p) as [m|]; [|done]. cbn. specialize (IH m eq_refl).
  intros [= <-]. destruct (v =? -100); lia.
Qed.

(** The loop of [letter]: it draws and returns the last column, unless that
    column lies outside [swr]. *)
Lemma letter_loop_run pos s1 swr p : forall r i sk1 sk2 mpos row im n,
  rows p = Some n -> picture im -> length swr = 200%nat ->
  0 <= pos <= mpos -> pos <= 199 -> 0 <= s1 -> 0 <= sk1 -> 0 <= sk2 -> r <= i -> 3200 <= r ->
  0 <= row -> row + n <= 199 ->
  let e := pos + extent p (i - r) in
  if e <=? 199
  then exists im', letter_loop pos s1 swr p r i sk1 sk2 mpos row im = Ret (Z.max mpos e, im') /\ picture im'
  else letter_loop pos s1 swr p r i sk1 sk2 mpos row im = Fault OutOfBounds.
Proof.
  induction p as [|v p IH]; intros r i sk1 sk2 mpos row im n Hn Him Hl Hp Hp2 H1 Hk1 Hk2 Hi Hr Hrow Hrows;
    cbn [rows] in Hn; [done|].
  cbn [letter_loop extent]. destruct (v =? -101).
  { cbn zeta. rewrite (proj2 (Z.leb_le _ _)) by lia.
    exists im. split; [|done]. do 2 f_equal. lia. }
  destruct (rows p) as [m|] eqn:Hm; [|done]. cbn in Hn. injection Hn as <-.
  pose proof (rows_nonneg p m Hm).
  destruct (Z.ltb_spec v 0).
  { destruct (v =? -100).
    - specialize (IH (r + WIDTH) (r + WIDTH) (s1 + pos) sk2 mpos (row + 1) im m).
      rewrite Z.sub_diag in IH. apply IH; unfold WIDTH; try done; lia.
    - replace (i - r - v) with (i - v - r) by lia.
      apply (IH _ _ _ _ _ _ _ m); try done; lia. }
  destruct (sw_in (wrap200 sk1)) as (w1 & -> & Hw1); [by apply wrap200_range|].
  cbn [mbind outcome_bind].
  destruct (Z.leb_spec 200 (pos + i - r)).
  { rewrite (rd_out swr (pos + i - r)) by lia. cbn zeta. by rewrite (proj2 (Z.leb_gt _ _)) by lia. }
  destruct (rd_in swr (pos + i - r)) as (b1 & -> & _); [lia|]. cbn [mbind outcome_bind].
  destruct (sw_in (wrap200 sk2)) as (w2 & -> & Hw2); [by apply wrap200_range|].
  cbn [mbind outcome_bind].
  assert (Hrow' : row < 200) by (destruct (v =? -100); lia).
  destruct (rd_in swr row) as (b2 & -> & _); [lia|]. cbn [mbind outcome_bind].
  set (x := i + Z.quot w1 16 * WIDTH + Z.quot w2 70).
  assert (Hx : 0 <= x).
  { unfold x, WIDTH. Z.to_euclidean_division_equations. lia. }
  pose proof (land_1_range b1). pose proof (land_1_range b2).
  pose proof (wrap200_range sk1 Hk1). pose proof (wrap200_range sk2 Hk2).
  assert (Him' : exists im', (if x <? SIZE then wr im x (u8 (Z.shiftl v 4)) else Ret im) = Ret im'
                 /\ picture im').
  { destruct (Z.ltb_spec x SIZE); [|by exists im]. apply picture_wr; [done|lia|apply u8_byte]. }
  destruct Him' as (im' & -> & Him'). cbn [mbind outcome_bind].
  specialize (IH r (i + 1) (wrap200 sk1 + Z.land b1 1 + 1) (wrap200 sk2 + Z.land b2 1)
    (Z.max mpos (pos + i - r)) row im' m).
  replace (i + 1 - r) with (i - r + 1) in IH by lia. cbn zeta in *.
  set (e := extent p (i - r + 1)) in *.
  destruct (Z.leb_spec (pos + Z.max (i - r) e) 199).
  - rewrite (proj2 (Z.leb_le _ _)) in IH by lia. destruct IH as (im2 & -> & ?); try done; try lia.
    { destruct (v =? -100); lia. }
    exists im2. split; [|done]. do 2 f_equal. lia.
  - rewrite (proj2 (Z.leb_gt _ _)) in IH by lia. apply IH; try done; try lia.
    destruct (v =? -100); lia.
Qed.

(** The width of letter [n]: the pen moves by so much. *)
Definition letter_width (n : Z) : Z := extent (default [] (Glyphs.lt !! Z.to_nat n)) 0.

(** Every glyph ends, has at most 199 rows and draws something. *)
Definition glyph_ok (p : list Z) : bool :=
  match rows p with Some n => (n <=? 199) && (0 <=? extent p 0) | None => false end.

Lemma glyph_in n : 0 <= n < 25 ->
  exists p k, Glyphs.lt !! Z.to_nat n = Some p /\ rows p = Some k /\ k <= 199 /\
    letter_width n = extent p 0 /\ 0 <= extent p 0.
Proof.
  intros Hn. unfold letter_width.
  destruct (lookup_lt_is_Some_2 Glyphs.lt (Z.to_nat n)) as [p Hp].
  { change (length Glyphs.lt) with 25%nat. lia. }
  rewrite Hp. assert (Hall : forallb glyph_ok Glyphs.lt = true) by (vm_compute; reflexivity).
  rewrite forallb_forall in Hall. pose proof (Hall p) as Hok.
  specialize (Hok (proj1 (list_elem_of_In _ _) (list_elem_of_lookup_2 _ _ _ Hp))).
  unfold glyph_ok in Hok. destruct (rows p) as [k|] eqn:Hk; [|done]. boolify.
  exists p, k. cbn [default]. auto.
Qed.

Lemma letter_run pos s1 s2 swr n im :
  0 <= n < 25 -> picture im -> length swr = 200%nat -> 0 <= pos <= 199 -> 0 <= s1 -> 0 <= s2 ->
  if pos + letter_width n <=? 199
  then exists im', letter pos s1 s2 swr n im = Ret (pos + letter_width n, im') /\ picture im'
  else letter pos s1 s2 swr n im = Fault OutOfBounds.
Proof.
  intros Hn Him Hl Hp H1 H2. destruct (glyph_in n Hn) as (p & k & Hlt & Hk & Hk2 & -> & He).
  unfold letter. rewrite (proj2 (Z.ltb_ge _ _)), Hlt by lia.
  pose proof (letter_loop_run pos s1 swr p (WIDTH * 16 + pos) (WIDTH * 16 + pos) (s1 + pos) (s2 + pos)
    pos 0 im k Hk Him Hl) as Hrun. rewrite Z.sub_diag in Hrun. cbn zeta in Hrun.
  rewrite (Z.max_r pos (pos + extent p 0)) in Hrun by lia.
  apply Hrun; unfold WIDTH; lia.
Qed.

(** ** All five letters *)

Fixpoint text_width (l : list Z) : Z :=
  match l with [] => 0 | n :: rest => letter_width n + text_width rest end.

Definition is_letter (n : Z) : Prop := 0 <= n < 25.

Lemma text_width_nonneg l : Forall is_letter l -> 0 <= text_width l.
Proof.
  induction 1 as [|n l Hn _ IH]; cbn [text_width]; [lia|].
  destruct (glyph_in n Hn) as (p & k & _ & _ & _ & -> & ?). lia.
Qed.

Lemma draw_run l : forall p s1 s2 swr im,
  Forall is_letter l -> picture im -> length swr = 200%nat -> 0 <= p <= 199 -> 0 <= s1 -> 0 <= s2 ->
  if p + text_width l <=? 199
  then exists im', draw l p s1 s2 swr im = Ret im' /\ picture im'
  else draw l p s1 s2 swr im = Fault OutOfBounds.
Proof.
  induction l as [|n l IH]; intros p s1 s2 swr im Hl Him Hs Hp H1 H2; cbn [draw text_width].
  { rewrite (proj2 (Z.leb_le _ _)) by lia. by exists im. }
  apply Forall_cons_1 in Hl as [Hn Hl]. pose proof (text_width_nonneg l Hl).
  destruct (glyph_in n Hn) as (g & k & _ & _ & _ & Hw & He).
  pose proof (letter_run p s1 s2 swr n im Hn Him Hs Hp H1 H2) as Hrun.
  destruct (Z.leb_spec (p + letter_width n) 199).
  - destruct Hrun as (im' & -> & Him'). cbn [mbind outcome_bind]. rewrite Z.add_assoc.
    apply IH; try done. lia.
  - rewrite Hrun. by rewrite (proj2 (Z.leb_gt _ _)) by lia.
Qed.

(** ** Noise stays inside the picture *)

Lemma dots_run dr im : length dr = NDOTS -> picture im ->
  exists im', dots dr im = Ret im' /\ picture im'.
Proof.
  intros Hd Him. apply (for_loop_inv (fun _ im => picture im)); [|done].
  intros k im1 Hk H1. unfold dots_body.
  destruct (rd_in dr k) as (v & -> & _); [lia|]. cbn [mbind outcome_bind].
  pose proof (Z.mod_pos_bound v (200 * 67) eq_refl) as Hv. set (i := v mod (200 * 67)) in *.
  write_in H1 im1 i 255 im2; [done|]. write_in Hpic im2 (i + 1) 255 im3; [done|].
  write_in Hpic0 im3 (i + 2) 255 im4; [done|]. write_in Hpic1 im4 (i + 200) 255 im5; [done|].
  write_in Hpic2 im5 (i + 201) 255 im6; [done|]. write_in Hpic3 im6 (i + 202) 255 im7; [done|].
  eauto.
Qed.

Lemma line_run im swr s1 : length swr = 200%nat -> picture im -> 0 <= s1 ->
  exists im', line im swr s1 = Ret im' /\ picture im'.
Proof.
  intros Hs Him H1. unfold line.
  destruct (for_loop_inv (fun _ s => 0 <= fst s /\ picture (snd s)) (line_body swr) 199 0 (s1, im))
    as ([sk im'] & -> & _ & Him'); [|done|by exists im'].
  intros x [sk im1] Hx [Hsk H2]. cbn [fst snd] in *. unfold line_body.
  pose proof (wrap200_range sk Hsk).
  destruct (sw_in (wrap200 sk)) as (w & -> & Hw); [done|]. cbn [mbind outcome_bind].
  destruct (rd_in swr x) as (b & -> & _); [lia|]. cbn [mbind outcome_bind].
  set (i := 200 * (45 + Z.quot w 16) + x).
  assert (Hi : 7600 <= i <= 10598) by (unfold i; Z.to_euclidean_division_equations; lia).
  write_in H2 im1 i 0 im2; [done|]. write_in Hpic im2 (i + 1) 0 im3; [done|].
  write_in Hpic0 im3 (i + 200) 0 im4; [done|]. write_in Hpic1 im4 (i + 201) 0 im5; [done|].
  pose proof (land_3_range b). eexists. split; [done|]. cbn [fst snd]. split; [lia|done].
Qed.

(** Two nested loops over [n] by [m] steps that advance a position. *)
Lemma nested_inv {A} (P : Z -> A -> Prop) (body : Z -> Z * A -> outcome (Z * A)) n m lo s :
  (forall k i a, 0 <= i < Z.of_nat (n * m) -> P i a ->
     exists a', body k (i, a) = Ret (i + 1, a') /\ P (i + 1) a') ->
  P 0 s ->
  exists i a, for_loop n 0 (fun _ => for_loop m lo body) (0, s) = Ret (i, a) /\ P i a.
Proof.
  intros Hbody Hs.
  destruct (for_loop_inv (fun y s => fst s = y * Z.of_nat m /\ P (fst s) (snd s))
    (fun _ => for_loop m lo body) n 0 (0, s)) as ([i a] & -> & _ & HP); [|done|eauto].
  intros y [i a] Hy [Hi HP]. cbn [fst snd] in *.
  destruct (for_loop_inv (fun x s => fst s = y * Z.of_nat m + (x - lo) /\ P (fst s) (snd s))
    body m lo (i, a)) as (s' & -> & Hi' & HP').
  - intros x [i1 a1] Hx [Hi1 HP1]. cbn [fst snd] in *.
    destruct (Hbody x i1 a1) as (a2 & -> & H2); [nia|done|].
    eexists. split; [done|]. cbn [fst snd]. split; [lia|done].
  - cbn [fst snd]. split; [lia|done].
  - exists s'. split; [done|]. split; [nia|done].
Qed.

Lemma blur_run im : picture im -> exists im', blur im = Ret im' /\ picture im'.
Proof.
  intros Him. unfold blur.
  destruct (nested_inv (fun _ im => picture im) blur_pixel 68 198 0 im) as (i & im' & -> & H');
    [|done|by exists im'].
  intros k i im1 Hi H1. unfold blur_pixel.
  read_in H1 im1 i c11. read_in H1 im1 (i + 1) c12. read_in H1 im1 (i + 200) c21.
  read_in H1 im1 (i + 201) c22.
  write_in H1 im1 i (u8 ((c11 + c12 + c21 + c22) / 4)) im2; [apply u8_byte|]. eauto.
Qed.

Lemma picture_blank : picture (replicate (Z.to_nat SIZE) 255).
Proof.
  split; [by rewrite length_replicate|]. apply Forall_replicate. done.
Qed.

Lemma filter_run im : picture im -> exists im', filter im = Ret im' /\ picture im'.
Proof.
  intros Him. unfold filter.
  destruct (nested_inv (fun _ om => picture om) (filter_pixel im) 70 192 4
    (replicate (Z.to_nat SIZE) 255)) as (i & om & -> & H'); [|apply picture_blank|by exists om].
  intros k i om Hi H1. unfold filter_pixel. read_in Him im i i0. read_in Him im (i + 1) i1.
  destruct (_ || _).
  - write_in H1 om i 0 om1; [done|]. write_in Hpic om1 (i + 1) 0 om2; [done|]. eauto.
  - cbn [mbind outcome_bind]. eauto.
Qed.

(** ** The whole picture *)

Lemma random_byte_range random n : byte (random_byte random n).
Proof. apply code_range. Qed.

Lemma letter_numbers_ok random : Forall is_letter (letter_numbers random).
Proof.
  unfold letter_numbers. apply Forall_forall. intros n Hn.
  apply list_elem_of_fmap in Hn as (b & -> & _). apply Z.mod_pos_bound. lia.
Qed.

(** The five letters fit between the margin and the width of the picture. *)
Definition letters_fit (random : str) : bool := 30 + text_width (letter_numbers random) <=? 199.

Lemma captcha_draw_run l swr dr s1 s2 :
  Forall is_letter l -> length swr = 200%nat -> length dr = NDOTS -> 0 <= s1 -> 0 <= s2 ->
  if 30 + text_width l <=? 199
  then exists im, captcha_draw l swr dr s1 s2 = Ret (text_of l, im) /\ picture im
  else captcha_draw l swr dr s1 s2 = Fault OutOfBounds.
Proof.
  intros Hl Hs Hd H1 H2. unfold captcha_draw.
  pose proof (draw_run l 30 s1 s2 swr _ Hl picture_blank Hs ltac:(lia) H1 H2) as Hdraw.
  destruct (30 + text_width l <=? 199); [|by rewrite Hdraw].
  destruct Hdraw as (im & -> & Him). cbn [mbind outcome_bind].
  destruct (dots_run dr im Hd Him) as (im1 & -> & Him1). cbn [mbind outcome_bind].
  destruct (blur_run im1 Him1) as (im2 & -> & Him2). cbn [mbind outcome_bind].
  destruct (filter_run im2 Him2) as (im3 & -> & Him3). cbn [mbind outcome_bind].
  destruct (line_run im3 swr s1 Hs Him3 H1) as (im4 & -> & Him4). cbn [mbind outcome_bind]. eauto.
Qed.

Lemma captcha_run random :
  if letters_fit random
  then exists im, captcha random = Ret (text_of (letter_numbers random), im) /\ picture im
  else captcha random = Fault OutOfBounds.
Proof.
  apply captcha_draw_run; [apply letter_numbers_ok| | |apply random_byte_range..].
  - unfold random_bytes. by rewrite length_map, length_seq.
  - by rewrite length_map, length_seq.
Qed.

Lemma captcha_in random : letters_fit random = true ->
  exists im, captcha random = Ret (text_of (letter_numbers random), im) /\ picture im.
Proof. intros H. pose proof (captcha_run random) as Hr. by rewrite H in Hr. Qed.

Lemma captcha_out random : letters_fit random = false -> captcha random = Fault OutOfBounds.
Proof. intros H. pose proof (captcha_run random) as Hr. by rewrite H in Hr. Qed.

(** Five times the letter 'm' does not fit. *)
Definition five_ms : str := replicate 5 (chr 12).

(** A number without a glyph makes the code read past [lt], unless the letters
    before it have run out of room already. *)
Lemma draw_no_letter l : forall p s1 s2 swr im,
  ~ Forall is_letter l -> Forall (fun n => 0 <= n) l -> picture im -> length swr = 200%nat ->
  0 <= p <= 199 -> 0 <= s1 -> 0 <= s2 -> draw l p s1 s2 swr im = Fault OutOfBounds.
Proof.
  induction l as [|n l IH]; intros p s1 s2 swr im Hl Hn Him Hs Hp H1 H2; [by destruct Hl|].
  apply Forall_cons_1 in Hn as [Hn0 Hn]. cbn [draw].
  destruct (decide (n < 25)) as [Hlt|Hge].
  - assert (Hi : is_letter n) by done. pose proof (letter_run p s1 s2 swr n im Hi Him Hs Hp H1 H2) as Hr.
    destruct (Z.leb_spec (p + letter_width n) 199); [|by rewrite Hr].
    destruct Hr as (im' & -> & Him'). cbn [mbind outcome_bind].
    destruct (glyph_in n Hi) as (g & k & _ & _ & _ & Hw & He).
    apply IH; try done; [|lia]. intros Hf. apply Hl. by constructor.
  - unfold letter. rewrite (proj2 (Z.ltb_ge _ _)) by lia.
    by rewrite lookup_ge_None_2 by (change (length Glyphs.lt) with 25%nat; lia).
Qed.

(** The numbers a call draws, and what is left of an earlier call. *)
Definition numbers (random : str) (l : list Z) : list Z :=
  if bool_decide (take 6 l = replicate 6 0) then letter_numbers random else given_numbers l.

Definition stale_ok (old : stale) : Prop :=
  length (old_swr old) = 200%nat /\ length (old_dr old) = NDOTS.

Lemma land_nonneg_r a b : 0 <= b -> 0 <= Z.land a b.
Proof. intros Hb. apply Z.land_nonneg. by right. Qed.

Lemma captcha_call_run random old l : stale_ok old ->
  if decide (Forall is_letter (numbers random l) /\ 30 + text_width (numbers random l) <= 199)
  then exists im, captcha_call random old l = Ret (text_of (numbers random l), im) /\ picture im
  else captcha_call random old l = Fault OutOfBounds.
Proof.
  intros [Hs Hd]. unfold captcha_call, numbers. case_bool_decide.
  - pose proof (captcha_run random) as Hr. unfold letters_fit in Hr.
    destruct (Z.leb_spec (30 + text_width (letter_numbers random)) 199);
      [rewrite decide_True by (split; [apply letter_numbers_ok|done])|rewrite decide_False by lia]; done.
  - assert (H1 : 0 <= Z.land (old_s1 old) 127) by (by apply land_nonneg_r).
    assert (H2 : 0 <= Z.land (old_s2 old) 63) by (by apply land_nonneg_r).
    destruct (decide (Forall is_letter (given_numbers l))) as [Hl|Hl].
    + pose proof (captcha_draw_run _ _ _ _ _ Hl Hs Hd H1 H2) as Hr.
      destruct (Z.leb_spec (30 + text_width (given_numbers l)) 199);
        [rewrite decide_True by done|rewrite decide_False by lia]; done.
    + rewrite decide_False by (by intros [? _]). unfold captcha_draw.
      rewrite draw_no_letter; [done|done| |apply picture_blank|done|lia|done|done].
      apply Forall_fmap, Forall_forall. intros b _. apply u8_byte.
Qed.

(** C27. Memory safety of the drawing: whatever the random bytes, whatever text
    is given and whatever an earlier call left behind, all reads and writes stay
    inside their arrays exactly when every letter has a glyph (the last of the
    alphabet has none) and they fit into 199 columns together, and the result is
    then a picture of 70 by 200 bytes; five times the letter 'm' makes the code
    read past [swr]. *)
Theorem captcha_memory_safe (random : str) (old : stale) (l : list Z) :
  stale_ok old ->
  (if decide (Forall is_letter (numbers random l) /\ 30 + text_width (numbers random l) <= 199)
   then exists im, captcha_call random old l = Ret (text_of (numbers random l), im) /\ picture im
   else captcha_call random old l = Fault OutOfBounds) /\
  captcha five_ms = Fault OutOfBounds.
Proof.
  intros Ho. split; [by apply captcha_call_run|]. apply captcha_out. vm_compute. reflexivity.
Qed.

(** Any stale data: a call with a 'z' faults. *)
Definition sample_stale : stale := MkStale (replicate 200 0) (replicate NDOTS 0) 0 0.

Lemma captcha_memory_safe_witness :
  captcha_call [] sample_stale (map code (lit "abczy") ++ [0]) = Fault OutOfBounds.
Proof.
  pose proof (captcha_memory_safe [] sample_stale (map code (lit "abczy") ++ [0])
    ltac:(split; reflexivity)) as [H _].
  rewrite decide_False in H; [exact H|]. intros [Hf _]. rewrite Forall_forall in Hf.
  specialize (Hf 25 ltac:(apply (bool_decide_unpack _); vm_compute; exact Logic.I)).
  unfold is_letter in Hf. lia.
Defined.

(** ** The file *)

(** Writing a run of bytes into the room after a prefix. *)
Lemma wr_bytes_run bs : forall pre rest,
  (length bs <= length rest)%nat ->
  wr_bytes (pre ++ rest) (Z.of_nat (length pre)) bs = Ret (pre ++ bs ++ drop (length bs) rest).
Proof.
  induction bs as [|b bs IH]; intros pre rest Hl; cbn [wr_bytes length]; [done|].
  destruct rest as [|x rest]; cbn [length] in Hl; [lia|].
  rewrite wr_in by (rewrite length_app; cbn [length]; lia). cbn [mbind outcome_bind].
  rewrite Nat2Z.id, insert_app_r_alt, Nat.sub_diag by done.
  pose proof (IH (pre ++ [b]) rest ltac:(lia)) as H.
  rewrite length_app, Nat2Z.inj_add, <- !app_assoc in H. exact H.
Qed.

(** The groups of a list of pixels. *)
Fixpoint groups (l : list Z) : list Z :=
  match l with
  | a :: b :: c :: d :: t => gif_group a b c d ++ groups t
  | _ => []
  end.

Lemma groups_app n : forall l t, length l = (4 * n)%nat -> groups (l ++ t) = groups l ++ groups t.
Proof.
  induction n as [|n IH]; intros l t Hl.
  - by destruct l.
  - destruct l as [|a [|b [|c [|d l]]]]; cbn [length] in Hl; try lia.
    cbn [app groups]. rewrite IH by lia. by rewrite app_assoc.
Qed.

Lemma length_groups n : forall l, length l = (4 * n)%nat -> length (groups l) = (5 * n)%nat.
Proof.
  induction n as [|n IH]; intros l Hl.
  - by destruct l.
  - destruct l as [|a [|b [|c [|d l]]]]; cbn [length] in Hl; try lia.
    cbn [groups]. rewrite length_app, IH by lia. cbn [gif_group length]. lia.
Qed.

Definition pixels (im : list Z) : list Z := map (fun v => Z.shiftr v 4) im.

Lemma rd_pixel im i : 0 <= i < Z.of_nat (length im) ->
  exists v, rd im i = Ret v /\ pixels im !! Z.to_nat i = Some (Z.shiftr v 4).
Proof.
  intros Hi. destruct (rd_in im i Hi) as (v & Hv & Hl). exists v. split; [done|].
  unfold pixels. by rewrite list_lookup_fmap, Hl.
Qed.

(** One group: the four pixels at [i] go to the room after [pre]. *)
Lemma gif_pixels4_run im k (i : nat) pre rest :
  (i + 4 <= length im)%nat -> (5 <= length rest)%nat ->
  gif_pixels4 im k (Z.of_nat i, Z.of_nat (length pre), pre ++ rest)
  = Ret (Z.of_nat (i + 4), Z.of_nat (length pre) + 5,
         pre ++ groups (take 4 (drop i (pixels im))) ++ drop 5 rest).
Proof.
  intros Hi Hr. unfold gif_pixels4.
  destruct (rd_pixel im (Z.of_nat i)) as (v0 & -> & H0); [lia|]. cbn [mbind outcome_bind].
  destruct (rd_pixel im (Z.of_nat i + 1)) as (v1 & -> & H1); [lia|]. cbn [mbind outcome_bind].
  destruct (rd_pixel im (Z.of_nat i + 2)) as (v2 & -> & H2); [lia|]. cbn [mbind outcome_bind].
  destruct (rd_pixel im (Z.of_nat i + 3)) as (v3 & -> & H3); [lia|]. cbn [mbind outcome_bind].
  rewrite wr_bytes_run by done. cbn [mbind outcome_bind].
  replace (Z.to_nat (Z.of_nat i)) with i in H0 by lia.
  replace (Z.to_nat (Z.of_nat i + 1)) with (S i) in H1 by lia.
  replace (Z.to_nat (Z.of_nat i + 2)) with (S (S i)) in H2 by lia.
  replace (Z.to_nat (Z.of_nat i + 3)) with (S (S (S i))) in H3 by lia.
  rewrite (drop_S _ _ _ H0), (drop_S _ _ _ H1), (drop_S _ _ _ H2), (drop_S _ _ _ H3).
  cbn [take groups]. rewrite app_nil_r, Nat2Z.inj_add. done.
Qed.

(** A row: its length byte and fifty groups. *)
Lemma gif_groups_run im n : forall k (i : nat) pre rest,
  (i + 4 * n <= length im)%nat -> (5 * n <= length rest)%nat ->
  for_loop n k (gif_pixels4 im) (Z.of_nat i, Z.of_nat (length pre), pre ++ rest)
  = Ret (Z.of_nat (i + 4 * n), Z.of_nat (length pre + 5 * n),
         pre ++ groups (take (4 * n) (drop i (pixels im))) ++ drop (5 * n) rest).
Proof.
  induction n as [|n IH]; intros k i pre rest Hi Hr; cbn [for_loop].
  { rewrite Nat.mul_0_r, !Nat.add_0_r. by rewrite Nat.mul_0_r. }
  rewrite gif_pixels4_run by lia. cbn [mbind outcome_bind].
  set (g := groups (take 4 (drop i (pixels im)))).
  assert (Hp : length (pixels im) = length im) by apply length_map.
  assert (Hg : length g = 5%nat)
    by (apply (length_groups 1); rewrite length_take, length_drop; lia).
  pose proof (IH (k + 1) (i + 4)%nat (pre ++ g) (drop 5 rest) ltac:(lia)
    ltac:(rewrite length_drop; lia)) as H.
  rewrite length_app, Hg, <- app_assoc in H.
  replace (Z.of_nat (length pre) + 5) with (Z.of_nat (length pre + 5)) by lia. rewrite H.
  rewrite drop_drop, <- !app_assoc.
  replace (take (4 * S n) (drop i (pixels im)))
    with (take 4 (drop i (pixels im)) ++ take (4 * n) (drop (i + 4) (pixels im)))
    by (rewrite <- drop_drop, take_take_drop; f_equal; lia).
  rewrite (groups_app 1) by (rewrite length_take, length_drop; lia). fold g.
  rewrite <- app_assoc.
  replace (i + 4 + 4 * n)%nat with (i + 4 * S n)%nat by lia.
  replace (length pre + 5 + 5 * n)%nat with (length pre + 5 * S n)%nat by lia.
  by replace (5 + 5 * n)%nat with (5 * S n)%nat by lia.
Qed.

Lemma gif_row_run im k (i : nat) pre rest :
  (i + 200 <= length im)%nat -> (251 <= length rest)%nat ->
  gif_row im k (Z.of_nat i, Z.of_nat (length pre), pre ++ rest)
  = Ret (Z.of_nat (i + 200), Z.of_nat (length pre + 251),
         pre ++ (250 :: groups (take 200 (drop i (pixels im)))) ++ drop 251 rest).
Proof.
  intros Hi Hr. unfold gif_row. destruct rest as [|x rest]; cbn [length] in Hr; [lia|].
  rewrite wr_in by (rewrite length_app; cbn [length]; lia). cbn [mbind outcome_bind].
  rewrite Nat2Z.id, insert_app_r_alt, Nat.sub_diag by done.
  pose proof (gif_groups_run im 50 0 i (pre ++ [250]) rest ltac:(lia) ltac:(lia)) as H.
  rewrite length_app, Nat2Z.inj_add, <- !app_assoc in H.
  etransitivity; [exact H|].
  by replace (length pre + 251)%nat with (length pre + length [250%Z] + 5 * 50)%nat by (cbn; lia).
Qed.

(** The sub-blocks of [n] rows. *)
Fixpoint row_blocks (n : nat) (l : list Z) : list Z :=
  match n with
  | O => []
  | S n' => (250 :: groups (take 200 l)) ++ row_blocks n' (drop 200 l)
  end.

Lemma length_row_blocks n : forall l, length l = (200 * n)%nat -> length (row_blocks n l) = (251 * n)%nat.
Proof.
  induction n as [|n IH]; intros l Hl; cbn [row_blocks]; [done|].
  rewrite length_app, IH by (rewrite length_drop; lia). cbn [length].
  rewrite (length_groups 50) by (rewrite length_take; lia). lia.
Qed.

Lemma gif_rows_run im n : forall k (i : nat) pre rest,
  (i + 200 * n <= length im)%nat -> (251 * n <= length rest)%nat ->
  for_loop n k (gif_row im) (Z.of_nat i, Z.of_nat (length pre), pre ++ rest)
  = Ret (Z.of_nat (i + 200 * n), Z.of_nat (length pre + 251 * n),
         pre ++ row_blocks n (drop i (pixels im)) ++ drop (251 * n) rest).
Proof.
  induction n as [|n IH]; intros k i pre rest Hi Hr; cbn [for_loop row_blocks].
  { by rewrite !Nat.mul_0_r, !Nat.add_0_r. }
  rewrite gif_row_run by lia. cbn [mbind outcome_bind].
  set (g := 250 :: groups (take 200 (drop i (pixels im)))).
  assert (Hp : length (pixels im) = length im) by apply length_map.
  assert (Hg : length g = 251%nat)
    by (unfold g; cbn [length]; rewrite (length_groups 50); [done|];
        rewrite length_take, length_drop; lia).
  pose proof (IH (k + 1) (i + 200)%nat (pre ++ g) (drop 251 rest) ltac:(lia)
    ltac:(rewrite length_drop; lia)) as H.
  rewrite length_app, Hg, <- app_assoc in H. rewrite H, !drop_drop, <- !app_assoc.
  replace (i + 200 + 200 * n)%nat with (i + 200 * S n)%nat by lia.
  replace (length pre + 251 + 251 * n)%nat with (length pre + 251 * S n)%nat by lia.
  by replace (251 + 251 * n)%nat with (251 * S n)%nat by lia.
Qed.

(** The file as a whole. *)
Lemma makegif_run im old : picture im -> Z.of_nat (length old) = gifsize ->
  makegif im old = Ret (gif_header ++ row_blocks 70 (pixels im) ++ gif_trailer).
Proof.
  intros [Hl _] Ho. unfold makegif. unfold SIZE in Hl. unfold gifsize in Ho |- *.
  pose proof (wr_bytes_run gif_header [] old) as H. cbn [app length] in H.
  change (Z.of_nat 0) with 0 in H. rewrite H by (change (length gif_header) with 72%nat; lia).
  clear H. cbn [mbind outcome_bind]. change (length gif_header) with 72%nat.
  pose proof (gif_rows_run im 70 0 0 gif_header (drop 72 old) ltac:(lia)
    ltac:(rewrite length_drop; lia)) as H.
  change (length gif_header) with 72%nat in H. change (Z.of_nat 72) with 72 in H.
  change (Z.of_nat 0) with 0 in H. rewrite H. clear H. cbn [mbind outcome_bind].
  rewrite drop_0, drop_drop.
  assert (Hp : length (pixels im) = (200 * 70)%nat) by (unfold pixels; rewrite length_map; lia).
  rewrite app_assoc.
  replace (17646 - 4) with (Z.of_nat (length (gif_header ++ row_blocks 70 (pixels im))))
    by (rewrite length_app, (length_row_blocks 70) by done; change (length gif_header) with 72%nat; lia).
  rewrite wr_bytes_run by (rewrite length_drop; cbn [length gif_trailer]; lia).
  rewrite drop_drop, (drop_ge old) by (cbn [length gif_trailer]; lia).
  by rewrite app_nil_r, <- app_assoc.
Qed.

(** The decompressor gets each pixel back. *)
Lemma codes_app n : forall l t, length l = (5 * n)%nat -> codes (l ++ t) = codes l ++ codes t.
Proof.
  induction n as [|n IH]; intros l t Hl.
  - by destruct l.
  - destruct l as [|b0 [|b1 [|b2 [|b3 [|b4 l]]]]]; cbn [length] in Hl; try lia.
    cbn [app codes]. by rewrite IH by lia.
Qed.

Definition nibbles : list Z := map Z.of_nat (seq 0 16).

Lemma nibbles_spec a : 0 <= a < 16 -> a ∈ nibbles.
Proof.
  intros Ha. apply list_elem_of_fmap. exists (Z.to_nat a). split; [lia|].
  apply elem_of_seq. lia.
Qed.

Lemma gif_group_codes a b c d :
  0 <= a < 16 -> 0 <= b < 16 -> 0 <= c < 16 -> 0 <= d < 16 ->
  codes (flat_map bits8 (gif_group a b c d)) = [16; a; 16; b; 16; c; 16; d].
Proof.
  intros Ha%nibbles_spec Hb%nibbles_spec Hc%nibbles_spec Hd%nibbles_spec.
  assert (H : forallb (fun a => forallb (fun b => forallb (fun c => forallb (fun d =>
    bool_decide (codes (flat_map bits8 (gif_group a b c d)) = [16; a; 16; b; 16; c; 16; d]))
    nibbles) nibbles) nibbles) nibbles = true) by (vm_compute; reflexivity).
  rewrite forallb_forall in H. apply list_elem_of_In in Ha. apply H in Ha.
  rewrite forallb_forall in Ha. apply list_elem_of_In in Hb. apply Ha in Hb.
  rewrite forallb_forall in Hb. apply list_elem_of_In in Hc. apply Hb in Hc.
  rewrite forallb_forall in Hc. apply list_elem_of_In in Hd. apply Hc in Hd.
  by apply bool_decide_eq_true in Hd.
Qed.

Lemma decompress_groups n : forall l, length l = (4 * n)%nat -> Forall (fun v => 0 <= v < 16) l ->
  decompress (codes (flat_map bits8 (groups l ++ [17]))) = Some l.
Proof.
  induction n as [|n IH]; intros l Hl Hf.
  - by destruct l.
  - destruct l as [|a [|b [|c [|d l]]]]; cbn [length] in Hl; try lia.
    inversion Hf as [|? ? Ha Hf1]; inversion Hf1 as [|? ? Hb Hf2]; inversion Hf2 as [|? ? Hc Hf3];
      inversion Hf3 as [|? ? Hd Hf4]; subst.
    cbn [groups]. rewrite <- app_assoc, flat_map_app, (codes_app 8) by done.
    rewrite gif_group_codes by done.
    assert (Hs : forall v, 0 <= v < 16 -> (v <? 16) = true) by (intros; apply Z.ltb_lt; lia).
    cbn [app decompress Z.eqb Pos.eqb]. rewrite !Hs by done. rewrite IH by (done || lia). done.
Qed.

Lemma sub_blocks_row_blocks n : forall fuel l,
  (n + 2 <= fuel)%nat -> length l = (200 * n)%nat ->
  sub_blocks fuel (row_blocks n l ++ gif_trailer) = Some (groups l ++ [17], [59]).
Proof.
  induction n as [|n IH]; intros fuel l Hf Hl.
  - destruct l; [|done]. by destruct fuel as [|[|fuel]]; [lia..|].
  - destruct fuel as [|fuel]; [lia|]. cbn [row_blocks]. set (g := groups (take 200 l)).
    assert (Hg : length g = 250%nat) by (apply (length_groups 50); rewrite length_take; lia).
    rewrite <- app_assoc. cbn [app sub_blocks Z.eqb].
    rewrite (proj2 (Z.ltb_ge _ _)) by (rewrite length_app, Hg; lia).
    change (Z.to_nat 250) with 250%nat.
    rewrite take_app_length', drop_app_length' by done.
    rewrite IH by (rewrite ?length_drop; lia). cbn [mbind option_bind]. unfold g.
    rewrite app_assoc, <- (groups_app 50), take_drop by (rewrite length_take; lia). done.
Qed.

Lemma pixels_range im : Forall byte im -> Forall (fun v => 0 <= v < 16) (pixels im).
Proof.
  intros H. apply Forall_fmap. eapply Forall_impl; [exact H|]. intros v Hv. unfold byte in Hv.
  cbn. rewrite Z.shiftr_div_pow2 by lia. change (2 ^ 4) with 16. split.
  - apply Z.div_pos; lia.
  - apply Z.div_lt_upper_bound; lia.
Qed.

(** Everything written is a byte. *)
Lemma groups_bytes n : forall l, length l = (4 * n)%nat -> Forall (fun v => 0 <= v < 16) l ->
  Forall byte (groups l).
Proof.
  induction n as [|n IH]; intros l Hl Hf.
  - by destruct l.
  - destruct l as [|a [|b [|c [|d l]]]]; cbn [length] in Hl; try lia.
    rewrite !Forall_cons in Hf. destruct Hf as (Ha & Hb & Hc & Hd & Hf).
    cbn [groups]. apply Forall_app. split; [|by apply IH; [lia|]].
    assert (Hu : forall z, byte (u8 z)) by (intros; apply Z.mod_pos_bound; lia).
    assert (byte (Z.shiftr b 1)).
    { unfold byte. rewrite Z.shiftr_div_pow2 by lia. change (2 ^ 1) with 2. split.
      - apply Z.div_pos; lia.
      - apply Z.div_lt_upper_bound; lia. }
    by repeat (apply Forall_cons; split).
Qed.

Lemma row_blocks_bytes n : forall l, length l = (200 * n)%nat -> Forall (fun v => 0 <= v < 16) l ->
  Forall byte (row_blocks n l).
Proof.
  induction n as [|n IH]; intros l Hl Hf; cbn [row_blocks]; [done|].
  apply Forall_app. split.
  - apply Forall_cons. split; [split; done|].
    apply (groups_bytes 50); [rewrite length_take; lia|by apply Forall_take].
  - apply IH; [rewrite length_drop; lia|by apply Forall_drop].
Qed.

Lemma makegif_bytes im : picture im ->
  Forall byte (gif_header ++ row_blocks 70 (pixels im) ++ gif_trailer).
Proof.
  intros [Hl Hb].
  assert (Hb' : forall l, forallb (fun v => (0 <=? v) && (v <? 256)) l = true -> Forall byte l).
  { intros l H. apply Forall_forall. intros v Hv%list_elem_of_In.
    rewrite forallb_forall in H. apply H in Hv. unfold byte. lia. }
  apply Forall_app. split; [by apply Hb'|]. apply Forall_app. split; [|by apply Hb'].
  apply row_blocks_bytes; [|apply pixels_range; exact Hb].
  unfold pixels. rewrite length_map. unfold SIZE in Hl. lia.
Qed.

(** As a string of characters. *)
Lemma code_chr_bytes l : Forall byte l -> map code (map chr l) = l.
Proof.
  induction 1 as [|v l Hv _ IH]; [done|]. cbn [map]. by rewrite IH, code_chr, Z.mod_small.
Qed.

(** The header says what the picture is. *)
Definition greys : list (Z * Z * Z) :=
  map (fun k => let g := if k =? 15 then 255 else 16 * k in (g, g, g)) nibbles.

Lemma read_header_gif data :
  read_header (gif_header ++ data) = Some (MkHeader (200, 70) greys (0, 0) (200, 70) 4, data).
Proof. reflexivity. Qed.

Lemma grey_shown v : byte v -> greys !! Z.to_nat (Z.shiftr v 4) = Some (shown v).
Proof.
  intros Hv. assert (H : forallb (fun n => let v := Z.of_nat n in
    bool_decide (greys !! Z.to_nat (Z.shiftr v 4) = Some (shown v))) (seq 0 256) = true)
    by (vm_compute; reflexivity).
  rewrite forallb_forall in H. specialize (H (Z.to_nat v)). cbv zeta in H. unfold byte in Hv.
  rewrite Z2Nat.id in H by lia. apply (bool_decide_eq_true_1 _), H, in_seq. lia.
Qed.

Lemma pixels_shown im : Forall byte im ->
  mapM (fun i => greys !! Z.to_nat i) (pixels im) = Some (map shown im).
Proof.
  induction 1 as [|v im Hv _ IH]; [done|]. unfold pixels in *. cbn [map mapM].
  by rewrite grey_shown, IH.
Qed.

Lemma gif_read im old : picture im -> Z.of_nat (length old) = gifsize ->
  exists gif, makegif im old = Ret gif /\ read_gif gif = Some (shown_image im) /\ Forall byte gif /\
    Z.of_nat (length gif) = gifsize.
Proof.
  intros Him Ho. pose proof (makegif_run im old Him Ho) as Hrun.
  exists (gif_header ++ row_blocks 70 (pixels im) ++ gif_trailer). split; [exact Hrun|].
  pose proof (makegif_bytes im Him) as Hbytes. destruct Him as [Hl Hb].
  assert (Hp : length (pixels im) = (200 * 70)%nat)
    by (unfold pixels; rewrite length_map; unfold SIZE in Hl; lia).
  split; [|split; [exact Hbytes|]].
  - unfold read_gif. rewrite read_header_gif. cbn [mbind option_bind].
    rewrite (sub_blocks_row_blocks 70)
      by (rewrite ?length_app, ?length_row_blocks; done || (change (length gif_header) with 72%nat; lia)).
    cbn [mbind option_bind]. rewrite !bool_decide_eq_true_2 by done. cbn [code_size position size screen palette Z.eqb Pos.eqb andb fst snd].
    rewrite (decompress_groups 3500); [|done|by apply pixels_range].
    cbn [mbind option_bind]. rewrite Hp, (pixels_shown im Hb). reflexivity.
  - rewrite !length_app, (length_row_blocks 70) by done. done.
Qed.

(** C28. The GIF that [makegif] writes is complete and faithful: for every
    picture of 200 by 70 bytes, whatever the buffer held before, it fills exactly
    [gifsize] bytes without leaving the buffer, and a viewer that reads screen
    size, colour table, image descriptor and compressed data from the file sees
    an image of 200 by 70 pixels in which each pixel has the grey of its byte
    rounded down to a multiple of sixteen, or white for the brightest sixteen. *)
Theorem makegif_roundtrip (im old : list Z) :
  picture im -> Z.of_nat (length old) = gifsize ->
  exists gif, makegif im old = Ret gif /\ Z.of_nat (length gif) = gifsize /\
    read_gif gif = Some (shown_image im).
Proof. intros Him Ho. destruct (gif_read im old Him Ho) as (gif & ? & ? & _ & ?). by exists gif. Qed.

Lemma makegif_roundtrip_witness :
  exists gif, makegif (replicate (Z.to_nat SIZE) 255) (replicate (Z.to_nat gifsize) 0) = Ret gif /\
    Z.of_nat (length gif) = gifsize /\
    read_gif gif = Some (shown_image (replicate (Z.to_nat SIZE) 255)).
Proof.
  apply (makegif_roundtrip (replicate (Z.to_nat SIZE) 255) (replicate (Z.to_nat gifsize) 0)).
  - exact picture_blank.
  - rewrite length_replicate. reflexivity.
Defined.

End Captcha.
