(* ===== verification/Base64.v ===== *)
(** * Base64: the codec of src/base64.cpp

    [Encode] and [Decode] with their 32-bit accumulator, the preallocated
    result the encoder writes by index, and the table the decoder reads by
    character code.  The theorems relate them to the three-byte grouping of the
    standard ([b64_ref]), show that no write or assertion can fail, and that
    decoding inverts encoding. *)

From S2P Require Import Prelude.

Local Open Scope Z_scope.

Module Base64.

Definition b64_table : str :=
  lit "ABCDEFGHIJKLMNOPQRSTUVWXYZabcdefghijklmnopqrstuvwxyz0123456789+/".

Definition reverse_table : list Z :=
  [64; 64; 64; 64; 64; 64; 64; 64; 64; 64; 64; 64; 64; 64; 64; 64;
   64; 64; 64; 64; 64; 64; 64; 64; 64; 64; 64; 64; 64; 64; 64; 64;
   64; 64; 64; 64; 64; 64; 64; 64; 64; 64; 64; 62; 64; 64; 64; 63;
   52; 53; 54; 55; 56; 57; 58; 59; 60; 61; 64; 64; 64; 64; 64; 64;
   64;  0;  1;  2;  3;  4;  5;  6;  7;  8;  9; 10; 11; 12; 13; 14;
   15; 16; 17; 18; 19; 20; 21; 22; 23; 24; 25; 64; 64; 64; 64; 64;
   64; 26; 27; 28; 29; 30; 31; 32; 33; 34; 35; 36; 37; 38; 39; 40;
   41; 42; 43; 44; 45; 46; 47; 48; 49; 50; 51; 64; 64; 64; 64; 64].

(** [b64_table[i]] and [reverse_table[i]]. *)
Definition b64_at (i : Z) : char := default NUL (b64_table !! Z.to_nat i).
Definition rev_at (i : Z) : Z := default 64 (reverse_table !! Z.to_nat i).

Definition SIZE_MAX : Z := 2 ^ 64 - 1.

(** The local variables of [Base64::Encode]. *)
Record enc_state := EncState {
  retval : str;
  outpos : nat;
  bits_collected : Z;
  accumulator : Z
}.

(** [retval[outpos++] = c]. *)
Definition write (c : char) (st : enc_state) : outcome enc_state :=
  if (outpos st <? length (retval st))%nat
  then Ret (EncState (<[outpos st := c]> (retval st)) (S (outpos st))
              (bits_collected st) (accumulator st))
  else Fault OutOfBounds.

(** The inner [while (bits_collected >= 6)]. *)
Fixpoint emit (fuel : nat) (st : enc_state) : outcome enc_state :=
  if 6 <=? bits_collected st then
    match fuel with
    | O => Ret st
    | S fuel' =>
        let b := bits_collected st - 6 in
        st' ← write (b64_at (Z.land (Z.shiftr (accumulator st) b) 63))
                (EncState (retval st) (outpos st) b (accumulator st));
        emit fuel' st'
    end
  else Ret st.

(** The body of the outer [for]. *)
Definition encode_byte (c : char) (st : enc_state) : outcome enc_state :=
  let acc := Z.lor (u32 (Z.shiftl (accumulator st) 8)) (Z.land (code c) 255) in
  let b := bits_collected st + 8 in
  emit (Z.to_nat b) (EncState (retval st) (outpos st) b acc).

Fixpoint encode_loop (l : str) (st : enc_state) : outcome enc_state :=
  match l with
  | [] => Ret st
  | c :: l' => st' ← encode_byte c st; encode_loop l' st'
  end.

(** [if (bits_collected > 0)]: any trailing bits that are missing. *)
Definition encode_tail (st : enc_state) : outcome enc_state :=
  if 0 <? bits_collected st then
    if bits_collected st <? 6 then
      let acc := u32 (Z.shiftl (accumulator st) (6 - bits_collected st)) in
      write (b64_at (Z.land acc 63))
        (EncState (retval st) (outpos st) (bits_collected st) acc)
    else Fault AssertFailed
  else Ret st.

Definition Encode (bindata : str) : outcome str :=
  if (SIZE_MAX / 4) * 3 <? Z.of_nat (length bindata) then Throw length_error
  else
    let retval0 := replicate ((length bindata + 2) / 3 * 4) "="%char in
    st ← encode_loop bindata (EncState retval0 0 0 0);
    st' ← encode_tail st;
    if (outpos st' <=? length (retval st'))%nat then Ret (retval st')
    else Fault AssertFailed.

(** The value of [const int c = *data]: [char] is signed. *)
Definition schar (c : char) : Z :=
  if code c <? 128 then code c else code c - 256.

(** One iteration of the loop of [Base64::Decode]: the bits collected, the
    accumulator and the byte appended, if any. *)
Definition decode_char (c : char) (bits acc : Z) : outcome (Z * Z * str) :=
  if isspace c || bool_decide (c = "="%char) then Ret (bits, acc, [])
  else if (127 <? schar c) || (schar c <? 0) || (63 <? rev_at (schar c))
       then Throw invalid_argument
       else
         let acc' := Z.lor (u32 (Z.shiftl acc 6)) (rev_at (schar c)) in
         let bits' := bits + 6 in
         if 8 <=? bits' then
           Ret (bits' - 8, acc', [chr (Z.land (Z.shiftr acc' (bits' - 8)) 255)])
         else Ret (bits', acc', []).

Fixpoint decode_loop (data : str) (bits acc : Z) (retval : str) : outcome str :=
  match data with
  | [] => Ret retval
  | c :: data' =>
      '(bits', acc', out) ← decode_char c bits acc;
      decode_loop data' bits' acc' (retval ++ out)
  end.

Definition Decode (data : str) : outcome str := decode_loop data 0 0 [].

(** ** Reference: the grouping of three bytes into four characters *)

Fixpoint b64_ref (l : str) : str :=
  match l with
  | a :: b :: c :: t =>
      b64_at (code a / 4) :: b64_at (code a mod 4 * 16 + code b / 16)
      :: b64_at (code b mod 16 * 4 + code c / 64) :: b64_at (code c mod 64)
      :: b64_ref t
  | [a; b] =>
      [b64_at (code a / 4); b64_at (code a mod 4 * 16 + code b / 16);
       b64_at (code b mod 16 * 4); "="%char]
  | [a] => [b64_at (code a / 4); b64_at (code a mod 4 * 16); "="%char; "="%char]
  | [] => []
  end.

(** A character the decoder takes as data. *)
Definition b64_legal (c : char) : bool :=
  isspace c || bool_decide (c = "="%char) || ((code c <? 128) && (rev_at (code c) <? 64)).

Example encode_foob : Encode (lit "foob") = Ret (lit "Zm9vYg==").
Proof. vm_compute. reflexivity. Qed.

Example decode_spaces : Decode (lit "Zm 9v Yg==") = Ret (lit "foob").
Proof. vm_compute. reflexivity. Qed.

(** ** The encoder follows the reference *)

Lemma write_pad out k b a c :
  write c (EncState (out ++ replicate (S k) "="%char) (length out) b a)
  = Ret (EncState ((out ++ [c]) ++ replicate k "="%char) (length (out ++ [c])) b a).
Proof.
  unfold write; cbn [outpos retval bits_collected accumulator].
  rewrite (proj2 (Nat.ltb_lt _ _)) by (rewrite length_app, length_replicate; lia).
  rewrite insert_app_r_alt, Nat.sub_diag by lia.
  rewrite length_app, <- app_assoc. cbn. do 2 f_equal; lia.
Qed.

Lemma push_byte A c :
  Z.lor (u32 (Z.shiftl A 8)) (Z.land (code c) 255) = A mod 2 ^ 24 * 256 + code c.
Proof.
  pose proof (code_range c).
  rewrite (land_mask _ 8), Z.mod_small by lia.
  replace (u32 (Z.shiftl A 8)) with (Z.shiftl (A mod 2 ^ 24) 8).
  - apply (lor_shiftl_add _ _ 8); lia.
  - unfold u32. rewrite !Z.shiftl_mul_pow2 by lia. divmod.
Qed.

Lemma sextet v k : 0 <= k -> Z.land (Z.shiftr v k) 63 = v / 2 ^ k mod 64.
Proof. intros. rewrite (land_mask _ 6), Z.shiftr_div_pow2 by lia. done. Qed.

Lemma emit_stop fuel rv p b a :
  b < 6 -> emit fuel (EncState rv p b a) = Ret (EncState rv p b a).
Proof. intros. destruct fuel; simpl; by rewrite (proj2 (Z.leb_gt _ _)). Qed.

Lemma emit_more fuel out k b a :
  6 <= b ->
  emit (S fuel) (EncState (out ++ replicate (S k) "="%char) (length out) b a)
  = emit fuel
      (EncState ((out ++ [b64_at (a / 2 ^ (b - 6) mod 64)]) ++ replicate k "="%char)
         (length (out ++ [b64_at (a / 2 ^ (b - 6) mod 64)])) (b - 6) a).
Proof.
  intros. cbn [emit bits_collected accumulator retval outpos].
  rewrite (proj2 (Z.leb_le _ _)) by done.
  rewrite write_pad, sextet by lia. done.
Qed.

(** The three positions a byte can take in its group. *)
Lemma encode_byte_0 out k A c :
  encode_byte c (EncState (out ++ replicate (S k) "="%char) (length out) 0 A)
  = Ret (EncState ((out ++ [b64_at (code c / 4)]) ++ replicate k "="%char)
           (length (out ++ [b64_at (code c / 4)])) 2 (A mod 2 ^ 24 * 256 + code c)).
Proof.
  unfold encode_byte; cbn [bits_collected accumulator retval outpos].
  rewrite push_byte. change (Z.to_nat (0 + 8)) with 8%nat. change (0 + 8) with 8.
  rewrite emit_more, emit_stop by lia.
  replace ((A mod 2 ^ 24 * 256 + code c) / 2 ^ (8 - 6) mod 64) with (code c / 4); [done|].
  pose proof (code_range c). divmod.
Qed.

Lemma encode_byte_2 out k A c :
  encode_byte c (EncState (out ++ replicate (S k) "="%char) (length out) 2 A)
  = Ret (EncState ((out ++ [b64_at (A mod 4 * 16 + code c / 16)]) ++ replicate k "="%char)
           (length (out ++ [b64_at (A mod 4 * 16 + code c / 16)])) 4
           (A mod 2 ^ 24 * 256 + code c)).
Proof.
  unfold encode_byte; cbn [bits_collected accumulator retval outpos].
  rewrite push_byte. change (Z.to_nat (2 + 8)) with 10%nat. change (2 + 8) with 10.
  rewrite emit_more, emit_stop by lia.
  replace ((A mod 2 ^ 24 * 256 + code c) / 2 ^ (10 - 6) mod 64)
    with (A mod 4 * 16 + code c / 16); [done|].
  pose proof (code_range c). divmod.
Qed.

Lemma encode_byte_4 out k A c :
  let out' := out ++ [b64_at (A mod 16 * 4 + code c / 64); b64_at (code c mod 64)] in
  encode_byte c (EncState (out ++ replicate (S (S k)) "="%char) (length out) 4 A)
  = Ret (EncState (out' ++ replicate k "="%char) (length out') 0
           (A mod 2 ^ 24 * 256 + code c)).
Proof.
  cbv zeta. unfold encode_byte; cbn [bits_collected accumulator retval outpos].
  rewrite push_byte. change (Z.to_nat (4 + 8)) with 12%nat. change (4 + 8) with 12.
  rewrite emit_more by lia. rewrite emit_more, emit_stop by lia.
  pose proof (code_range c).
  replace ((A mod 2 ^ 24 * 256 + code c) / 2 ^ (12 - 6) mod 64)
    with (A mod 16 * 4 + code c / 64) by divmod.
  replace ((A mod 2 ^ 24 * 256 + code c) / 2 ^ (12 - 6 - 6) mod 64)
    with (code c mod 64) by divmod.
  by rewrite <- (app_assoc out).
Qed.

Lemma encode_tail_2 out k A :
  let out' := out ++ [b64_at (A mod 4 * 16)] in
  encode_tail (EncState (out ++ replicate (S k) "="%char) (length out) 2 A)
  = Ret (EncState (out' ++ replicate k "="%char) (length out') 2 (u32 (Z.shiftl A 4))).
Proof.
  cbv zeta. unfold encode_tail; cbn [bits_collected accumulator retval outpos].
  change (6 - 2) with 4. cbn [Z.ltb Z.compare Pos.compare Pos.compare_cont].
  rewrite write_pad, (land_mask _ 6) by lia.
  replace (u32 (Z.shiftl A 4) mod 2 ^ 6) with (A mod 4 * 16); [done|].
  unfold u32. rewrite Z.shiftl_mul_pow2 by lia. divmod.
Qed.

Lemma encode_tail_4 out k A :
  let out' := out ++ [b64_at (A mod 16 * 4)] in
  encode_tail (EncState (out ++ replicate (S k) "="%char) (length out) 4 A)
  = Ret (EncState (out' ++ replicate k "="%char) (length out') 4 (u32 (Z.shiftl A 2))).
Proof.
  cbv zeta. unfold encode_tail; cbn [bits_collected accumulator retval outpos].
  change (6 - 4) with 2. cbn [Z.ltb Z.compare Pos.compare Pos.compare_cont].
  rewrite write_pad, (land_mask _ 6) by lia.
  replace (u32 (Z.shiftl A 2) mod 2 ^ 6) with (A mod 16 * 4); [done|].
  unfold u32. rewrite Z.shiftl_mul_pow2 by lia. divmod.
Qed.

(** The number of characters of the result. *)
Definition b64_length (n : nat) : nat := ((n + 2) / 3 * 4)%nat.

Lemma b64_length_3 n : b64_length (S (S (S n))) = (4 + b64_length n)%nat.
Proof.
  unfold b64_length. replace (S (S (S n)) + 2)%nat with (1 * 3 + (n + 2))%nat by lia.
  rewrite Nat.div_add_l; lia.
Qed.

Lemma push_mod_4 X c : (X * 256 + code c) mod 4 = code c mod 4.
Proof. divmod. Qed.

Lemma push_mod_16 X c : (X * 256 + code c) mod 16 = code c mod 16.
Proof. divmod. Qed.

(** From a group boundary, the loop and the tail write the reference encoding. *)
Lemma encode_from l out A :
  exists p b a,
    (st ← encode_loop l
            (EncState (out ++ replicate (b64_length (length l)) "="%char) (length out) 0 A);
     encode_tail st)
    = Ret (EncState (out ++ b64_ref l) p b a) /\ (p <= length (out ++ b64_ref l))%nat.
Proof.
  revert out A. induction l as [|a|a b|a b c t IH] using list_three_ind; intros out A.
  - exists (length out), 0, A. cbn. by rewrite app_nil_r.
  - change (b64_length (length [a])) with 4%nat. cbn [encode_loop].
    rewrite encode_byte_0. cbn [mbind outcome_bind].
    rewrite encode_tail_2. do 3 eexists. split.
    + do 2 f_equal. rewrite <- !app_assoc. cbn. do 4 f_equal.
      pose proof (code_range a). divmod.
    + rewrite !length_app. cbn. lia.
  - change (b64_length (length [a; b])) with 4%nat. cbn [encode_loop].
    rewrite encode_byte_0. cbn [mbind outcome_bind].
    rewrite encode_byte_2. cbn [mbind outcome_bind].
    rewrite encode_tail_4. do 3 eexists. split.
    + do 2 f_equal. rewrite <- !app_assoc. cbn.
      pose proof (code_range a); pose proof (code_range b).
      repeat (f_equal; try divmod).
    + rewrite !length_app. cbn. lia.
  - cbn [length]. rewrite b64_length_3. cbn [encode_loop Nat.add].
    rewrite encode_byte_0. cbn [mbind outcome_bind].
    rewrite encode_byte_2. cbn [mbind outcome_bind].
    rewrite encode_byte_4. cbn [mbind outcome_bind].
    rewrite push_mod_4, push_mod_16.
    set (out' := ((out ++ _) ++ _) ++ _).
    replace (out ++ b64_ref (a :: b :: c :: t)) with (out' ++ b64_ref t); [apply IH|].
    unfold out'. by rewrite <- !app_assoc.
Qed.

(** *** The decoder *)

Lemma rev_b64 s : 0 <= s < 64 ->
  isspace (b64_at s) = false /\ b64_at s <> "="%char /\
  schar (b64_at s) = code (b64_at s) /\ 0 <= code (b64_at s) < 128 /\
  rev_at (code (b64_at s)) = s.
Proof.
  intros Hs. assert (Hn : (Z.to_nat s < 64)%nat) by lia.
  rewrite <- (Z2Nat.id s) by lia. generalize dependent (Z.to_nat s). clear s Hs.
  intros n Hn. do 64 (destruct n as [|n]; [vm_compute; intuition congruence|]). lia.
Qed.

Lemma push_sextet A s : 0 <= s < 64 ->
  Z.lor (u32 (Z.shiftl A 6)) s = A mod 2 ^ 26 * 64 + s.
Proof.
  intros. replace (u32 (Z.shiftl A 6)) with (Z.shiftl (A mod 2 ^ 26) 6).
  - apply (lor_shiftl_add _ _ 6); lia.
  - unfold u32. rewrite !Z.shiftl_mul_pow2 by lia. divmod.
Qed.

(** Decoding a character of the table. *)
Lemma decode_sextet s bits A : 0 <= s < 64 -> 0 <= bits ->
  decode_char (b64_at s) bits A =
  let A' := A mod 2 ^ 26 * 64 + s in
  if 8 <=? bits + 6 then Ret (bits - 2, A', [chr (A' / 2 ^ (bits - 2))])
  else Ret (bits + 6, A', []).
Proof.
  intros Hs Hb. destruct (rev_b64 s Hs) as (Hsp & Heq & Hsc & Hr & Hrev).
  unfold decode_char. rewrite Hsp, bool_decide_false, Hsc, Hrev by done. cbn [orb].
  rewrite (proj2 (Z.ltb_ge 127 _)), (proj2 (Z.ltb_ge _ 0)), (proj2 (Z.ltb_ge 63 _)) by lia.
  cbn [orb]. rewrite push_sextet by done. cbv zeta.
  replace (bits + 6 - 8) with (bits - 2) by lia.
  destruct (Z.leb_spec 8 (bits + 6)); [|done].
  rewrite (land_mask _ 8), Z.shiftr_div_pow2 by lia. do 3 f_equal.
  apply code_inj. rewrite !code_chr. apply Z.mod_mod. lia.
Qed.

Lemma decode_pad bits A : decode_char "="%char bits A = Ret (bits, A, []).
Proof. done. Qed.

Lemma chr_eq z c : z mod 256 = code c -> chr z = c.
Proof. intros H. apply code_inj. by rewrite code_chr. Qed.

(** The same at each of the four positions of a group. *)
Lemma decode_sextet_0 s A : 0 <= s < 64 ->
  decode_char (b64_at s) 0 A = Ret (6, A mod 2 ^ 26 * 64 + s, []).
Proof. intros. by rewrite decode_sextet by lia. Qed.

Lemma decode_sextet_6 s A : 0 <= s < 64 ->
  decode_char (b64_at s) 6 A =
  Ret (4, A mod 2 ^ 26 * 64 + s, [chr ((A mod 2 ^ 26 * 64 + s) / 16)]).
Proof. intros. by rewrite decode_sextet by lia. Qed.

Lemma decode_sextet_4 s A : 0 <= s < 64 ->
  decode_char (b64_at s) 4 A =
  Ret (2, A mod 2 ^ 26 * 64 + s, [chr ((A mod 2 ^ 26 * 64 + s) / 4)]).
Proof. intros. by rewrite decode_sextet by lia. Qed.

Lemma decode_sextet_2 s A : 0 <= s < 64 ->
  decode_char (b64_at s) 2 A =
  Ret (0, A mod 2 ^ 26 * 64 + s, [chr (A mod 2 ^ 26 * 64 + s)]).
Proof.
  intros. rewrite decode_sextet by lia. cbn -[Z.div Z.modulo]. by rewrite Z.div_1_r.
Qed.

Ltac decode_step :=
  cbn [decode_loop];
  first [rewrite decode_pad | rewrite decode_sextet_0 by divmod
        | rewrite decode_sextet_6 by divmod | rewrite decode_sextet_4 by divmod
        | rewrite decode_sextet_2 by divmod];
  cbn [mbind outcome_bind].

Lemma decode_ref l A rv : decode_loop (b64_ref l) 0 A rv = Ret (rv ++ l).
Proof.
  revert A rv. induction l as [|a|a b|a b c t IH] using list_three_ind; intros A rv.
  - cbn. by rewrite app_nil_r.
  - pose proof (code_range a). cbn [b64_ref]. do 4 decode_step. cbn [decode_loop].
    rewrite !app_nil_r. do 3 f_equal. apply chr_eq. divmod.
  - pose proof (code_range a); pose proof (code_range b). cbn [b64_ref].
    do 4 decode_step. cbn [decode_loop]. rewrite !app_nil_r, <- !app_assoc. cbn [app].
    repeat (f_equal; try (apply chr_eq; divmod)).
  - pose proof (code_range a); pose proof (code_range b); pose proof (code_range c).
    cbn [b64_ref]. do 4 decode_step. rewrite IH, !app_nil_r, <- !app_assoc. cbn [app].
    repeat (f_equal; try (apply chr_eq; divmod)).
Qed.

(** ** Which strings the decoder accepts, and how much it returns *)

Definition b64_data (c : char) : bool :=
  b64_legal c && negb (isspace c || bool_decide (c = "="%char)).

(** The number of characters of [s] that carry six bits each. *)
Definition data_count (s : str) : nat := length (filter (fun c => b64_data c = true) s).

Lemma decode_char_legal c bits A : b64_legal c = true -> 0 <= bits < 8 ->
  exists bits' A' out, decode_char c bits A = Ret (bits', A', out) /\
    0 <= bits' < 8 /\
    8 * Z.of_nat (length out) + bits' = bits + (if b64_data c then 6 else 0).
Proof.
  intros Hl Hb. unfold b64_data. rewrite Hl. unfold b64_legal in Hl.
  unfold decode_char. destruct (isspace c || bool_decide (c = "="%char)); cbn [orb] in Hl.
  - do 3 eexists. split; [done|]. cbn. lia.
  - boolify. pose proof (code_range c). unfold schar.
    rewrite (proj2 (Z.ltb_lt _ 128)) by done.
    rewrite (proj2 (Z.ltb_ge 127 _)), (proj2 (Z.ltb_ge _ 0)), (proj2 (Z.ltb_ge 63 _)) by lia.
    cbn [orb]. destruct (Z.leb_spec 8 (bits + 6)).
    all: do 3 eexists; split; [done|]; cbn; lia.
Qed.

Lemma decode_char_illegal c bits A :
  b64_legal c = false -> decode_char c bits A = Throw invalid_argument.
Proof.
  unfold b64_legal, decode_char. intros [-> Hd]%orb_false_iff. pose proof (code_range c).
  unfold schar. destruct (Z.ltb_spec (code c) 128); cbn [andb] in Hd.
  - apply Z.ltb_ge in Hd. rewrite (proj2 (Z.ltb_lt 63 _)) by lia. by rewrite orb_true_r.
  - rewrite (proj2 (Z.ltb_lt (code c - 256) 0)) by lia. by rewrite orb_true_r.
Qed.

Lemma decode_loop_legal s : forall bits A rv,
  forallb b64_legal s = true -> 0 <= bits < 8 ->
  exists out, decode_loop s bits A rv = Ret (rv ++ out) /\
    Z.of_nat (length out) = (bits + 6 * Z.of_nat (data_count s)) / 8.
Proof.
  induction s as [|c s IH]; intros bits A rv Hl Hb; cbn [decode_loop forallb] in *.
  - exists []. rewrite app_nil_r. split; [done|]. cbn. divmod.
  - apply andb_true_iff in Hl as [Hc Hs].
    destruct (decode_char_legal c bits A Hc Hb) as (b' & A' & o & -> & Hb' & Ho).
    cbn [mbind outcome_bind].
    destruct (IH b' A' (rv ++ o) Hs Hb') as (out & -> & Hout).
    exists (o ++ out). rewrite app_assoc. split; [done|].
    rewrite length_app, Nat2Z.inj_add, Hout. unfold data_count. rewrite filter_cons.
    destruct (b64_data c) eqn:E.
    + rewrite decide_True by done. cbn [length]. unfold data_count. divmod.
    + rewrite decide_False by done. unfold data_count. divmod.
Qed.

Lemma decode_loop_throws s : forall bits A rv,
  0 <= bits < 8 -> forallb b64_legal s = false ->
  decode_loop s bits A rv = Throw invalid_argument.
Proof.
  induction s as [|c s IH]; intros bits A rv Hb Hl; cbn [decode_loop forallb] in *; [done|].
  destruct (b64_legal c) eqn:Hc.
  - destruct (decode_char_legal c bits A Hc Hb) as (b' & A' & o & -> & Hb' & _).
    by apply IH.
  - by rewrite decode_char_illegal.
Qed.

Lemma decode_legal s : forallb b64_legal s = true ->
  exists out, Decode s = Ret out /\ length out = (6 * data_count s / 8)%nat.
Proof.
  intros Hl. destruct (decode_loop_legal s 0 0 [] Hl ltac:(lia)) as (out & E & Hn).
  exists out. split; [done|]. apply Nat2Z.inj. rewrite Hn, Nat2Z.inj_div. f_equal; lia.
Qed.

Lemma decode_throws s :
  forallb b64_legal s = false -> Decode s = Throw invalid_argument.
Proof. apply decode_loop_throws. lia. Qed.

(** ** The lemmas clients use *)

Lemma b64_at_legal s : 0 <= s < 64 -> b64_legal (b64_at s) = true.
Proof.
  intros Hs. destruct (rev_b64 s Hs) as (H1 & H2 & _ & H3 & H4).
  unfold b64_legal. rewrite H1, bool_decide_false, H4 by done. cbn [orb].
  apply andb_true_iff. split; apply Z.ltb_lt; lia.
Qed.

Lemma b64_at_not_nul s : 0 <= s < 64 -> b64_at s <> NUL.
Proof. intros Hs E. pose proof (b64_at_legal s Hs) as H. by rewrite E in H. Qed.

Lemma length_b64_ref l : length (b64_ref l) = b64_length (length l).
Proof.
  induction l as [|a|a b|a b c t IH] using list_three_ind; [done..|].
  cbn [length b64_ref]. by rewrite b64_length_3, IH.
Qed.

Lemma b64_ref_no_nul l : NUL ∉ b64_ref l.
Proof.
  induction l as [|a|a b|a b c t IH] using list_three_ind; cbn [b64_ref].
  all: rewrite ?not_elem_of_cons; repeat split; try (by apply not_elem_of_nil); try done.
  all: try (intros E; symmetry in E; revert E; apply b64_at_not_nul).
  all: pose proof code_range; try pose proof (code_range a); try pose proof (code_range b);
       try pose proof (code_range c); divmod.
Qed.

(** The characters of an encoding; the first is never padding. *)
Definition b64_char (c : char) : bool := bool_decide (c = "="%char) || bool_decide (c ∈ b64_table).

Lemma b64_at_table s : 0 <= s < 64 -> b64_at s ∈ b64_table.
Proof.
  intros Hs. unfold b64_at. destruct (lookup_lt_is_Some_2 b64_table (Z.to_nat s)) as [c Hc].
  { change (length b64_table) with 64%nat. lia. }
  rewrite Hc. by eapply list_elem_of_lookup_2.
Qed.

Lemma b64_at_char s : 0 <= s < 64 -> b64_char (b64_at s) = true.
Proof. intros Hs. unfold b64_char. by rewrite (bool_decide_true (_ ∈ _)), orb_true_r by (by apply b64_at_table). Qed.

Lemma b64_ref_chars l : forallb b64_char (b64_ref l) = true.
Proof.
  induction l as [|a|a b|a b c t IH] using list_three_ind; cbn [b64_ref forallb]; [done|..].
  all: try pose proof (code_range a); try pose proof (code_range b); try pose proof (code_range c).
  all: rewrite ?b64_at_char by divmod; done.
Qed.

Lemma b64_ref_head a l : exists c t, b64_ref (a :: l) = c :: t /\ c ∈ b64_table.
Proof.
  pose proof (code_range a).
  destruct l as [|b [|c l]]; cbn [b64_ref]; do 2 eexists; (split; [reflexivity|]);
    apply b64_at_table; divmod.
Qed.

Lemma encode_ref l :
  Z.of_nat (length l) <= (SIZE_MAX / 4) * 3 -> Encode l = Ret (b64_ref l).
Proof.
  intros Hl. unfold Encode. rewrite (proj2 (Z.ltb_ge _ _)) by done.
  destruct (encode_from l [] 0) as (p & b & a & E & Hp).
  change (((length l + 2) / 3 * 4)%nat) with (b64_length (length l)).
  cbn [app length] in *. destruct (encode_loop l _) as [st| |]; [|done..].
  cbn [mbind outcome_bind] in *. rewrite E. cbn [mbind outcome_bind outpos retval].
  by rewrite (proj2 (Nat.leb_le _ _)).
Qed.

Lemma encode_no_fault l f : Encode l <> Fault f.
Proof.
  destruct (decide (Z.of_nat (length l) <= (SIZE_MAX / 4) * 3)) as [Hl|Hl].
  - by rewrite encode_ref.
  - unfold Encode. by rewrite (proj2 (Z.ltb_lt _ _)) by lia.
Qed.

Lemma decode_encode l : Decode (b64_ref l) = Ret l.
Proof. apply (decode_ref l 0 []). Qed.

(** ** Properties *)

(** [Encode] is the base64 of RFC 4648: for every input below the size
    limit it returns the three-byte grouping with '=' padding, so no write
    leaves the preallocated result and no assertion fails. *)
Lemma Encode_is_base64 (l : str) :
  Z.of_nat (length l) <= (SIZE_MAX / 4) * 3 ->
  Encode l = Ret (b64_ref l) /\ length (b64_ref l) = ((length l + 2) / 3 * 4)%nat.
Proof. intros. split; [by apply encode_ref | apply length_b64_ref]. Qed.

(** Decoding inverts encoding, for every byte string that fits. *)
Lemma Decode_Encode (l : str) :
  Z.of_nat (length l) <= (SIZE_MAX / 4) * 3 ->
  (s ← Encode l; Decode s) = Ret l.
Proof. intros. rewrite encode_ref by done. apply decode_encode. Qed.

Lemma Decode_Encode_witness : (s ← Encode (lit "deflect"); Decode s) = Ret (lit "deflect").
Proof. apply Decode_Encode. vm_compute. congruence. Defined.

(** [Decode] throws [invalid_argument] exactly when a character is neither
    white space, padding nor in the alphabet; otherwise it returns one byte for
    every eight bits of data characters, and never reads outside its table. *)
Lemma Decode_total (s : str) :
  match Decode s with
  | Ret out => forallb b64_legal s = true /\ length out = (6 * data_count s / 8)%nat
  | Throw e => forallb b64_legal s = false /\ e = invalid_argument
  | Fault _ => False
  end.
Proof.
  destruct (forallb b64_legal s) eqn:E.
  - destruct (decode_legal s E) as (out & -> & Hn). done.
  - by rewrite (decode_throws s E).
Qed.

End Base64.
