(* ===== verification/Cookie.v ===== *)
(** * Cookie: the name/value parser of src/cookie.cpp

    [consume] takes the first pair off a cookie string and leaves the rest of
    the view.  The views of the program are suffixes of a NUL-terminated buffer
    (a [std::string] or a literal), so [cookie_s[0]] of an empty view reads the
    terminating NUL.  The theorems show that the parser makes progress (so the
    loop over a cookie jar ends), what the tokens it returns can contain, and
    that it parses back what a browser prints. *)

From S2P Require Import Prelude.

Module Cookie.

Record Cookie := MkCookie { name : str; value : str }.

#[global] Instance Cookie_eq_dec : EqDecision Cookie.
Proof. solve_decision. Defined.

Fixpoint trim_space_prefix (s : str) : str :=
  match s with
  | [] => []
  | c :: t => if isspace c then trim_space_prefix t else s
  end.

(** The same loop at the other end of the view. *)
Definition trim_space_suffix (s : str) : str := reverse (trim_space_prefix (reverse s)).

Definition is_eol_at (s : str) (pos : nat) : bool :=
  if (length s <? pos + 1)%nat then false else starts_with (drop pos s) [CR; LF].

Definition name_char (c : char) : bool :=
  bool_decide (c <> ";"%char) && bool_decide (c <> "="%char) && negb (isspace c)
  && bool_decide (c <> NUL).

(** The loop that finds the end of the name token. *)
Fixpoint name_end (s : str) : nat :=
  match s with
  | [] => 0
  | c :: t => if name_char c then S (name_end t) else 0
  end.

(** The loop that finds the end of the value token; the argument is the view
    from [val_end] on, so [is_eol_at(cookie_s, val_end)] looks at its front. *)
Fixpoint val_end (s : str) : nat :=
  match s with
  | [] => 0
  | c :: t =>
      if bool_decide (c <> ";"%char) && bool_decide (c <> NUL) && negb (is_eol_at s 0)
      then S (val_end t) else 0
  end.

(** [while (cookie_s[0] == '=') cookie_s.remove_prefix(1)].  On a view that has
    become empty the code reads the byte after it; the view is the tail of a
    [std::string], so that byte is its final NUL and the loop stops. *)
Fixpoint skip_eqs (s : str) : str :=
  match s with
  | [] => []
  | c :: t => if bool_decide (c = "="%char) then skip_eqs t else s
  end.

Definition consume (cookie_s : str) : option Cookie * str :=
  let s := trim_space_prefix cookie_s in
  match s with
  | [] => (None, s)
  | c0 :: _ =>
      let n := name_end s in
      if (n =? 0)%nat && bool_decide (c0 <> "="%char) then
        if bool_decide (c0 = ";"%char) then (Some (MkCookie [] []), drop 1 s)
        else (None, s)
      else
        let nm := take n s in
        if (n =? length s)%nat then (Some (MkCookie nm []), drop n s)
        else
          let s1 := trim_space_prefix (drop n s) in
          match s1 with
          | [] => (Some (MkCookie nm []), s1)
          | d :: _ =>
              if bool_decide (d = NUL) || bool_decide (d = ";"%char) then
                (Some (MkCookie nm []), drop 1 s1)
              else if bool_decide (d = "="%char) then
                let s2 := trim_space_prefix (skip_eqs (drop 1 s1)) in
                let v := val_end s2 in
                let s3 := drop v s2 in
                (Some (MkCookie nm (trim_space_suffix (take v s2))),
                 if starts_with s3 [";"%char] then drop 1 s3 else s3)
              else (None, s1)
          end
  end.

Definition parse (cookie_s : str) : option Cookie := fst (consume cookie_s).

(** The pairs [while (auto c = Cookie::consume(jar))] goes through; the fuel is
    the length of the jar, which [consume_all_fuel] shows to be enough. *)
Fixpoint consume_all (fuel : nat) (jar : str) : list Cookie :=
  match fuel with
  | O => []
  | S fuel' =>
      match consume jar with
      | (Some c, rest) => c :: consume_all fuel' rest
      | (None, _) => []
      end
  end.

Definition cookies (jar : str) : list Cookie := consume_all (S (length jar)) jar.

(** ** Cases of the unit tests (test/cookie_unittest.cpp) *)

Example parse_empty : parse [] = None.
Proof. reflexivity. Qed.
Example parse_eq_only : parse (lit " = ") = Some (MkCookie [] []).
Proof. reflexivity. Qed.
Example parse_jar : cookies (lit " k1=v1; k2=v2 ; ;")
  = [MkCookie (lit "k1") (lit "v1"); MkCookie (lit "k2") (lit "v2"); MkCookie [] []].
Proof. reflexivity. Qed.

(** ** Helper lemmas *)

Lemma trim_suffix_of s : exists p, s = p ++ trim_space_prefix s.
Proof.
  induction s as [|c t [p IH]]; simpl; [by exists []|].
  destruct (isspace c); [|by exists []]. exists (c :: p). simpl. by rewrite <- IH.
Qed.

Lemma skip_eqs_suffix_of s : exists p, s = p ++ skip_eqs s.
Proof.
  induction s as [|c t [p IH]]; simpl; [by exists []|].
  case_bool_decide; [|by exists []]. exists (c :: p). simpl. by rewrite <- IH.
Qed.

Lemma trim_length s : (length (trim_space_prefix s) <= length s)%nat.
Proof. destruct (trim_suffix_of s) as [p E]. rewrite E at 2. rewrite length_app. lia. Qed.

Lemma skip_length s : (length (skip_eqs s) <= length s)%nat.
Proof. destruct (skip_eqs_suffix_of s) as [p E]. rewrite E at 2. rewrite length_app. lia. Qed.

Lemma name_end_le s : (name_end s <= length s)%nat.
Proof. induction s as [|c t IH]; simpl; [lia|]. destruct (name_char c); simpl; lia. Qed.

Lemma name_end_pos c t : name_end (c :: t) = 0%nat -> name_char c = false.
Proof. simpl. by destruct (name_char c). Qed.

Lemma trim_not_space s : match trim_space_prefix s with [] => True | c :: _ => isspace c = false end.
Proof. induction s as [|c t IH]; simpl; [done|]. by destruct (isspace c) eqn:?. Qed.

(** ** Progress *)

Lemma consume_length s c rest : consume s = (Some c, rest) -> (length rest < length s)%nat.
Proof.
  unfold consume. pose proof (trim_length s) as Ht.
  destruct (trim_space_prefix s) as [|c0 t] eqn:E; [done|].
  assert (0 < length (c0 :: t))%nat as Hp by (simpl; lia).
  pose proof (trim_length (drop (name_end (c0 :: t)) (c0 :: t))) as H1.
  rewrite length_drop in H1.
  repeat case_goal; intros ?; simplify_eq; boolify; rewrite ?length_drop; try lia.
  1: simpl in *; lia.
  all: match goal with |- context [trim_space_prefix (skip_eqs ?x)] =>
         pose proof (trim_length (skip_eqs x)); pose proof (skip_length x) end.
  all: cbn [length drop] in *; rewrite ?drop_0 in *; lia.
Qed.

Lemma consume_suffix s oc rest : consume s = (oc, rest) -> rest `suffix_of` s.
Proof.
  intros H. assert (Ht : trim_space_prefix s `suffix_of` s) by apply trim_suffix_of.
  revert H. unfold consume. generalize dependent (trim_space_prefix s). intros u Hu.
  assert (Hd : forall k (x : str), drop k x `suffix_of` x).
  { intros k x. exists (take k x). by rewrite take_drop. }
  assert (Htr : forall x, trim_space_prefix x `suffix_of` x) by apply trim_suffix_of.
  assert (Hsk : forall x, skip_eqs x `suffix_of` x) by apply skip_eqs_suffix_of.
  repeat case_goal; intros ?; simplify_eq; try done.
  all: repeat match goal with
       | |- drop _ _ `suffix_of` _ => etransitivity; [apply Hd|]
       | |- trim_space_prefix _ `suffix_of` _ => etransitivity; [apply Htr|]
       | |- skip_eqs _ `suffix_of` _ => etransitivity; [apply Hsk|]
       | H : trim_space_prefix _ = ?y |- ?y `suffix_of` _ => rewrite <- H
       end; try done.
  all: try (eexists; reflexivity).
Qed.

(** Every iteration of the jar loop shortens the view, so the fuel suffices. *)
Lemma consume_all_fuel jar n m :
  (length jar < n)%nat -> (length jar < m)%nat -> consume_all n jar = consume_all m jar.
Proof.
  revert jar m; induction n as [|n IH]; intros jar [|m] Hn Hm; try lia. simpl.
  destruct (consume jar) as [[c|] rest] eqn:E; [|done].
  apply consume_length in E. f_equal. apply IH; lia.
Qed.

Lemma cookies_unfold jar :
  cookies jar = match consume jar with
                | (Some c, rest) => c :: cookies rest
                | (None, _) => []
                end.
Proof.
  unfold cookies at 1. cbn [consume_all].
  destruct (consume jar) as [[c|] rest] eqn:E; [|done].
  apply consume_length in E. unfold cookies. f_equal. apply consume_all_fuel; lia.
Qed.

(** ** What the tokens can contain *)

Lemma take_name_end s : forallb name_char (take (name_end s) s) = true.
Proof.
  induction s as [|c t IH]; simpl; [done|]. destruct (name_char c) eqn:E; simpl; [|done].
  by rewrite E.
Qed.

Definition value_char (c : char) : bool := bool_decide (c <> ";"%char) && bool_decide (c <> NUL).

Lemma take_val_end s :
  forallb value_char (take (val_end s) s) = true /\ find (take (val_end s) s) [CR; LF] = None.
Proof.
  induction s as [|c t IH]; [done|]. cbn [val_end].
  destruct (bool_decide _ && _ && _) eqn:E; [|done]. boolify. destruct IH as [IH1 IH2].
  cbn [take forallb]. rewrite IH1. split.
  - unfold value_char. by rewrite !bool_decide_true.
  - cbn [find]. rewrite IH2.
    destruct (starts_with (c :: take (val_end t) t) [CR; LF]) eqn:E2; [|done].
    apply starts_with_spec in E2 as [u E2]. exfalso. revert H0. unfold is_eol_at.
    cbn [length Nat.add Nat.ltb Nat.leb drop].
    rewrite <- (take_drop (val_end t) t), app_comm_cons, E2, <- app_assoc.
    by rewrite starts_with_app.
Qed.

Lemma forallb_trim p s : forallb p s = true -> forallb p (trim_space_suffix s) = true.
Proof.
  rewrite !forallb_forall. intros H x Hx. apply H. unfold trim_space_suffix in Hx.
  destruct (trim_suffix_of (reverse s)) as [q E].
  apply list_elem_of_In in Hx. apply list_elem_of_In.
  rewrite <- (reverse_involutive s), E, reverse_app. set_solver.
Qed.

Lemma consume_name_chars s c rest :
  consume s = (Some c, rest) -> forallb name_char (name c) = true.
Proof.
  unfold consume. repeat case_goal; intros ?; simplify_eq; try done; cbn [name].
  all: apply take_name_end.
Qed.

Lemma consume_value_chars s c rest :
  consume s = (Some c, rest) -> forallb value_char (value c) = true.
Proof.
  unfold consume. repeat case_goal; intros ?; simplify_eq; try done; cbn [value].
  all: apply forallb_trim, take_val_end.
Qed.

(** ** Printing a jar the way a browser does *)

Definition not_space_first (s : str) : bool :=
  match s with [] => true | c :: _ => negb (isspace c) end.

(** A value that survives printing: no ';', NUL or end of line inside, no blank
    at either end, and no '=' in front (which [consume] skips). *)
Definition value_ok (v : str) : bool :=
  forallb value_char v && bool_decide (find v [CR; LF] = None)
  && not_space_first v && not_space_first (reverse v) && negb (starts_with v ["="%char]).

Definition wf_cookie (c : Cookie) : bool := forallb name_char (name c) && value_ok (value c).

Definition print_cookie (c : Cookie) : str := name c ++ "="%char :: value c.

Fixpoint print_jar (cs : list Cookie) : str :=
  match cs with
  | [] => []
  | [c] => print_cookie c
  | c :: cs' => print_cookie c ++ ";"%char :: " "%char :: print_jar cs'
  end.

Lemma trim_id s : not_space_first s = true -> trim_space_prefix s = s.
Proof. destruct s as [|c t]; simpl; [done|]. by destruct (isspace c). Qed.

Lemma name_end_app nm c r :
  forallb name_char nm = true -> name_char c = false -> name_end (nm ++ c :: r) = length nm.
Proof.
  intros Hn Hc. induction nm as [|d nm IH]; simpl in *; [by rewrite Hc|].
  apply andb_true_iff in Hn as [-> Hn]. by rewrite IH.
Qed.

(** What may follow a value: the end of the view or a ';'. *)
Definition after_value (r : str) : bool :=
  match r with [] => true | c :: _ => bool_decide (c = ";"%char) end.

Lemma val_end_app v r :
  forallb value_char v = true -> find v [CR; LF] = None -> after_value r = true ->
  val_end (v ++ r) = length v.
Proof.
  intros Hv Hf Hr. induction v as [|c v IH]; cbn [app length val_end].
  - destruct r as [|d r]; [done|]. simpl in Hr. boolify. by subst.
  - cbn [forallb] in Hv. apply andb_true_iff in Hv as [Hc Hv].
    unfold value_char in Hc. rewrite Hc. cbn [find] in Hf.
    destruct (starts_with (c :: v) [CR; LF]) eqn:E; [done|].
    rewrite IH; [|done|by destruct (find v _)].
    replace (is_eol_at (c :: v ++ r) 0) with false; [done|].
    unfold is_eol_at. cbn [length Nat.add Nat.ltb Nat.leb drop]. symmetry.
    apply not_true_iff_false. intros [u Hu]%starts_with_spec. injection Hu as -> Hu.
    destruct v as [|d v].
    + destruct r as [|e r]; [done|]. injection Hu as -> _. done.
    + injection Hu as -> _. done.
Qed.

Lemma name_not_space nm r :
  forallb name_char nm = true -> not_space_first (nm ++ "="%char :: r) = true.
Proof.
  destruct nm as [|c nm]; [done|]. simpl. unfold name_char. intros H. boolify.
  by rewrite H2.
Qed.

Lemma skip_eqs_id s : starts_with s ["="%char] = false -> skip_eqs s = s.
Proof.
  destruct s as [|c t]; simpl; [done|]. intros H.
  destruct (decide (c = "="%char)) as [->|]; [done|by rewrite bool_decide_false].
Qed.

Lemma value_then_rest v r :
  value_ok v = true -> after_value r = true -> trim_space_prefix (skip_eqs (v ++ r)) = v ++ r.
Proof.
  unfold value_ok. intros Hv Hr. boolify. destruct v as [|c v].
  - destruct r as [|d r]; [done|]. simpl in Hr. boolify. by subst.
  - rewrite skip_eqs_id by done. by apply trim_id.
Qed.

Lemma trim_suffix_id v : not_space_first (reverse v) = true -> trim_space_suffix v = v.
Proof. intros. unfold trim_space_suffix. by rewrite trim_id, reverse_involutive. Qed.

Lemma consume_print c r :
  wf_cookie c = true -> after_value r = true ->
  consume (print_cookie c ++ r) = (Some c, drop 1 r).
Proof.
  unfold wf_cookie, print_cookie. intros [Hn Hv]%andb_true_iff Hr.
  rewrite <- app_assoc, <- app_comm_cons. unfold consume.
  rewrite trim_id by (by apply name_not_space).
  rewrite name_end_app by done.
  rewrite take_app_length, drop_app_length.
  destruct (name c ++ "="%char :: value c ++ r) as [|c0 t] eqn:E; [by destruct (name c)|].
  replace ((length (name c) =? 0)%nat && bool_decide (c0 <> "="%char)) with false.
  2: { destruct (name c); injection E as <- _; done. }
  rewrite <- E, length_app. cbn [length].
  rewrite (proj2 (Nat.eqb_neq _ _)) by lia.
  rewrite (trim_id ("="%char :: _)) by done. cbn [drop].
  rewrite !drop_0, value_then_rest by done.
  pose proof Hv as Hv'. unfold value_ok in Hv'. boolify.
  rewrite val_end_app by done.
  rewrite take_app_length, drop_app_length, trim_suffix_id by done.
  destruct c as [n v]. cbn. destruct r as [|d r]; [done|].
  simpl in Hr. boolify. by subst.
Qed.

Lemma consume_blank s : consume (" "%char :: s) = consume s.
Proof. done. Qed.

Lemma cookies_blank s : cookies (" "%char :: s) = cookies s.
Proof. rewrite !cookies_unfold. by rewrite consume_blank. Qed.

Lemma cookies_print cs : forallb wf_cookie cs = true -> cookies (print_jar cs) = cs.
Proof.
  induction cs as [|c cs IH]; [done|]. cbn [forallb]. intros [Hc Hcs]%andb_true_iff.
  destruct cs as [|c' cs].
  - cbn [print_jar]. rewrite <- (app_nil_r (print_cookie c)), cookies_unfold.
    by rewrite consume_print.
  - change (print_jar (c :: c' :: cs))
      with (print_cookie c ++ ";"%char :: " "%char :: print_jar (c' :: cs)).
    rewrite cookies_unfold, consume_print by done. cbn [drop].
    by rewrite ?drop_0, cookies_blank, IH.
Qed.

(** ** Properties *)

(** Whenever [consume] returns a cookie the view it leaves is a strictly
    shorter suffix of the one it was given, so the loop over a cookie jar ends
    after at most [size()] iterations. *)
Lemma consume_progress (s : str) (c : Cookie) (rest : str) :
  consume s = (Some c, rest) -> (length rest < length s)%nat /\ rest `suffix_of` s.
Proof. intros H. split; [eapply consume_length | eapply consume_suffix]; eassumption. Qed.

(** A name [consume] returns holds no ';', '=', blank or NUL, and a value
    holds no ';' and no NUL, whatever the header contains. *)
Lemma consume_tokens (s : str) (c : Cookie) (rest : str) :
  consume s = (Some c, rest) ->
  forallb name_char (name c) = true /\ forallb value_char (value c) = true.
Proof.
  intros H. split; [eapply consume_name_chars | eapply consume_value_chars]; eassumption.
Qed.

(** C37. The parser reads back what a browser sends: the pairs of a printed jar
    are the pairs it was printed from, in order, if no name holds a blank, ';', '='
    or NUL, and no value holds ';', NUL or an end of line, starts or ends with a
    blank, or starts with '=' (the parser skips such a sign). *)
Theorem cookies_print_jar (cs : list Cookie) :
  forallb wf_cookie cs = true -> cookies (print_jar cs) = cs.
Proof. apply cookies_print. Qed.

Lemma cookies_print_jar_witness :
  let cs := [MkCookie (lit "lang") (lit "en us"); MkCookie (lit "deflect") (lit "A=")] in
  cookies (print_jar cs) = cs.
Proof. apply cookies_print_jar. vm_compute. reflexivity. Defined.

End Cookie.
