(* ===== verification/CookieHash.v ===== *)
(** * CookieHash: the authenticated cookie of src/cookiehash.cpp

    A cookie is the base64 of twenty bytes of HMAC followed by the eight bytes of
    its expiry time.  OpenSSL's [HMAC] and [SHA256] are the interface [Crypto];
    the fixed-size buffers and the reads through [c_str()] are checked, so that
    a copy that leaves its object is a [Fault]. *)

From S2P Require Import Prelude Base64.

Local Open Scope Z_scope.

(** What the sources rely on of OpenSSL: the two digests and their sizes. *)
Class Crypto := {
  HMAC_SHA1 : str -> str -> str;   (* key, message *)
  SHA256 : str -> str;
  length_HMAC_SHA1 : forall k m, length (HMAC_SHA1 k m) = 20%nat;
  length_SHA256 : forall m, length (SHA256 m) = 32%nat
}.

(** A concrete instance, for evaluation: the digests cut their input. *)
Lemma length_cut n (m : str) : length (take n (m ++ replicate n NUL)) = n.
Proof. rewrite length_take, length_app, length_replicate. lia. Qed.

Definition sample_crypto : Crypto := {|
  HMAC_SHA1 := fun k m => take 20 (m ++ replicate 20 NUL);
  SHA256 := fun m => take 32 (m ++ replicate 32 NUL);
  length_HMAC_SHA1 := fun k m => length_cut 20 m;
  length_SHA256 := length_cut 32
|}.

Module CookieHash.

Definition HASH_LENGTH : nat := 20.
Definition SIZEOF_TIME_T : nat := 8.
Definition SECRET_LENGTH : nat := 32.
Definition COOKIE_LENGTH : nat := HASH_LENGTH + SIZEOF_TIME_T.
Definition COOKIE_B64_LENGTH : nat := (COOKIE_LENGTH + 2) / 3 * 4.

(** The size of [ibuf] in [GenerateCookieHash]. *)
Definition IBUF_SIZE : nat := 200.

(** [memcpy] of [n] bytes from [s.c_str()], whose last valid byte is the NUL
    after the string. *)
Definition read_c_str (s : str) (n : nat) : outcome str :=
  if (n <=? length s + 1)%nat then Ret (take n (s ++ [NUL])) else Fault OutOfBounds.

Section WithCrypto.
Context {crypto : Crypto}.

(** The bytes the hash is computed over: the [time_t] as the machine stores
    it, then the address and the captcha up to their NULs. *)
Definition hash_input (captcha : str) (valid_till : Z) (remoteaddress : str) : str :=
  le_split SIZEOF_TIME_T valid_till ++ c_str remoteaddress ++ c_str captcha.

Definition GenerateCookieHash (captcha secret : str) (valid_till : Z)
    (remoteaddress : str) : outcome str :=
  let ibuf := hash_input captcha valid_till remoteaddress in
  if (IBUF_SIZE <? length ibuf)%nat then Fault BufferOverflow
  else Ret (HMAC_SHA1 (take SECRET_LENGTH secret) ibuf).

(** [outsz] is the size of the caller's [cookiestring_out]. *)
Definition GenerateCookie (captcha secret : str) (valid_till : Z)
    (remoteaddress : str) (outsz : nat) : outcome str :=
  hash ← GenerateCookieHash captcha secret valid_till remoteaddress;
  let cookie := take HASH_LENGTH hash ++ le_split SIZEOF_TIME_T valid_till in
  co ← Base64.Encode cookie;
  if (outsz <? strlen co + 1)%nat then Fault BufferOverflow else Ret (c_str co).

Definition ValidateCookie (captcha secret : str) (current_timestamp : Z)
    (remoteaddress cookiestring : str) : outcome Z :=
  if negb (strlen cookiestring =? COOKIE_B64_LENGTH)%nat then Ret (-3)
  else
    match Base64.Decode (c_str cookiestring) with
    | Throw invalid_argument => Ret (-4)
    | Throw e => Throw e
    | Fault f => Fault f
    | Ret cookiedata =>
        cookie ← read_c_str cookiedata COOKIE_LENGTH;
        let valid_until := s64 (le_combine (drop HASH_LENGTH cookie)) in
        hash ← GenerateCookieHash captcha secret valid_until remoteaddress;
        if bool_decide (take HASH_LENGTH cookie <> take HASH_LENGTH hash) then Ret (-1)
        else if valid_until <? current_timestamp then Ret (-2)
        else Ret 1
    end.

(** ** Lemmas *)

Lemma length_hash_input captcha t addr :
  length (hash_input captcha t addr) = (8 + strlen addr + strlen captcha)%nat.
Proof. unfold hash_input, strlen. rewrite !length_app, length_le_split. simpl. lia. Qed.

(** The address and the captcha are within the hash buffer. *)
Definition fits (captcha addr : str) : Prop := (strlen addr + strlen captcha <= 192)%nat.

Lemma hash_fits captcha secret t addr : fits captcha addr ->
  GenerateCookieHash captcha secret t addr
  = Ret (HMAC_SHA1 (take SECRET_LENGTH secret) (hash_input captcha t addr)).
Proof.
  unfold fits, GenerateCookieHash. intros. cbv zeta. rewrite length_hash_input.
  rewrite (proj2 (Nat.ltb_ge _ _)); [done|]. unfold IBUF_SIZE. lia.
Qed.

Lemma hash_overflows captcha secret t addr : ~ fits captcha addr ->
  GenerateCookieHash captcha secret t addr = Fault BufferOverflow.
Proof.
  unfold fits, GenerateCookieHash. intros. cbv zeta. rewrite length_hash_input.
  rewrite (proj2 (Nat.ltb_lt _ _)); [done|]. unfold IBUF_SIZE. lia.
Qed.

(** The 28 bytes a genuine cookie decodes to. *)
Definition genuine (captcha secret : str) (t : Z) (addr : str) : str :=
  HMAC_SHA1 (take SECRET_LENGTH secret) (hash_input captcha t addr) ++ le_split SIZEOF_TIME_T t.

Lemma length_genuine captcha secret t addr :
  length (genuine captcha secret t addr) = COOKIE_LENGTH.
Proof. unfold genuine. by rewrite length_app, length_HMAC_SHA1, length_le_split. Qed.

Lemma take_genuine captcha secret t addr :
  take HASH_LENGTH (genuine captcha secret t addr)
  = HMAC_SHA1 (take SECRET_LENGTH secret) (hash_input captcha t addr).
Proof. unfold genuine. by rewrite take_app_length' by (by rewrite length_HMAC_SHA1). Qed.

Lemma drop_genuine captcha secret t addr :
  drop HASH_LENGTH (genuine captcha secret t addr) = le_split SIZEOF_TIME_T t.
Proof. unfold genuine. by rewrite drop_app_length' by (by rewrite length_HMAC_SHA1). Qed.

Lemma generate_ref captcha secret t addr outsz : fits captcha addr -> (41 <= outsz)%nat ->
  GenerateCookie captcha secret t addr outsz
  = Ret (Base64.b64_ref (genuine captcha secret t addr)).
Proof.
  intros Hf Ho. unfold GenerateCookie. rewrite hash_fits by done. cbn [mbind outcome_bind].
  rewrite take_ge by (rewrite length_HMAC_SHA1; done). fold (genuine captcha secret t addr).
  rewrite Base64.encode_ref.
  2: { rewrite length_genuine. vm_compute. congruence. }
  cbn [mbind outcome_bind]. unfold strlen.
  rewrite c_str_no_nul by apply Base64.b64_ref_no_nul.
  rewrite (proj2 (Nat.ltb_ge _ _)); [done|].
  rewrite Base64.length_b64_ref, length_genuine. vm_compute. lia.
Qed.

Definition time_ok (t : Z) : Prop := - 2 ^ 63 <= t < 2 ^ 63.

Lemma s64_le_split t : time_ok t -> s64 (le_combine (le_split SIZEOF_TIME_T t)) = t.
Proof.
  unfold time_ok, s64. intros. rewrite le_combine_split.
  change (256 ^ Z.of_nat SIZEOF_TIME_T) with (2 ^ 64). divmod.
Qed.

Lemma le_split_s64 l : length l = SIZEOF_TIME_T -> le_split SIZEOF_TIME_T (s64 (le_combine l)) = l.
Proof.
  intros Hl. rewrite <- (le_split_combine l) at 2. rewrite Hl.
  pose proof (le_combine_range l) as Hr. rewrite Hl in Hr.
  set (z := le_combine l) in *. clearbody z.
  assert (H : forall n x y, x mod 256 ^ Z.of_nat n = y mod 256 ^ Z.of_nat n ->
              le_split n x = le_split n y).
  { clear. intros n x y E.
    rewrite <- (le_split_combine (le_split n x)), <- (le_split_combine (le_split n y)).
    by rewrite !length_le_split, !le_combine_split, E. }
  apply H. unfold s64. change (256 ^ Z.of_nat SIZEOF_TIME_T) with (2 ^ 64) in *. divmod.
Qed.

Lemma length_read_c_str s n : (n <= length s + 1)%nat -> length (take n (s ++ [NUL])) = n.
Proof. intros. rewrite length_take, length_app. simpl. lia. Qed.

(** A 28-byte cookie is genuine for its own time stamp when its hash is. *)
Lemma genuine_split captcha secret addr cookie :
  length cookie = COOKIE_LENGTH ->
  let t := s64 (le_combine (drop HASH_LENGTH cookie)) in
  take HASH_LENGTH cookie
    = take HASH_LENGTH (HMAC_SHA1 (take SECRET_LENGTH secret) (hash_input captcha t addr)) ->
  cookie = genuine captcha secret t addr.
Proof.
  intros Hl t Ht. rewrite (take_ge (HMAC_SHA1 _ _)) in Ht by (by rewrite length_HMAC_SHA1).
  unfold genuine. rewrite <- Ht. unfold t. rewrite le_split_s64.
  - by rewrite take_drop.
  - rewrite length_drop, Hl. done.
Qed.

Lemma s64_range z : time_ok (s64 z).
Proof. unfold time_ok, s64. divmod. Qed.

Lemma validate_genuine captcha secret now addr ck data t :
  strlen ck = COOKIE_B64_LENGTH -> fits captcha addr -> time_ok t ->
  Base64.Decode (c_str ck) = Ret data -> (COOKIE_LENGTH <= length data + 1)%nat ->
  take COOKIE_LENGTH (data ++ [NUL]) = genuine captcha secret t addr ->
  ValidateCookie captcha secret now addr ck = Ret (if t <? now then -2 else 1).
Proof.
  intros Hs Hf Ht Hd Hl Hg. unfold ValidateCookie.
  rewrite Hs, Nat.eqb_refl, Hd. cbn [negb]. unfold read_c_str.
  rewrite (proj2 (Nat.leb_le _ _)) by done. cbn [mbind outcome_bind].
  rewrite Hg, drop_genuine, s64_le_split, hash_fits by done. cbn [mbind outcome_bind].
  rewrite take_genuine, (take_ge (HMAC_SHA1 _ _)) by (by rewrite length_HMAC_SHA1).
  rewrite bool_decide_false by (intros H; by apply H). by destruct (t <? now).
Qed.

Lemma validate_inv captcha secret now addr ck r :
  ValidateCookie captcha secret now addr ck = Ret r -> r = 1 ->
  strlen ck = COOKIE_B64_LENGTH /\ fits captcha addr /\
  exists data t, Base64.Decode (c_str ck) = Ret data /\ (COOKIE_LENGTH <= length data + 1)%nat /\
    time_ok t /\ now <= t /\ take COOKIE_LENGTH (data ++ [NUL]) = genuine captcha secret t addr.
Proof.
  unfold ValidateCookie. destruct (strlen ck =? COOKIE_B64_LENGTH)%nat eqn:E; cbn [negb].
  2: intros [= <-]; done.
  apply Nat.eqb_eq in E. intros H ->. split; [done|].
  destruct (Base64.Decode (c_str ck)) as [data|[]|] eqn:Hd; try done.
  unfold read_c_str in H. destruct (Nat.leb_spec COOKIE_LENGTH (length data + 1)); [|done].
  cbn [mbind outcome_bind] in H. set (cookie := take COOKIE_LENGTH (data ++ [NUL])) in *.
  assert (Hck : length cookie = COOKIE_LENGTH) by (by apply length_read_c_str).
  set (t := s64 (le_combine (drop HASH_LENGTH cookie))) in *.
  destruct (decide (strlen addr + strlen captcha <= 192)%nat) as [Hf|Hf].
  2: { rewrite hash_overflows in H by done. done. }
  split; [done|]. rewrite hash_fits in H by done. cbn [mbind outcome_bind] in H.
  case_bool_decide as Hh; [done|].
  destruct (Z.ltb_spec t now); [done|].
  exists data, t. split; [done|]. split; [done|]. split; [apply s64_range|]. split; [done|].
  by apply genuine_split.
Qed.

(** The two ways a copy can leave its object. *)
Lemma validate_fault captcha secret now addr ck f :
  ValidateCookie captcha secret now addr ck = Fault f <->
  strlen ck = COOKIE_B64_LENGTH /\
  exists data, Base64.Decode (c_str ck) = Ret data /\
    if decide (COOKIE_LENGTH <= length data + 1)%nat
    then ~ fits captcha addr /\ f = BufferOverflow else f = OutOfBounds.
Proof.
  unfold ValidateCookie. destruct (strlen ck =? COOKIE_B64_LENGTH)%nat eqn:E; cbn [negb].
  2: { apply Nat.eqb_neq in E. split; [done|]. by intros [? _]. }
  apply Nat.eqb_eq in E. pose proof (Base64.decode_legal (c_str ck)) as HL.
  pose proof (Base64.decode_throws (c_str ck)) as HT.
  destruct (forallb Base64.b64_legal (c_str ck)).
  2: { rewrite HT by done. split; [done|]. by intros (_ & data & ? & _). }
  destruct HL as (data & -> & _); [done|]. unfold read_c_str.
  destruct (decide (COOKIE_LENGTH <= length data + 1)%nat) as [Hl|Hl].
  - rewrite (proj2 (Nat.leb_le _ _)) by done. cbn [mbind outcome_bind].
    destruct (decide (strlen addr + strlen captcha <= 192)%nat) as [Hf|Hf].
    + rewrite hash_fits by done. cbn [mbind outcome_bind]. split.
      * intros H. repeat case_match; done.
      * intros (_ & d & [= <-] & H). rewrite decide_True in H by done. by destruct H.
    + rewrite hash_overflows by done. cbn [mbind outcome_bind]. split.
      * intros [= <-]. split; [done|]. exists data. by rewrite decide_True.
      * intros (_ & d & [= <-] & H). rewrite decide_True in H by done. by destruct H as [_ ->].
  - rewrite (proj2 (Nat.leb_gt _ _)) by lia. cbn [mbind outcome_bind]. split.
    + intros [= <-]. split; [done|]. exists data. by rewrite decide_False.
    + intros (_ & d & [= <-] & H). rewrite decide_False in H by done. by subst.
Qed.

(** The hash sees the address and the captcha as one string. *)
Lemma hash_input_shift captcha t addr suffix :
  NUL ∉ addr -> NUL ∉ suffix ->
  hash_input captcha t (addr ++ suffix) = hash_input (suffix ++ captcha) t addr.
Proof.
  intros Ha Hs. unfold hash_input.
  assert (H : forall x y, NUL ∉ x -> c_str (x ++ y) = x ++ c_str y).
  { clear. induction x as [|c x IH]; intros y; [done|]. rewrite not_elem_of_cons.
    intros [? ?]. simpl. rewrite bool_decide_false by done. by rewrite IH. }
  rewrite !H, (c_str_no_nul addr), (c_str_no_nul suffix) by done.
  by rewrite <- !app_assoc.
Qed.

Lemma generate_hash_shift captcha secret t addr suffix :
  NUL ∉ addr -> NUL ∉ suffix ->
  GenerateCookieHash captcha secret t (addr ++ suffix)
  = GenerateCookieHash (suffix ++ captcha) secret t addr.
Proof. intros. unfold GenerateCookieHash. by rewrite hash_input_shift. Qed.

(** ** Properties *)

(** C12. A generated cookie fits the 100-byte buffer of its callers and has the
    length the validator expects; validated for the same captcha, key and
    address it is accepted until its expiry time and reported as expired
    after. *)
Theorem Validate_Generate (captcha secret addr : str) (t now : Z) :
  fits captcha addr -> time_ok t ->
  exists ck, GenerateCookie captcha secret t addr 100 = Ret ck /\
    strlen ck = COOKIE_B64_LENGTH /\
    ValidateCookie captcha secret now addr ck = Ret (if t <? now then -2 else 1).
Proof.
  intros Hf Ht. eexists. split; [apply generate_ref; [done|lia]|].
  set (ck := Base64.b64_ref _).
  assert (Hc : c_str ck = ck) by apply c_str_no_nul, Base64.b64_ref_no_nul.
  assert (Hs : strlen ck = COOKIE_B64_LENGTH).
  { unfold strlen. rewrite Hc. unfold ck. by rewrite Base64.length_b64_ref, length_genuine. }
  split; [done|]. eapply validate_genuine; try done.
  - rewrite Hc. apply Base64.decode_encode.
  - rewrite length_genuine. lia.
  - rewrite take_app_length' by (by rewrite length_genuine). done.
Qed.

(** C9. Authenticity: [ValidateCookie] returns 1 exactly when the forty
    characters decode to the HMAC, under the secret, of an expiry time not yet
    passed, the client's address and the captcha, followed by that time. *)
Theorem ValidateCookie_sound (captcha secret addr ck : str) (now : Z) :
  ValidateCookie captcha secret now addr ck = Ret 1 <->
  strlen ck = COOKIE_B64_LENGTH /\ fits captcha addr /\
  exists data t, Base64.Decode (c_str ck) = Ret data /\ (COOKIE_LENGTH <= length data + 1)%nat /\
    time_ok t /\ now <= t /\ take COOKIE_LENGTH (data ++ [NUL]) = genuine captcha secret t addr.
Proof.
  split.
  - intros H. by eapply validate_inv.
  - intros (Hs & Hf & data & t & Hd & Hl & Ht & Hn & Hg).
    rewrite (validate_genuine _ _ _ _ _ data t) by done.
    by rewrite (proj2 (Z.ltb_ge _ _)).
Qed.

(** C38. Memory safety of the validator: on a forty-character cookie that is
    valid base64, it reads past the decoded bytes when they are fewer than 27
    (blanks and padding carry no data), writes past [ibuf] when address and
    captcha exceed 192 bytes, and is otherwise free of faults. *)
Theorem ValidateCookie_faults (captcha secret addr ck : str) (now : Z) (f : fault) :
  ValidateCookie captcha secret now addr ck = Fault f <->
  strlen ck = COOKIE_B64_LENGTH /\
  exists data, Base64.Decode (c_str ck) = Ret data /\
    if decide (COOKIE_LENGTH <= length data + 1)%nat
    then ~ fits captcha addr /\ f = BufferOverflow else f = OutOfBounds.
Proof. apply validate_fault. Qed.

(** The hash does not separate the address from the captcha: a cookie
    validates for a captcha and the address [addr ++ suffix] exactly as it does
    for the captcha [suffix ++ captcha] and the address [addr]. *)
Lemma ValidateCookie_address_shift (captcha secret addr suffix ck : str) (now : Z) :
  NUL ∉ addr -> NUL ∉ suffix ->
  ValidateCookie captcha secret now (addr ++ suffix) ck
  = ValidateCookie (suffix ++ captcha) secret now addr ck.
Proof.
  intros Ha Hs. unfold ValidateCookie. case_match; [done|].
  destruct (Base64.Decode _) as [data|[]|]; try done.
  destruct (read_c_str _ _); try done. cbn [mbind outcome_bind].
  by rewrite generate_hash_shift.
Qed.

End WithCrypto.
Lemma Validate_Generate_witness :
  exists ck, GenerateCookie (crypto := sample_crypto) (lit "abcde") (lit "key") 1700000000
               (lit "1.2.3.4") 100 = Ret ck /\
    strlen ck = COOKIE_B64_LENGTH /\
    ValidateCookie (crypto := sample_crypto) (lit "abcde") (lit "key") 1700000001
      (lit "1.2.3.4") ck = Ret (-2).
Proof.
  apply (@Validate_Generate sample_crypto (lit "abcde") (lit "key") (lit "1.2.3.4")
           1700000000 1700000001); vm_compute; intuition lia || intuition congruence.
Defined.

End CookieHash.
