(* ===== verification/Util.v ===== *)
(** * Util: the shared functions of src/util.cpp and src/util.h

    IP ranges ([make_mask_for_range], [is_match]), the quoting of log fields,
    lower-casing and the version check.  [inet_addr] belongs to the system: it
    is the interface [Inet], of which only the documented reading of a dotted
    quad is assumed. *)

From S2P Require Import Prelude.

Local Open Scope Z_scope.

(** [ntohl(inet_addr(s))], an IPv4 address in host order. *)
Class Inet := {
  inet : str -> Z;
  inet_range : forall s, 0 <= inet s < 2 ^ 32;
  inet_quad : forall a b c d,
    0 <= a < 256 -> 0 <= b < 256 -> 0 <= c < 256 -> 0 <= d < 256 ->
    inet (to_string a ++ "."%char :: to_string b ++ "."%char :: to_string c ++ "."%char
          :: to_string d) = a * 2 ^ 24 + b * 2 ^ 16 + c * 2 ^ 8 + d
}.

Module Util.

(** ** Strings *)

Definition to_lower (s : str) : str := map tolower s.

(** The loop of [encapsulate_in_quotes]; each iteration leaves less of the
    string to search, so its length is fuel enough. *)
Fixpoint escape_loop (fuel : nat) (s : str) (start_pos : nat) : str :=
  match find_from s [dquote] start_pos with
  | None => s
  | Some pos =>
      match fuel with
      | O => s
      | S fuel' => escape_loop fuel' (replace_at s pos 1 [backslash; dquote]) (pos + 2)
      end
  end.

Definition encapsulate_in_quotes (unprocessed : str) : str :=
  dquote :: escape_loop (length unprocessed) unprocessed 0 ++ [dquote].

(** ** Numbers *)

(** The digits [strtol] reads in base ten. *)
Fixpoint digits (s : str) (acc : Z) : Z :=
  match s with
  | [] => acc
  | c :: t => if isdigit c then digits t (acc * 10 + (code c - 48)) else acc
  end.

Fixpoint skip_space (s : str) : str :=
  match s with
  | [] => []
  | c :: t => if isspace c then skip_space t else s
  end.

Fixpoint skip_digits (s : str) : str :=
  match s with
  | [] => []
  | c :: t => if isdigit c then skip_digits t else s
  end.

(** A decimal integer after optional blanks and sign, and what follows it. *)
Definition scan_int (s : str) : option (Z * str) :=
  let s := skip_space s in
  let '(sign, s) := match s with
                    | "-"%char :: t => (-1, t)
                    | "+"%char :: t => (1, t)
                    | _ => (1, s)
                    end in
  match s with
  | c :: _ => if isdigit c then Some (sign * digits s 0, skip_digits s) else None
  | [] => None
  end.

(** [std::stoi]. *)
Definition stoi (s : str) : outcome Z :=
  match scan_int (c_str s) with
  | None => Throw invalid_argument
  | Some (z, _) => if (- 2 ^ 31 <=? z) && (z <? 2 ^ 31) then Ret z else Throw out_of_range
  end.

(** [sscanf(s, "%d.%d.%d", ...)] with its three results, when it returns 3. *)
Definition sscanf_version (s : str) : option (Z * Z * Z) :=
  '(a, s) ← scan_int s;
  match s with
  | "."%char :: s =>
      '(b, s) ← scan_int s;
      match s with
      | "."%char :: s => '(c, _) ← scan_int s; Some (s32 a, s32 b, s32 c)
      | _ => None
      end
  | _ => None
  end.

(** [None] is the null pointer. *)
Definition check_ts_version (ts_version : option str) : Z :=
  match ts_version with
  | None => 0
  | Some v =>
      match sscanf_version (c_str v) with
      | None => 0
      | Some (major, _, _) => if 2 <=? major then 1 else 0
      end
  end.

(** ** IP ranges *)

(** [(subnet ip, CIDR bitmask)]. *)
Definition SubnetRange : Type := Z * Z.

Section WithInet.
Context {I : Inet}.

Definition is_match (needle_ip : str) (ip_range_pair : SubnetRange) : bool :=
  let ip := inet (c_str needle_ip) in
  Z.land (fst ip_range_pair) (snd ip_range_pair) =? Z.land ip (snd ip_range_pair).

(** [x >> n] and [x << n] of a [uint32_t]. *)
Definition shr32 (x n : Z) : outcome Z :=
  if n <? 32 then Ret (Z.shiftr x n) else Fault ShiftTooWide.
Definition shl32 (x n : Z) : outcome Z :=
  if n <? 32 then Ret (u32 (Z.shiftl x n)) else Fault ShiftTooWide.

Definition make_mask_for_range (hay_ip : str) : outcome SubnetRange :=
  match find hay_ip ["/"%char] with
  | None => Ret (inet (c_str hay_ip), 4294967295)
  | Some slash_pos =>
      tail ← substr hay_ip (slash_pos + 1);
      n ← stoi tail;
      let keep_bits := u32 n in
      if 32 <? keep_bits then Throw InvalidConfException
      else
        m ← shr32 4294967295 (32 - keep_bits);
        mask ← shl32 m (32 - keep_bits);
        Ret (inet (c_str (take slash_pos hay_ip)), mask)
  end.

End WithInet.

(** ** Quoting *)

Definition escape (c : char) : str := if bool_decide (c = dquote) then [backslash; dquote] else [c].

Lemma escape_id s : dquote ∉ s -> s ≫= escape = s.
Proof.
  induction s as [|c s IH]; [done|]. rewrite not_elem_of_cons. intros [? ?].
  cbn [mbind list_bind]. unfold escape at 1. rewrite bool_decide_false by done.
  simpl. f_equal. by apply IH.
Qed.

Lemma escape_loop_spec fuel a b :
  (length b <= fuel)%nat -> escape_loop fuel (a ++ b) (length a) = a ++ (b ≫= escape).
Proof.
  revert a b; induction fuel as [|fuel IH]; intros a b Hb.
  all: assert (Hf : find_from (a ++ b) [dquote] (length a)
              = Nat.add (length a) <$> find b [dquote]).
  1, 3: unfold find_from; rewrite (proj2 (Nat.ltb_ge _ _)) by (rewrite length_app; lia);
        by rewrite drop_app_length.
  - destruct b; [|simpl in *; lia]. simpl. unfold find_from.
    by rewrite app_nil_r, drop_all, Nat.ltb_irrefl.
  - cbn [escape_loop]. rewrite Hf. destruct (find b [dquote]) as [n|] eqn:E; simpl.
    + apply find_char_Some in E as (x & y & -> & <- & Hx).
      rewrite app_assoc. change (dquote :: y) with ([dquote] ++ y).
      rewrite replace_at_app by (by rewrite ?length_app).
      replace (length a + length x + 2)%nat with (length ((a ++ x) ++ [backslash; dquote]))
        by (rewrite !length_app; simpl; lia).
      rewrite app_assoc, IH by (rewrite length_app in Hb; simpl in Hb; lia).
      rewrite bind_app, (escape_id x) by done. by rewrite <- !app_assoc.
    + apply find_char_None in E. by rewrite escape_id.
Qed.

(** ** A concrete [inet_addr]: dotted quads, INADDR_NONE for anything else *)

Definition octet (s : str) : option Z :=
  if forallb isdigit s && negb (bool_decide (s = [])) && (digits s 0 <? 256)
  then Some (digits s 0) else None.

Definition sample_inet_addr (s : str) : Z :=
  match mapM octet (split_on "."%char s) with
  | Some [a; b; c; d] => (a * 2 ^ 24 + b * 2 ^ 16 + c * 2 ^ 8 + d) mod 2 ^ 32
  | _ => 2 ^ 32 - 1
  end.

Lemma sample_inet_range s : 0 <= sample_inet_addr s < 2 ^ 32.
Proof.
  unfold sample_inet_addr. repeat case_match; try lia.
  all: apply Z.mod_pos_bound; lia.
Qed.

(** Case analysis on a number below a small bound, each case by computation. *)
Ltac small_cases n bound :=
  let m := fresh "m" in let Hm := fresh "Hm" in
  assert (exists m, n = Z.of_nat m /\ (m < bound)%nat) as [m [-> Hm]]
    by (exists (Z.to_nat n); lia);
  clear - Hm;
  repeat (destruct m as [|m]; [vm_compute; intuition congruence|]; try (exfalso; lia)).

Lemma octet_to_string a : 0 <= a < 256 ->
  octet (to_string a) = Some a /\ bool_decide ("."%char ∉ to_string a) = true.
Proof. intros. small_cases a 256%nat. Qed.

Lemma sample_inet_quad a b c d :
  0 <= a < 256 -> 0 <= b < 256 -> 0 <= c < 256 -> 0 <= d < 256 ->
  sample_inet_addr (to_string a ++ "."%char :: to_string b ++ "."%char :: to_string c
    ++ "."%char :: to_string d) = a * 2 ^ 24 + b * 2 ^ 16 + c * 2 ^ 8 + d.
Proof.
  intros Ha Hb Hc Hd.
  destruct (octet_to_string a Ha) as [Ea Na%bool_decide_eq_true].
  destruct (octet_to_string b Hb) as [Eb Nb%bool_decide_eq_true].
  destruct (octet_to_string c Hc) as [Ec Nc%bool_decide_eq_true].
  destruct (octet_to_string d Hd) as [Ed Nd%bool_decide_eq_true].
  unfold sample_inet_addr. rewrite !split_on_app, split_on_id by done.
  cbn [mapM]. rewrite Ea, Eb, Ec, Ed. cbn [mbind option_bind mret option_ret].
  apply Z.mod_small. lia.
Qed.

Definition sample_inet : Inet := {|
  inet := sample_inet_addr;
  inet_range := sample_inet_range;
  inet_quad := sample_inet_quad
|}.

(** ** Masks *)

Lemma land_high_mask x j : 0 <= x < 2 ^ 32 -> 0 <= j <= 32 ->
  Z.land x (2 ^ 32 - 2 ^ j) = x / 2 ^ j * 2 ^ j.
Proof.
  intros Hx Hj.
  replace (2 ^ 32 - 2 ^ j) with (Z.shiftl (Z.ones (32 - j)) j).
  2: { rewrite Z.shiftl_mul_pow2, Z.ones_equiv by lia.
       replace (2 ^ 32) with (2 ^ (32 - j) * 2 ^ j); [lia|].
       rewrite <- Z.pow_add_r by lia. f_equal. lia. }
  rewrite <- Z.shiftr_div_pow2, <- Z.shiftl_mul_pow2 by lia.
  apply Z.bits_inj'. intros n Hn. rewrite Z.land_spec, !Z.shiftl_spec by done.
  destruct (Z.ltb_spec n j).
  - rewrite !(Z.testbit_neg_r _ (n - j)) by lia. apply andb_false_r.
  - rewrite Z.shiftr_spec by lia. replace (n - j + j) with n by lia.
    destruct (Z.ltb_spec n 32).
    + rewrite Z.ones_spec_low by lia. apply andb_true_r.
    + replace x with (x mod 2 ^ 32) by (by apply Z.mod_small).
      by rewrite Z.mod_pow2_bits_high by lia.
Qed.

Lemma mask_value k : 1 <= k <= 32 ->
  (m ← shr32 4294967295 (32 - k); shl32 m (32 - k)) = Ret (2 ^ 32 - 2 ^ (32 - k)).
Proof.
  intros Hk. assert (0 <= k < 33) as Hk' by lia. revert Hk.
  small_cases k 33%nat.
Qed.

Section Ranges.
Context {I : Inet}.

Lemma is_match_prefix needle ip j : 0 <= ip < 2 ^ 32 -> 0 <= j <= 32 ->
  is_match needle (ip, 2 ^ 32 - 2 ^ j)
  = bool_decide (inet (c_str needle) / 2 ^ j = ip / 2 ^ j).
Proof.
  intros Hip Hj. unfold is_match. cbn [fst snd].
  rewrite !land_high_mask by (done || apply inet_range).
  apply eq_bool_prop_intro. rewrite bool_decide_spec, Is_true_true, Z.eqb_eq.
  assert (0 < 2 ^ j) by lia. split; [|by intros ->].
  intros E. by apply Z.mul_cancel_r in E; [|lia].
Qed.

(** The text before and after the first slash. *)
Lemma make_mask_slash s t : "/"%char ∉ s ->
  make_mask_for_range (s ++ "/"%char :: t) =
  n ← stoi t;
  if 32 <? u32 n then Throw InvalidConfException
  else m ← shr32 4294967295 (32 - u32 n);
       mask ← shl32 m (32 - u32 n);
       Ret (inet (c_str s), mask).
Proof.
  intros Hs. unfold make_mask_for_range. rewrite find_char_app by done.
  unfold substr. rewrite (proj2 (Nat.ltb_ge _ _)) by (rewrite length_app; simpl; lia).
  cbn [mbind outcome_bind]. rewrite take_app_length.
  replace (length s + 1)%nat with (length (s ++ ["/"%char])) by (rewrite length_app; done).
  change ("/"%char :: t) with (["/"%char] ++ t). by rewrite app_assoc, drop_app_length.
Qed.

Lemma stoi_range t n : stoi t = Ret n -> - 2 ^ 31 <= n < 2 ^ 31.
Proof. unfold stoi. repeat case_match; intros ?; simplify_eq. boolify. lia. Qed.

Lemma make_mask_prefix s t k : "/"%char ∉ s -> stoi t = Ret k -> 1 <= k <= 32 ->
  make_mask_for_range (s ++ "/"%char :: t) = Ret (inet (c_str s), 2 ^ 32 - 2 ^ (32 - k)).
Proof.
  intros Hs Ht Hk. rewrite make_mask_slash by done. rewrite Ht. cbn [mbind outcome_bind].
  assert (u32 k = k) as -> by (unfold u32; apply Z.mod_small; lia).
  rewrite (proj2 (Z.ltb_ge _ _)) by lia. pose proof (mask_value k Hk) as Hm.
  destruct (shr32 _ _) as [m| |]; [|done..]. cbn [mbind outcome_bind] in *. by rewrite Hm.
Qed.

(** ** Properties *)

(** C35. [ip/k] with [1 <= k <= 32] matches exactly the addresses that agree
    with [ip] on the [k] high bits. *)
Theorem make_mask_is_match (s t needle : str) (k : Z) :
  "/"%char ∉ s -> stoi t = Ret k -> 1 <= k <= 32 ->
  (r ← make_mask_for_range (s ++ "/"%char :: t); Ret (is_match needle r))
  = Ret (bool_decide (inet (c_str needle) / 2 ^ (32 - k) = inet (c_str s) / 2 ^ (32 - k))).
Proof.
  intros. rewrite (make_mask_prefix s t k) by done. cbn [mbind outcome_bind]. f_equal.
  apply is_match_prefix; [apply inet_range|lia].
Qed.

(** The other lengths: [ip/0] shifts a 32-bit mask by 32, which is
    undefined; a negative length or one above 32 is [InvalidConfException]; no
    slash at all means the single address. *)
Lemma make_mask_other_lengths (s t : str) :
  "/"%char ∉ s ->
  (forall k, stoi t = Ret k ->
     make_mask_for_range (s ++ "/"%char :: t) =
       if decide (k = 0) then Fault ShiftTooWide
       else if decide (1 <= k <= 32) then Ret (inet (c_str s), 2 ^ 32 - 2 ^ (32 - k))
       else Throw InvalidConfException) /\
  (forall e, stoi t = Throw e -> make_mask_for_range (s ++ "/"%char :: t) = Throw e) /\
  (forall needle, (r ← make_mask_for_range s; Ret (is_match needle r))
     = Ret (bool_decide (inet (c_str needle) = inet (c_str s)))).
Proof.
  intros Hs. split; [|split].
  - intros k Hk. destruct (decide (k = 0)) as [->|]; [|case_decide].
    + rewrite make_mask_slash by done. by rewrite Hk.
    + by apply make_mask_prefix.
    + rewrite make_mask_slash by done. rewrite Hk. cbn [mbind outcome_bind].
      apply stoi_range in Hk. rewrite (proj2 (Z.ltb_lt _ _)); [done|]. unfold u32. divmod.
  - intros e He. rewrite make_mask_slash by done. by rewrite He.
  - intros needle. unfold make_mask_for_range.
    rewrite (proj2 (find_char_None s "/"%char)) by done. cbn [mbind outcome_bind]. f_equal.
    change 4294967295 with (2 ^ 32 - 2 ^ 0).
    rewrite is_match_prefix by (lia || apply inet_range). by rewrite !Z.div_1_r.
Qed.

End Ranges.

(** [encapsulate_in_quotes] terminates and returns the string between
    double quotes with a backslash put before every double quote inside, and
    nothing else changed. *)
Lemma encapsulate_in_quotes_spec (s : str) :
  encapsulate_in_quotes s = dquote :: (s ≫= escape) ++ [dquote].
Proof. unfold encapsulate_in_quotes. by rewrite (escape_loop_spec _ [] s). Qed.

Lemma make_mask_is_match_witness :
  (r ← make_mask_for_range (I := sample_inet) (lit "10.0.0.1" ++ "/"%char :: lit "24");
   Ret (is_match (I := sample_inet) (lit "10.0.0.77") r)) = Ret true.
Proof.
  rewrite (@make_mask_is_match sample_inet (lit "10.0.0.1") (lit "24") (lit "10.0.0.77") 24).
  - vm_compute. reflexivity.
  - apply (bool_decide_unpack _). vm_compute. exact I.
  - vm_compute. reflexivity.
  - lia.
Defined.

End Util.
