(* ===== verification/Print.v ===== *)
(** * Print: the names of statuses and events and the text of address ranges
    (src/print.h)

    What the debug output of the plugin is made of.  [TSHttpStatus] and [TSEvent]
    have a constructor for each value the code names, and one for the rest; the
    events are those of [Lifecycle] too. *)

From S2P Require Import Prelude Util.

Local Open Scope Z_scope.

Module Print.

(** ** Statuses *)

Inductive TSHttpStatus :=
  | TS_HTTP_STATUS_NONE
  | TS_HTTP_STATUS_CONTINUE
  | TS_HTTP_STATUS_SWITCHING_PROTOCOL
  | TS_HTTP_STATUS_OK
  | TS_HTTP_STATUS_CREATED
  | TS_HTTP_STATUS_ACCEPTED
  | TS_HTTP_STATUS_NON_AUTHORITATIVE_INFORMATION
  | TS_HTTP_STATUS_NO_CONTENT
  | TS_HTTP_STATUS_RESET_CONTENT
  | TS_HTTP_STATUS_PARTIAL_CONTENT
  | TS_HTTP_STATUS_MULTI_STATUS
  | TS_HTTP_STATUS_ALREADY_REPORTED
  | TS_HTTP_STATUS_IM_USED
  | TS_HTTP_STATUS_MULTIPLE_CHOICES
  | TS_HTTP_STATUS_MOVED_PERMANENTLY
  | TS_HTTP_STATUS_MOVED_TEMPORARILY
  | TS_HTTP_STATUS_SEE_OTHER
  | TS_HTTP_STATUS_NOT_MODIFIED
  | TS_HTTP_STATUS_USE_PROXY
  | TS_HTTP_STATUS_TEMPORARY_REDIRECT
  | TS_HTTP_STATUS_PERMANENT_REDIRECT
  | TS_HTTP_STATUS_BAD_REQUEST
  | TS_HTTP_STATUS_UNAUTHORIZED
  | TS_HTTP_STATUS_PAYMENT_REQUIRED
  | TS_HTTP_STATUS_FORBIDDEN
  | TS_HTTP_STATUS_NOT_FOUND
  | TS_HTTP_STATUS_METHOD_NOT_ALLOWED
  | TS_HTTP_STATUS_NOT_ACCEPTABLE
  | TS_HTTP_STATUS_PROXY_AUTHENTICATION_REQUIRED
  | TS_HTTP_STATUS_REQUEST_TIMEOUT
  | TS_HTTP_STATUS_CONFLICT
  | TS_HTTP_STATUS_GONE
  | TS_HTTP_STATUS_LENGTH_REQUIRED
  | TS_HTTP_STATUS_PRECONDITION_FAILED
  | TS_HTTP_STATUS_REQUEST_ENTITY_TOO_LARGE
  | TS_HTTP_STATUS_REQUEST_URI_TOO_LONG
  | TS_HTTP_STATUS_UNSUPPORTED_MEDIA_TYPE
  | TS_HTTP_STATUS_REQUESTED_RANGE_NOT_SATISFIABLE
  | TS_HTTP_STATUS_EXPECTATION_FAILED
  | TS_HTTP_STATUS_UNPROCESSABLE_ENTITY
  | TS_HTTP_STATUS_LOCKED
  | TS_HTTP_STATUS_FAILED_DEPENDENCY
  | TS_HTTP_STATUS_UPGRADE_REQUIRED
  | TS_HTTP_STATUS_PRECONDITION_REQUIRED
  | TS_HTTP_STATUS_TOO_MANY_REQUESTS
  | TS_HTTP_STATUS_REQUEST_HEADER_FIELDS_TOO_LARGE
  | TS_HTTP_STATUS_INTERNAL_SERVER_ERROR
  | TS_HTTP_STATUS_NOT_IMPLEMENTED
  | TS_HTTP_STATUS_BAD_GATEWAY
  | TS_HTTP_STATUS_SERVICE_UNAVAILABLE
  | TS_HTTP_STATUS_GATEWAY_TIMEOUT
  | TS_HTTP_STATUS_HTTPVER_NOT_SUPPORTED
  | TS_HTTP_STATUS_VARIANT_ALSO_NEGOTIATES
  | TS_HTTP_STATUS_INSUFFICIENT_STORAGE
  | TS_HTTP_STATUS_LOOP_DETECTED
  | TS_HTTP_STATUS_NOT_EXTENDED
  | TS_HTTP_STATUS_NETWORK_AUTHENTICATION_REQUIRED
  | TS_HTTP_STATUS_ANY (status : Z).

(** [operator<<(std::ostream&, ts_http_status)]. *)
Definition print_status (s : TSHttpStatus) : str :=
  match s with
  | TS_HTTP_STATUS_NONE => lit "TS_HTTP_STATUS_NONE"
  | TS_HTTP_STATUS_CONTINUE => lit "TS_HTTP_STATUS_CONTINUE"
  | TS_HTTP_STATUS_SWITCHING_PROTOCOL => lit "TS_HTTP_STATUS_SWITCHING_PROTOCOL"
  | TS_HTTP_STATUS_OK => lit "TS_HTTP_STATUS_OK"
  | TS_HTTP_STATUS_CREATED => lit "TS_HTTP_STATUS_CREATED"
  | TS_HTTP_STATUS_ACCEPTED => lit "TS_HTTP_STATUS_ACCEPTED"
  | TS_HTTP_STATUS_NON_AUTHORITATIVE_INFORMATION => lit "TS_HTTP_STATUS_NON_AUTHORITATIVE_INFORMATION"
  | TS_HTTP_STATUS_NO_CONTENT => lit "TS_HTTP_STATUS_NO_CONTENT"
  | TS_HTTP_STATUS_RESET_CONTENT => lit "TS_HTTP_STATUS_RESET_CONTENT"
  | TS_HTTP_STATUS_PARTIAL_CONTENT => lit "TS_HTTP_STATUS_PARTIAL_CONTENT"
  | TS_HTTP_STATUS_MULTI_STATUS => lit "TS_HTTP_STATUS_MULTI_STATUS"
  | TS_HTTP_STATUS_ALREADY_REPORTED => lit "TS_HTTP_STATUS_ALREADY_REPORTED"
  | TS_HTTP_STATUS_IM_USED => lit "TS_HTTP_STATUS_IM_USED"
  | TS_HTTP_STATUS_MULTIPLE_CHOICES => lit "TS_HTTP_STATUS_MULTIPLE_CHOICES"
  | TS_HTTP_STATUS_MOVED_PERMANENTLY => lit "TS_HTTP_STATUS_MOVED_PERMANENTLY"
  | TS_HTTP_STATUS_MOVED_TEMPORARILY => lit "TS_HTTP_STATUS_MOVED_TEMPORARILY"
  | TS_HTTP_STATUS_SEE_OTHER => lit "TS_HTTP_STATUS_SEE_OTHER"
  | TS_HTTP_STATUS_NOT_MODIFIED => lit "TS_HTTP_STATUS_NOT_MODIFIED"
  | TS_HTTP_STATUS_USE_PROXY => lit "TS_HTTP_STATUS_USE_PROXY"
  | TS_HTTP_STATUS_TEMPORARY_REDIRECT => lit "TS_HTTP_STATUS_TEMPORARY_REDIRECT"
  | TS_HTTP_STATUS_PERMANENT_REDIRECT => lit "TS_HTTP_STATUS_PERMANENT_REDIRECT"
  | TS_HTTP_STATUS_BAD_REQUEST => lit "TS_HTTP_STATUS_BAD_REQUEST"
  | TS_HTTP_STATUS_UNAUTHORIZED => lit "TS_HTTP_STATUS_UNAUTHORIZED"
  | TS_HTTP_STATUS_PAYMENT_REQUIRED => lit "TS_HTTP_STATUS_PAYMENT_REQUIRED"
  | TS_HTTP_STATUS_FORBIDDEN => lit "TS_HTTP_STATUS_FORBIDDEN"
  | TS_HTTP_STATUS_NOT_FOUND => lit "TS_HTTP_STATUS_NOT_FOUND"
  | TS_HTTP_STATUS_METHOD_NOT_ALLOWED => lit "TS_HTTP_STATUS_METHOD_NOT_ALLOWED"
  | TS_HTTP_STATUS_NOT_ACCEPTABLE => lit "TS_HTTP_STATUS_NOT_ACCEPTABLE"
  | TS_HTTP_STATUS_PROXY_AUTHENTICATION_REQUIRED => lit "TS_HTTP_STATUS_PROXY_AUTHENTICATION_REQUIRED"
  | TS_HTTP_STATUS_REQUEST_TIMEOUT => lit "TS_HTTP_STATUS_REQUEST_TIMEOUT"
  | TS_HTTP_STATUS_CONFLICT => lit "TS_HTTP_STATUS_CONFLICT"
  | TS_HTTP_STATUS_GONE => lit "TS_HTTP_STATUS_GONE"
  | TS_HTTP_STATUS_LENGTH_REQUIRED => lit "TS_HTTP_STATUS_LENGTH_REQUIRED"
  | TS_HTTP_STATUS_PRECONDITION_FAILED => lit "TS_HTTP_STATUS_PRECONDITION_FAILED"
  | TS_HTTP_STATUS_REQUEST_ENTITY_TOO_LARGE => lit "TS_HTTP_STATUS_REQUEST_ENTITY_TOO_LARGE"
  | TS_HTTP_STATUS_REQUEST_URI_TOO_LONG => lit "TS_HTTP_STATUS_REQUEST_URI_TOO_LONG"
  | TS_HTTP_STATUS_UNSUPPORTED_MEDIA_TYPE => lit "TS_HTTP_STATUS_UNSUPPORTED_MEDIA_TYPE"
  | TS_HTTP_STATUS_REQUESTED_RANGE_NOT_SATISFIABLE => lit "TS_HTTP_STATUS_REQUESTED_RANGE_NOT_SATISFIABLE"
  | TS_HTTP_STATUS_EXPECTATION_FAILED => lit "TS_HTTP_STATUS_EXPECTATION_FAILED"
  | TS_HTTP_STATUS_UNPROCESSABLE_ENTITY => lit "TS_HTTP_STATUS_UNPROCESSABLE_ENTITY"
  | TS_HTTP_STATUS_LOCKED => lit "TS_HTTP_STATUS_LOCKED"
  | TS_HTTP_STATUS_FAILED_DEPENDENCY => lit "TS_HTTP_STATUS_FAILED_DEPENDENCY"
  | TS_HTTP_STATUS_UPGRADE_REQUIRED => lit "TS_HTTP_STATUS_UPGRADE_REQUIRED"
  | TS_HTTP_STATUS_PRECONDITION_REQUIRED => lit "TS_HTTP_STATUS_PRECONDITION_REQUIRED"
  | TS_HTTP_STATUS_TOO_MANY_REQUESTS => lit "TS_HTTP_STATUS_TOO_MANY_REQUESTS"
  | TS_HTTP_STATUS_REQUEST_HEADER_FIELDS_TOO_LARGE => lit "TS_HTTP_STATUS_REQUEST_HEADER_FIELDS_TOO_LARGE"
  | TS_HTTP_STATUS_INTERNAL_SERVER_ERROR => lit "TS_HTTP_STATUS_INTERNAL_SERVER_ERROR"
  | TS_HTTP_STATUS_NOT_IMPLEMENTED => lit "TS_HTTP_STATUS_NOT_IMPLEMENTED"
  | TS_HTTP_STATUS_BAD_GATEWAY => lit "TS_HTTP_STATUS_BAD_GATEWAY"
  | TS_HTTP_STATUS_SERVICE_UNAVAILABLE => lit "TS_HTTP_STATUS_SERVICE_UNAVAILABLE"
  | TS_HTTP_STATUS_GATEWAY_TIMEOUT => lit "TS_HTTP_STATUS_GATEWAY_TIMEOUT"
  | TS_HTTP_STATUS_HTTPVER_NOT_SUPPORTED => lit "TS_HTTP_STATUS_HTTPVER_NOT_SUPPORTED"
  | TS_HTTP_STATUS_VARIANT_ALSO_NEGOTIATES => lit "TS_HTTP_STATUS_VARIANT_ALSO_NEGOTIATES"
  | TS_HTTP_STATUS_INSUFFICIENT_STORAGE => lit "TS_HTTP_STATUS_INSUFFICIENT_STORAGE"
  | TS_HTTP_STATUS_LOOP_DETECTED => lit "TS_HTTP_STATUS_LOOP_DETECTED"
  | TS_HTTP_STATUS_NOT_EXTENDED => lit "TS_HTTP_STATUS_NOT_EXTENDED"
  | TS_HTTP_STATUS_NETWORK_AUTHENTICATION_REQUIRED => lit "TS_HTTP_STATUS_NETWORK_AUTHENTICATION_REQUIRED"
  | TS_HTTP_STATUS_ANY status => lit "TS_HTTP_STATUS(" ++ to_string status ++ lit ")"
  end.

Definition named_statuses : list TSHttpStatus :=
  [TS_HTTP_STATUS_NONE; TS_HTTP_STATUS_CONTINUE; TS_HTTP_STATUS_SWITCHING_PROTOCOL;
   TS_HTTP_STATUS_OK; TS_HTTP_STATUS_CREATED; TS_HTTP_STATUS_ACCEPTED;
   TS_HTTP_STATUS_NON_AUTHORITATIVE_INFORMATION; TS_HTTP_STATUS_NO_CONTENT;
   TS_HTTP_STATUS_RESET_CONTENT; TS_HTTP_STATUS_PARTIAL_CONTENT; TS_HTTP_STATUS_MULTI_STATUS;
   TS_HTTP_STATUS_ALREADY_REPORTED; TS_HTTP_STATUS_IM_USED; TS_HTTP_STATUS_MULTIPLE_CHOICES;
   TS_HTTP_STATUS_MOVED_PERMANENTLY; TS_HTTP_STATUS_MOVED_TEMPORARILY; TS_HTTP_STATUS_SEE_OTHER;
   TS_HTTP_STATUS_NOT_MODIFIED; TS_HTTP_STATUS_USE_PROXY; TS_HTTP_STATUS_TEMPORARY_REDIRECT;
   TS_HTTP_STATUS_PERMANENT_REDIRECT; TS_HTTP_STATUS_BAD_REQUEST; TS_HTTP_STATUS_UNAUTHORIZED;
   TS_HTTP_STATUS_PAYMENT_REQUIRED; TS_HTTP_STATUS_FORBIDDEN; TS_HTTP_STATUS_NOT_FOUND;
   TS_HTTP_STATUS_METHOD_NOT_ALLOWED; TS_HTTP_STATUS_NOT_ACCEPTABLE;
   TS_HTTP_STATUS_PROXY_AUTHENTICATION_REQUIRED; TS_HTTP_STATUS_REQUEST_TIMEOUT;
   TS_HTTP_STATUS_CONFLICT; TS_HTTP_STATUS_GONE; TS_HTTP_STATUS_LENGTH_REQUIRED;
   TS_HTTP_STATUS_PRECONDITION_FAILED; TS_HTTP_STATUS_REQUEST_ENTITY_TOO_LARGE;
   TS_HTTP_STATUS_REQUEST_URI_TOO_LONG; TS_HTTP_STATUS_UNSUPPORTED_MEDIA_TYPE;
   TS_HTTP_STATUS_REQUESTED_RANGE_NOT_SATISFIABLE; TS_HTTP_STATUS_EXPECTATION_FAILED;
   TS_HTTP_STATUS_UNPROCESSABLE_ENTITY; TS_HTTP_STATUS_LOCKED; TS_HTTP_STATUS_FAILED_DEPENDENCY;
   TS_HTTP_STATUS_UPGRADE_REQUIRED; TS_HTTP_STATUS_PRECONDITION_REQUIRED;
   TS_HTTP_STATUS_TOO_MANY_REQUESTS; TS_HTTP_STATUS_REQUEST_HEADER_FIELDS_TOO_LARGE;
   TS_HTTP_STATUS_INTERNAL_SERVER_ERROR; TS_HTTP_STATUS_NOT_IMPLEMENTED;
   TS_HTTP_STATUS_BAD_GATEWAY; TS_HTTP_STATUS_SERVICE_UNAVAILABLE; TS_HTTP_STATUS_GATEWAY_TIMEOUT;
   TS_HTTP_STATUS_HTTPVER_NOT_SUPPORTED; TS_HTTP_STATUS_VARIANT_ALSO_NEGOTIATES;
   TS_HTTP_STATUS_INSUFFICIENT_STORAGE; TS_HTTP_STATUS_LOOP_DETECTED; TS_HTTP_STATUS_NOT_EXTENDED;
   TS_HTTP_STATUS_NETWORK_AUTHENTICATION_REQUIRED].

(** ** Events *)

Inductive TSEvent :=
  | TS_EVENT_HTTP_TXN_START
  | TS_EVENT_HTTP_READ_REQUEST_HDR
  | TS_EVENT_HTTP_READ_CACHE_HDR
  | TS_EVENT_HTTP_SEND_REQUEST_HDR
  | TS_EVENT_HTTP_SEND_RESPONSE_HDR
  | TS_EVENT_HTTP_TXN_CLOSE
  | TS_EVENT_TIMEOUT
  | TS_EVENT_OTHER.

#[global] Instance TSEvent_eq_dec : EqDecision TSEvent.
Proof. solve_decision. Defined.

(** [operator<<(std::ostream&, ts_event)]. *)
Definition print_event (e : TSEvent) : str :=
  match e with
  | TS_EVENT_HTTP_TXN_START => lit "TS_EVENT_HTTP_TXN_START"
  | TS_EVENT_HTTP_READ_REQUEST_HDR => lit "TS_EVENT_HTTP_READ_REQUEST_HDR"
  | TS_EVENT_HTTP_READ_CACHE_HDR => lit "TS_EVENT_HTTP_READ_CACHE_HDR"
  | TS_EVENT_HTTP_SEND_REQUEST_HDR => lit "TS_EVENT_HTTP_SEND_REQUEST_HDR"
  | TS_EVENT_HTTP_SEND_RESPONSE_HDR => lit "TS_EVENT_HTTP_SEND_RESPONSE_HDR"
  | TS_EVENT_HTTP_TXN_CLOSE => lit "TS_EVENT_HTTP_TXN_CLOSE"
  | TS_EVENT_TIMEOUT => lit "TS_EVENT_TIMEOUT"
  | TS_EVENT_OTHER => lit "UNKNOWN_TS_EVENT"
  end.

(** ** Ranges *)

(** [inet_ntop(AF_INET, htonl(ip))]: four decimal octets. *)
Definition dotted (ip : Z) : str :=
  to_string (ip / 2 ^ 24) ++ "."%char :: to_string (ip / 2 ^ 16 mod 256) ++ "."%char
  :: to_string (ip / 2 ^ 8 mod 256) ++ "."%char :: to_string (ip mod 256).

Definition INET_ADDRSTRLEN : nat := 16.

(** [std::hex] of a [uint32_t]: eight digits at most. *)
Definition hex_digit (d : Z) : char := chr (if d <? 10 then 48 + d else 87 + d).

Fixpoint hex_digits (fuel : nat) (z : Z) (acc : str) : str :=
  match fuel with
  | O => acc
  | S fuel' =>
      let acc' := hex_digit (z mod 16) :: acc in
      if z <? 16 then acc' else hex_digits fuel' (z / 16) acc'
  end.

Definition to_hex (z : Z) : str := hex_digits 8 z [].

(** [operator<<(std::ostream&, const SubnetRange&)]; [inet_ntop] writes into a
    buffer of [INET_ADDRSTRLEN] characters. *)
Definition print_range (r : Util.SubnetRange) : outcome str :=
  if (length (dotted (fst r)) <? INET_ADDRSTRLEN)%nat
  then Ret (dotted (fst r) ++ lit "/" ++ to_hex (snd r))
  else Fault BufferOverflow.

(** ** [str]: the arguments one after the other *)

Definition str_impl (ss : str) (args : list str) : str := fold_left (fun ss arg => ss ++ arg) args ss.
Definition str_ (args : list str) : str := str_impl [] args.

Lemma str_concat args : str_ args = concat args.
Proof.
  unfold str_, str_impl.
  assert (H : forall ss, fold_left (fun ss arg => ss ++ arg) args ss = ss ++ concat args).
  { induction args as [|a args IH]; intros ss; cbn; [by rewrite app_nil_r|].
    by rewrite IH, <- app_assoc. }
  apply (H []).
Qed.

(** ** Names tell statuses apart *)

Definition is_named (s : TSHttpStatus) : bool :=
  match s with TS_HTTP_STATUS_ANY _ => false | _ => true end.

(** Reading a name back from the list of all names. *)
Definition read_status (s : str) : option TSHttpStatus :=
  snd <$> list_find (fun st => print_status st = s) named_statuses.

Lemma read_print_status st :
  read_status (print_status st) = if is_named st then Some st else None.
Proof.
  destruct st; vm_compute; reflexivity.
Qed.

Lemma to_string_inj a b : to_string a = to_string b -> a = b.
Proof.
  unfold to_string, lit. intros H. apply (f_equal String.string_of_list_ascii) in H.
  rewrite !String.string_of_list_ascii_of_string in H. by apply (inj pretty).
Qed.

(** Two statuses with one text are one status. *)
Lemma print_status_inj (s s' : TSHttpStatus) : print_status s = print_status s' -> s = s'.
Proof.
  intros H. pose proof (read_print_status s) as Hr. rewrite H, read_print_status in Hr.
  destruct (is_named s) eqn:E, (is_named s') eqn:E'; try congruence.
  destruct s; try discriminate. destruct s'; try discriminate.
  cbn [print_status] in H. apply app_inv_head, app_inv_tail in H. f_equal. by apply to_string_inj.
Qed.

(** ** Ranges can be read back *)

Definition hex_value (c : char) : Z := if isdigit c then code c - 48 else code c - 87.

Definition from_hex (s : str) : Z := fold_left (fun a c => a * 16 + hex_value c) s 0.

Lemma hex_value_digit d : 0 <= d < 16 -> hex_value (hex_digit d) = d.
Proof. intros. Util.small_cases d 16%nat. Qed.

Lemma hex_digits_value fuel : forall z acc, 0 <= z < 16 ^ Z.of_nat (S fuel) ->
  fold_left (fun a c => a * 16 + hex_value c) (hex_digits (S fuel) z acc) 0
  = fold_left (fun a c => a * 16 + hex_value c) acc z.
Proof.
  induction fuel as [|fuel IH]; intros z acc Hz; cbn [hex_digits].
  - change (16 ^ Z.of_nat 1) with 16 in Hz. rewrite (proj2 (Z.ltb_lt _ _)) by lia.
    cbn [fold_left]. rewrite Z.mod_small, hex_value_digit by lia. done.
  - pose proof (Z.mod_pos_bound z 16 ltac:(lia)) as Hm. destruct (Z.ltb_spec z 16).
    + cbn [fold_left]. rewrite Z.mod_small, hex_value_digit by lia. done.
    + etransitivity; [apply (IH (z / 16) (hex_digit (z mod 16) :: acc))|].
      * replace (Z.of_nat (S (S fuel))) with (Z.succ (Z.of_nat (S fuel))) in Hz by lia.
        rewrite Z.pow_succ_r in Hz by lia. split; [apply Z.div_pos; lia|].
        apply Z.div_lt_upper_bound; lia.
      * cbn [fold_left]. rewrite hex_value_digit by done. f_equal. pose proof (Z.div_mod z 16). lia.
Qed.

Lemma from_to_hex z : 0 <= z < 2 ^ 32 -> from_hex (to_hex z) = z.
Proof. intros Hz. apply (hex_digits_value 7 z []). exact Hz. Qed.

(** The octets of an address. *)
Lemma octet_text a : 0 <= a < 256 ->
  bool_decide ((length (to_string a) <= 3)%nat /\ ("/"%char ∉ to_string a) /\ (NUL ∉ to_string a)) = true.
Proof. intros. Util.small_cases a 256%nat. Qed.

Lemma octets_range ip : 0 <= ip < 2 ^ 32 ->
  0 <= ip / 2 ^ 24 < 256 /\ 0 <= ip / 2 ^ 16 mod 256 < 256 /\
  0 <= ip / 2 ^ 8 mod 256 < 256 /\ 0 <= ip mod 256 < 256 /\
  ip / 2 ^ 24 * 2 ^ 24 + ip / 2 ^ 16 mod 256 * 2 ^ 16 + ip / 2 ^ 8 mod 256 * 2 ^ 8 + ip mod 256 = ip.
Proof. intros. divmod. Qed.

Lemma dotted_text ip : 0 <= ip < 2 ^ 32 ->
  (length (dotted ip) < INET_ADDRSTRLEN)%nat /\ ("/"%char ∉ dotted ip) /\ (NUL ∉ dotted ip).
Proof.
  intros (Ha & Hb & Hc & Hd & _)%octets_range. unfold dotted, INET_ADDRSTRLEN.
  pose proof (octet_text _ Ha) as (La & Sa & Na)%bool_decide_eq_true.
  pose proof (octet_text _ Hb) as (Lb & Sb & Nb)%bool_decide_eq_true.
  pose proof (octet_text _ Hc) as (Lc & Sc & Nc)%bool_decide_eq_true.
  pose proof (octet_text _ Hd) as (Ld & Sd & Nd)%bool_decide_eq_true.
  split; [|split].
  - repeat (rewrite length_app; cbn [length]). lia.
  - by rewrite !not_elem_of_app, !not_elem_of_cons, !not_elem_of_app, !not_elem_of_cons,
      not_elem_of_app, not_elem_of_cons.
  - by rewrite !not_elem_of_app, !not_elem_of_cons, !not_elem_of_app, !not_elem_of_cons,
      not_elem_of_app, not_elem_of_cons.
Qed.

Section Read.
Context {I : Inet}.

Definition read_range (s : str) : option Util.SubnetRange :=
  i ← find s ["/"%char]; Some (inet (take i s), from_hex (drop (i + 1) s)).

(** The text of a range names it: the address fits the buffer it is written
    into, and whoever reads the dotted address before the slash and the
    hexadecimal mask after it gets the range back, for every pair of 32-bit
    values. *)
Lemma print_range_roundtrip (r : Util.SubnetRange) :
  0 <= fst r < 2 ^ 32 -> 0 <= snd r < 2 ^ 32 ->
  exists text, print_range r = Ret text /\ read_range text = Some r.
Proof.
  intros Hip Hm. destruct (dotted_text _ Hip) as (Hl & Hs & _). unfold print_range.
  rewrite (proj2 (Nat.ltb_lt _ _)) by done. eexists. split; [reflexivity|].
  unfold read_range. change (lit "/" ++ to_hex (snd r)) with ("/"%char :: to_hex (snd r)).
  rewrite find_char_app by done. cbn [mbind option_bind].
  rewrite take_app_length. change ("/"%char :: to_hex (snd r)) with (["/"%char] ++ to_hex (snd r)).
  replace (length (dotted (fst r)) + 1)%nat with (length (dotted (fst r) ++ ["/"%char]))
    by (rewrite length_app; done).
  rewrite app_assoc, drop_app_length, from_to_hex by done.
  destruct (octets_range _ Hip) as (Ha & Hb & Hc & Hd & He).
  unfold dotted. rewrite inet_quad, He by done. by destruct r.
Qed.
End Read.

Lemma print_range_roundtrip_witness :
  exists text, print_range (167772160, 4278190080) = Ret text /\
    read_range (I := Util.sample_inet) text = Some (167772160, 4278190080).
Proof. apply (print_range_roundtrip (I := Util.sample_inet)); cbn [fst snd]; lia. Defined.

Example print_range_example : print_range (167772160, 4278190080) = Ret (lit "10.0.0.0/ff000000").
Proof. reflexivity. Qed.

End Print.
