(* ===== verification/GmTime.v ===== *)
(** * GmTime: calendar time

    [gmtime] and the format "%Y-%m-%dT%H:%M:%S" of [strftime], which the bot
    sniffer (src/bot_sniffer.cpp) puts into its records, with the reader that
    gets the time back. *)

From S2P Require Import Prelude Util.

Local Open Scope Z_scope.

Module GmTime.

Record tm := MkTm {
  tm_year : Z; tm_mon : Z; tm_mday : Z;      (* the year and month as printed *)
  tm_hour : Z; tm_min : Z; tm_sec : Z
}.

(** Years begin in March and come in eras of 400 (146097 days); an era has four
    centuries, a century groups of four years, and the leap day of a group, a
    century and an era is its last day. *)
Definition year_of_era (doe : Z) : Z :=
  let c := Z.min (doe / 36524) 3 in
  let r := doe - 36524 * c in
  100 * c + 4 * (r / 1461) + Z.min (r mod 1461 / 365) 3.

Definition day_of_year (doe : Z) : Z :=
  let yoe := year_of_era doe in doe - (365 * yoe + yoe / 4 - yoe / 100).

Definition month_of (doy : Z) : Z := (5 * doy + 2) / 153.

Definition civil_from_days (days : Z) : Z * Z * Z :=
  let z := days + 719468 in
  let era := z / 146097 in
  let doe := z mod 146097 in
  let doy := day_of_year doe in
  let mp := month_of doy in
  let m := if mp <? 10 then mp + 3 else mp - 9 in
  let y := year_of_era doe + era * 400 + (if m <=? 2 then 1 else 0) in
  (y, m, doy - (153 * mp + 2) / 5 + 1).

Definition gmtime (t : Z) : tm :=
  let '(y, m, d) := civil_from_days (t / 86400) in
  let s := t mod 86400 in
  MkTm y m d (s / 3600) (s / 60 mod 60) (s mod 60).

Definition pad2 (n : Z) : str := [chr (48 + n / 10); chr (48 + n mod 10)].

Definition strftime (x : tm) : str :=
  to_string (tm_year x) ++ lit "-" ++ pad2 (tm_mon x) ++ lit "-" ++ pad2 (tm_mday x) ++ lit "T"
  ++ pad2 (tm_hour x) ++ lit ":" ++ pad2 (tm_min x) ++ lit ":" ++ pad2 (tm_sec x).

(** ** Reading it back *)

(** The days before a date, counted year by year and month by month. *)
Definition days_from_civil (y m d : Z) : Z :=
  let y' := if m <=? 2 then y - 1 else y in
  let mp := if 2 <? m then m - 3 else m + 9 in
  365 * y' + y' / 4 - y' / 100 + y' / 400 + (153 * mp + 2) / 5 + d - 1 - 719468.

Definition timegm (x : tm) : Z :=
  86400 * days_from_civil (tm_year x) (tm_mon x) (tm_mday x)
  + 3600 * tm_hour x + 60 * tm_min x + tm_sec x.

Definition number (s : str) : option Z :=
  if forallb isdigit s then Some (Util.digits s 0) else None.

Definition strptime (s : str) : option tm :=
  match s with
  | [y1; y2; y3; y4; c1; m1; m2; c2; d1; d2; c3; h1; h2; c4; i1; i2; c5; s1; s2] =>
      if bool_decide ([c1; c2; c3; c4; c5] = lit "--T::") then
        y ← number [y1; y2; y3; y4]; m ← number [m1; m2]; d ← number [d1; d2];
        h ← number [h1; h2]; i ← number [i1; i2]; s ← number [s1; s2];
        Some (MkTm y m d h i s)
      else None
  | _ => None
  end.

(** ** Round trip *)

Definition pad2_check (n : Z) : bool := bool_decide (number (pad2 n) = Some n).

Lemma pad2_number n : 0 <= n < 100 -> number (pad2 n) = Some n.
Proof.
  intros Hn. assert (H : pad2_check n = true).
  { apply (all_from_spec 100 pad2_check 0); [vm_cast_no_check (eq_refl true)|lia]. }
  by apply bool_decide_eq_true in H.
Qed.

Definition year_check (y : Z) : bool :=
  match to_string y with
  | [a; b; c; d] => bool_decide (number [a; b; c; d] = Some y)
  | _ => false
  end.

Lemma year_number y : 1000 <= y < 10000 ->
  exists a b c d, to_string y = [a; b; c; d] /\ number [a; b; c; d] = Some y.
Proof.
  intros Hy. assert (H : year_check y = true).
  { apply (all_from_spec (Z.to_nat 9000) year_check 1000); [vm_cast_no_check (eq_refl true)|lia]. }
  unfold year_check in H. destruct (to_string y) as [|a [|b [|c [|d [|e l]]]]]; try done.
  apply bool_decide_eq_true in H. by exists a, b, c, d.
Qed.

(** A day of an era: its year and its day in that year. *)
Lemma year_facts doe : 0 <= doe < 146097 ->
  0 <= year_of_era doe < 400 /\ 0 <= day_of_year doe <= 365.
Proof.
  intros Hd. unfold day_of_year, year_of_era. cbv zeta.
  set (c := Z.min (doe / 36524) 3).
  assert (Hc : 0 <= c <= 3 /\ 0 <= doe - 36524 * c <= 36524 /\ (c < 3 -> doe - 36524 * c < 36524))
    by (unfold c; divmod).
  set (r := doe - 36524 * c) in *. set (q := r / 1461). set (n := Z.min (r mod 1461 / 365) 3).
  assert (Hq : 0 <= q <= 24 /\ 0 <= r - 1461 * q < 1461) by (unfold q; divmod).
  assert (Hm : r mod 1461 = r - 1461 * q) by (unfold q; divmod).
  assert (Hn : 0 <= n <= 3 /\ 0 <= r - 1461 * q - 365 * n <= 365) by (unfold n; rewrite Hm; divmod).
  replace ((100 * c + 4 * q + n) / 4) with (25 * c + q) by divmod.
  replace ((100 * c + 4 * q + n) / 100) with c by divmod. lia.
Qed.

Lemma era_facts doe : 0 <= doe < 146097 ->
  let yoe := year_of_era doe in let mp := month_of (day_of_year doe) in
  0 <= yoe < 400 /\ 0 <= mp < 12 /\ 1 <= day_of_year doe - (153 * mp + 2) / 5 + 1 <= 31.
Proof.
  intros Hd. destruct (year_facts doe Hd) as [Hy Hdoy]. cbv zeta. split; [done|].
  unfold month_of. divmod.
Qed.

Lemma civil_inverse days :
  let '(y, m, d) := civil_from_days days in
  days_from_civil y m d = days /\ 1 <= m <= 12 /\ 1 <= d <= 31.
Proof.
  unfold civil_from_days. cbv zeta.
  pose proof (Z.mod_pos_bound (days + 719468) 146097 ltac:(lia)) as Hb.
  pose proof (Z.div_mod (days + 719468) 146097 ltac:(lia)) as Hdm.
  set (era := (days + 719468) / 146097) in *. set (doe := (days + 719468) mod 146097) in *.
  destruct (era_facts doe Hb) as (Hy & Hm & Hd).
  unfold days_from_civil. unfold day_of_year in *.
  set (yoe := year_of_era doe) in *.
  set (doy := doe - (365 * yoe + yoe / 4 - yoe / 100)) in *.
  set (mp := month_of doy) in *.
  split; [|destruct (mp <? 10) eqn:E1; lia].
  assert (Hf : forall x, x = yoe + era * 400 ->
    365 * x + x / 4 - x / 100 + x / 400 = 146097 * era + (365 * yoe + yoe / 4 - yoe / 100)).
  { intros x ->. replace ((yoe + era * 400) / 400) with era by (apply Z.div_unique_pos with yoe; lia).
    replace ((yoe + era * 400) / 100) with (yoe / 100 + era * 4)
      by (rewrite <- Z.div_add by lia; f_equal; lia).
    replace ((yoe + era * 400) / 4) with (yoe / 4 + era * 100)
      by (rewrite <- Z.div_add by lia; f_equal; lia). lia. }
  destruct (mp <? 10) eqn:E1.
  - replace (mp + 3 <=? 2) with false by lia. replace (2 <? mp + 3) with true by lia.
    rewrite Hf by lia. replace (mp + 3 - 3) with mp by lia. lia.
  - replace (mp - 9 <=? 2) with true by lia. replace (2 <? mp - 9) with false by lia.
    rewrite Hf by lia. replace (mp - 9 + 9) with mp by lia. lia.
Qed.

Lemma timegm_gmtime t : timegm (gmtime t) = t.
Proof.
  unfold timegm, gmtime. pose proof (civil_inverse (t / 86400)) as H.
  destruct (civil_from_days (t / 86400)) as [[y m] d]. destruct H as [H _].
  cbn [tm_year tm_mon tm_mday tm_hour tm_min tm_sec]. rewrite H. divmod.
Qed.

(** The seconds of the years 1970 to 9999. *)
Definition in_range (t : Z) : Prop := 0 <= t < 253402300800.

Lemma gmtime_year t : in_range t -> 1000 <= tm_year (gmtime t) < 10000.
Proof.
  intros Ht. unfold gmtime. pose proof (civil_inverse (t / 86400)) as H.
  destruct (civil_from_days (t / 86400)) as [[y m] d]. cbn [tm_year].
  destruct H as (H & Hm & Hd). unfold days_from_civil, in_range in *.
  assert (0 <= t / 86400 < 2932897) by divmod.
  destruct (m <=? 2) eqn:E1, (2 <? m) eqn:E2; try lia; divmod.
Qed.

Lemma strptime_fields a b c e y x : to_string (tm_year x) = [a; b; c; e] ->
  number [a; b; c; e] = Some y ->
  strptime (strftime x) =
    m ← number (pad2 (tm_mon x)); d ← number (pad2 (tm_mday x)); h ← number (pad2 (tm_hour x));
    i ← number (pad2 (tm_min x)); s ← number (pad2 (tm_sec x)); Some (MkTm y m d h i s).
Proof.
  intros Hy Hn. unfold strftime. rewrite Hy. change (lit "-") with ["-"%char].
  change (lit "T") with ["T"%char]. change (lit ":") with [":"%char]. unfold pad2.
  cbn [app strptime]. rewrite bool_decide_true by reflexivity. by rewrite Hn.
Qed.

Lemma strptime_strftime t : in_range t -> strptime (strftime (gmtime t)) = Some (gmtime t).
Proof.
  intros Ht. destruct (year_number _ (gmtime_year t Ht)) as (a & b & c & e & Hy & Hn).
  rewrite (strptime_fields a b c e _ _ Hy Hn). unfold gmtime.
  pose proof (civil_inverse (t / 86400)) as H.
  destruct (civil_from_days (t / 86400)) as [[y m] d]. destruct H as (_ & Hm & Hd).
  cbn [tm_year tm_mon tm_mday tm_hour tm_min tm_sec].
  rewrite !pad2_number by (lia || divmod). done.
Qed.

(** What a receiver reads in a printed time. *)
Definition read_time (s : str) : option Z := timegm <$> strptime s.

Lemma read_time_printed t : in_range t -> read_time (strftime (gmtime t)) = Some t.
Proof.
  intros Ht. unfold read_time. rewrite strptime_strftime by done.
  cbn [fmap option_fmap option_map]. by rewrite timegm_gmtime.
Qed.

End GmTime.
