(* ===== verification/WhiteList.v ===== *)
(** * WhiteList: the privileged addresses of src/global_white_list.h

    A list of ranges for every host and an ordered set of ranges per host.
    [std::set] iterates in the order of its keys, so a set is a strictly
    sorted list here and [insert] keeps it sorted. *)

From Stdlib Require Import Sorted.
From S2P Require Import Prelude Util.

Local Open Scope Z_scope.

Module GlobalWhiteList.

(** [operator<] of [std::pair<in_addr_t, uint32_t>]. *)
Definition range_ltb (a b : Util.SubnetRange) : bool :=
  (fst a <? fst b) || ((fst a =? fst b) && (snd a <? snd b)).

(** [std::set<SubnetRange>::insert]. *)
Fixpoint set_insert (r : Util.SubnetRange) (l : list Util.SubnetRange) : list Util.SubnetRange :=
  match l with
  | [] => [r]
  | x :: t =>
      if range_ltb r x then r :: l
      else if range_ltb x r then x :: set_insert r t
      else l
  end.

Record GlobalWhiteList := MkWhiteList {
  per_host_white_list : gmap str (list Util.SubnetRange);
  white_list : list Util.SubnetRange
}.

Definition empty : GlobalWhiteList := MkWhiteList ∅ [].

Definition insert (w : GlobalWhiteList) (ip_range : Util.SubnetRange) : GlobalWhiteList :=
  MkWhiteList (per_host_white_list w) (white_list w ++ [ip_range]).

(** [per_host_white_list[host].insert(ip_range)]. *)
Definition insert_host (w : GlobalWhiteList) (host : str) (ip_range : Util.SubnetRange)
    : GlobalWhiteList :=
  MkWhiteList
    (<[host := set_insert ip_range (default [] (per_host_white_list w !! host))]>
       (per_host_white_list w))
    (white_list w).

Section WithInet.
Context {I : Inet}.

(** [for (const auto& r : l) if (is_match(ip, r)) return r;] *)
Fixpoint first_match (ip : str) (l : list Util.SubnetRange) : option Util.SubnetRange :=
  match l with
  | [] => None
  | r :: t => if Util.is_match ip r then Some r else first_match ip t
  end.

Definition is_white_listed (w : GlobalWhiteList) (ip : str) : option Util.SubnetRange :=
  first_match ip (white_list w).

Definition is_white_listed_host (w : GlobalWhiteList) (host ip : str)
    : option Util.SubnetRange :=
  match is_white_listed w ip with
  | Some r => Some r
  | None =>
      match per_host_white_list w !! host with
      | None => None
      | Some l => first_match ip l
      end
  end.

(** ** What a white list promises: the entries it was built from *)

(** An entry of the configuration: for all hosts, or for one. *)
Definition entry : Type := option str * Util.SubnetRange.

Definition add_entry (w : GlobalWhiteList) (e : entry) : GlobalWhiteList :=
  match e with
  | (None, r) => insert w r
  | (Some host, r) => insert_host w host r
  end.

Definition build (es : list entry) : GlobalWhiteList := foldl add_entry empty es.

(** The abstract reading: some entry that concerns [host] covers [ip]. *)
Definition covers (host ip : str) (e : entry) : bool :=
  match fst e with
  | None => Util.is_match ip (snd e)
  | Some h => bool_decide (h = host) && Util.is_match ip (snd e)
  end.

Definition listed (es : list entry) (host ip : str) : bool := existsb (covers host ip) es.

(** ** Lemmas *)

Lemma range_ltb_irrefl r : range_ltb r r = false.
Proof. unfold range_ltb. by rewrite Z.eqb_refl, !Z.ltb_irrefl. Qed.

Lemma range_ltb_total a b : range_ltb a b = false -> range_ltb b a = false -> a = b.
Proof.
  destruct a as [a1 a2], b as [b1 b2]. unfold range_ltb. cbn [fst snd]. intros H1 H2. boolify.
  destruct (Z.eqb_spec a1 b1) as [->|]; [|lia]. rewrite Z.eqb_refl in *. cbn [andb] in *.
  boolify. f_equal. lia.
Qed.

Lemma range_ltb_trans a b c :
  range_ltb a b = true -> range_ltb b c = true -> range_ltb a c = true.
Proof.
  unfold range_ltb. rewrite !orb_true_iff, !andb_true_iff, !Z.ltb_lt, !Z.eqb_eq. lia.
Qed.

(** The strict order of a [std::set]'s keys. *)
Definition range_lt (a b : Util.SubnetRange) : Prop := range_ltb a b = true.

Lemma elem_of_set_insert r x l : x ∈ set_insert r l <-> x = r \/ x ∈ l.
Proof.
  induction l as [|y t IH]; cbn [set_insert]; [set_solver|].
  destruct (range_ltb r y) eqn:E1; [set_solver|].
  destruct (range_ltb y r) eqn:E2; [set_solver|].
  rewrite (range_ltb_total _ _ E1 E2). set_solver.
Qed.

Lemma set_insert_sorted r l : StronglySorted range_lt l -> StronglySorted range_lt (set_insert r l).
Proof.
  induction l as [|y t IH]; intros Hs; cbn [set_insert]; [repeat constructor|].
  inversion Hs as [|? ? Ht Hy]; subst.
  destruct (range_ltb r y) eqn:E1.
  - constructor; [done|]. constructor; [done|].
    eapply Forall_impl; [exact Hy|]. intros z Hz. by eapply range_ltb_trans.
  - destruct (range_ltb y r) eqn:E2; [|done].
    constructor; [by apply IH|]. apply Forall_forall. intros z [->|Hz]%elem_of_set_insert; [done|].
    by rewrite Forall_forall in Hy; apply Hy.
Qed.

Lemma first_match_Some ip l r :
  first_match ip l = Some r -> r ∈ l /\ Util.is_match ip r = true.
Proof.
  induction l as [|x t IH]; cbn [first_match]; [done|].
  destruct (Util.is_match ip x) eqn:E.
  - intros [= <-]. split; [apply list_elem_of_here | done].
  - intros H. destruct (IH H). split; [by apply list_elem_of_further | done].
Qed.

Lemma first_match_is_Some ip l :
  is_Some (first_match ip l) <-> exists r, r ∈ l /\ Util.is_match ip r = true.
Proof.
  split; [intros [r Hr]; exists r; by apply first_match_Some|].
  intros (r & Hr & Hm). induction l as [|x t IH]; [by apply elem_of_nil in Hr|].
  cbn [first_match]. destruct (Util.is_match ip x) eqn:E; [by eexists|].
  apply elem_of_cons in Hr as [->|Hr]; [congruence | by apply IH].
Qed.

(** What a list of entries leaves in the two containers. *)
Lemma build_white_list es r : r ∈ white_list (build es) <-> (None, r) ∈ es.
Proof.
  unfold build. induction es as [|[[h|] x] es IH] using rev_ind.
  - simpl. set_solver.
  - rewrite foldl_app. cbn. rewrite elem_of_app, <- IH. set_solver.
  - rewrite foldl_app. cbn. rewrite !elem_of_app, <- IH. set_solver.
Qed.

Lemma build_per_host es host r :
  r ∈ default [] (per_host_white_list (build es) !! host) <-> (Some host, r) ∈ es.
Proof.
  unfold build. induction es as [|[[h|] x] es IH] using rev_ind.
  - simpl. set_solver.
  - rewrite foldl_app. cbn [foldl add_entry insert_host per_host_white_list].
    rewrite elem_of_app, <- IH. destruct (decide (h = host)) as [->|Hne].
    + rewrite lookup_insert_eq. cbn [from_option id]. rewrite elem_of_set_insert. set_solver.
    + rewrite lookup_insert_ne by done. set_solver.
  - rewrite foldl_app. cbn. rewrite elem_of_app, <- IH. set_solver.
Qed.

Lemma build_sorted es host l :
  per_host_white_list (build es) !! host = Some l -> StronglySorted range_lt l.
Proof.
  unfold build. revert l. induction es as [|[[h|] x] es IH] using rev_ind; intros l.
  - done.
  - rewrite foldl_app. cbn [foldl add_entry insert_host per_host_white_list].
    destruct (decide (h = host)) as [->|Hne].
    + rewrite lookup_insert_eq. intros [= <-]. apply set_insert_sorted.
      destruct (per_host_white_list _ !! host) as [l'|] eqn:E; [by apply IH|constructor].
    + rewrite lookup_insert_ne by done. apply IH.
  - rewrite foldl_app. apply IH.
Qed.

Lemma listed_exists es host ip :
  listed es host ip = true <-> exists e, e ∈ es /\ covers host ip e = true.
Proof.
  unfold listed. rewrite existsb_exists. setoid_rewrite list_elem_of_In. done.
Qed.

Lemma is_white_listed_host_Some w host ip :
  is_Some (is_white_listed_host w host ip) <->
  exists r, (r ∈ white_list w \/ r ∈ default [] (per_host_white_list w !! host))
            /\ Util.is_match ip r = true.
Proof.
  unfold is_white_listed_host, is_white_listed.
  pose proof (first_match_is_Some ip (white_list w)) as H1.
  destruct (first_match ip (white_list w)) as [r|].
  - split; [|by eexists]. intros _. destruct H1 as [H1 _].
    destruct H1 as (x & ? & ?); [by eexists|]. eauto.
  - assert (H2 : forall r, r ∈ white_list w -> Util.is_match ip r = false).
    { intros r Hr. apply not_true_iff_false. intros Hm. destruct H1 as [_ H1].
      destruct H1 as [? ?]; [eauto|done]. }
    destruct (per_host_white_list w !! host) as [l|]; cbn [from_option id].
    + rewrite first_match_is_Some. split; [naive_solver|].
      intros (r & [Hr|Hr] & Hm); [|eauto]. by rewrite H2 in Hm.
    + split; [by intros [? ?]|]. intros (r & [Hr|Hr] & Hm); [by rewrite H2 in Hm|].
      by apply elem_of_nil in Hr.
Qed.

(** ** Properties *)

(** Refinement: a white list built from any sequence of configuration
    entries answers "white listed" for a host and an address exactly when some
    entry for all hosts, or for that host, covers the address. *)
Lemma white_list_refines (es : list entry) (host ip : str) :
  is_Some (is_white_listed_host (build es) host ip) <-> listed es host ip = true.
Proof.
  rewrite is_white_listed_host_Some, listed_exists. split.
  - intros (r & [Hr%build_white_list|Hr%build_per_host] & Hm).
    + exists (None, r). done.
    + exists (Some host, r). unfold covers. cbn [fst snd]. by rewrite bool_decide_true.
  - intros ([[h|] r] & He & Hc); unfold covers in Hc; cbn [fst snd] in Hc; boolify; subst.
    + exists r. split; [right; by apply build_per_host | done].
    + exists r. split; [left; by apply build_white_list | done].
Qed.

End WithInet.
End GlobalWhiteList.
