(* ===== verification/IpDb.v ===== *)
(** * IpDb: the per-address store of src/ip_db.h

    A hash table from address to state behind a mutex that is only ever tried:
    when [TSMutexLockTry] fails ([lock = false]) nothing is read or written and
    the caller learns so.  An address without an entry reads as the default
    state, so the store is a total map ([view]) that starts at the default. *)

From S2P Require Import Prelude.

Module IpDb.

Section IpDb.
Context {V : Type} (dflt : V).

Definition set_ip_state (lock : bool) (ip : str) (state : V) (db : gmap str V)
    : bool * gmap str V :=
  if lock then (true, <[ip := state]> db) else (false, db).

Definition drop_ip (lock : bool) (ip : str) (db : gmap str V) : bool * gmap str V :=
  if lock then (bool_decide (is_Some (db !! ip)), delete ip db) else (false, db).

Definition get_ip_state (lock : bool) (ip : str) (db : gmap str V) : option V :=
  if lock then Some (default dflt (db !! ip)) else None.

Definition db_size (db : gmap str V) : nat := size db.

(** The total map a store stands for. *)
Definition view (db : gmap str V) (ip : str) : V := default dflt (db !! ip).

Lemma view_empty ip : view ∅ ip = dflt.
Proof. unfold view. by rewrite lookup_empty. Qed.

Lemma view_insert db ip v ip' :
  view (<[ip := v]> db) ip' = if decide (ip = ip') then v else view db ip'.
Proof. unfold view. rewrite lookup_insert. by case_decide. Qed.

Lemma view_delete db ip ip' :
  view (delete ip db) ip' = if decide (ip = ip') then dflt else view db ip'.
Proof. unfold view. rewrite lookup_delete. by case_decide. Qed.

End IpDb.

#[export] Hint Rewrite @view_empty @view_insert @view_delete : banjax_rw.

End IpDb.
