(* ===== verification/Yaml.v ===== *)
(** * Yaml: the configuration reader the components use (yaml-cpp)

    The sources call yaml-cpp, which is not part of the repository.  Its nodes
    and the calls the components make are the interface [Yaml]; the laws are
    what its documentation promises: a failed conversion or subscript throws, a
    subscript an exception of class [YAML::RepresentationException], and a conversion to a
    machine integer stays within its range.  [tree_yaml] is a small instance on
    which configurations can be evaluated. *)

From S2P Require Import Prelude Util.

Local Open Scope Z_scope.

Class Yaml := {
  node : Type;
  node_null : node;                          (* YAML::Node() *)
  y_get : node -> str -> outcome node;       (* n["key"] *)
  y_at : node -> nat -> outcome node;        (* n[i] *)
  y_defined : node -> bool;                  (* if (n) *)
  y_size : node -> outcome nat;              (* n.size() *)
  y_iter : node -> list node;                (* for (auto e : n), a sequence *)
  y_items : node -> list (node * node);      (* for (auto p : n), a map *)
  IsMap : node -> bool;
  IsSequence : node -> bool;
  IsNull : node -> bool;
  as_string : node -> outcome str;
  as_strings : node -> outcome (list str);   (* n.as<vector<string>>() *)
  as_uint : node -> outcome Z;
  as_int : node -> outcome Z;
  as_long : node -> outcome Z;
  y_scalar : node -> str;                    (* n.Scalar() *)
  y_set : node -> str -> node -> outcome node;   (* n["key"] = v *)
  y_push : node -> node -> outcome node;     (* n.push_back(v) *)
  y_get_throws n k e : y_get n k = Throw e -> e = YAML_RepresentationException;
  y_get_no_fault n k f : y_get n k <> Fault f;
  as_string_no_fault n f : as_string n <> Fault f;
  as_int_no_fault n f : as_int n <> Fault f;
  y_size_no_fault n f : y_size n <> Fault f;
  as_uint_range n z : as_uint n = Ret z -> 0 <= z < 2 ^ 32;
  y_set_get n k v n' : y_set n k v = Ret n' -> y_get n' k = Ret v;
  y_set_other n k v n' k' :
    IsSequence n = false -> y_set n k v = Ret n' -> k' <> k -> y_get n' k' = y_get n k';
  y_set_map n k v n' : y_set n k v = Ret n' -> IsSequence n' = false;
  y_push_iter n v n' : IsSequence n = true -> y_push n v = Ret n' ->
    IsSequence n' = true /\ y_iter n' = y_iter n ++ [v];
}.

(** [if (n["key"])]. *)
Definition y_has `{Yaml} (n : node) (key : str) : outcome bool :=
  c ← y_get n key; mret (y_defined c).

(** [n["key"].as<T>()]. *)
Definition y_field `{Yaml} {A} (as_t : node -> outcome A) (n : node) (key : str) : outcome A :=
  c ← y_get n key; as_t c.

(** [if (n["key"]) x = n["key"].as<T>();] *)
Definition y_opt `{Yaml} {A} (as_t : node -> outcome A) (n : node) (key : str) (old : A) : outcome A :=
  b ← y_has n key; if (b : bool) then y_field as_t n key else mret old.

(** ** Configurations as trees *)

#[warnings="-register-all"]
Inductive tree :=
  | TUndefined
  | TScalar (s : str)
  | TSeq (l : list tree)
  | TMap (l : list (str * tree)).

Fixpoint assoc (k : str) (l : list (str * tree)) : tree :=
  match l with
  | [] => TUndefined
  | (k', t) :: l' => if bool_decide (k = k') then t else assoc k l'
  end.

Fixpoint assoc_set (k : str) (v : tree) (l : list (str * tree)) : list (str * tree) :=
  match l with
  | [] => [(k, v)]
  | (k', t) :: l' => if bool_decide (k = k') then (k', v) :: l' else (k', t) :: assoc_set k v l'
  end.

Lemma assoc_set_get k v l k' : assoc k' (assoc_set k v l) = if bool_decide (k' = k) then v else assoc k' l.
Proof.
  induction l as [|[q t] l IH]; cbn [assoc_set assoc]; [done|].
  destruct (bool_decide_reflect (k = q)) as [->|E]; cbn [assoc]; [by destruct (bool_decide (k' = q))|].
  rewrite IH. destruct (bool_decide_reflect (k' = q)), (bool_decide_reflect (k' = k)); congruence.
Qed.

Definition tree_get (t : tree) (k : str) : outcome tree :=
  match t with
  | TMap l => Ret (assoc k l)
  | TScalar _ => Throw YAML_RepresentationException
  | _ => Ret TUndefined
  end.

(** A sequence that is given a key becomes a map from its indices. *)
Definition tree_entries (t : tree) : list (str * tree) :=
  match t with
  | TMap l => l
  | TSeq l => imap (fun i t => (to_string (Z.of_nat i), t)) l
  | _ => []
  end.

Definition tree_set (t : tree) (k : str) (v : tree) : outcome tree :=
  match t with
  | TScalar _ => Throw YAML_RepresentationException
  | _ => Ret (TMap (assoc_set k v (tree_entries t)))
  end.

Definition tree_push (t v : tree) : outcome tree :=
  match t with
  | TSeq l => Ret (TSeq (l ++ [v]))
  | TUndefined => Ret (TSeq [v])
  | _ => Throw YAML_RepresentationException
  end.

Definition tree_string (t : tree) : outcome str :=
  match t with TScalar s => Ret s | _ => Throw YAML_RepresentationException end.

Definition tree_nat (t : tree) : outcome Z :=
  match t with
  | TScalar s =>
      match s with
      | [] => Throw YAML_RepresentationException
      | _ => if forallb isdigit s then
               let z := fold_left (fun acc c => 10 * acc + (code c - 48)) s 0 in
               if (0 <=? z) && (z <? 2 ^ 31) then Ret z else Throw YAML_RepresentationException
             else Throw YAML_RepresentationException
      end
  | _ => Throw YAML_RepresentationException
  end.

Lemma tree_nat_range t z : tree_nat t = Ret z -> 0 <= z < 2 ^ 32.
Proof.
  unfold tree_nat. repeat case_match; intros ?; inv_ret; boolify; try done. cbn [fold_left] in *. lia.
Qed.

Lemma tree_nat_no_fault t f : tree_nat t <> Fault f.
Proof. unfold tree_nat. by repeat case_match. Qed.

Lemma tree_string_no_fault t f : tree_string t <> Fault f.
Proof. by destruct t. Qed.

Fixpoint tree_strings (l : list tree) : outcome (list str) :=
  match l with
  | [] => Ret []
  | t :: l' => s ← tree_string t; r ← tree_strings l'; mret (s :: r)
  end.

Definition tree_iter (t : tree) : list tree := match t with TSeq l => l | _ => [] end.

Lemma tree_get_throws t k e : tree_get t k = Throw e -> e = YAML_RepresentationException.
Proof. destruct t; cbn; congruence. Qed.

Lemma tree_get_no_fault t k f : tree_get t k <> Fault f.
Proof. destruct t; cbn; congruence. Qed.

Lemma tree_set_inv t k v t' :
  tree_set t k v = Ret t' -> t' = TMap (assoc_set k v (tree_entries t)).
Proof. destruct t; cbn [tree_set]; congruence. Qed.

Lemma tree_set_get t k v t' : tree_set t k v = Ret t' -> tree_get t' k = Ret v.
Proof. intros ->%tree_set_inv. cbn [tree_get]. by rewrite assoc_set_get, bool_decide_true. Qed.

Lemma tree_set_other t k v t' k' :
  match t with TSeq _ => true | _ => false end = false ->
  tree_set t k v = Ret t' -> k' <> k -> tree_get t' k' = tree_get t k'.
Proof.
  intros Hs Hset Hk. pose proof (tree_set_inv _ _ _ _ Hset) as ->. cbn [tree_get].
  rewrite assoc_set_get, bool_decide_false by done. by destruct t.
Qed.

Lemma tree_set_map t k v t' :
  tree_set t k v = Ret t' -> match t' with TSeq _ => true | _ => false end = false.
Proof. by intros ->%tree_set_inv. Qed.

Lemma tree_push_iter t v t' : match t with TSeq _ => true | _ => false end = true ->
  tree_push t v = Ret t' ->
  match t' with TSeq _ => true | _ => false end = true /\ tree_iter t' = tree_iter t ++ [v].
Proof. destruct t; cbn [tree_push]; intros ? [= <-]; done. Qed.

#[global] Instance tree_yaml : Yaml := {|
  node := tree;
  node_null := TUndefined;
  y_get := tree_get;
  y_at := fun t i => Ret (default TUndefined (tree_iter t !! i));
  y_defined := fun t => match t with TUndefined => false | _ => true end;
  y_size := fun t => Ret (match t with TMap l => length l | _ => length (tree_iter t) end);
  y_iter := tree_iter;
  y_items := fun t => match t with
                      | TMap l => map (fun kv => (TScalar (fst kv), snd kv)) l
                      | _ => []
                      end;
  IsMap := fun t => match t with TMap _ => true | _ => false end;
  IsSequence := fun t => match t with TSeq _ => true | _ => false end;
  IsNull := fun t => match t with TScalar [] => true | _ => false end;
  as_string := tree_string;
  as_strings := fun t => match t with
                         | TSeq l => tree_strings l
                         | _ => Throw YAML_RepresentationException
                         end;
  as_uint := tree_nat;
  as_int := tree_nat;
  as_long := tree_nat;
  y_get_throws := tree_get_throws;
  y_get_no_fault := tree_get_no_fault;
  as_string_no_fault := tree_string_no_fault;
  as_int_no_fault := tree_nat_no_fault;
  y_size_no_fault := fun t f => ltac:(discriminate);
  as_uint_range := tree_nat_range;
  y_scalar := fun t => match t with TScalar s => s | _ => [] end;
  y_set := tree_set;
  y_push := tree_push;
  y_set_get := tree_set_get;
  y_set_other := tree_set_other;
  y_set_map := tree_set_map;
  y_push_iter := tree_push_iter;
|}.
