(* ===== verification/Float.v ===== *)
(** * Float: the IEEE arithmetic of the rate computations

    [float] is binary32 and [double] is binary64; values are the
    [spec_float]s of the Standard Library, and every operation rounds to
    nearest, ties to even, in the format C++ evaluates it in. *)

From Stdlib Require Export SpecFloat.
From S2P Require Import Prelude.

Local Open Scope Z_scope.

Module Float.

Definition f32 (z e : Z) (s : bool) : spec_float := binary_normalize 24 128 z e s.
Definition f64 (z e : Z) (s : bool) : spec_float := binary_normalize 53 1024 z e s.

(** [(float)z] and [(double)z] of an integer. *)
Definition float_of_Z (z : Z) : spec_float := f32 z 0 false.
Definition double_of_Z (z : Z) : spec_float := f64 z 0 false.

(** [(float)x] of a [double], and the exact [(double)x] of a [float]. *)
Definition to_float (x : spec_float) : spec_float :=
  match x with
  | S754_finite s m e => f32 (cond_Zopp s (Zpos m)) e s
  | _ => x
  end.
Definition to_double (x : spec_float) : spec_float :=
  match x with
  | S754_finite s m e => f64 (cond_Zopp s (Zpos m)) e s
  | _ => x
  end.

Definition mul32 := SFmul 24 128.
Definition sub32 := SFsub 24 128.
Definition add64 := SFadd 53 1024.
Definition sub64 := SFsub 53 1024.
Definition div64 := SFdiv 53 1024.

(** [(long)x]: truncation. *)
Definition trunc (x : spec_float) : Z :=
  match x with
  | S754_finite s m e =>
      cond_Zopp s (if 0 <=? e then Zpos m * 2 ^ e else Zpos m / 2 ^ (- e))
  | _ => 0
  end.

Definition zero : spec_float := S754_zero false.

(** [x < 0] in C++: false for the zeros and for NaN. *)
Definition negative (x : spec_float) : bool := SFltb x zero.

Definition not_negative (x : spec_float) : bool :=
  match x with
  | S754_infinity true | S754_finite true _ _ => false
  | _ => true
  end.

Lemma negative_not x : negative x = negb (not_negative x).
Proof. by destruct x as [|[]| |[]]. Qed.

(** Rounding keeps the sign. *)
Lemma binary_round_aux_pos p em (m e : Z) l :
  not_negative (binary_round_aux p em false m e l) = true.
Proof.
  unfold binary_round_aux. repeat (case_match; try done).
Qed.

Lemma binary_normalize_pos p em z e : 0 <= z -> not_negative (binary_normalize p em z e false) = true.
Proof.
  intros Hz. destruct z as [|m|m]; [done| |lia].
  cbn [binary_normalize]. unfold binary_round. case_match. apply binary_round_aux_pos.
Qed.

Lemma add_pos p em x y :
  not_negative x = true -> not_negative y = true -> not_negative (SFadd p em x y) = true.
Proof.
  destruct x as [[]|[]| |[] m e], y as [[]|[]| |[] m' e']; try done.
  intros _ _. cbn [SFadd cond_Zopp]. apply binary_normalize_pos. lia.
Qed.

Lemma to_float_pos x : not_negative x = true -> not_negative (to_float x) = true.
Proof.
  destruct x as [| | |[] m e]; try done. intros _. cbn [to_float cond_Zopp].
  apply binary_normalize_pos. lia.
Qed.

Lemma to_double_pos x : not_negative x = true -> not_negative (to_double x) = true.
Proof.
  destruct x as [| | |[] m e]; try done. intros _. cbn [to_double cond_Zopp].
  apply binary_normalize_pos. lia.
Qed.

Lemma div_pos p em x y :
  not_negative x = true -> match y with S754_zero b | S754_infinity b => b = false | _ => not_negative y = true end ->
  match x with S754_zero b => b = false | _ => True end ->
  not_negative (SFdiv p em x y) = true.
Proof.
  destruct x as [[]|[]| |[] m e], y as [[]|[]| |[] m' e']; try done.
  intros _ _ _. cbn [SFdiv xorb]. case_match. case_match. apply binary_round_aux_pos.
Qed.

(** A [double] holds every integer below [2^53]. *)
Lemma digits_shift m k : Zpos (digits2_pos (Pos.iter xO m k)) = Zpos (digits2_pos m) + Zpos k.
Proof.
  revert k. apply Pos.peano_ind.
  - cbn. lia.
  - intros k IH. rewrite Pos.iter_succ. cbn [digits2_pos]. rewrite Pos2Z.inj_succ, IH. lia.
Qed.

Lemma round_exact m e :
  Zpos (digits2_pos m) = 53 -> -1074 <= e <= 971 ->
  binary_round_aux 53 1024 false (Zpos m) e loc_Exact = S754_finite false m e.
Proof.
  intros Hm He. unfold binary_round_aux, shr_fexp, shr.
  replace (fexp 53 1024 (Zdigits2 (Zpos m) + e) - e) with 0.
  2: { unfold Zdigits2, fexp, emin. rewrite Hm. lia. }
  cbn [shr_record_of_loc shr_m loc_of_shr_record round_nearest_even].
  replace (fexp 53 1024 (Zdigits2 (Zpos m) + e) - e) with 0.
  2: { unfold Zdigits2, fexp, emin. rewrite Hm. lia. }
  cbn [shr_record_of_loc shr_m]. destruct (Z.leb_spec e (1024 - 53)); [done|lia].
Qed.

Lemma double_of_pos p :
  Zpos (digits2_pos p) <= 53 -> exists m e, double_of_Z (Zpos p) = S754_finite false m e.
Proof.
  intros Hp. unfold double_of_Z, f64. cbn [binary_normalize]. unfold binary_round, shl_align.
  assert (Hf : fexp 53 1024 (Zpos (digits2_pos p) + 0) = Zpos (digits2_pos p) - 53).
  { unfold fexp, emin. lia. }
  rewrite Hf, Z.sub_0_r.
  destruct (Zpos (digits2_pos p) - 53) as [|d|d] eqn:Ed.
  - do 2 eexists. apply round_exact; lia.
  - lia.
  - do 2 eexists. apply round_exact; [rewrite digits_shift|]; lia.
Qed.

Lemma digits_bound p k : Zpos p < 2 ^ k -> 0 <= k -> Zpos (digits2_pos p) <= k.
Proof.
  revert k; induction p as [p IH|p IH|]; intros k Hp Hk; cbn [digits2_pos].
  all: destruct (Z.eq_dec k 0) as [->|Hk0]; [cbn in Hp; lia|].
  all: replace (2 ^ k) with (2 * 2 ^ (k - 1)) in Hp by (rewrite <- Z.pow_succ_r by lia; f_equal; lia).
  - rewrite Pos2Z.inj_succ. specialize (IH (k - 1)). lia.
  - rewrite Pos2Z.inj_succ. specialize (IH (k - 1)). lia.
  - lia.
Qed.

End Float.
