(* ===== verification/World.v ===== *)
(** * World: the data filters exchange, the shared store, and effects

    The types of src/banjax_filter.h, src/transaction_muncher.h and
    src/challenger.h that several components share; the store the filters of
    one [Banjax] object mutate (the three address databases, the socket of the
    swabber, the dynamic challenges, what was logged and sent); and the monad of
    computations over that store.

    What the outside decides (the clock, whether a mutex could be taken, whether
    a socket could be bound, whether Kafka took a message) comes from an
    [Env]: every query consumes one [tick], so the theorems hold for every
    sequence of answers. *)

From Stdlib Require Import SpecFloat.
From S2P Require Import Prelude Util WhiteList IpDb.

Local Open Scope Z_scope.

(** ** Transaction parts (src/transaction_muncher.h) *)

Abbreviation TransactionParts := (gmap Z str).

Module Part.
Definition VALIDITY_STAT : Z := 0.
Definition IP : Z := 1.
Definition URL : Z := 2.
Definition HOST : Z := 4.
Definition UA : Z := 8.
Definition COOKIE : Z := 16.
Definition URL_WITH_HOST : Z := 32.
Definition METHOD : Z := 64.
Definition MISS : Z := 128.
Definition STATUS : Z := 256.
Definition PROTOCOL : Z := 512.
Definition CONTENT_LENGTH : Z := 1024.
End Part.

(** [parts.at(k)]. *)
Definition part_at (parts : TransactionParts) (k : Z) : outcome str :=
  match parts !! k with
  | Some s => Ret s
  | None => Throw out_of_range
  end.

Lemma part_at_Ret parts k s : part_at parts k = Ret s <-> parts !! k = Some s.
Proof. unfold part_at. destruct (parts !! k); split; congruence. Qed.

(** [parts[k]], which default-inserts: the value and the map afterwards. *)
Definition part_index (parts : TransactionParts) (k : Z) : str * TransactionParts :=
  match parts !! k with
  | Some s => (s, parts)
  | None => ([], <[k := []]> parts)
  end.

(** ** Challenges (src/challenger.h) *)

Inductive ChallengeType := CHALLENGE_SHA_INVERSE | CHALLENGE_CAPTCHA | CHALLENGE_AUTH.

#[global] Instance ChallengeType_eq_dec : EqDecision ChallengeType.
Proof. solve_decision. Defined.

Inductive MagicWordType := MW_substr | MW_regexp.

#[global] Instance MagicWordType_eq_dec : EqDecision MagicWordType.
Proof. solve_decision. Defined.

Record MagicWord := MkMagicWord { mw_type : MagicWordType; magic_word : str }.

#[global] Instance MagicWord_eq_dec : EqDecision MagicWord.
Proof. solve_decision. Defined.

Record HostChallengeSpec := MkSpec {
  name : str;
  challenge_type : ChallengeType;
  challenge_stream : str;
  fail_tolerance_threshold : Z;      (* unsigned int; 0: infinite tolerance *)
  challenge_validity_period : Z;     (* seconds *)
  password_hash : str;
  magic_words : list MagicWord;      (* std::set, in its order *)
  magic_word_exceptions : list str;
  white_listed_ips : list Util.SubnetRange;  (* std::set, in its order *)
  time_added : Z
}.

(** ** Filter responses (src/banjax_filter.h) *)

Inductive ResponseType :=
  | GO_AHEAD_NO_COMMENT
  | I_RESPOND
  | SERVE_IMMIDIATELY_DONT_CACHE
  | SERVE_FRESH.

#[global] Instance ResponseType_eq_dec : EqDecision ResponseType.
Proof. solve_decision. Defined.

(** The closures the filters store as [response_generator]: each calls
    [generate_response] of the filter that made the response. *)
Inductive Generator := GEN_REGEX | GEN_DENIALATOR | GEN_CHALLENGER.

(** [FilterExtendedResponse], with the two fields [ChallengerExtendedResponse]
    adds. *)
Record ExtendedResponse := MkExt {
  response_generator : Generator;
  content_type : option str;
  banned_ip : bool;
  set_cookie_header : str;
  response_code : Z;
  responding_challenge : option HostChallengeSpec;
  alternative_url : str
}.

Record FilterResponse := MkResponse {
  response_type : ResponseType;
  response_data : option ExtendedResponse
}.

(** [FilterResponse(ResponseType)]. *)
Definition plain_response (t : ResponseType) : FilterResponse := MkResponse t None.

(** [FilterExtendedResponse(generator)]. *)
Definition extended_response (g : Generator) (ch : option HostChallengeSpec) : ExtendedResponse :=
  MkExt g None false [] 403 ch [].

(** [FilterResponse(ResponseGenerator)]. *)
Definition generator_response (g : Generator) : FilterResponse :=
  MkResponse I_RESPOND (Some (extended_response g None)).

(** ** The regex banner's per-address state (src/regex_manager.h) *)

Record RegexState := MkRegexState {
  begin_msec : Z;          (* unsigned long *)
  rate : spec_float        (* float, hits per millisecond *)
}.

Definition regex_state0 : RegexState := MkRegexState 0 (S754_zero false).

(** ** Sockets and the swabber (src/socket.h, src/swabber.h) *)

(** [_local_endpoint], and the endpoints the ZeroMQ socket is really bound to. *)
Record Socket := MkSocket { local_endpoint_ : str; zmq_bound : list str }.

Definition new_socket : Socket := MkSocket [] [].

Record Swabber := MkSwabber {
  local_endpoint : str;
  socket : option Socket;         (* None: released *)
  swabber_server : str;
  swabber_port : str;
  grace_period : Z                (* long, seconds *)
}.

(** ** The bot sniffer (src/bot_sniffer.h) *)

Record BotSniffer := MkBotSniffer {
  bs_socket : option Socket;      (* nullptr until the first configuration, or released *)
  botbanger_port : Z;             (* unsigned int *)
  botbanger_server : str;
  encryption_key : str;           (* 32 bytes *)
  bs_local_endpoint : str
}.

(** The members before [load_config]. *)
Definition bot_sniffer0 : BotSniffer := MkBotSniffer None 0 (lit "*") [] [].

(** ** Kafka messages: JSON objects with the values the reports use *)

Inductive json :=
  | JString (s : str)
  | JInt (z : Z)
  | JFloat (f : spec_float)
  | JNull.

Abbreviation json_object := (gmap str json).

(** ** What the program lets the outside see *)

(** The actions a [Banjax] has Traffic Server call periodically: which
    continuation, and its period in milliseconds. *)
Inductive periodic := ReportStatus | RemoveExpired.
Record TSAction := MkAction { continuation : periodic; msec : Z }.

#[global] Instance periodic_eq_dec : EqDecision periodic.
Proof. solve_decision. Defined.
#[global] Instance TSAction_eq_dec : EqDecision TSAction.
Proof. solve_decision. Defined.

Inductive event :=
  | BanLog (bot_ip : str) (rawtime : Z) (reason verdict : str)   (* ban_ip_list.log *)
  | ZmqSend (message : str) (more : bool)       (* socket of the swabber *)
  | SnifferSend (message : str) (more : bool)   (* socket of the bot sniffer *)
  | KafkaSend (message : json_object)
  | Scheduled (action : TSAction).              (* TSContScheduleEvery *)

Record World := MkWorld {
  tick : nat;
  swabber_ip_db : gmap str Z;
  challenger_ip_db : gmap str Z;
  regex_manager_ip_db : gmap str (list RegexState);
  swabber : Swabber;
  bot_sniffer : BotSniffer;
  host_to_challenge_dynamic : gmap str HostChallengeSpec;
  ip_to_challenge_dynamic : gmap str HostChallengeSpec;
  kafka_producer : bool;          (* not null *)
  trace : list event              (* oldest first *)
}.

Record Env := MkEnv {
  env_sec : nat -> Z;             (* time(NULL), tv_sec *)
  env_usec : nat -> Z;            (* tv_usec *)
  env_lock : nat -> bool;         (* TSMutexLockTry == TS_SUCCESS *)
  env_bind : nat -> bool;         (* zmq bind did not throw *)
  env_kafka : nat -> bool;        (* produce() == ERR_NO_ERROR *)
  env_random : nat -> str;        (* /dev/urandom *)
  env_api : nat -> bool           (* another Traffic Server call == TS_SUCCESS *)
}.

(** ** Computations *)

Definition M (A : Type) : Type := Env -> World -> outcome A * World.

#[global] Instance M_ret : MRet M := fun A a _ w => (Ret a, w).
#[global] Instance M_bind : MBind M := fun A B k m env w =>
  match m env w with
  | (Ret a, w') => k a env w'
  | (Throw e, w') => (Throw e, w')
  | (Fault f, w') => (Fault f, w')
  end.

(** A pure computation that may throw or fault. *)
Definition lift {A} (m : outcome A) : M A := fun _ w => (m, w).

Definition gets {A} (f : World -> A) : M A := fun _ w => (Ret (f w), w).
Definition modify (f : World -> World) : M unit := fun _ w => (Ret tt, f w).

(** Field updates. *)
Definition with_tick (n : nat) (w : World) : World :=
  MkWorld n (swabber_ip_db w) (challenger_ip_db w) (regex_manager_ip_db w) (swabber w) (bot_sniffer w)
    (host_to_challenge_dynamic w) (ip_to_challenge_dynamic w) (kafka_producer w) (trace w).
Definition with_swabber_ip_db (d : gmap str Z) (w : World) : World :=
  MkWorld (tick w) d (challenger_ip_db w) (regex_manager_ip_db w) (swabber w) (bot_sniffer w)
    (host_to_challenge_dynamic w) (ip_to_challenge_dynamic w) (kafka_producer w) (trace w).
Definition with_challenger_ip_db (d : gmap str Z) (w : World) : World :=
  MkWorld (tick w) (swabber_ip_db w) d (regex_manager_ip_db w) (swabber w) (bot_sniffer w)
    (host_to_challenge_dynamic w) (ip_to_challenge_dynamic w) (kafka_producer w) (trace w).
Definition with_regex_manager_ip_db (d : gmap str (list RegexState)) (w : World) : World :=
  MkWorld (tick w) (swabber_ip_db w) (challenger_ip_db w) d (swabber w) (bot_sniffer w)
    (host_to_challenge_dynamic w) (ip_to_challenge_dynamic w) (kafka_producer w) (trace w).
Definition with_swabber (s : Swabber) (w : World) : World :=
  MkWorld (tick w) (swabber_ip_db w) (challenger_ip_db w) (regex_manager_ip_db w) s (bot_sniffer w)
    (host_to_challenge_dynamic w) (ip_to_challenge_dynamic w) (kafka_producer w) (trace w).
Definition with_bot_sniffer (b : BotSniffer) (w : World) : World :=
  MkWorld (tick w) (swabber_ip_db w) (challenger_ip_db w) (regex_manager_ip_db w) (swabber w) b
    (host_to_challenge_dynamic w) (ip_to_challenge_dynamic w) (kafka_producer w) (trace w).
Definition with_host_dynamic (d : gmap str HostChallengeSpec) (w : World) : World :=
  MkWorld (tick w) (swabber_ip_db w) (challenger_ip_db w) (regex_manager_ip_db w) (swabber w) (bot_sniffer w)
    d (ip_to_challenge_dynamic w) (kafka_producer w) (trace w).
Definition with_ip_dynamic (d : gmap str HostChallengeSpec) (w : World) : World :=
  MkWorld (tick w) (swabber_ip_db w) (challenger_ip_db w) (regex_manager_ip_db w) (swabber w) (bot_sniffer w)
    (host_to_challenge_dynamic w) d (kafka_producer w) (trace w).
Definition with_kafka_producer (p : bool) (w : World) : World :=
  MkWorld (tick w) (swabber_ip_db w) (challenger_ip_db w) (regex_manager_ip_db w) (swabber w) (bot_sniffer w)
    (host_to_challenge_dynamic w) (ip_to_challenge_dynamic w) p (trace w).
Definition with_trace (t : list event) (w : World) : World :=
  MkWorld (tick w) (swabber_ip_db w) (challenger_ip_db w) (regex_manager_ip_db w) (swabber w) (bot_sniffer w)
    (host_to_challenge_dynamic w) (ip_to_challenge_dynamic w) (kafka_producer w) t.

(** Asking the outside. *)
Definition query {A} (f : Env -> nat -> A) : M A := fun env w =>
  (Ret (f env (tick w)), with_tick (S (tick w)) w).

Definition time_now : M Z := query env_sec.
Definition gettimeofday : M (Z * Z) := query (fun env n => (env_sec env n, env_usec env n)).
Definition TSMutexLockTry : M bool := query env_lock.
Definition emit (e : event) : M unit := modify (fun w => with_trace (trace w ++ [e]) w).

(** ** The address databases as their clients call them

    Each call tries the mutex once. *)

Section Db.
Context {V : Type} (dflt : V) (get : World -> gmap str V) (put : gmap str V -> World -> World).

Definition db_get (ip : str) : M (option V) :=
  lock ← TSMutexLockTry;
  gets (fun w => IpDb.get_ip_state dflt lock ip (get w)).

Definition db_set (ip : str) (v : V) : M bool :=
  lock ← TSMutexLockTry;
  db ← gets get;
  let '(r, db') := IpDb.set_ip_state lock ip v db in
  _ ← modify (put db');
  mret r.

Definition db_drop (ip : str) : M bool :=
  lock ← TSMutexLockTry;
  db ← gets get;
  let '(r, db') := IpDb.drop_ip lock ip db in
  _ ← modify (put db');
  mret r.
End Db.

(** [Default<time_t, 0>], [Default<uint64_t, 0>] and an empty vector. *)
Definition swabber_db_get := db_get 0 swabber_ip_db.
Definition swabber_db_set := db_set swabber_ip_db with_swabber_ip_db.
Definition swabber_db_drop := db_drop swabber_ip_db with_swabber_ip_db.
Definition challenger_db_get := db_get 0 challenger_ip_db.
Definition challenger_db_set := db_set challenger_ip_db with_challenger_ip_db.
Definition challenger_db_drop := db_drop challenger_ip_db with_challenger_ip_db.
Definition regex_db_get := db_get (V := list RegexState) [] regex_manager_ip_db.
Definition regex_db_set := db_set regex_manager_ip_db with_regex_manager_ip_db.

(** ** Running computations *)

Lemma M_bind_eq {A B} (m : M A) (k : A -> M B) env w :
  (m ≫= k) env w = match m env w with
                   | (Ret a, w') => k a env w'
                   | (Throw e, w') => (Throw e, w')
                   | (Fault f, w') => (Fault f, w')
                   end.
Proof. done. Qed.

Lemma db_get_eq {V} (dflt : V) get ip env w :
  db_get dflt get ip env w =
  (Ret (if env_lock env (tick w) then Some (IpDb.view dflt (get (with_tick (S (tick w)) w)) ip)
        else None),
   with_tick (S (tick w)) w).
Proof. reflexivity. Qed.

Lemma db_set_eq {V} get put ip (v : V) env w :
  db_set get put ip v env w =
  let w1 := with_tick (S (tick w)) w in
  (Ret (env_lock env (tick w)),
   put (if env_lock env (tick w) then <[ip := v]> (get w1) else get w1) w1).
Proof.
  unfold db_set, mbind, M_bind, TSMutexLockTry, query, gets, IpDb.set_ip_state.
  by destruct (env_lock env (tick w)).
Qed.

Lemma db_drop_eq {V} get put ip env w :
  db_drop (V := V) get put ip env w =
  let w1 := with_tick (S (tick w)) w in
  (Ret (if env_lock env (tick w) then bool_decide (is_Some (get w1 !! ip)) else false),
   put (if env_lock env (tick w) then delete ip (get w1) else get w1) w1).
Proof.
  unfold db_drop, mbind, M_bind, TSMutexLockTry, query, gets, IpDb.drop_ip.
  by destruct (env_lock env (tick w)).
Qed.

(** ** Framing: what a computation leaves as it was

    [preserves R m]: whatever the outside answers and however [m] ends, the
    store after [m] is related to the store before by [R]. *)

Definition preserves {A} (R : World -> World -> Prop) (m : M A) : Prop :=
  forall env w, R w (snd (m env w)).

Create HintDb frame.

Section Preserves.
Context (R : World -> World -> Prop) `{!PreOrder R}.

Lemma preserves_ret {A} (a : A) : preserves R (mret a).
Proof. intros env w. cbn. reflexivity. Qed.

Lemma preserves_lift {A} (m : outcome A) : preserves R (lift m).
Proof. intros env w. cbn. reflexivity. Qed.

Lemma preserves_gets {A} (f : World -> A) : preserves R (gets f).
Proof. intros env w. cbn. reflexivity. Qed.

Lemma preserves_bind {A B} (m : M A) (k : A -> M B) :
  preserves R m -> (forall a, preserves R (k a)) -> preserves R (m ≫= k).
Proof.
  intros Hm Hk env w. rewrite M_bind_eq. specialize (Hm env w).
  destruct (m env w) as [[a| |] w']; cbn in *; [|done..]. etransitivity; [done|]. apply Hk.
Qed.

Lemma preserves_bind_lift {A B} (m : outcome A) (k : A -> M B) :
  (forall a, m = Ret a -> preserves R (k a)) -> preserves R (lift m ≫= k).
Proof.
  intros Hk env w. rewrite M_bind_eq. destruct m as [a| |]; cbn; [by apply Hk|reflexivity..].
Qed.

Lemma preserves_modify f : (forall w, R w (f w)) -> preserves R (modify f).
Proof. intros Hf env w. apply Hf. Qed.

Lemma preserves_if {A} (b : bool) (m n : M A) :
  preserves R m -> preserves R n -> preserves R (if b then m else n).
Proof. by destruct b. Qed.
End Preserves.

(** Splitting a program into its basic steps; the goals that remain are about
    single updates of the store. *)
Ltac frame_step :=
  match goal with
  | |- preserves _ (mbind _ (lift _)) => apply preserves_bind_lift; [apply _|intros ? ?]
  | |- preserves _ (mbind _ _) => apply preserves_bind; [try apply _| |intros ?]
  | |- preserves _ (mret _) => apply preserves_ret; apply _
  | |- preserves _ (lift _) => apply preserves_lift; apply _
  | |- preserves _ (gets _) => apply preserves_gets; apply _
  | |- preserves _ (if ?b then _ else _) => apply preserves_if
  | |- preserves _ (match ?x with _ => _ end) => destruct x
  | |- preserves _ (let '(_, _) := ?x in _) => destruct x
  | |- preserves _ _ => solve [eauto with frame]
  end.
Ltac frame := repeat frame_step.

(** *** Only the entries of one address change *)

Definition same_but (ip : str) (w w' : World) : Prop :=
  forall ip', ip' <> ip ->
    swabber_ip_db w' !! ip' = swabber_ip_db w !! ip' /\
    challenger_ip_db w' !! ip' = challenger_ip_db w !! ip' /\
    regex_manager_ip_db w' !! ip' = regex_manager_ip_db w !! ip'.

#[global] Instance same_but_preorder ip : PreOrder (same_but ip).
Proof.
  split.
  - intros w ip' _. done.
  - intros w1 w2 w3 H12 H23 ip' Hne. destruct (H12 ip' Hne) as (? & ? & ?).
    destruct (H23 ip' Hne) as (? & ? & ?). split; [|split]; congruence.
Qed.

Lemma same_but_query {A} ip (f : Env -> nat -> A) : preserves (same_but ip) (query f).
Proof. intros env w ip' _. done. Qed.

Lemma same_but_emit ip e : preserves (same_but ip) (emit e).
Proof. intros env w ip' _. done. Qed.

Lemma same_but_db_get {V} ip (dflt : V) get : preserves (same_but ip) (db_get dflt get ip).
Proof. intros env w ip' _. done. Qed.

Ltac same_but_db :=
  intros env w ip' Hne; rewrite ?db_set_eq, ?db_drop_eq; cbn;
  destruct (env_lock env (tick w)); cbn; rewrite ?lookup_insert_ne, ?lookup_delete_ne by done;
  done.

Lemma same_but_swabber_set ip v : preserves (same_but ip) (swabber_db_set ip v).
Proof. unfold swabber_db_set. same_but_db. Qed.
Lemma same_but_swabber_drop ip : preserves (same_but ip) (swabber_db_drop ip).
Proof. unfold swabber_db_drop. same_but_db. Qed.
Lemma same_but_challenger_set ip v : preserves (same_but ip) (challenger_db_set ip v).
Proof. unfold challenger_db_set. same_but_db. Qed.
Lemma same_but_challenger_drop ip : preserves (same_but ip) (challenger_db_drop ip).
Proof. unfold challenger_db_drop. same_but_db. Qed.
Lemma same_but_regex_set ip v : preserves (same_but ip) (regex_db_set ip v).
Proof. unfold regex_db_set. same_but_db. Qed.

#[export] Hint Resolve same_but_query same_but_emit same_but_db_get same_but_swabber_set
  same_but_swabber_drop same_but_challenger_set same_but_challenger_drop same_but_regex_set : frame.
#[export] Hint Unfold swabber_db_get challenger_db_get regex_db_get time_now gettimeofday
  TSMutexLockTry : frame.

(** *** The clock of the outside moves on *)

Definition later (w w' : World) : Prop := (tick w <= tick w')%nat.

#[global] Instance later_preorder : PreOrder later.
Proof. split; unfold later; [intros w; lia|intros w1 w2 w3; lia]. Qed.

Lemma later_query {A} (f : Env -> nat -> A) : preserves later (query f).
Proof. intros env w. unfold later. cbn. lia. Qed.

Lemma later_emit e : preserves later (emit e).
Proof. intros env w. unfold later. cbn. lia. Qed.

Lemma later_challenger_set ip v : preserves later (challenger_db_set ip v).
Proof. intros env w. unfold challenger_db_set, later. rewrite db_set_eq. cbn. lia. Qed.

Lemma later_challenger_get ip : preserves later (challenger_db_get ip).
Proof. intros env w. unfold challenger_db_get, later. rewrite db_get_eq. cbn. lia. Qed.

#[export] Hint Resolve later_query later_emit later_challenger_set later_challenger_get : frame.

(** ** Symbolic execution *)

(** Run the basic operations at the front of a computation. *)
Ltac run_M :=
  cbv [mbind M_bind mret M_ret gets modify query time_now gettimeofday TSMutexLockTry emit
       lift swabber_db_get swabber_db_set swabber_db_drop challenger_db_get challenger_db_set
       challenger_db_drop regex_db_get regex_db_set db_get db_set db_drop
       IpDb.get_ip_state IpDb.set_ip_state IpDb.drop_ip];
  cbn.

(** Every mutex is free. *)
Definition uncontended (env : Env) : Prop := forall n, env_lock env n = true.
