(* ===== verification/Swabber.v ===== *)
(** * Swabber: reporting addresses for banning (src/swabber.cpp, src/socket.h)

    [ban] waits for the grace period between the first report of an address and
    the message to the ban daemon.  The abstract machine at the end says what
    that means for one address; [ban] refines it when every mutex is free. *)

From S2P Require Import Prelude Util WhiteList IpDb Yaml World.

Local Open Scope Z_scope.

(** ** The ZeroMQ socket wrapper *)

Module SocketOps.

Definition is_bound (s : Socket) : bool := negb (bool_decide (local_endpoint_ s = [])).

(** [_socket.unbind(endpoint)]; the wrapper keeps [_local_endpoint]. *)
Definition unbind (s : Socket) : Socket :=
  if is_bound s then
    MkSocket (local_endpoint_ s) (filter (fun e => e <> local_endpoint_ s) (zmq_bound s))
  else s.

(** [ok]: whether [_socket.bind] returns, rather than throwing [zmq::error_t]. *)
Definition bind (ok : bool) (endpoint : str) (s : Socket) : bool * Socket :=
  if bool_decide (endpoint = local_endpoint_ s) then (true, s)
  else if bool_decide (endpoint = []) then (true, unbind s)
  else
    let s' := unbind s in
    if ok then (true, MkSocket endpoint (zmq_bound s' ++ [endpoint]))
    else (false, MkSocket [] (zmq_bound s')).

(** The wrapper knows what ZeroMQ is bound to. *)
Definition sock_ok (s : Socket) : Prop :=
  zmq_bound s = if is_bound s then [local_endpoint_ s] else [].

Lemma new_socket_ok : sock_ok new_socket.
Proof. done. Qed.

Lemma unbind_clears s : sock_ok s -> zmq_bound (unbind s) = [].
Proof.
  unfold sock_ok, unbind. destruct (is_bound s); intros H; [|done].
  cbn [zmq_bound]. rewrite H, filter_cons, decide_False by (intros E; by apply E). done.
Qed.

Lemma bind_ok ok endpoint s :
  endpoint <> [] -> sock_ok s ->
  let '(r, s') := bind ok endpoint s in
  sock_ok s' /\ (r = true -> local_endpoint_ s' = endpoint) /\ (r = false -> is_bound s' = false).
Proof.
  intros He Hs. unfold bind. case_bool_decide as E1; [by subst|].
  rewrite bool_decide_false by done. destruct ok.
  - split; [|done]. unfold sock_ok, is_bound. cbn [local_endpoint_ zmq_bound].
    rewrite unbind_clears by done. by rewrite bool_decide_false.
  - split; [|done]. unfold sock_ok. cbn [zmq_bound]. by rewrite unbind_clears.
Qed.

End SocketOps.

Module SwabberOps.

Definition DEFAULT_SERVER : str := lit "*".
Definition DEFAULT_PORT : str := lit "22620".
Definition DEFAULT_GRACE_PERIOD : Z := 0.
Definition SWABBER_BAN : str := lit "swabber_bans".

(** The constructor: a socket handed over from an earlier swabber is reused. *)
Definition init (s : option Socket) : Swabber :=
  MkSwabber [] (Some (default new_socket s)) DEFAULT_SERVER DEFAULT_PORT DEFAULT_GRACE_PERIOD.

Definition get_grace_period (s : Swabber) : Z := grace_period s.

(** A line of the ban log; [CurrentGmTime] asks for the time again. *)
Definition log_line (bot_ip banning_reason verdict : str) : M unit :=
  rawtime ← time_now;
  emit (BanLog bot_ip rawtime banning_reason verdict).

Definition set_socket (s : option Socket) : M unit :=
  sw ← gets swabber;
  modify (with_swabber (MkSwabber (local_endpoint sw) s (swabber_server sw)
                          (swabber_port sw) (grace_period sw))).

(** The decision once the state [st] of the address was read: a first report is
    recorded; false before the end of the grace period. *)
Definition after_read (grace tv_sec : Z) (bot_ip banning_reason : str) (st : Z) : M bool :=
  st' ← (if st =? 0 then
           _ ← swabber_db_set bot_ip tv_sec;
           _ ← log_line bot_ip banning_reason (lit "flagged");
           mret tv_sec
         else mret st);
  mret (negb (tv_sec - st' <? grace)).

(** The first part of [ban]: false when it returns before the grace period. *)
Definition past_grace (tv_sec : Z) (bot_ip banning_reason : str) : M bool :=
  sw ← gets swabber;
  if 0 <? grace_period sw then
    cur_ip_state ← swabber_db_get bot_ip;
    match cur_ip_state with
    | None => mret false
    | Some st => after_read (grace_period sw) tv_sec bot_ip banning_reason st
    end
  else mret true.

(** The part under [swabber_mutex]: false when [ban] returns inside it. *)
Definition send_ban (bot_ip banning_reason : str) : M bool :=
  locked ← TSMutexLockTry;
  if negb locked then mret false
  else
    sw ← gets swabber;
    match socket sw with
    | None => mret false
    | Some s =>
        bound ← (if SocketOps.is_bound s then mret true
                 else
                   ok ← query env_bind;
                   let '(r, s') := SocketOps.bind ok (local_endpoint sw) s in
                   _ ← set_socket (Some s');
                   mret r);
        if negb bound then mret false
        else
          _ ← emit (ZmqSend SWABBER_BAN true);
          _ ← emit (ZmqSend bot_ip false);
          _ ← log_line bot_ip banning_reason (lit "banned");
          mret true
    end.

Definition ban (bot_ip banning_reason : str) : M unit :=
  '(tv_sec, _) ← gettimeofday;
  go ← past_grace tv_sec bot_ip banning_reason;
  if negb go then mret tt
  else
    sent ← send_ban bot_ip banning_reason;
    if negb sent then mret tt
    else _ ← swabber_db_drop bot_ip; mret tt.

(** [release_socket] takes the mutex with the blocking [TSMutexLock]. *)
Definition release_socket : M (option Socket) :=
  sw ← gets swabber;
  _ ← set_socket None;
  mret (socket sw).

(** ** Configuration *)

Section LoadConfig.
Context `{Yaml}.

Definition set_settings (server port : str) (grace : Z) : M unit :=
  sw ← gets swabber;
  modify (with_swabber (MkSwabber (local_endpoint sw) (socket sw) server port grace)).

(** One node of [config_node_list]; the settings are updated as they are read,
    and an exception is thrown on. *)
Definition load_node (cur_node : node) : M unit :=
  sw ← gets swabber;
  grace ← lift (y_opt as_long cur_node (lit "grace_period") (grace_period sw));
  _ ← set_settings (swabber_server sw) (swabber_port sw) grace;
  port ← lift (y_opt as_string cur_node (lit "port") (swabber_port sw));
  _ ← set_settings (swabber_server sw) port grace;
  server ← lift (y_opt as_string cur_node (lit "server") (swabber_server sw));
  set_settings server port grace.

Fixpoint load_nodes (config_node_list : list node) : M unit :=
  match config_node_list with
  | [] => mret tt
  | n :: rest => _ ← load_node n; load_nodes rest
  end.

Definition set_endpoint (endpoint : str) : M unit :=
  sw ← gets swabber;
  modify (with_swabber (MkSwabber endpoint (socket sw) (swabber_server sw)
                          (swabber_port sw) (grace_period sw))).

(** The socket is bound when the configuration is read; when that fails, [ban]
    tries again. *)
Definition bind_endpoint : M bool :=
  sw ← gets swabber;
  match socket sw with
  | None => lift (Fault NullDeref)
  | Some s =>
      let s1 := if bool_decide (local_endpoint_ s <> local_endpoint sw) then new_socket else s in
      ok ← query env_bind;
      let '(r, s2) := SocketOps.bind ok (local_endpoint sw) s1 in
      _ ← set_socket (Some s2);
      mret r
  end.

Definition load_config (config_node_list : list node) : M unit :=
  _ ← set_settings DEFAULT_SERVER DEFAULT_PORT DEFAULT_GRACE_PERIOD;
  _ ← load_nodes config_node_list;
  sw ← gets swabber;
  _ ← set_endpoint (lit "tcp://" ++ swabber_server sw ++ lit ":" ++ swabber_port sw);
  _ ← bind_endpoint;
  mret tt.

End LoadConfig.

(** ** Framing *)

Lemma same_but_set_socket ip s : preserves (same_but ip) (set_socket s).
Proof.
  unfold set_socket. frame. apply preserves_modify. intros w ip' _. done.
Qed.
#[export] Hint Resolve same_but_set_socket : frame.

Lemma same_but_log_line ip a b c : preserves (same_but ip) (log_line a b c).
Proof. unfold log_line. frame. Qed.
#[export] Hint Resolve same_but_log_line : frame.

Lemma same_but_past_grace t ip reason : preserves (same_but ip) (past_grace t ip reason).
Proof. unfold past_grace, after_read. frame. Qed.
#[export] Hint Resolve same_but_past_grace : frame.

Lemma same_but_send_ban ip reason : preserves (same_but ip) (send_ban ip reason).
Proof. unfold send_ban. frame. Qed.
#[export] Hint Resolve same_but_send_ban : frame.

Lemma same_but_ban ip reason : preserves (same_but ip) (ban ip reason).
Proof. unfold ban. frame. Qed.
#[export] Hint Resolve same_but_ban : frame.

(** ** The grace period as a state machine for one address *)

Inductive status := Clear | Flagged (since : Z).
Inductive verdict := Ignore | Flag | Ban.

#[global] Instance verdict_eq_dec : EqDecision verdict.
Proof. solve_decision. Defined.

Definition abs_ban (grace now : Z) (st : status) : status * verdict :=
  if 0 <? grace then
    match st with
    | Clear => (Flagged now, Flag)
    | Flagged t => if now - t <? grace then (Flagged t, Ignore) else (Clear, Ban)
    end
  else (Clear, Ban).

Lemma abs_ban_clears grace now st :
  snd (abs_ban grace now st) = Ban -> fst (abs_ban grace now st) = Clear.
Proof. unfold abs_ban. repeat case_match; done. Qed.

Definition status_of (w : World) (ip : str) : status :=
  let t := IpDb.view 0 (swabber_ip_db w) ip in if t =? 0 then Clear else Flagged t.

(** What the outside sees of a verdict; the log lines carry the time at which
    they are written. *)
Inductive observed (ip reason : str) : verdict -> list event -> Prop :=
  | obs_ignore : observed ip reason Ignore []
  | obs_flag t : observed ip reason Flag [BanLog ip t reason (lit "flagged")]
  | obs_ban t : observed ip reason Ban
      [ZmqSend SWABBER_BAN true; ZmqSend ip false; BanLog ip t reason (lit "banned")].

(** The swabber can reach its daemon: it has a socket that is bound. *)
Definition connected (w : World) : Prop :=
  exists s, socket (swabber w) = Some s /\ SocketOps.is_bound s = true.

(** The first half of [ban] on an uncontended machine. *)
Lemma past_grace_run env w t ip reason :
  uncontended env -> t <> 0 ->
  let '(st, v) := abs_ban (grace_period (swabber w)) t (status_of w ip) in
  exists w' evs, past_grace t ip reason env w = (Ret (bool_decide (v = Ban)), w') /\
    swabber w' = swabber w /\ trace w' = trace w ++ evs /\
    (v = Ban -> evs = []) /\ (v <> Ban -> status_of w' ip = st /\ observed ip reason v evs).
Proof.
  intros Hl Ht. unfold abs_ban, past_grace, after_read, status_of. rewrite M_bind_eq. cbn [gets fst].
  destruct (0 <? grace_period (swabber w)) eqn:Hg.
  - rewrite M_bind_eq. unfold swabber_db_get. rewrite db_get_eq, Hl.
    cbn [swabber_ip_db with_tick].
    destruct (IpDb.view 0 (swabber_ip_db w) ip =? 0) eqn:Hv.
    + run_M. unfold log_line. run_M. rewrite Hl. run_M. rewrite Z.sub_diag, Hg. cbn [negb].
      do 2 eexists. split; [reflexivity|]. cbn. split_and!; [done|done|done|intros _].
      rewrite IpDb.view_insert, decide_True by done. apply Z.eqb_neq in Ht. rewrite Ht.
      split; [done|constructor].
    + destruct (t - _ <? _) eqn:Hlt; run_M; rewrite Hlt; eexists _, [];
        rewrite app_nil_r; (split; [reflexivity|]); cbn.
      * split_and!; [done..|intros _]. rewrite Hv. split; [done|constructor].
      * by split_and!.
  - exists w, []. rewrite app_nil_r. by split_and!.
Qed.

(** The second half, with a bound socket. *)
Lemma send_ban_run env w ip reason :
  uncontended env -> connected w ->
  exists w' evs, send_ban ip reason env w = (Ret true, w') /\
    swabber_ip_db w' = swabber_ip_db w /\
    trace w' = trace w ++ evs /\ observed ip reason Ban evs.
Proof.
  intros Hl (s & Hs & Hb). unfold send_ban, log_line. run_M. rewrite Hl. cbn [negb].
  cbn. rewrite Hs, Hb. cbn -[lit SWABBER_BAN].
  do 2 eexists. split; [reflexivity|]. cbn -[lit SWABBER_BAN].
  split; [done|]. rewrite <- !app_assoc. split; [reflexivity|]. constructor.
Qed.

(** The whole of [ban] on an uncontended machine. *)
Lemma ban_run (env : Env) (w : World) (ip reason : str) :
  uncontended env -> connected w -> env_sec env (tick w) <> 0 ->
  let '(st, v) := abs_ban (grace_period (swabber w)) (env_sec env (tick w)) (status_of w ip) in
  exists w' evs, ban ip reason env w = (Ret tt, w') /\ status_of w' ip = st /\
    trace w' = trace w ++ evs /\ observed ip reason v evs.
Proof.
  intros Hl Hc Hnow. unfold ban. set (w1 := with_tick (S (tick w)) w).
  pose proof (past_grace_run env w1 (env_sec env (tick w)) ip reason Hl Hnow) as H.
  pose proof (abs_ban_clears (grace_period (swabber w)) (env_sec env (tick w)) (status_of w ip)) as Hcl.
  change (swabber w1) with (swabber w) in H. change (status_of w1 ip) with (status_of w ip) in H.
  destruct (abs_ban _ _ _) as [st v]. destruct H as (w2 & evs & Hrun & Hsw & Htr & Hban & Hno).
  rewrite M_bind_eq. cbn [gettimeofday query fst snd]. rewrite M_bind_eq. fold w1. rewrite Hrun.
  case_bool_decide as Hv; cbn [negb].
  - subst v. rewrite M_bind_eq.
    destruct (send_ban_run env w2 ip reason Hl) as (w3 & evs' & Hrun' & Hdb & Htr' & Hobs).
    { by unfold connected; rewrite Hsw. }
    rewrite Hrun'. cbn [negb]. rewrite M_bind_eq. unfold swabber_db_drop. rewrite db_drop_eq, Hl.
    do 2 eexists. split; [reflexivity|]. cbn. unfold status_of. cbn.
    rewrite IpDb.view_delete, decide_True by done. specialize (Hcl eq_refl). cbn in Hcl. subst st.
    split; [done|].
    by rewrite Htr', Htr, (Hban eq_refl), app_nil_r.
  - destruct (Hno Hv) as [Hst Hobs]. eauto 6.
Qed.

(** C10. Refinement: with free mutexes and a bound socket, [ban] behaves for
    every address as the abstract machine: the first report flags it, reports
    during the grace period are ignored, the first one after it bans and
    clears; without a grace period every report bans. *)
Theorem ban_refines (env : Env) (w : World) (ip reason : str) :
  uncontended env -> connected w -> env_sec env (tick w) <> 0 ->
  let '(st, v) := abs_ban (grace_period (swabber w)) (env_sec env (tick w)) (status_of w ip) in
  exists w' evs, ban ip reason env w = (Ret tt, w') /\ status_of w' ip = st /\
    trace w' = trace w ++ evs /\ observed ip reason v evs.
Proof. apply ban_run. Qed.

(** What [ban] may touch: the clock, the swabber's records, its socket and the
    log.  Any relation that ignores these is preserved. *)
Section BanFrame.
Context (R : World -> World -> Prop) `{!PreOrder R}.
Hypothesis R_tick : forall w n, R w (with_tick n w).
Hypothesis R_db : forall w d, R w (with_swabber_ip_db d w).
Hypothesis R_swabber : forall w s, R w (with_swabber s w).
Hypothesis R_trace : forall w t, R w (with_trace t w).

Lemma frame_query {A} (f : Env -> nat -> A) : preserves R (query f).
Proof. intros env w. apply R_tick. Qed.
Lemma frame_emit e : preserves R (emit e).
Proof. intros env w. apply R_trace. Qed.
Lemma frame_db_get {V} (d : V) get ip : preserves R (db_get d get ip).
Proof. intros env w. apply R_tick. Qed.
Lemma frame_swabber_set ip v : preserves R (swabber_db_set ip v).
Proof. intros env w. unfold swabber_db_set. rewrite db_set_eq. etransitivity; [apply R_tick|apply R_db]. Qed.
Lemma frame_swabber_drop ip : preserves R (swabber_db_drop ip).
Proof. intros env w. unfold swabber_db_drop. rewrite db_drop_eq. etransitivity; [apply R_tick|apply R_db]. Qed.
Hint Resolve frame_query frame_emit frame_db_get frame_swabber_set frame_swabber_drop : frame.
Lemma frame_log_line a b c : preserves R (log_line a b c).
Proof. unfold log_line. frame. Qed.
Lemma frame_set_socket s : preserves R (set_socket s).
Proof. unfold set_socket. frame. apply preserves_modify. intros w. apply R_swabber. Qed.
Hint Resolve frame_log_line frame_set_socket : frame.
Lemma ban_frame ip reason : preserves R (ban ip reason).
Proof. unfold ban, past_grace, after_read, send_ban. frame. Qed.

Lemma release_frame : preserves R release_socket.
Proof. unfold release_socket. frame. Qed.

Lemma load_config_frame `{Yaml} l : preserves R (load_config l).
Proof.
  assert (Hs : forall a b c, preserves R (set_settings a b c)) by (intros a b c env w; apply R_swabber).
  assert (He : forall e, preserves R (set_endpoint e)) by (intros e env w; apply R_swabber).
  assert (Hn : forall l, preserves R (load_nodes l)).
  { clear l. intros l. induction l as [|n l IH]; cbn [load_nodes]; unfold load_node; frame. }
  unfold load_config, bind_endpoint. frame.
Qed.
End BanFrame.

(** [ban] always returns: no lock, socket or time makes it throw. *)
Lemma ban_returns ip reason env w : fst (ban ip reason env w) = Ret tt.
Proof.
  unfold ban, past_grace, after_read, send_ban, log_line, set_socket. run_M.
  repeat (first [done | case_match]; run_M).
Qed.

(** An environment whose clock advances a hundred seconds per question. *)
Definition sample_env : Env :=
  MkEnv (fun n => 1000 + 100 * Z.of_nat n) (fun _ => 0) (fun _ => true) (fun _ => true)
        (fun _ => true) (fun _ => replicate 5 NUL) (fun _ => true).

Definition sample_swabber (grace : Z) : Swabber :=
  MkSwabber (lit "tcp://*:22620") (Some (MkSocket (lit "tcp://*:22620") [lit "tcp://*:22620"]))
            DEFAULT_SERVER DEFAULT_PORT grace.

Definition sample_world (grace : Z) : World :=
  MkWorld 0 ∅ ∅ ∅ (sample_swabber grace) bot_sniffer0 ∅ ∅ true [].

Lemma ban_refines_witness :
  exists w' evs, ban (lit "10.1.2.3") (lit "test") sample_env (sample_world 300) = (Ret tt, w') /\
    status_of w' (lit "10.1.2.3") = Flagged 1000 /\
    trace w' = [] ++ evs /\ observed (lit "10.1.2.3") (lit "test") Flag evs.
Proof.
  apply (ban_refines sample_env (sample_world 300) (lit "10.1.2.3") (lit "test")).
  - by intros n.
  - by eexists.
  - vm_compute. discriminate.
Defined.

(** ** Safety, whatever the outside answers *)

(** Safety: with a grace period, and whatever the locks, the clock and the
    socket do, [ban] sends nothing to the ban daemon and logs no ban for an
    address that was not reported at least a grace period earlier. *)
Lemma ban_never_early (env : Env) (w : World) (ip reason : str) :
  let t := IpDb.view 0 (swabber_ip_db w) ip in
  0 < grace_period (swabber w) ->
  t = 0 \/ env_sec env (tick w) - t < grace_period (swabber w) ->
  exists evs, trace (snd (ban ip reason env w)) = trace w ++ evs /\
    Forall (fun e => exists time, e = BanLog ip time reason (lit "flagged")) evs.
Proof.
  intros t Hg Ht. unfold ban, past_grace, after_read. run_M. apply Z.ltb_lt in Hg as Hg'. rewrite Hg'. run_M.
  fold (IpDb.view 0 (swabber_ip_db w) ip). fold t.
  destruct (env_lock env (S (tick w))); [|by exists []; rewrite app_nil_r].
  destruct (t =? 0) eqn:E.
  - unfold log_line. run_M.
    destruct (env_lock env (S (S (tick w)))); cbn; rewrite Z.sub_diag, Hg'; cbn -[lit];
      eexists; (split; [reflexivity|]); constructor; eauto.
  - boolify. destruct Ht as [?|Ht]; [done|]. run_M. apply Z.ltb_lt in Ht. rewrite Ht. cbn.
    exists []. by rewrite app_nil_r.
Qed.

Lemma ban_never_early_witness :
  exists evs, trace (snd (ban (lit "10.1.2.3") (lit "test") sample_env (sample_world 300)))
              = [] ++ evs /\
    Forall (fun e => exists time, e = BanLog (lit "10.1.2.3") time (lit "test") (lit "flagged")) evs.
Proof.
  apply (ban_never_early sample_env (sample_world 300)); [done|by left].
Defined.

(** ** The socket of a configured swabber *)

(** The wrapper and ZeroMQ agree, and a bound socket is bound to the configured
    endpoint. *)
Definition socket_wf (endpoint : str) (s : Socket) : Prop :=
  SocketOps.sock_ok s /\ (SocketOps.is_bound s = true -> local_endpoint_ s = endpoint).

Definition swabber_wf (sw : Swabber) : Prop :=
  local_endpoint sw <> [] /\
  match socket sw with None => True | Some s => socket_wf (local_endpoint sw) s end.

Lemma bind_socket_wf ok endpoint s :
  endpoint <> [] -> SocketOps.sock_ok s -> socket_wf endpoint (snd (SocketOps.bind ok endpoint s)).
Proof.
  intros He Hs. pose proof (SocketOps.bind_ok ok endpoint s He Hs) as H.
  destruct (SocketOps.bind ok endpoint s) as [[] s']; cbn; destruct H as (H1 & H2 & H3);
    (split; [done|]); intros Hb; [by apply H2|]. by rewrite H3 in Hb.
Qed.

(** Anything that does not touch the swabber keeps it well formed. *)
Definition keeps_wf (w w' : World) : Prop := swabber_wf (swabber w) -> swabber_wf (swabber w').

#[global] Instance keeps_wf_preorder : PreOrder keeps_wf.
Proof. split; unfold keeps_wf; [by intros w|]. intros w1 w2 w3; auto. Qed.

Lemma keeps_wf_query {A} (f : Env -> nat -> A) : preserves keeps_wf (query f).
Proof. intros env w Hw. exact Hw. Qed.
Lemma keeps_wf_emit e : preserves keeps_wf (emit e).
Proof. intros env w Hw. exact Hw. Qed.
Lemma keeps_wf_db_get {V} (d : V) get ip : preserves keeps_wf (db_get d get ip).
Proof. intros env w Hw. exact Hw. Qed.
Lemma keeps_wf_swabber_set ip v : preserves keeps_wf (swabber_db_set ip v).
Proof. intros env w Hw. unfold swabber_db_set. rewrite db_set_eq. exact Hw. Qed.
Lemma keeps_wf_swabber_drop ip : preserves keeps_wf (swabber_db_drop ip).
Proof. intros env w Hw. unfold swabber_db_drop. rewrite db_drop_eq. exact Hw. Qed.
#[export] Hint Resolve keeps_wf_query keeps_wf_emit keeps_wf_db_get keeps_wf_swabber_set
  keeps_wf_swabber_drop : frame.

Lemma keeps_wf_log_line a b c : preserves keeps_wf (log_line a b c).
Proof. unfold log_line. frame. Qed.
#[export] Hint Resolve keeps_wf_log_line : frame.

Lemma keeps_wf_past_grace t ip reason : preserves keeps_wf (past_grace t ip reason).
Proof. unfold past_grace, after_read. frame. Qed.
#[export] Hint Resolve keeps_wf_past_grace : frame.

(** The rebinding step of [send_ban], seen as one update of the swabber. *)
Lemma keeps_wf_send_ban ip reason : preserves keeps_wf (send_ban ip reason).
Proof.
  intros env w Hwf. unfold send_ban, log_line, set_socket. run_M.
  destruct (env_lock env (tick w)); cbn; [|done].
  destruct (socket (swabber w)) as [s|] eqn:Es; [|done].
  destruct (SocketOps.is_bound s) eqn:Eb; [done|]. cbn.
  destruct Hwf as [He Hs]. rewrite Es in Hs.
  pose proof (bind_socket_wf (env_bind env (S (tick w))) _ s He (proj1 Hs)).
  destruct (SocketOps.bind _ _ s) as [[] s']; cbn in *; done.
Qed.
#[export] Hint Resolve keeps_wf_send_ban : frame.

Lemma keeps_wf_ban ip reason : preserves keeps_wf (ban ip reason).
Proof. unfold ban. frame. Qed.
#[export] Hint Resolve keeps_wf_ban : frame.

Lemma keeps_wf_release : preserves keeps_wf release_socket.
Proof. intros env w [He _]. unfold release_socket, set_socket. run_M. done. Qed.

(** Reading the settings leaves the socket alone. *)
Definition same_socket (w w' : World) : Prop := socket (swabber w') = socket (swabber w).

#[global] Instance same_socket_preorder : PreOrder same_socket.
Proof. split; unfold same_socket; [done|]. intros w1 w2 w3; congruence. Qed.

Section Configured.
Context `{Yaml}.

Lemma same_socket_settings a b c : preserves same_socket (set_settings a b c).
Proof. by intros env w. Qed.
Hint Resolve same_socket_settings : frame.

Lemma same_socket_load_node n : preserves same_socket (load_node n).
Proof. unfold load_node. frame. Qed.
Hint Resolve same_socket_load_node : frame.

Lemma same_socket_load_nodes l : preserves same_socket (load_nodes l).
Proof. induction l; cbn [load_nodes]; frame. Qed.

Lemma bind_endpoint_run env w :
  bind_endpoint env w =
  match socket (swabber w) with
  | None => (Fault NullDeref, w)
  | Some s =>
      let e := local_endpoint (swabber w) in
      let s1 := if bool_decide (local_endpoint_ s <> e) then new_socket else s in
      let '(r, s2) := SocketOps.bind (env_bind env (tick w)) e s1 in
      (Ret r, with_swabber (MkSwabber e (Some s2) (swabber_server (swabber w))
                              (swabber_port (swabber w)) (grace_period (swabber w)))
                (with_tick (S (tick w)) w))
  end.
Proof.
  unfold bind_endpoint, set_socket. run_M. destruct (socket (swabber w)) as [s|]; [|done].
  run_M. destruct (bool_decide _); by destruct (SocketOps.bind _ _ _).
Qed.

(** What [load_config] does when its nodes could be read. *)
Lemma load_config_run env w l w1 :
  load_nodes l env (snd (set_settings DEFAULT_SERVER DEFAULT_PORT DEFAULT_GRACE_PERIOD env w))
    = (Ret tt, w1) ->
  exists w2, socket (swabber w2) = socket (swabber w) /\
    local_endpoint (swabber w2) =
      lit "tcp://" ++ swabber_server (swabber w1) ++ lit ":" ++ swabber_port (swabber w1) /\
    load_config l env w = match bind_endpoint env w2 with
                          | (Ret _, w3) => (Ret tt, w3)
                          | (Throw e, w3) => (Throw e, w3)
                          | (Fault f, w3) => (Fault f, w3)
                          end.
Proof.
  intros Hl. unfold load_config. rewrite !M_bind_eq.
  change (set_settings DEFAULT_SERVER DEFAULT_PORT DEFAULT_GRACE_PERIOD env w) with
    (Ret (A := unit) tt, snd (set_settings DEFAULT_SERVER DEFAULT_PORT DEFAULT_GRACE_PERIOD env w)).
  cbv beta iota. rewrite M_bind_eq, Hl. cbv beta iota.
  exists (snd (set_endpoint (lit "tcp://" ++ swabber_server (swabber w1) ++ lit ":"
                               ++ swabber_port (swabber w1)) env w1)).
  split; [|split; [done|]].
  - pose proof (same_socket_load_nodes l env
      (snd (set_settings DEFAULT_SERVER DEFAULT_PORT DEFAULT_GRACE_PERIOD env w))) as Hs.
    rewrite Hl in Hs. apply Hs.
  - rewrite M_bind_eq. cbn [gets fst]. rewrite M_bind_eq.
    destruct (set_endpoint _ env w1) as [o w2] eqn:E.
    unfold set_endpoint in E. rewrite M_bind_eq in E. cbn in E. injection E as <- <-.
    rewrite M_bind_eq. cbn [snd]. by destruct (bind_endpoint _ _) as [[] ?].
Qed.

Lemma load_config_inv env w l w' :
  load_config l env w = (Ret tt, w') ->
  exists w1, load_nodes l env (snd (set_settings DEFAULT_SERVER DEFAULT_PORT DEFAULT_GRACE_PERIOD env w))
    = (Ret tt, w1).
Proof.
  unfold load_config. rewrite !M_bind_eq.
  change (set_settings DEFAULT_SERVER DEFAULT_PORT DEFAULT_GRACE_PERIOD env w) with
    (Ret (A := unit) tt, snd (set_settings DEFAULT_SERVER DEFAULT_PORT DEFAULT_GRACE_PERIOD env w)).
  cbv beta iota. rewrite M_bind_eq. cbn [snd].
  destruct (load_nodes l env _) as [[[]| |] w1]; [eauto|done|done].
Qed.

Lemma load_config_wf env w l w' s :
  socket (swabber w) = Some s -> SocketOps.sock_ok s ->
  load_config l env w = (Ret tt, w') -> swabber_wf (swabber w').
Proof.
  intros Hs Hok Hrun. destruct (load_config_inv _ _ _ _ Hrun) as [w1 Hl].
  destruct (load_config_run _ _ _ _ Hl) as (w2 & Hs2 & He & Hrun').
  rewrite Hrun', bind_endpoint_run, Hs2, Hs in Hrun. clear Hrun'. cbv zeta in Hrun.
  assert (Hne : local_endpoint (swabber w2) <> []) by (by rewrite He).
  pose proof (bind_socket_wf (env_bind env (tick w2)) _
    (if bool_decide (local_endpoint_ s <> local_endpoint (swabber w2)) then new_socket else s) Hne)
    as Hb.
  destruct (SocketOps.bind _ _ _) as [r s2]. injection Hrun as <-. split; [done|].
  apply Hb. by case_match.
Qed.

(** The life of a swabber: it is configured when it is made, on a socket that
    may come from its predecessor, and configured again, used and released. *)
Inductive reachable : World -> Prop :=
  | reach_new env w s l w' :
      SocketOps.sock_ok s ->
      load_config l env (with_swabber (init (Some s)) w) = (Ret tt, w') -> reachable w'
  | reach_reload env w s l w' :
      reachable w -> socket (swabber w) = Some s ->
      load_config l env w = (Ret tt, w') -> reachable w'
  | reach_ban env w ip reason : reachable w -> reachable (snd (ban ip reason env w))
  | reach_release env w : reachable w -> reachable (snd (release_socket env w)).

(** Invariant: whatever sequence of bans, configurations and releases, and
    whatever binding succeeds or fails, the socket of a swabber is bound to
    nothing but its configured endpoint, and the wrapper knows whether it is. *)
Lemma swabber_wf_invariant (w : World) : reachable w -> swabber_wf (swabber w).
Proof.
  induction 1 as [env w s l w' Hok Hrun|env w s l w' _ [_ IH] Hs Hrun|env w ip reason _ IH|env w _ IH].
  - by eapply (load_config_wf _ _ _ _ s); [| |exact Hrun].
  - rewrite Hs in IH. exact (load_config_wf _ _ _ _ s Hs (proj1 IH) Hrun).
  - by apply keeps_wf_ban.
  - by apply keeps_wf_release.
Qed.
End Configured.

Lemma swabber_wf_invariant_witness :
  swabber_wf (swabber (snd (ban (lit "10.0.0.1") (lit "r") sample_env
    (snd (load_config [TMap [(lit "port", TScalar (lit "7"))]] sample_env
      (with_swabber (init (Some new_socket)) (sample_world 0))))))).
Proof.
  apply (swabber_wf_invariant (H := tree_yaml)), (reach_ban (H := tree_yaml)).
  apply (reach_new (H := tree_yaml) sample_env (sample_world 0) new_socket
           [TMap [(lit "port", TScalar (lit "7"))]]); [exact SocketOps.new_socket_ok|].
  vm_compute. reflexivity.
Defined.

(** Handover: a swabber that takes over a socket bound to the endpoint its
    configuration names keeps it as it is. *)
Lemma load_config_keeps_socket `{Yaml} (env : Env) (w w' : World) (l : list node) (s : Socket) :
  load_config l env (with_swabber (init (Some s)) w) = (Ret tt, w') ->
  local_endpoint_ s = local_endpoint (swabber w') ->
  socket (swabber w') = Some s.
Proof.
  intros Hrun He. destruct (load_config_inv _ _ _ _ Hrun) as [w1 Hl].
  destruct (load_config_run _ _ _ _ Hl) as (w2 & Hs2 & _ & Hrun').
  rewrite Hrun', bind_endpoint_run, Hs2 in Hrun. clear Hrun'. cbn in Hrun.
  destruct (SocketOps.bind _ _ _) as [r s2] eqn:Eb. injection Hrun as <-. cbn in He |- *.
  rewrite bool_decide_false in Eb by (intros Hn; by apply Hn).
  unfold SocketOps.bind in Eb. rewrite bool_decide_true in Eb by done. congruence.
Qed.

End SwabberOps.

#[export] Hint Resolve SwabberOps.same_but_ban SwabberOps.keeps_wf_ban SwabberOps.keeps_wf_query
  SwabberOps.keeps_wf_emit SwabberOps.keeps_wf_db_get : frame.
