(* ===== verification/BanList.v ===== *)
(** * BanList: the file of flagged and banned addresses

    The lines [Swabber::ban] of src/swabber.cpp appends to its log, as text, and
    the reader that gets the entries back. *)

From S2P Require Import Prelude Util GmTime WhiteList IpDb Yaml World Swabber.

Local Open Scope Z_scope.

Module BanList.
Import SwabberOps.

Record entry := MkEntry { e_ip : str; e_time : Z; e_reason : str; e_verdict : str }.

#[global] Instance entry_eq_dec : EqDecision entry.
Proof. solve_decision. Defined.

(** [CurrentGmTime] in the stream. *)
Definition time_text (rawtime : Z) : str := GmTime.strftime (GmTime.gmtime rawtime).

(** [ban_ip_list << bot_ip << ", [" << CurrentGmTime() << "], " << reason << ...
    << endl], without the end of the line. *)
Definition line_text (e : entry) : str :=
  e_ip e ++ lit ", [" ++ time_text (e_time e) ++ lit "], " ++ e_reason e ++ lit ", " ++ e_verdict e.

Fixpoint log_text (es : list entry) : str :=
  match es with
  | [] => []
  | e :: es' => line_text e ++ LF :: log_text es'
  end.

(** The entries a run wrote. *)
Definition entry_of (e : event) : option entry :=
  match e with BanLog ip t reason v => Some (MkEntry ip t reason v) | _ => None end.

Definition entries (w : World) : list entry := omap entry_of (trace w).

(** ** The reader *)

(** An address ends at the first comma, a verdict begins after the last one. *)
Definition read_line (s : str) : option entry :=
  i ← find s (lit ",");
  let s1 := drop i s in
  if negb (starts_with s1 (lit ", [") && starts_with (drop 22 s1) (lit "], ")) then None
  else
    t ← GmTime.read_time (take 19 (drop 3 s1));
    let s2 := drop 25 s1 in
    j ← rfind s2 (lit ", ");
    Some (MkEntry (take i s) t (take j s2) (drop (j + 2) s2)).

(** Every line ends with a line feed. *)
Definition read_log (s : str) : option (list entry) :=
  let lines := split_on LF s in
  if bool_decide (last lines = Some []) then mapM read_line (removelast lines) else None.

(** Entries that can be told from their line. *)
Definition readable (e : entry) : Prop :=
  (","%char ∉ e_ip e) /\ (LF ∉ e_ip e) /\ (LF ∉ e_reason e) /\ GmTime.in_range (e_time e) /\
  e_verdict e ∈ [lit "flagged"; lit "banned"].

(** ** Round trip *)

Lemma number_digits s n c : GmTime.number s = Some n -> c ∈ s -> isdigit c = true.
Proof.
  unfold GmTime.number. destruct (forallb isdigit s) eqn:E; [|done]. intros _ Hc.
  rewrite forallb_forall in E. apply E. by apply list_elem_of_In.
Qed.

Lemma strptime_shape s x : GmTime.strptime s = Some x -> length s = 19%nat /\ (LF ∉ s).
Proof.
  unfold GmTime.strptime. intros H.
  do 19 (destruct s as [|? s]; [done|]). destruct s; [|done]. split; [done|].
  case_bool_decide as Hc; [|done]. injection Hc as -> -> -> -> ->.
  repeat match type of H with
    | (GmTime.number ?l ≫= _) = _ => let E := fresh in destruct (GmTime.number l) eqn:E; [|done]; cbn in H
    end.
  rewrite !not_elem_of_cons.
  split_and!; try apply not_elem_of_nil; try done; intros <-;
    match goal with E : GmTime.number _ = _ |- _ =>
      apply (number_digits _ _ LF) in E; [vm_compute in E; done|rewrite !elem_of_cons; tauto] end.
Qed.

Lemma time_text_shape t : GmTime.in_range t -> length (time_text t) = 19%nat /\ (LF ∉ time_text t).
Proof. intros Ht. eapply strptime_shape. by apply GmTime.strptime_strftime. Qed.

Lemma verdict_comma v : v ∈ [lit "flagged"; lit "banned"] -> (","%char ∉ v) /\ (LF ∉ v).
Proof.
  intros H. rewrite !elem_of_cons in H. destruct H as [->|[->|H]]; [..|by apply not_elem_of_nil in H];
    split; by apply (bool_decide_unpack _); vm_compute.
Qed.

Lemma lit_no_LF (s : string) : forallb (fun c => negb (bool_decide (c = LF))) (lit s) = true -> LF ∉ lit s.
Proof.
  intros H Hin. rewrite forallb_forall in H. apply list_elem_of_In, H in Hin.
  by rewrite bool_decide_true in Hin.
Qed.

Lemma line_text_no_LF e : readable e -> LF ∉ line_text e.
Proof.
  intros (_ & Hi & Hr & Ht & Hv). unfold line_text. rewrite !not_elem_of_app.
  split; [exact Hi|]. split; [by apply lit_no_LF|]. split; [by apply time_text_shape|].
  split; [by apply lit_no_LF|]. split; [exact Hr|]. split; [by apply lit_no_LF|].
  by apply verdict_comma.
Qed.

Lemma rfind_comma v : ","%char ∉ v -> rfind (lit ", " ++ v) (lit ", ") = Some 0%nat.
Proof.
  intros Hv. change (lit ", ") with [","; " "]%char. cbn [app rfind].
  rewrite rfind_absent by done. reflexivity.
Qed.

Lemma drop_parts (x z : str) : length x = 19%nat ->
  let s := lit ", [" ++ x ++ lit "], " ++ z in
  (starts_with s (lit ", [") && starts_with (drop 22 s) (lit "], ") = true) /\
  take 19 (drop 3 s) = x /\ drop 25 s = z.
Proof.
  intros Hx s.
  assert (H3 : drop 3 s = x ++ lit "], " ++ z) by done.
  assert (H22 : drop 22 s = lit "], " ++ z).
  { change 22%nat with (3 + 19)%nat. by rewrite <- drop_drop, H3, drop_app_length'. }
  split; [|split].
  - rewrite H22. apply andb_true_iff. split; apply starts_with_spec; eauto.
  - by rewrite H3, take_app_length'.
  - change 25%nat with (22 + 3)%nat. by rewrite <- drop_drop, H22.
Qed.

Lemma read_line_text e : readable e -> read_line (line_text e) = Some e.
Proof.
  intros (Hc & _ & _ & Ht & Hv). destruct (time_text_shape _ Ht) as [Hl _].
  destruct (verdict_comma _ Hv) as [Hvc _].
  destruct e as [ip t reason v]; cbn [e_ip e_time e_reason e_verdict] in *.
  unfold read_line, line_text; cbn [e_ip e_time e_reason e_verdict].
  change (lit ",") with [","%char].
  assert (Hf : forall y, find (ip ++ lit ", [" ++ y) [","%char] = Some (length ip))
    by (intros; by apply (find_char_app ip (" "%char :: "["%char :: y))).
  rewrite Hf. cbn [mbind option_bind]. rewrite drop_app_length, take_app_length.
  destruct (drop_parts (time_text t) (reason ++ lit ", " ++ v) Hl) as (H1 & H2 & H3).
  rewrite H1, H2, H3. cbn [negb]. unfold time_text. rewrite GmTime.read_time_printed by done.
  rewrite (rfind_app reason _ _ 0) by (by apply rfind_comma).
  rewrite Nat.add_0_r. cbn [mbind option_bind].
  by rewrite take_app_length, drop_app_add.
Qed.

Lemma lines_log_text es : Forall readable es -> split_on LF (log_text es) = map line_text es ++ [[]].
Proof.
  induction 1 as [|e es He _ IH]; [done|]. cbn [log_text map app].
  rewrite split_on_app by (by apply line_text_no_LF). by rewrite IH.
Qed.

Lemma read_log_text es : Forall readable es -> read_log (log_text es) = Some es.
Proof.
  intros H. unfold read_log. rewrite lines_log_text by done.
  rewrite last_snoc, bool_decide_true, removelast_last by done.
  induction H as [|e es He _ IH]; [done|]. cbn [map mapM]. by rewrite read_line_text, IH.
Qed.

(** ** What a report writes *)

(** Entries of reports of [ip] for [reason], at times of the clock. *)
Definition reported (env : Env) (ip reason : str) (e : entry) : Prop :=
  e_ip e = ip /\ e_reason e = reason /\ (exists n, e_time e = env_sec env n) /\
  e_verdict e ∈ [lit "flagged"; lit "banned"].

Definition wrote (env : Env) (ip reason : str) (w w' : World) : Prop :=
  exists es, entries w' = entries w ++ es /\ Forall (reported env ip reason) es.

#[global] Instance wrote_preorder env ip reason : PreOrder (wrote env ip reason).
Proof.
  split.
  - intros w. exists []. by rewrite app_nil_r.
  - intros w1 w2 w3 (es1 & E1 & H1) (es2 & E2 & H2). exists (es1 ++ es2).
    rewrite E2, E1, app_assoc. split; [done|]. by apply Forall_app.
Qed.

Lemma wrote_same env ip reason w w' : trace w' = trace w -> wrote env ip reason w w'.
Proof. intros E. exists []. unfold entries. by rewrite E, app_nil_r. Qed.

Lemma wrote_log_line env ip reason v w :
  v ∈ [lit "flagged"; lit "banned"] -> wrote env ip reason w (snd (log_line ip reason v env w)).
Proof.
  intros Hv. exists [MkEntry ip (env_sec env (tick w)) reason v]. split.
  - unfold entries, log_line. run_M. by rewrite omap_app.
  - constructor; [|constructor]. split_and!; cbn; eauto.
Qed.

Lemma wrote_past_grace env t ip reason w : wrote env ip reason w (snd (past_grace t ip reason env w)).
Proof.
  unfold past_grace, after_read. rewrite M_bind_eq. cbn [gets].
  destruct (0 <? _); [|reflexivity]. rewrite M_bind_eq. unfold swabber_db_get. rewrite db_get_eq.
  destruct (env_lock _ _); [|by apply wrote_same]. destruct (_ =? 0); [|by apply wrote_same].
  rewrite !M_bind_eq. unfold swabber_db_set. rewrite db_set_eq.
  etransitivity; [|apply (wrote_log_line env ip reason (lit "flagged")); by constructor].
  by apply wrote_same.
Qed.

Lemma wrote_frames env ip reason w0 w :
  trace w0 = trace w ->
  wrote env ip reason w (snd ((_ ← emit (ZmqSend SWABBER_BAN true); _ ← emit (ZmqSend ip false);
    _ ← log_line ip reason (lit "banned"); mret true) env w0)).
Proof.
  intros Htr. rewrite !M_bind_eq. cbn [emit modify]. rewrite !M_bind_eq. cbn [emit modify].
  etransitivity; [|apply (wrote_log_line env ip reason (lit "banned")); by constructor; constructor].
  exists []. unfold entries. cbn [trace with_trace]. by rewrite Htr, !omap_app, !app_nil_r.
Qed.

Lemma wrote_send_ban env ip reason w : wrote env ip reason w (snd (send_ban ip reason env w)).
Proof.
  unfold send_ban. rewrite M_bind_eq. cbn [TSMutexLockTry query].
  destruct (env_lock env (tick w)); cbn [negb]; [|by apply wrote_same].
  rewrite M_bind_eq. cbn [gets swabber with_tick].
  destruct (socket (swabber w)) as [s|]; [|by apply wrote_same].
  rewrite M_bind_eq. destruct (SocketOps.is_bound s); cbn [negb mret M_ret].
  - by apply wrote_frames.
  - rewrite M_bind_eq. cbn [query]. unfold set_socket.
    destruct (SocketOps.bind _ _ _) as [[] s']; rewrite !M_bind_eq; cbn [gets modify mret M_ret negb].
    + by apply wrote_frames.
    + by apply wrote_same.
Qed.

Lemma wrote_ban env ip reason w : wrote env ip reason w (snd (ban ip reason env w)).
Proof.
  unfold ban. rewrite M_bind_eq. cbn [gettimeofday query].
  set (w1 := with_tick _ w). transitivity w1; [by apply wrote_same|].
  rewrite M_bind_eq. pose proof (wrote_past_grace env (env_sec env (tick w)) ip reason w1) as H1.
  destruct (past_grace _ ip reason env w1) as [[[]|?|?] w2]; cbn [snd negb mret M_ret] in *; try exact H1.
  transitivity w2; [exact H1|]. rewrite M_bind_eq. pose proof (wrote_send_ban env ip reason w2) as H2.
  destruct (send_ban ip reason env w2) as [[[]|?|?] w3]; cbn [snd negb mret M_ret] in *; try exact H2.
  transitivity w3; [exact H2|]. rewrite M_bind_eq. unfold swabber_db_drop. rewrite db_drop_eq.
  by apply wrote_same.
Qed.

(** C23. The log stays readable: from a log whose entries can be read, a report
    of an address without a comma or a line feed, for a reason without a line
    feed and at a clock between 1970 and 9999, appends only entries of this
    address and reason, and the whole text of the log reads back to the entries
    written, whatever the locks and the socket do. *)
Theorem ban_log_roundtrip (env : Env) (w : World) (ip reason : str) :
  Forall readable (entries w) ->
  (","%char ∉ ip) -> (LF ∉ ip) -> (LF ∉ reason) -> (forall n, GmTime.in_range (env_sec env n)) ->
  let w' := snd (ban ip reason env w) in
  read_log (log_text (entries w')) = Some (entries w') /\
  exists es, entries w' = entries w ++ es /\ Forall (reported env ip reason) es.
Proof.
  intros Hw Hc Hi Hr Ht w'. destruct (wrote_ban env ip reason w) as (es & E & Hes).
  fold w' in E. split; [|eauto]. apply read_log_text. rewrite E. apply Forall_app. split; [done|].
  eapply Forall_impl; [exact Hes|]. intros e (E1 & E2 & [n E3] & Hv).
  unfold readable. by rewrite E1, E2, E3.
Qed.

Definition sample_ip : str := lit "10.1.2.3".
Definition noon_env : Env :=
  MkEnv (fun _ => 1577880000) (fun _ => 0) (fun _ => true) (fun _ => true)
        (fun _ => true) (fun _ => replicate 5 NUL) (fun _ => true).
Definition sample_reason : str := lit "rate, [wordpress], GET".

Lemma ban_log_roundtrip_witness :
  let w' := snd (ban sample_ip sample_reason noon_env (sample_world 0)) in
  read_log (log_text (entries w')) = Some (entries w').
Proof.
  apply (ban_log_roundtrip noon_env (sample_world 0) sample_ip sample_reason);
    [constructor|by apply (bool_decide_unpack _); vm_compute..|].
  intros n. unfold GmTime.in_range. cbn. lia.
Defined.

Example sample_line : log_text (entries (snd (ban sample_ip sample_reason noon_env (sample_world 0)))) =
  lit "10.1.2.3, [2020-01-01T12:00:00], rate, [wordpress], GET, banned" ++ [LF].
Proof. vm_compute. reflexivity. Qed.

End BanList.
