(* ===== verification/Bans.v ===== *)
(** * Bans: reports of one address in several requests at once

    [Swabber::ban] of src/swabber.cpp reads the state of an address, writes it,
    sends the ban and drops the state under separate locks.  Here the reports of
    one address interleave between these accesses, as they do when several of
    its requests are handled at once. *)

From S2P Require Import Prelude Util WhiteList IpDb Yaml World Swabber.

Local Open Scope Z_scope.

Module Bans.
Import SwabberOps.

(** The messages that ask the daemon to ban [ip]. *)
Definition is_ban (ip : str) (e : event) : bool :=
  match e with ZmqSend m false => bool_decide (m = ip) | _ => false end.

Definition bans_sent (ip : str) (w : World) : nat := length (base.filter (fun e => is_ban ip e = true) (trace w)).

Lemma bans_sent_app ip w w' evs : trace w' = trace w ++ evs ->
  bans_sent ip w' = (bans_sent ip w + length (base.filter (fun e => is_ban ip e = true) evs))%nat.
Proof. intros H. unfold bans_sent. by rewrite H, filter_app, length_app. Qed.

Section Address.
Context (ip : str) (grace : Z).

(** [reading]: reports that took the time and read the state; [sending]: reports
    past the grace period; [dropping]: reports that sent a ban.  [flags] are the
    times of the reports logged as "flagged", [bans] those of the reports that
    sent a ban. *)
Record state := MkState {
  world : World;
  reading : list (Z * Z);
  sending : list Z;
  dropping : nat;
  flags : list Z;
  bans : list Z
}.

Definition view (w : World) : Z := IpDb.view 0 (swabber_ip_db w) ip.

(** The steps of the reports, under any answers of the locks, the clock and the
    socket; [step_other] is whatever leaves the address alone. *)
Inductive step (s : state) : state -> Prop :=
  | step_read env t st w' :
      (x ← gettimeofday; st ← swabber_db_get ip; mret (fst x, st)) env (world s) = (Ret (t, Some st), w') ->
      step s (MkState w' (reading s ++ [(t, st)]) (sending s) (dropping s) (flags s) (bans s))
  | step_decide env before t st after reason b w' :
      reading s = before ++ (t, st) :: after ->
      after_read grace t ip reason st env (world s) = (Ret b, w') ->
      step s (MkState w' (before ++ after) (if b : bool then sending s ++ [t] else sending s) (dropping s)
                (if st =? 0 then flags s ++ [t] else flags s) (bans s))
  | step_send env before t after reason b w' :
      sending s = before ++ t :: after ->
      send_ban ip reason env (world s) = (Ret b, w') ->
      step s (if b : bool
              then MkState w' (reading s) (before ++ after) (S (dropping s)) (flags s) (bans s ++ [t])
              else MkState w' (reading s) (before ++ after) (dropping s) (flags s) (bans s))
  | step_drop env n b w' :
      dropping s = S n -> swabber_db_drop ip env (world s) = (Ret b, w') ->
      step s (MkState w' (reading s) (sending s) n (flags s) (bans s))
  | step_other w' :
      view w' = view (world s) -> bans_sent ip w' = bans_sent ip (world s) ->
      step s (MkState w' (reading s) (sending s) (dropping s) (flags s) (bans s)).

(** From an address nothing is known of. *)
Inductive reachable : state -> Prop :=
  | reach_start w : view w = 0 -> bans_sent ip w = 0%nat -> reachable (MkState w [] [] 0 [] [])
  | reach_step s s' : reachable s -> step s s' -> reachable s'.

(** [ban] takes these steps one after the other. *)
Lemma ban_split reason env w : grace_period (swabber w) = grace -> 0 < grace ->
  ban ip reason env w =
  ('(t, st) ← (x ← gettimeofday; st ← swabber_db_get ip; mret (fst x, st));
   go ← match st with None => mret false | Some st => after_read grace t ip reason st end;
   if negb go then mret tt
   else sent ← send_ban ip reason;
        if negb sent then mret tt else _ ← swabber_db_drop ip; mret tt) env w.
Proof.
  intros Hg Hp. unfold ban, past_grace. apply Z.ltb_lt in Hp. run_M. rewrite Hg, Hp. run_M.
  unfold swabber_db_get. run_M. rewrite ?Hg. by destruct (env_lock env (S (tick w))).
Qed.

(** ** Invariant *)

(** A recorded time is the time of a flag. *)
Definition recorded (fl : list Z) (st : Z) : Prop := st = 0 \/ st ∈ fl.
Definition due (fl : list Z) (t : Z) : Prop := exists f, f ∈ fl /\ f + grace <= t.

Definition flagged_first (s : state) : Prop :=
  recorded (flags s) (view (world s)) /\
  Forall (fun r => recorded (flags s) (snd r)) (reading s) /\
  Forall (due (flags s)) (sending s) /\ Forall (due (flags s)) (bans s) /\
  bans_sent ip (world s) = length (bans s).

Lemma recorded_app fl t st : recorded fl st -> recorded (fl ++ [t]) st.
Proof. intros [?|?]; [by left|right; apply elem_of_app; by left]. Qed.

Lemma due_app fl t t' : due fl t' -> due (fl ++ [t]) t'.
Proof. intros (f & ? & ?). exists f. split; [apply elem_of_app; by left|done]. Qed.

(** What the decision does: a first report is recorded and never past the grace
    period. *)
Lemma after_read_effect t reason st env w b w' : 0 < grace ->
  after_read grace t ip reason st env w = (Ret b, w') ->
  bans_sent ip w' = bans_sent ip w /\
  if st =? 0 then b = false /\ (view w' = t \/ view w' = view w)
  else view w' = view w /\ (b = true -> st + grace <= t).
Proof.
  intros Hg. unfold after_read, view. destruct (st =? 0).
  - rewrite !M_bind_eq. unfold swabber_db_set. rewrite db_set_eq. unfold log_line. run_M.
    rewrite Z.sub_diag. apply Z.ltb_lt in Hg as Hg'. rewrite Hg'. intros [= <- <-]. split.
    + erewrite (bans_sent_app ip w); [|reflexivity].
      rewrite filter_cons, decide_False by done. cbn. lia.
    + split; [done|]. cbn. destruct (env_lock env (tick w)); [left|by right].
      by rewrite IpDb.view_insert, decide_True.
  - run_M. intros [= <- <-]. split; [done|]. split; [done|]. intros Hb. boolify. lia.
Qed.

(** The two frames and the log line. *)
Lemma frames_effect reason env w0 w r w1 :
  swabber_ip_db w0 = swabber_ip_db w -> trace w0 = trace w ->
  (_ ← emit (ZmqSend SWABBER_BAN true); _ ← emit (ZmqSend ip false);
   _ ← log_line ip reason (lit "banned"); mret true) env w0 = (Ret r, w1) ->
  view w1 = view w /\ bans_sent ip w1 = (bans_sent ip w + if r then 1 else 0)%nat.
Proof.
  intros Hdb Htr. unfold log_line, view. run_M. intros [= <- <-]. split; [cbn; by rewrite Hdb|].
  etransitivity; [apply (bans_sent_app ip w _ [ZmqSend SWABBER_BAN true; ZmqSend ip false;
    BanLog ip (env_sec env (tick w0)) reason (lit "banned")]); cbn; by rewrite Htr, <- !app_assoc|].
  rewrite !filter_cons, (decide_False (P := is_ban ip (ZmqSend SWABBER_BAN true) = true)) by done.
  rewrite (decide_False (P := is_ban ip (BanLog _ _ _ _) = true)) by done.
  rewrite decide_True; [done|]. cbn. by apply bool_decide_eq_true.
Qed.

Lemma send_ban_effect reason env w b w' :
  send_ban ip reason env w = (Ret b, w') ->
  view w' = view w /\ bans_sent ip w' = (bans_sent ip w + if b then 1 else 0)%nat.
Proof.
  unfold send_ban. rewrite M_bind_eq. cbn [TSMutexLockTry query].
  destruct (env_lock env (tick w)); cbn [negb]; [|intros [= <- <-]; by rewrite Nat.add_0_r].
  rewrite M_bind_eq. cbn [gets swabber with_tick].
  destruct (socket (swabber w)) as [s|]; [|intros [= <- <-]; by rewrite Nat.add_0_r].
  rewrite M_bind_eq. destruct (SocketOps.is_bound s); cbn [negb mret M_ret].
  - by apply frames_effect.
  - rewrite M_bind_eq. cbn [query]. unfold set_socket.
    destruct (SocketOps.bind _ _ _) as [[] s']; rewrite !M_bind_eq; cbn [gets modify mret M_ret negb].
    + by apply frames_effect.
    + intros [= <- <-]. by rewrite Nat.add_0_r.
Qed.

Lemma drop_effect env w b w' : swabber_db_drop ip env w = (Ret b, w') ->
  (view w' = 0 \/ view w' = view w) /\ bans_sent ip w' = bans_sent ip w.
Proof.
  unfold swabber_db_drop, view. rewrite db_drop_eq. intros [= <- <-]. split; [|done]. cbn.
  destruct (env_lock env (tick w)); [left|by right]. by rewrite IpDb.view_delete, decide_True.
Qed.

Lemma read_effect env w t st w' :
  (x ← gettimeofday; st ← swabber_db_get ip; mret (fst x, st)) env w = (Ret (t, Some st), w') ->
  st = view w /\ view w' = view w /\ bans_sent ip w' = bans_sent ip w.
Proof.
  unfold swabber_db_get. rewrite M_bind_eq. cbn [gettimeofday query]. rewrite M_bind_eq, db_get_eq.
  cbn [mret M_ret fst tick with_tick]. destruct (env_lock env (S (tick w))); [|done].
  by intros [= _ <- <-].
Qed.

Lemma step_flagged_first s s' : 0 < grace -> flagged_first s -> step s s' -> flagged_first s'.
Proof.
  intros Hg (Hv & Hr & Hs & Hb & Hn) Hstep. unfold flagged_first.
  destruct Hstep as [env t st w' E|env before t st after reason b w' Er E
    |env before t after reason b w' Es E|env n b w' Ed E|w' Ev Eb];
    cbn [world reading sending flags bans].
  - apply read_effect in E as (-> & -> & ->). split_and!; try done.
    apply Forall_app. split; [done|]. constructor; [exact Hv|constructor].
  - rewrite Er in Hr. apply Forall_app in Hr as [Hr1 Hr2]. apply Forall_cons_1 in Hr2 as [Hst Hr2].
    apply after_read_effect in E as [Eb Ev]; [|done]. rewrite Eb. destruct (st =? 0) eqn:E0.
    + destruct Ev as [-> Ev]. split_and!; [|apply Forall_app; split..| | |done].
      * destruct Ev as [->| ->]; [|by apply recorded_app]. right. apply elem_of_app. right. by constructor.
      * eapply Forall_impl; [exact Hr1|]. intros. by apply recorded_app.
      * eapply Forall_impl; [exact Hr2|]. intros. by apply recorded_app.
      * eapply Forall_impl; [exact Hs|]. intros. by apply due_app.
      * eapply Forall_impl; [exact Hb|]. intros. by apply due_app.
    + destruct Ev as [-> Ev]. split_and!; [done|by apply Forall_app| |done|done].
      destruct b; [|done]. apply Forall_app. split; [done|]. constructor; [|constructor].
      destruct Hst as [Hst|Hst]; [boolify; done|]. exists st. split; [done|]. by apply Ev.
  - rewrite Es in Hs. apply Forall_app in Hs as [Hs1 Hs2]. apply Forall_cons_1 in Hs2 as [Ht Hs2].
    apply send_ban_effect in E as [Ev Eb].
    destruct b; cbn [world reading sending flags bans]; rewrite Ev, Eb;
      (split_and!; [done|done|by apply Forall_app| |]).
    + apply Forall_app. split; [done|]. constructor; [exact Ht|constructor].
    + rewrite length_app, Hn. done.
    + done.
    + by rewrite Nat.add_0_r.
  - apply drop_effect in E as [[->| ->] ->]; split_and!; try done. by left.
  - by rewrite Ev, Eb.
Qed.

(** C11. However the reports of an address interleave, and whatever the locks,
    the clock and the socket do, every ban message for it comes from a report at
    least a grace period after a report that was logged as flagging it. *)
Theorem ban_after_flag (s : state) : 0 < grace -> reachable s ->
  bans_sent ip (world s) = length (bans s) /\
  Forall (fun t => exists f, f ∈ flags s /\ f + grace <= t) (bans s).
Proof.
  intros Hg Hr.
  assert (H : flagged_first s); [|by destruct H as (_ & _ & _ & ? & ?)].
  induction Hr as [w Hv Hn|s s' _ IH Hs]; [|by eapply step_flagged_first].
  unfold flagged_first. cbn. rewrite Hv, Hn. split_and!; try constructor. done.
Qed.

End Address.

(** ** A sample: two reports of one address, four hundred seconds apart *)

Definition bot : str := lit "10.1.2.3".
Definition after {A} (m : M A) (w : World) : World := snd (m sample_env w).

Definition read1 : World := after (x ← gettimeofday; st ← swabber_db_get bot; mret (fst x, st)) (sample_world 300).
Definition flagged1 : World := after (after_read 300 1000 bot (lit "r") 0) read1.
Definition read2 : World := after (x ← gettimeofday; st ← swabber_db_get bot; mret (fst x, st)) flagged1.
Definition passed2 : World := after (after_read 300 1400 bot (lit "r") 1000) read2.
Definition banned2 : World := after (send_ban bot (lit "r")) passed2.

Lemma ban_after_flag_witness : exists f, f ∈ [1000] /\ f + 300 <= 1400.
Proof.
  destruct (ban_after_flag bot 300 (MkState banned2 [] [] 1 [1000] [1400])) as [_ H]; [lia| |].
  - apply (reach_step bot 300 (MkState passed2 [] [1400] 0 [1000] []));
      [|by apply (step_send bot 300 (MkState passed2 [] [1400] 0 [1000] []) sample_env [] 1400 []
            (lit "r") true); [|vm_compute]].
    apply (reach_step bot 300 (MkState read2 [(1400, 1000)] [] 0 [1000] []));
      [|by apply (step_decide bot 300 (MkState read2 [(1400, 1000)] [] 0 [1000] []) sample_env [] 1400
            1000 [] (lit "r") true); [|vm_compute]].
    apply (reach_step bot 300 (MkState flagged1 [] [] 0 [1000] []));
      [|by apply (step_read bot 300 (MkState flagged1 [] [] 0 [1000] []) sample_env 1400 1000); vm_compute].
    apply (reach_step bot 300 (MkState read1 [(1000, 0)] [] 0 [] []));
      [|by apply (step_decide bot 300 (MkState read1 [(1000, 0)] [] 0 [] []) sample_env [] 1000 0 []
            (lit "r") false); [|vm_compute]].
    apply (reach_step bot 300 (MkState (sample_world 300) [] [] 0 [] []));
      [|by apply (step_read bot 300 (MkState (sample_world 300) [] [] 0 [] []) sample_env 1000 0); vm_compute].
    by apply reach_start.
  - apply Forall_cons_1 in H as [H _]. exact H.
Defined.

End Bans.
