(* ===== verification/BotSniffer.v ===== *)
(** * BotSniffer: publishing encrypted request records (src/bot_sniffer.cpp)

    When a transaction closes, the bot sniffer publishes what was asked and
    answered: eight base64 fields joined by commas, encrypted with AES-256-GCM
    ([send_zmq_encrypted_message] and [gcm_encrypt] of src/util.cpp) and sent as
    the second frame of a message.  OpenSSL's cipher is the interface [OpenSSL];
    whether its calls succeed is decided by the environment. *)

From S2P Require Import Prelude Base64 CookieHash Util GmTime WhiteList IpDb Yaml World Swabber.

Local Open Scope Z_scope.

(** AES-256-GCM: sealing gives a ciphertext as long as the message and a tag,
    and opening a sealed message gives it back. *)
Class OpenSSL := {
  gcm_seal : str -> str -> str -> str * str;              (* key, iv, message *)
  gcm_open : str -> str -> str -> str -> option str;      (* key, iv, ciphertext, tag *)
  length_gcm_cipher k iv m : length (fst (gcm_seal k iv m)) = length m;
  length_gcm_tag k iv m : length (snd (gcm_seal k iv m)) = 16%nat;
  gcm_open_seal k iv m : gcm_open k iv (fst (gcm_seal k iv m)) (snd (gcm_seal k iv m)) = Some m
}.

Module BotSniffer.

(** ** Encryption (src/util.cpp) *)

Definition c_cipher_block_size : nat := 16.
Definition c_gcm_tag_size : nat := 16.
Definition c_gcm_iv_size : nat := 12.
Definition c_max_enc_length : Z := 2 ^ 31 - 1.

(** [memcpy(buf + at, data, n)]. *)
Definition poke (buf : str) (at_ : nat) (data : str) : outcome str :=
  if (at_ + length data <=? length buf)%nat
  then Ret (take at_ buf ++ data ++ drop (at_ + length data) buf)
  else Fault BufferOverflow.

Section Encrypt.
Context {ssl : OpenSSL}.

(** [if (!call) throw EncryptionException();] *)
Definition check_api : M unit :=
  ok ← query env_api;
  if (ok : bool) then mret tt else lift (Throw EncryptionException).

(** The ciphertext, written from [ciphertext] on, and the tag.  The length is
    passed on as an [int]; [EVP_EncryptFinal_ex] adds nothing in this mode. *)
Definition gcm_encrypt (plaintext key iv : str) : M (str * str) :=
  _ ← check_api;                                            (* EVP_CIPHER_CTX_new *)
  _ ← check_api;                                            (* EVP_EncryptInit_ex *)
  let inl := s32 (Z.of_nat (length plaintext)) in
  _ ← (if inl <? 0 then lift (Throw EncryptionException) else check_api);  (* EVP_EncryptUpdate *)
  _ ← check_api;                                            (* EVP_EncryptFinal_ex *)
  _ ← check_api;                                            (* EVP_CIPHER_CTX_ctrl *)
  mret (gcm_seal key iv (take (Z.to_nat inl) plaintext)).

(** |IV|ciphertext|TAG|, in a buffer with room for a cipher block more. *)
Definition send_zmq_encrypted_message (mess key : str) (more : bool) : M unit :=
  let enc_length := (length mess + c_cipher_block_size - 1)%nat in
  let enc_out := replicate (c_gcm_iv_size + enc_length + c_gcm_tag_size) NUL in
  random ← query env_random;
  _ ← check_api;                                            (* RAND_bytes *)
  enc_out1 ← lift (poke enc_out 0 (take c_gcm_iv_size (random ++ replicate c_gcm_iv_size NUL)));
  '(ciphertext, gcm_tag) ← gcm_encrypt mess key (take c_gcm_iv_size enc_out1);
  enc_out2 ← lift (poke enc_out1 c_gcm_iv_size ciphertext);
  let enc_length := length ciphertext in
  if (enc_length <? length mess)%nat || (c_max_enc_length <? Z.of_nat enc_length)
  then lift (Throw EncryptionException)
  else
    enc_out3 ← lift (poke enc_out2 (c_gcm_iv_size + enc_length) gcm_tag);
    emit (SnifferSend (take (c_gcm_iv_size + enc_length + c_gcm_tag_size) enc_out3) more).

(** ** The filter *)

Definition LOG : str := lit "botbanger_log".

Definition send_zmq_mess (mess : str) (more : bool) : M unit := emit (SnifferSend mess more).

(** [VALID_OR_EMPTY(validity, part)]. *)
Definition VALID_OR_EMPTY (parts : TransactionParts) (validity part : Z) : outcome str :=
  if negb (Z.land validity part =? 0) then s ← part_at parts part; Base64.Encode s else Ret [].

(** [*(uint64_t* )s.data()]: eight bytes, the terminating NUL included. *)
Definition read_uint64 (s : str) : outcome Z :=
  if (length s <? 7)%nat then Fault OutOfBounds else Ret (le_combine (take 8 (s ++ [NUL]))).

Definition plaintext_log (parts : TransactionParts) (validity_stat time_buffer : str) : outcome str :=
  hit_mis_str ← Base64.Encode (if bool_decide (is_Some (parts !! Part.MISS)) then lit "HIT"
                               else lit "MISS");
  validity ← read_uint64 validity_stat;
  ip ← VALID_OR_EMPTY parts validity Part.IP;
  tm ← Base64.Encode time_buffer;
  url ← VALID_OR_EMPTY parts validity Part.URL_WITH_HOST;
  protocol ← VALID_OR_EMPTY parts validity Part.PROTOCOL;
  status ← VALID_OR_EMPTY parts validity Part.STATUS;
  content_length ← VALID_OR_EMPTY parts validity Part.CONTENT_LENGTH;
  ua ← VALID_OR_EMPTY parts validity Part.UA;
  Ret (ip ++ lit "," ++ tm ++ lit "," ++ url ++ lit "," ++ protocol ++ lit "," ++ status
       ++ lit "," ++ content_length ++ lit "," ++ ua ++ lit "," ++ hit_mis_str).

Definition set_socket (s : option Socket) : M unit :=
  b ← gets bot_sniffer;
  modify (with_bot_sniffer (MkBotSniffer s (botbanger_port b) (botbanger_server b)
                              (encryption_key b) (bs_local_endpoint b))).

(** A socket that is not bound is bound again; false when that fails. *)
Definition ensure_bound (b : BotSniffer) (s : Socket) : M bool :=
  if SocketOps.is_bound s then mret true
  else
    ok ← query env_bind;
    let '(r, s') := SocketOps.bind ok (bs_local_endpoint b) s in
    _ ← set_socket (Some s');
    mret r.

(** The time is taken before the mutex is tried. *)
Definition on_http_close (parts : TransactionParts) : M unit :=
  rawtime ← time_now;
  let time_buffer := GmTime.strftime (GmTime.gmtime rawtime) in
  validity_stat ← lift (part_at parts Part.VALIDITY_STAT);
  locked ← TSMutexLockTry;
  if negb locked then mret tt
  else
    b ← gets bot_sniffer;
    match bs_socket b with
    | None => mret tt
    | Some s =>
        bound ← ensure_bound b s;
        if negb bound then mret tt
        else
          _ ← send_zmq_mess LOG true;
          log ← lift (plaintext_log parts validity_stat time_buffer);
          send_zmq_encrypted_message log (encryption_key b) false
    end.

Definition release_socket : M (option Socket) :=
  b ← gets bot_sniffer;
  _ ← set_socket None;
  mret (bs_socket b).

Definition requested_info : Z :=
  Z.lor (Z.lor (Z.lor Part.IP Part.UA) Part.URL_WITH_HOST) Part.PROTOCOL.
Definition response_info : Z := Z.lor Part.STATUS Part.CONTENT_LENGTH.

(** ** Configuration *)

Section LoadConfig.
Context {crypto : Crypto} `{Yaml}.

Definition set_members (port : Z) (key endpoint : str) : M unit :=
  b ← gets bot_sniffer;
  modify (with_bot_sniffer (MkBotSniffer (bs_socket b) port (botbanger_server b) key endpoint)).

(** A new socket unless the one at hand has the endpoint already. *)
Definition rebind : M unit :=
  b ← gets bot_sniffer;
  let keep := match bs_socket b with
              | Some s => bool_decide (local_endpoint_ s = bs_local_endpoint b)
              | None => false
              end in
  if keep then mret tt
  else
    ok ← query env_bind;
    set_socket (Some (snd (SocketOps.bind ok (bs_local_endpoint b) new_socket))).

Definition load_config (cfg : node) : M unit :=
  b ← gets bot_sniffer;
  port ← lift (y_field as_uint cfg (lit "botbanger_port"));
  _ ← set_members port (encryption_key b) (bs_local_endpoint b);
  passphrase ← lift (y_field as_string cfg (lit "key"));
  _ ← set_members port (SHA256 passphrase)
        (lit "tcp://" ++ botbanger_server b ++ lit ":" ++ to_string port);
  rebind.

(** The constructor: a socket handed over by an earlier bot sniffer is kept. *)
Definition construct (socket : option Socket) (cfg : node) : M unit :=
  _ ← modify (with_bot_sniffer (MkBotSniffer socket 0 (lit "*") [] []));
  load_config cfg.

End LoadConfig.

(** ** The receiver *)

(** The frame taken apart and decrypted. *)
Definition receive (key frame : str) : option str :=
  let body := drop c_gcm_iv_size frame in
  let n := (length body - c_gcm_tag_size)%nat in
  gcm_open key (take c_gcm_iv_size frame) (take n body) (drop n body).

Definition decode_field (f : str) : option str :=
  match Base64.Decode f with Ret s => Some s | _ => None end.

Definition read_record (log : str) : option (list str) := mapM decode_field (split_on ","%char log).

(** What a record says of a part. *)
Definition reported (parts : TransactionParts) (validity part : Z) : str :=
  if negb (Z.land validity part =? 0) then default [] (parts !! part) else [].

Definition reported_parts : list Z :=
  [Part.IP; Part.URL_WITH_HOST; Part.PROTOCOL; Part.STATUS; Part.CONTENT_LENGTH; Part.UA].

(** Every part that is flagged is there. *)
Definition flagged_present (parts : TransactionParts) (validity : Z) : Prop :=
  Forall (fun k => Z.land validity k <> 0 -> is_Some (parts !! k)) reported_parts.

#[global] Instance flagged_present_dec parts validity : Decision (flagged_present parts validity).
Proof. unfold flagged_present. apply _. Defined.

(** ** The frame *)

Lemma poke_append pre rest data n : n = length pre -> (length data <= length rest)%nat ->
  poke (pre ++ rest) n data = Ret ((pre ++ data) ++ drop (length data) rest).
Proof.
  intros -> Hl. unfold poke. rewrite (proj2 (Nat.leb_le _ _)) by (rewrite length_app; lia).
  by rewrite take_app_length, drop_app_add, <- app_assoc.
Qed.

(** The three writes of a frame fit into the buffer, whatever was encrypted. *)
Lemma frame_layout (mess iv ct tag : str) :
  length iv = c_gcm_iv_size -> (length ct <= length mess)%nat -> length tag = c_gcm_tag_size ->
  let enc_out := replicate (c_gcm_iv_size + (length mess + c_cipher_block_size - 1) + c_gcm_tag_size) NUL in
  exists o1 o2 o3, poke enc_out 0 iv = Ret o1 /\ take c_gcm_iv_size o1 = iv /\
    poke o1 c_gcm_iv_size ct = Ret o2 /\ poke o2 (c_gcm_iv_size + length ct) tag = Ret o3 /\
    take (c_gcm_iv_size + length ct + c_gcm_tag_size) o3 = iv ++ ct ++ tag.
Proof.
  intros Hi Hc Ht enc_out. rewrite <- Hi, <- Ht.
  assert (Hl : (length iv + length ct + length tag <= length enc_out)%nat).
  { unfold enc_out. rewrite length_replicate. unfold c_cipher_block_size. lia. }
  pose proof (poke_append [] enc_out iv 0 eq_refl ltac:(lia)) as H1. cbn [app] in H1.
  pose proof (poke_append iv (drop (length iv) enc_out) ct _ eq_refl
    ltac:(rewrite length_drop; lia)) as H2.
  pose proof (poke_append (iv ++ ct) (drop (length ct) (drop (length iv) enc_out)) tag
    (length iv + length ct) ltac:(by rewrite length_app) ltac:(rewrite !length_drop; lia)) as H3.
  do 3 eexists. split; [exact H1|]. split; [apply take_app_length|].
  split; [exact H2|]. split; [exact H3|].
  rewrite take_app_length' by (rewrite !length_app; lia). by rewrite <- app_assoc.
Qed.

Lemma check_api_run env w :
  check_api env w = (if env_api env (tick w) then Ret tt else Throw EncryptionException,
                     with_tick (S (tick w)) w).
Proof. unfold check_api. rewrite M_bind_eq. cbn [query]. by destruct (env_api env (tick w)). Qed.

(** Encryption only consumes answers of the environment, and fails with one
    exception. *)
Lemma gcm_encrypt_cases m key iv env w :
  exists n, snd (gcm_encrypt m key iv env w) = with_tick n w /\
    (fst (gcm_encrypt m key iv env w) = Throw EncryptionException \/
     0 <= s32 (Z.of_nat (length m)) /\
     fst (gcm_encrypt m key iv env w) =
       Ret (gcm_seal key iv (take (Z.to_nat (s32 (Z.of_nat (length m)))) m))).
Proof.
  unfold gcm_encrypt. rewrite M_bind_eq, check_api_run.
  destruct (env_api env (tick w)); [|by eauto].
  rewrite M_bind_eq, check_api_run. cbn [tick with_tick].
  destruct (env_api env _); [|by eauto]. rewrite M_bind_eq.
  destruct (s32 _ <? 0) eqn:E; [by eauto|]. rewrite check_api_run. cbn [tick with_tick].
  destruct (env_api env _); [|by eauto].
  rewrite M_bind_eq, check_api_run. cbn [tick with_tick]. destruct (env_api env _); [|by eauto].
  rewrite M_bind_eq, check_api_run. cbn [tick with_tick]. destruct (env_api env _); [|by eauto].
  eexists. split; [reflexivity|]. right. split; [lia|reflexivity].
Qed.

Lemma gcm_encrypt_ok m key iv env w :
  (forall n, env_api env n = true) -> Z.of_nat (length m) <= c_max_enc_length ->
  fst (gcm_encrypt m key iv env w) = Ret (gcm_seal key iv m).
Proof.
  intros Hok Hl. unfold c_max_enc_length in Hl.
  assert (Hs : s32 (Z.of_nat (length m)) = Z.of_nat (length m)).
  { unfold s32. rewrite Z.mod_small by lia. lia. }
  unfold gcm_encrypt. rewrite M_bind_eq, check_api_run, Hok.
  rewrite M_bind_eq, check_api_run, Hok, M_bind_eq, Hs.
  rewrite (proj2 (Z.ltb_ge _ _)), check_api_run, Hok by lia.
  rewrite M_bind_eq, check_api_run, Hok, M_bind_eq, check_api_run, Hok.
  by rewrite Nat2Z.id, take_ge.
Qed.

(** A sealed message on the wire. *)
Definition sealed (key iv mess : str) : str :=
  iv ++ fst (gcm_seal key iv mess) ++ snd (gcm_seal key iv mess).

Definition sent (frame : str) (more : bool) (n : nat) (w : World) : World :=
  with_trace (trace w ++ [SnifferSend frame more]) (with_tick n w).

(** Sending ends in one of two ways: the whole message goes out, sealed, or an
    exception is thrown and nothing goes out.  No write leaves the buffer. *)
Lemma send_cases mess key more env w : exists n,
  send_zmq_encrypted_message mess key more env w = (Throw EncryptionException, with_tick n w) \/
  exists iv, length iv = c_gcm_iv_size /\
    send_zmq_encrypted_message mess key more env w = (Ret tt, sent (sealed key iv mess) more n w).
Proof.
  unfold send_zmq_encrypted_message. rewrite M_bind_eq. cbn [query].
  rewrite M_bind_eq, check_api_run. cbn [tick with_tick].
  destruct (env_api env _); [|by eauto].
  set (iv := take c_gcm_iv_size _).
  assert (Hi : length iv = c_gcm_iv_size)
    by (unfold iv; rewrite length_take, length_app, length_replicate; lia).
  set (w2 := with_tick _ _).
  destruct (gcm_encrypt_cases mess key iv env w2) as (n & Hw & Hc).
  pose (m := take (Z.to_nat (s32 (Z.of_nat (length mess)))) mess).
  destruct (frame_layout mess iv (fst (gcm_seal key iv m)) (snd (gcm_seal key iv m)))
    as (o1 & o2 & o3 & H1 & Hiv & H2 & H3 & Hf);
    [done|rewrite length_gcm_cipher; unfold m; rewrite length_take; lia|apply length_gcm_tag|].
  rewrite M_bind_eq, H1. cbn [lift]. rewrite M_bind_eq, Hiv.
  destruct (gcm_encrypt mess key iv env w2) as [r w3]. cbn [fst snd] in *. subst w3.
  exists n. destruct Hc as [->|[Hpos ->]]; [by left|]. fold m.
  destruct (gcm_seal key iv m) as [ct tag] eqn:Es. cbn [fst snd] in *.
  rewrite M_bind_eq, H2. cbn [lift]. destruct (_ || _) eqn:Eb; [by left|]. right. exists iv.
  split; [done|]. rewrite M_bind_eq, H3. cbn [lift emit modify]. unfold sent, sealed.
  assert (Hm : m = mess).
  { apply orb_false_iff in Eb as [Eb _]. apply Nat.ltb_ge in Eb.
    pose proof (length_gcm_cipher key iv m) as Hl. rewrite Es in Hl. cbn [fst] in Hl.
    unfold m in *. rewrite length_take in Hl. apply take_ge. lia. }
  rewrite <- Hm, Es. cbn [fst snd]. by rewrite Hf.
Qed.

Lemma send_ok mess key more env w :
  (forall n, env_api env n = true) -> Z.of_nat (length mess) <= c_max_enc_length ->
  exists n iv, length iv = c_gcm_iv_size /\
    send_zmq_encrypted_message mess key more env w = (Ret tt, sent (sealed key iv mess) more n w).
Proof.
  intros Hok Hl. destruct (send_cases mess key more env w) as (n & [H|(iv & Hi & H)]); [|by eauto].
  exfalso. revert H. unfold send_zmq_encrypted_message. rewrite M_bind_eq. cbn [query].
  rewrite M_bind_eq, check_api_run, Hok. set (iv := take c_gcm_iv_size _). set (w2 := with_tick _ _).
  assert (Hi : length iv = c_gcm_iv_size)
    by (unfold iv; rewrite length_take, length_app, length_replicate; lia).
  destruct (frame_layout mess iv (fst (gcm_seal key iv mess)) (snd (gcm_seal key iv mess)))
    as (o1 & o2 & o3 & H1 & Hiv & H2 & H3 & Hf);
    [done|by rewrite length_gcm_cipher|apply length_gcm_tag|].
  rewrite M_bind_eq, H1. cbn [lift]. rewrite M_bind_eq, Hiv.
  pose proof (gcm_encrypt_ok mess key iv env w2 Hok Hl) as He.
  destruct (gcm_encrypt mess key iv env w2) as [r w3]. cbn [fst] in He. subst r.
  pose proof (length_gcm_cipher key iv mess) as Hlen.
  destruct (gcm_seal key iv mess) as [ct tag]. cbn [fst snd] in *.
  rewrite M_bind_eq, H2. cbn [lift]. rewrite Hlen, (proj2 (Nat.ltb_ge _ _)) by lia.
  rewrite (proj2 (Z.ltb_ge _ _)) by lia. cbn [orb]. by rewrite M_bind_eq, <- Hlen, H3.
Qed.

(** The receiver opens what was sealed. *)
Lemma receive_sealed key iv mess :
  length iv = c_gcm_iv_size -> receive key (sealed key iv mess) = Some mess.
Proof.
  intros Hi. unfold receive, sealed.
  rewrite take_app_length', drop_app_length', length_app, length_gcm_tag by done.
  replace (length (fst (gcm_seal key iv mess)) + 16 - c_gcm_tag_size)%nat
    with (length (fst (gcm_seal key iv mess))) by (unfold c_gcm_tag_size; lia).
  rewrite take_app_length, drop_app_length. apply gcm_open_seal.
Qed.

(** ** The record *)

(** Below the limit of base64. *)
Definition short (s : str) : Prop := Z.of_nat (length s) <= (Base64.SIZE_MAX / 4) * 3.

Lemma VALID_OR_EMPTY_run parts validity k :
  (Z.land validity k <> 0 -> is_Some (parts !! k)) -> short (reported parts validity k) ->
  VALID_OR_EMPTY parts validity k = Ret (Base64.b64_ref (reported parts validity k)).
Proof.
  unfold VALID_OR_EMPTY, reported. intros Hp Hs. destruct (Z.land validity k =? 0) eqn:E; [done|].
  apply Z.eqb_neq in E. destruct (Hp E) as [s Hk]. cbn [negb] in *. unfold part_at.
  rewrite Hk in *. by apply Base64.encode_ref.
Qed.

Lemma VALID_OR_EMPTY_throws parts validity k :
  Z.land validity k <> 0 -> parts !! k = None ->
  VALID_OR_EMPTY parts validity k = Throw out_of_range.
Proof.
  intros Hk%Z.eqb_neq Hn. unfold VALID_OR_EMPTY, part_at. by rewrite Hk, Hn.
Qed.

(** The last field. *)
Definition hit_or_miss (parts : TransactionParts) : str :=
  if bool_decide (is_Some (parts !! Part.MISS)) then lit "HIT" else lit "MISS".

(** The eight fields of a record. *)
Definition record_fields (parts : TransactionParts) (validity : Z) (time_buffer : str) : list str :=
  [reported parts validity Part.IP; time_buffer; reported parts validity Part.URL_WITH_HOST;
   reported parts validity Part.PROTOCOL; reported parts validity Part.STATUS;
   reported parts validity Part.CONTENT_LENGTH; reported parts validity Part.UA; hit_or_miss parts].

Fixpoint join (l : list str) : str :=
  match l with
  | [] => []
  | [f] => f
  | f :: t => f ++ lit "," ++ join t
  end.

(** Eight fields of up to a megabyte make less than two gigabytes. *)
Lemma join_length l : (length l <= 8)%nat -> Forall (fun f => Z.of_nat (length f) <= 2 ^ 20) l ->
  Z.of_nat (length (join (map Base64.b64_ref l))) <= c_max_enc_length.
Proof.
  intros Hn Hf. enough (H : Z.of_nat (length (join (map Base64.b64_ref l)))
    <= Z.of_nat (length l) * (2 ^ 21 + 1)) by (unfold c_max_enc_length; lia). clear Hn.
  induction Hf as [|f t Hf Ht IH]; [done|].
  assert (Hb : Z.of_nat (length (Base64.b64_ref f)) <= 2 ^ 21).
  { rewrite Base64.length_b64_ref. unfold Base64.b64_length.
    pose proof (Nat.Div0.mul_div_le (length f + 2) 3). lia. }
  destruct t as [|g t]; [cbn [map join length]; lia|].
  change (join (map Base64.b64_ref (f :: g :: t)))
    with (Base64.b64_ref f ++ ","%char :: join (map Base64.b64_ref (g :: t))).
  rewrite length_app. cbn [length] in *. lia.
Qed.

Lemma plaintext_log_run parts vs v time_buffer :
  read_uint64 vs = Ret v -> flagged_present parts v ->
  Forall short (record_fields parts v time_buffer) ->
  plaintext_log parts vs time_buffer =
  Ret (join (map Base64.b64_ref (record_fields parts v time_buffer))).
Proof.
  unfold flagged_present, reported_parts, record_fields. intros Hv Hp Hs.
  rewrite !Forall_cons in Hp. rewrite !Forall_cons in Hs.
  destruct Hp as (P1 & P2 & P3 & P4 & P5 & P6 & _).
  destruct Hs as (S1 & S2 & S3 & S4 & S5 & S6 & S7 & S8 & _).
  unfold plaintext_log. fold (hit_or_miss parts). rewrite (Base64.encode_ref _ S8), Hv.
  cbn [mbind outcome_bind]. rewrite !VALID_OR_EMPTY_run by done.
  rewrite (Base64.encode_ref _ S2). reflexivity.
Qed.

Lemma b64_ref_no_comma l : ","%char ∉ Base64.b64_ref l.
Proof.
  pose proof (Base64.b64_ref_chars l) as H. rewrite forallb_forall in H.
  intros Hin%list_elem_of_In%H. vm_compute in Hin. discriminate.
Qed.

Lemma decode_field_ref l : decode_field (Base64.b64_ref l) = Some l.
Proof. unfold decode_field. by rewrite Base64.decode_encode. Qed.

Lemma read_record_join l : l <> [] -> read_record (join (map Base64.b64_ref l)) = Some l.
Proof.
  unfold read_record. induction l as [|f [|g t] IH]; intros Hne; [done|..].
  - cbn [map join]. rewrite split_on_id by apply b64_ref_no_comma.
    apply mapM_Some. by repeat constructor; apply decode_field_ref.
  - change (join (map Base64.b64_ref (f :: g :: t)))
      with (Base64.b64_ref f ++ ","%char :: join (map Base64.b64_ref (g :: t))).
    rewrite split_on_app by apply b64_ref_no_comma.
    apply mapM_Some. constructor; [apply decode_field_ref|]. by apply mapM_Some, IH.
Qed.

Lemma VALID_OR_EMPTY_cases parts validity k : short (reported parts validity k) ->
  VALID_OR_EMPTY parts validity k =
  if decide (Z.land validity k <> 0 -> is_Some (parts !! k))
  then Ret (Base64.b64_ref (reported parts validity k)) else Throw out_of_range.
Proof.
  intros Hs. case_decide as Hd; [by apply VALID_OR_EMPTY_run|].
  apply VALID_OR_EMPTY_throws.
  - intros E. apply Hd. by intros [].
  - apply eq_None_not_Some. intros Hk. by apply Hd.
Qed.

Lemma plaintext_log_throws parts vs v time_buffer :
  read_uint64 vs = Ret v -> ~ flagged_present parts v ->
  Forall short (record_fields parts v time_buffer) ->
  plaintext_log parts vs time_buffer = Throw out_of_range.
Proof.
  unfold flagged_present, reported_parts, record_fields. intros Hv Hp Hs.
  rewrite !Forall_cons, Forall_nil in Hp. rewrite !Forall_cons in Hs.
  destruct Hs as (S1 & S2 & S3 & S4 & S5 & S6 & S7 & S8 & _).
  unfold plaintext_log. fold (hit_or_miss parts). rewrite (Base64.encode_ref _ S8), Hv.
  cbn [mbind outcome_bind]. rewrite !VALID_OR_EMPTY_cases, (Base64.encode_ref _ S2) by done.
  repeat destruct (decide _); try reflexivity. destruct Hp. by split_and!.
Qed.

(** ** Closing a transaction *)

(** The bot sniffer can send: its mutex is free when it is tried, its socket is
    bound, and the cipher works. *)
Definition ready (env : Env) (w : World) (s : Socket) : Prop :=
  env_lock env (S (tick w)) = true /\ bs_socket (bot_sniffer w) = Some s /\
  SocketOps.is_bound s = true /\ (forall n, env_api env n = true).

Lemma on_http_close_run parts env w s vs :
  ready env w s -> parts !! Part.VALIDITY_STAT = Some vs ->
  on_http_close parts env w =
  (log ← lift (plaintext_log parts vs (GmTime.strftime (GmTime.gmtime (env_sec env (tick w)))));
   send_zmq_encrypted_message log (encryption_key (bot_sniffer w)) false) env
    (sent LOG true (S (S (tick w))) w).
Proof.
  intros (Hl & Hs & Hb & _) Hv. unfold on_http_close. rewrite M_bind_eq. cbn [time_now query].
  rewrite M_bind_eq, (proj2 (part_at_Ret _ _ _) Hv). cbn [lift]. rewrite M_bind_eq.
  cbn [TSMutexLockTry query tick with_tick]. rewrite Hl. cbn [negb].
  rewrite M_bind_eq. cbn [gets bot_sniffer with_tick]. rewrite Hs. unfold ensure_bound. rewrite Hb.
  rewrite M_bind_eq. cbn [mret M_ret negb]. rewrite M_bind_eq. reflexivity.
Qed.

(** C25. The records of the bot sniffer arrive: when a transaction closes while the
    sniffer's mutex is free, its socket bound, every call of OpenSSL succeeds, the
    clock is between 1970 and 9999 and no field is longer than a megabyte, and its
    flagged parts are all present, exactly two frames go out, and the receiver that
    decrypts the second one with the key and decodes its comma-separated fields
    gets address, time to the second, URL, protocol, status, length, user agent and
    the last field back; when a flagged part is missing, the handler throws with
    only the first frame of the message sent. *)
Theorem sniffer_record (parts : TransactionParts) (env : Env) (w : World) (s : Socket) (vs : str) :
  ready env w s -> parts !! Part.VALIDITY_STAT = Some vs -> length vs = 8%nat ->
  let now := env_sec env (tick w) in
  let v := le_combine vs in
  let fields := record_fields parts v (GmTime.strftime (GmTime.gmtime now)) in
  GmTime.in_range now -> Forall (fun f => Z.of_nat (length f) <= 2 ^ 20) fields ->
  let '(r, w') := on_http_close parts env w in
  if decide (flagged_present parts v) then
    r = Ret tt /\
    (exists frame, trace w' = trace w ++ [SnifferSend LOG true; SnifferSend frame false] /\
       receive (encryption_key (bot_sniffer w)) frame ≫= read_record = Some fields) /\
    (fields !! 1%nat ≫= GmTime.read_time) = Some now
  else r = Throw out_of_range /\ trace w' = trace w ++ [SnifferSend LOG true].
Proof.
  intros Hr Hv Hlen now v fields Hnow Hf. rewrite (on_http_close_run _ _ _ s vs) by done.
  assert (Hu : read_uint64 vs = Ret v).
  { unfold read_uint64. rewrite (proj2 (Nat.ltb_ge _ _)), take_app_length' by lia. done. }
  assert (Hs : Forall short fields).
  { eapply Forall_impl; [exact Hf|]. intros f Hf'. unfold short.
    change (Base64.SIZE_MAX / 4 * 3) with 13835058055282163709. cbv beta in Hf'. lia. }
  rewrite M_bind_eq. case_decide as Hp.
  - rewrite (plaintext_log_run _ _ v) by done. fold now. fold fields. cbn [lift].
    assert (Hl : Z.of_nat (length (join (map Base64.b64_ref fields))) <= c_max_enc_length)
      by (apply join_length; done).
    destruct (send_ok _ (encryption_key (bot_sniffer w)) false env (sent LOG true (S (S (tick w))) w)
      ltac:(apply Hr) Hl) as (n & iv & Hi & ->).
    split; [done|]. split.
    + eexists. cbn [sent trace with_trace with_tick]. rewrite <- app_assoc. split; [reflexivity|].
      rewrite receive_sealed by done. cbn [mbind option_bind]. by apply read_record_join.
    + by apply GmTime.read_time_printed.
  - rewrite (plaintext_log_throws _ _ v) by done. by cbn.
Qed.

(** Binding neither sends nor changes the key. *)
Lemma ensure_bound_quiet b s env w : exists r w',
  ensure_bound b s env w = (Ret r, w') /\ trace w' = trace w.
Proof.
  unfold ensure_bound. destruct (SocketOps.is_bound s); [by eauto|].
  rewrite M_bind_eq. cbn [query].
  destruct (SocketOps.bind _ _ _) as [r s']. do 2 eexists. split; [reflexivity|]. done.
Qed.

Lemma VALID_OR_EMPTY_no_fault parts v k f : VALID_OR_EMPTY parts v k <> Fault f.
Proof.
  unfold VALID_OR_EMPTY. destruct (negb _); [|done]. unfold part_at. destruct (parts !! k); [|done].
  apply Base64.encode_no_fault.
Qed.

Lemma bind_no_fault {A B} (m : outcome A) (k : A -> outcome B) :
  (forall f, m <> Fault f) -> (forall a f, k a <> Fault f) -> forall f, (m ≫= k) <> Fault f.
Proof. intros Hm Hk f. destruct m as [a|e|g]; [apply Hk|done|by destruct (Hm g)]. Qed.

Lemma plaintext_log_no_fault parts vs t f :
  (7 <= length vs)%nat -> plaintext_log parts vs t <> Fault f.
Proof.
  intros Hl. unfold plaintext_log, read_uint64. rewrite (proj2 (Nat.ltb_ge _ _)) by done. revert f.
  repeat (apply bind_no_fault;
    [intros; first [apply Base64.encode_no_fault|apply VALID_OR_EMPTY_no_fault|done]|intros ?]).
  done.
Qed.

Lemma VALID_OR_EMPTY_Ret parts v k x :
  VALID_OR_EMPTY parts v k = Ret x -> Z.land v k <> 0 -> is_Some (parts !! k).
Proof.
  unfold VALID_OR_EMPTY, part_at. intros H Hk%Z.eqb_neq. rewrite Hk in H. cbn [negb] in H.
  by destruct (parts !! k).
Qed.

(** A record is only made of parts that are there. *)
Lemma plaintext_log_missing parts vs v t :
  length vs = 8%nat -> read_uint64 vs = Ret v -> ~ flagged_present parts v ->
  exists e, plaintext_log parts vs t = Throw e.
Proof.
  intros Hl Hv Hp. destruct (plaintext_log parts vs t) as [log|e|f] eqn:E; [|by exists e|].
  2: { by destruct (plaintext_log_no_fault parts vs t f ltac:(lia)). }
  destruct Hp. revert E. unfold plaintext_log. rewrite Hv. cbv [mbind outcome_bind].
  destruct (Base64.Encode _); [|done..].
  destruct (VALID_OR_EMPTY parts v Part.IP) eqn:E1; [|done..]. destruct (Base64.Encode t); [|done..].
  destruct (VALID_OR_EMPTY parts v Part.URL_WITH_HOST) eqn:E2; [|done..].
  destruct (VALID_OR_EMPTY parts v Part.PROTOCOL) eqn:E3; [|done..].
  destruct (VALID_OR_EMPTY parts v Part.STATUS) eqn:E4; [|done..].
  destruct (VALID_OR_EMPTY parts v Part.CONTENT_LENGTH) eqn:E5; [|done..].
  destruct (VALID_OR_EMPTY parts v Part.UA) eqn:E6; [|done..]. intros _.
  unfold flagged_present, reported_parts.
  repeat (constructor; [by eapply VALID_OR_EMPTY_Ret|]). constructor.
Qed.

(** C26. What a close can put on the wire, in every state: nothing, or one whole
    message of two frames, the second one sealed under the key; or the handler
    throws, and then either nothing was sent or the first frame alone.  With a
    validity part of eight bytes it never leaves an object, in particular not
    the buffer of the frame. *)
Theorem sniffer_frames (parts : TransactionParts) (env : Env) (w : World) :
  let '(r, w') := on_http_close parts env w in
  match r with
  | Ret _ =>
      trace w' = trace w \/
      exists iv log, length iv = c_gcm_iv_size /\
        trace w' = trace w ++ [SnifferSend LOG true;
                               SnifferSend (sealed (encryption_key (bot_sniffer w)) iv log) false]
  | Throw e =>
      e = out_of_range /\ parts !! Part.VALIDITY_STAT = None /\ trace w' = trace w \/
      trace w' = trace w ++ [SnifferSend LOG true]
  | Fault _ => exists vs, parts !! Part.VALIDITY_STAT = Some vs /\ (length vs < 7)%nat
  end.
Proof.
  unfold on_http_close. rewrite M_bind_eq. cbn [time_now query]. rewrite M_bind_eq. unfold part_at.
  destruct (parts !! Part.VALIDITY_STAT) as [vs|] eqn:Hv; cbn [lift]; [|by left].
  rewrite M_bind_eq. cbn [TSMutexLockTry query tick with_tick].
  destruct (env_lock env _); cbn [negb]; [|by left].
  rewrite M_bind_eq. cbn [gets bot_sniffer with_tick].
  destruct (bs_socket (bot_sniffer w)) as [s|]; [|by left]. rewrite M_bind_eq.
  set (w1 := with_tick _ _).
  destruct (ensure_bound_quiet (bot_sniffer w) s env w1) as (r & w2 & -> & Ht).
  destruct r; cbn [negb]; [|left; by rewrite Ht].
  rewrite M_bind_eq. cbn [send_zmq_mess emit modify]. rewrite M_bind_eq.
  set (w3 := with_trace _ _).
  assert (Ht3 : trace w3 = trace w ++ [SnifferSend LOG true]) by (cbn; by rewrite Ht).
  set (t := GmTime.strftime _).
  destruct (plaintext_log parts vs t) as [log|e|f] eqn:Hlog; cbn [lift].
  - destruct (send_cases log (encryption_key (bot_sniffer w)) false env w3) as (n & [->|(iv & Hi & ->)]).
    + by right.
    + right. exists iv, log. split; [done|]. cbn [sent trace with_trace with_tick].
      rewrite Ht3. by rewrite <- app_assoc.
  - by right.
  - exists vs. split; [done|]. destruct (decide (7 <= length vs)%nat) as [Hl|]; [|lia].
    by destruct (plaintext_log_no_fault parts vs t f Hl).
Qed.

End Encrypt.

(** ** A sample *)

Lemma sample_tag_length (k : str) : length (take 16 (k ++ replicate 16 NUL)) = 16%nat.
Proof. rewrite length_take, length_app, length_replicate. lia. Qed.

(** A cipher that leaves the message as it is and uses the key as the tag. *)
Definition sample_ssl : OpenSSL.
Proof.
  refine {| gcm_seal k iv m := (m, take 16 (k ++ replicate 16 NUL));
            gcm_open k iv c tag :=
              if bool_decide (tag = take 16 (k ++ replicate 16 NUL)) then Some c else None |};
    intros; cbn [fst snd].
  - reflexivity.
  - apply sample_tag_length.
  - by rewrite bool_decide_true.
Defined.

Definition sample_validity : Z := Z.lor requested_info response_info.

Definition sample_parts : TransactionParts :=
  <[Part.VALIDITY_STAT := le_split 8 sample_validity]>
  (<[Part.IP := lit "10.0.0.7"]> (<[Part.URL_WITH_HOST := lit "http://h.org/"]>
  (<[Part.PROTOCOL := lit "http"]> (<[Part.STATUS := lit "200"]>
  (<[Part.CONTENT_LENGTH := lit "12"]> (<[Part.UA := lit "curl"]> ∅)))))).

Definition sample_socket : Socket := MkSocket (lit "tcp://*:22621") [lit "tcp://*:22621"].

Definition sniffing_world : World :=
  with_bot_sniffer (MkBotSniffer (Some sample_socket) 22621 (lit "*") (replicate 32 NUL)
    (lit "tcp://*:22621")) (SwabberOps.sample_world 0).

Lemma sniffer_record_witness :
  let '(r, w') := on_http_close (ssl := sample_ssl) sample_parts SwabberOps.sample_env sniffing_world in
  r = Ret tt /\
  (exists frame, trace w' = [SnifferSend LOG true; SnifferSend frame false] /\
     receive (ssl := sample_ssl) (replicate 32 NUL) frame ≫= read_record
     = Some [lit "10.0.0.7"; lit "1970-01-01T00:16:40"; lit "http://h.org/"; lit "http"; lit "200";
             lit "12"; lit "curl"; lit "MISS"]) /\
  GmTime.read_time (lit "1970-01-01T00:16:40") = Some 1000.
Proof.
  pose proof (sniffer_record (ssl := sample_ssl) sample_parts SwabberOps.sample_env sniffing_world
    sample_socket (le_split 8 sample_validity) ltac:(by repeat split) eq_refl eq_refl
    ltac:(vm_compute; split; congruence)
    ltac:(apply (bool_decide_unpack _); vm_compute; exact Logic.I)) as P.
  destruct (on_http_close (ssl := sample_ssl) sample_parts SwabberOps.sample_env sniffing_world)
    as [r w'].
  destruct (decide _) as [Hp|Hn] in P; [exact P|].
  destruct Hn. apply (bool_decide_unpack _). vm_compute. exact Logic.I.
Defined.

End BotSniffer.
