(* ===== verification/WhiteLister.v ===== *)
(** * WhiteLister: serving privileged addresses (src/white_lister.cpp)

    The filter reads its ranges into the white list all filters share, and lets
    the requests of listed addresses bypass the filters behind it. *)

From S2P Require Import Prelude Util WhiteList IpDb Yaml World.

Local Open Scope Z_scope.

Module WhiteLister.

Section WithInet.
Context {I : Inet} `{Yaml}.

(** One entry of [white_listed_ips]: a map for one host, or a range for all. *)
Definition load_entry (entry : node) (white_list : GlobalWhiteList.GlobalWhiteList)
    : outcome GlobalWhiteList.GlobalWhiteList :=
  if IsMap entry then
    host ← y_field as_string entry (lit "host");
    ip_range ← y_field as_string entry (lit "ip_range");
    range ← Util.make_mask_for_range ip_range;
    mret (GlobalWhiteList.insert_host white_list host range)
  else
    ip_range ← as_string entry;
    range ← Util.make_mask_for_range ip_range;
    mret (GlobalWhiteList.insert white_list range).

Fixpoint load_entries (entries : list node) (white_list : GlobalWhiteList.GlobalWhiteList)
    : outcome GlobalWhiteList.GlobalWhiteList :=
  match entries with
  | [] => mret white_list
  | e :: rest => white_list' ← load_entry e white_list; load_entries rest white_list'
  end.

(** The handler for [std::exception] logs and throws on. *)
Definition load_config (cfg : node) (white_list : GlobalWhiteList.GlobalWhiteList)
    : outcome GlobalWhiteList.GlobalWhiteList :=
  white_listed_ips ← y_get cfg (lit "white_listed_ips");
  load_entries (y_iter white_listed_ips) white_list.

Definition requested_info : Z := Z.lor Part.IP Part.HOST.

Definition on_http_request (white_list : GlobalWhiteList.GlobalWhiteList) (parts : TransactionParts)
    : outcome FilterResponse :=
  ip ← part_at parts Part.IP;
  host ← part_at parts Part.HOST;
  match GlobalWhiteList.is_white_listed_host white_list host ip with
  | Some _ => mret (plain_response SERVE_IMMIDIATELY_DONT_CACHE)
  | None => mret (plain_response GO_AHEAD_NO_COMMENT)
  end.

(** ** The configuration as a list of entries *)

(** What an entry of the configuration says. *)
Definition parse_entry (e : node) : outcome GlobalWhiteList.entry :=
  if IsMap e then
    host ← y_field as_string e (lit "host");
    ip_range ← y_field as_string e (lit "ip_range");
    range ← Util.make_mask_for_range ip_range;
    mret (Some host, range)
  else
    ip_range ← as_string e;
    range ← Util.make_mask_for_range ip_range;
    mret (None, range).

Lemma load_entry_parse e wl :
  load_entry e wl = (x ← parse_entry e; mret (GlobalWhiteList.add_entry wl x)).
Proof.
  unfold load_entry, parse_entry.
  repeat (run_outcome; first [done | case_match]).
Qed.

Fixpoint parse_entries (l : list node) : outcome (list GlobalWhiteList.entry) :=
  match l with
  | [] => mret []
  | e :: rest => x ← parse_entry e; xs ← parse_entries rest; mret (x :: xs)
  end.

Lemma load_entries_parse l wl :
  load_entries l wl = (xs ← parse_entries l; mret (foldl GlobalWhiteList.add_entry wl xs)).
Proof.
  revert wl; induction l as [|e l IH]; intros wl; [done|].
  cbn [load_entries parse_entries]. rewrite load_entry_parse. run_outcome.
  destruct (parse_entry e) as [x| |]; run_outcome; [|done..].
  rewrite IH. run_outcome. by destruct (parse_entries l).
Qed.

(** C24. The white lister implements its configuration: once the entries of
    [white_listed_ips] are loaded, a request is served at once exactly when an
    entry for all hosts, or for the request's host, covers its address, and is
    passed on otherwise. *)
Theorem white_lister_refines (cfg : node) (wl : GlobalWhiteList.GlobalWhiteList)
    (ips : node) (es : list GlobalWhiteList.entry) (parts : TransactionParts) (ip host : str) :
  y_get cfg (lit "white_listed_ips") = Ret ips -> parse_entries (y_iter ips) = Ret es ->
  load_config cfg GlobalWhiteList.empty = Ret wl ->
  parts !! Part.IP = Some ip -> parts !! Part.HOST = Some host ->
  on_http_request wl parts =
    Ret (plain_response (if GlobalWhiteList.listed es host ip then SERVE_IMMIDIATELY_DONT_CACHE
                         else GO_AHEAD_NO_COMMENT)).
Proof.
  intros Hips Hes Hload Hip Hhost. unfold load_config in Hload. run_outcome in Hload.
  rewrite Hips, load_entries_parse, Hes in Hload. cbn in Hload. injection Hload as <-.
  fold (GlobalWhiteList.build es). unfold on_http_request, part_at. rewrite Hip, Hhost.
  run_outcome.
  pose proof (GlobalWhiteList.white_list_refines es host ip) as Hr.
  destruct (GlobalWhiteList.is_white_listed_host _ _ _), (GlobalWhiteList.listed es host ip);
    try done.
  - by destruct Hr as [Hr _]; specialize (Hr ltac:(by eexists)).
  - by destruct Hr as [_ Hr]; destruct (Hr eq_refl).
Qed.

End WithInet.

Definition sample_config : tree :=
  TMap [(lit "white_listed_ips",
    TSeq [TScalar (lit "10.0.0.0/8");
          TMap [(lit "host", TScalar (lit "a.org")); (lit "ip_range", TScalar (lit "1.2.3.4"))]])].

Definition sample_parts : TransactionParts :=
  <[Part.IP := lit "1.2.3.4"]> (<[Part.HOST := lit "a.org"]> ∅).

Definition sample_list : GlobalWhiteList.GlobalWhiteList :=
  match load_config (I := Util.sample_inet) (H := tree_yaml) sample_config GlobalWhiteList.empty with
  | Ret wl => wl
  | _ => GlobalWhiteList.empty
  end.

Lemma white_lister_refines_witness :
  on_http_request (I := Util.sample_inet) sample_list sample_parts =
    Ret (plain_response SERVE_IMMIDIATELY_DONT_CACHE).
Proof.
  apply (white_lister_refines (I := Util.sample_inet) (H := tree_yaml) sample_config sample_list
    (assoc (lit "white_listed_ips") [(lit "white_listed_ips",
       TSeq [TScalar (lit "10.0.0.0/8");
          TMap [(lit "host", TScalar (lit "a.org")); (lit "ip_range", TScalar (lit "1.2.3.4"))]])])
    [(None, (167772160, 4278190080)); (Some (lit "a.org"), (16909060, 4294967295))]
    sample_parts (lit "1.2.3.4") (lit "a.org")); vm_compute; reflexivity.
Defined.

End WhiteLister.
