(* ===== verification/Denialator.v ===== *)
(** * Denialator: turning away flagged addresses (src/denialator.cpp)

    An address that was reported to the swabber is denied until its record is
    dropped; after the grace period the denialator reports it once more. *)

From S2P Require Import Prelude Util WhiteList IpDb Yaml World Swabber.

Local Open Scope Z_scope.

Module Denialator.

Record Denialator := MkDenialator {
  global_white_list : option GlobalWhiteList.GlobalWhiteList;   (* None: null pointer *)
  banning_grace_period : Z
}.

(** The constructor copies the grace period out of the swabber. *)
Definition make (sw : Swabber) (wl : option GlobalWhiteList.GlobalWhiteList) : Denialator :=
  MkDenialator wl (SwabberOps.get_grace_period sw).

Definition requested_info : Z := Part.IP.

Definition denied_message : str :=
  lit "<html><header></header><body>you've been temporarily banned by deflect</body></html>".

Section WithInet.
Context {I : Inet}.

Definition white_listed (d : Denialator) (cur_ip : str) : bool :=
  match global_white_list d with
  | None => false
  | Some wl => bool_decide (is_Some (GlobalWhiteList.is_white_listed wl cur_ip))
  end.

Definition report_reason (ip_state : Z) : str :=
  lit "flagged on " ++ to_string ip_state ++ lit ", grace period passed. reported by denialator".

Definition on_http_request (d : Denialator) (parts : TransactionParts) : M FilterResponse :=
  cur_ip ← lift (part_at parts Part.IP);
  if white_listed d cur_ip then mret (plain_response GO_AHEAD_NO_COMMENT)
  else
    ip_state ← swabber_db_get cur_ip;
    match ip_state with
    | None => mret (plain_response GO_AHEAD_NO_COMMENT)
    | Some st =>
        if negb (st =? 0) then
          '(tv_sec, _) ← gettimeofday;
          _ ← (if banning_grace_period d <=? tv_sec - st
               then SwabberOps.ban cur_ip (report_reason st) else mret tt);
          mret (generator_response GEN_DENIALATOR)
        else mret (plain_response GO_AHEAD_NO_COMMENT)
    end.

Definition generate_response (parts : TransactionParts) (response_info : FilterResponse) : str :=
  denied_message.

(** ** Framing *)

Lemma same_but_denialator d parts ip :
  parts !! Part.IP = Some ip -> preserves (same_but ip) (on_http_request d parts).
Proof.
  intros Hip. unfold on_http_request. frame_step.
  match goal with H : part_at _ _ = Ret _ |- _ => apply part_at_Ret in H end.
  simplify_eq. frame.
Qed.

(** ** Properties *)

(** The verdict for one address, from its swabber record. *)
Definition denies (d : Denialator) (ip : str) (st : Z) : bool :=
  negb (white_listed d ip) && negb (st =? 0).

(** The denialator answers every request it can judge: whatever the clock
    and the ban daemon do, a request whose address could be looked up is denied
    exactly when the address is flagged and not white listed; when the lookup
    fails it is let through. *)
Lemma denialator_decides (env : Env) (w : World) (d : Denialator) (parts : TransactionParts)
    (ip : str) :
  parts !! Part.IP = Some ip ->
  fst (on_http_request d parts env w) =
    Ret (if denies d ip (IpDb.view 0 (swabber_ip_db w) ip) && env_lock env (tick w)
         then generator_response GEN_DENIALATOR else plain_response GO_AHEAD_NO_COMMENT).
Proof.
  intros Hip%part_at_Ret. unfold on_http_request, denies. rewrite M_bind_eq, Hip. cbn [lift].
  destruct (white_listed d ip); [done|]. cbn [negb andb].
  unfold swabber_db_get. rewrite M_bind_eq, db_get_eq.
  cbn [swabber_ip_db with_tick].
  destruct (env_lock env (tick w)); [|by rewrite andb_false_r].
  destruct (IpDb.view 0 (swabber_ip_db w) ip =? 0); cbn [negb andb]; [done|].
  rewrite M_bind_eq. cbn [gettimeofday query]. rewrite M_bind_eq.
  destruct (_ <=? _); [|done]. pose proof (SwabberOps.ban_returns ip
    (report_reason (IpDb.view 0 (swabber_ip_db w) ip)) env
    (with_tick (S (tick (with_tick (S (tick w)) w))) (with_tick (S (tick w)) w))) as Hb.
  destruct (SwabberOps.ban _ _ _ _) as [[]?]; done.
Qed.

End WithInet.

Definition sample_denialator : Denialator := MkDenialator None 300.

Lemma denialator_decides_witness :
  fst (on_http_request (I := Util.sample_inet) sample_denialator
         (<[Part.IP := lit "10.0.0.9"]> ∅) SwabberOps.sample_env
         (with_swabber_ip_db (<[lit "10.0.0.9" := 1]> ∅) (SwabberOps.sample_world 300)))
  = Ret (generator_response GEN_DENIALATOR).
Proof.
  rewrite (denialator_decides (I := Util.sample_inet) _ _ sample_denialator _ (lit "10.0.0.9"));
    vm_compute; reflexivity.
Defined.

End Denialator.
