(* ===== verification/RegexManager.v ===== *)
(** * RegexManager: banning by rate of matching requests (src/regex_manager.cpp)

    Each rule has an expression, an interval and a rate.  The state of an address
    is a vector with one window per rule; [try_match] walks through the rules,
    moves the windows and stops at the first rule whose rate is reached.  RE2 is
    the interface [Re2]. *)

From S2P Require Import Prelude Util WhiteList IpDb Yaml Float World Swabber.

Local Open Scope Z_scope.

(** [RE2::FullMatch(text, pattern)] and [RE2::PartialMatch(text, pattern)]. *)
Class Re2 := {
  FullMatch : str -> str -> bool;
  PartialMatch : str -> str -> bool
}.

(** Expressions that stand for themselves, for evaluation. *)
Definition literal_re2 : Re2 := {|
  FullMatch := fun text pat => bool_decide (text = pat);
  PartialMatch := fun text pat => bool_decide (is_Some (find text pat))
|}.

Module RegexManager.

Record RatedRegex := MkRule {
  id : nat;
  rule_name : str;
  re2_regex : str;
  interval : Z;              (* unsigned int, milliseconds *)
  rule_rate : spec_float;    (* float *)
  hosts_to_skip : list str
}.

Record RegexManager := MkManager {
  rated_banning_regexes : list RatedRegex;
  total_no_of_rules : nat
}.

Definition forbidden_message : str := lit "<html><header></header><body>Forbidden</body></html>".

Definition requested_info : Z :=
  Z.lor (Z.lor (Z.lor (Z.lor Part.IP Part.METHOD) Part.URL) Part.HOST) Part.UA.

(** ** Configuration *)

Section LoadConfig.
Context `{Yaml}.

(** [observation_interval * 1000] is computed on [unsigned int], the rate on
    [double] and stored as a [float]. *)
Definition make_rule (new_id : nat) (name regex : str) (observation_interval threshold : Z)
    (skip : list str) : RatedRegex :=
  let msec := u32 (observation_interval * 1000) in
  MkRule new_id name regex msec
    (Float.to_float (Float.div64 (Float.double_of_Z threshold) (Float.double_of_Z msec))) skip.

Definition load_rule (new_id : nat) (n : node) : outcome RatedRegex :=
  cur_rule ← y_field as_string n (lit "rule");
  observation_interval ← y_field as_uint n (lit "interval");
  threshold ← y_field as_uint n (lit "hits_per_interval");
  has ← y_has n (lit "hosts_to_skip");
  skip ← (if (has : bool) then y_field as_strings n (lit "hosts_to_skip") else mret []);
  regex ← y_field as_string n (lit "regex");
  mret (make_rule new_id cur_rule regex observation_interval threshold skip).

(** A rule's number is the size of the list it is appended to. *)
Fixpoint load_rules (nodes : list node) (rules : list RatedRegex) : outcome (list RatedRegex) :=
  match nodes with
  | [] => mret rules
  | n :: rest => r ← load_rule (length rules) n; load_rules rest (rules ++ [r])
  end.

(** The handler for [YAML::RepresentationException] logs and throws on. *)
Definition load_config (cfg : node) : outcome RegexManager :=
  rules ← load_rules (y_iter cfg) [];
  mret (MkManager rules (length rules)).

End LoadConfig.

(** ** Rates *)

(** [long cur_time_msec = tv_sec * 1000 + tv_usec / 1000.0]. *)
Definition time_msec (tv_sec tv_usec : Z) : Z :=
  Float.trunc (Float.add64 (Float.double_of_Z (s64 (tv_sec * 1000)))
                 (Float.div64 (Float.double_of_Z tv_usec) (Float.double_of_Z 1000))).

(** [1 / (double) interval]. *)
Definition per_interval (iv : Z) : spec_float :=
  Float.div64 (Float.double_of_Z 1) (Float.double_of_Z iv).

(** The window of one rule after a hit at [cur_time_msec]. *)
Definition update_state (cur_time_msec iv : Z) (state : RegexState) : RegexState :=
  let begin := if begin_msec state =? 0 then u64 cur_time_msec else begin_msec state in
  let time_window_movement := s64 (u64 (cur_time_msec - begin) - iv) in
  if 0 <? time_window_movement then
    let r := rate state in
    let moved := Float.sub32 (Float.mul32 r (Float.float_of_Z time_window_movement))
                             (Float.float_of_Z 1) in
    let r1 := Float.to_float (Float.sub64 (Float.to_double r)
                (Float.div64 (Float.to_double moved) (Float.double_of_Z iv))) in
    let r2 := if Float.negative r1 then Float.to_float (per_interval iv) else r1 in
    MkRegexState (u64 (begin + time_window_movement)) r2
  else
    MkRegexState begin
      (Float.to_float (Float.add64 (Float.to_double (rate state)) (per_interval iv))).

(** ** Matching *)

Section Matching.
Context {R2 : Re2}.

Definition skips (rule : RatedRegex) (host : str) : bool :=
  bool_decide (host ∈ hosts_to_skip rule).

(** [state.rate >= rule->rate]. *)
Definition exceeds (state : RegexState) (rule : RatedRegex) : bool :=
  SFleb (rule_rate rule) (rate state).

(** [ip_state] after looking the address up, unless it was already there. *)
Definition retrieve (ip : str) (ip_state : option (list RegexState)) : M (option (list RegexState)) :=
  match ip_state with
  | Some (_ :: _) => mret ip_state
  | _ => regex_db_get ip
  end.

Definition resized (total : nat) (l : list RegexState) : list RegexState :=
  match l with [] => replicate total regex_state0 | _ => l end.

(** The loop of [try_match], with the local [ip_state]. *)
Fixpoint try_rules (rules : list RatedRegex) (total : nat) (ip ats_record host : str)
    (ip_state : option (list RegexState)) : M (option RatedRegex) :=
  match rules with
  | [] =>
      match ip_state with
      | Some ((_ :: _) as l) => _ ← regex_db_set ip l; mret None
      | _ => mret None
      end
  | rule :: rest =>
      if skips rule host then mret None
      else if FullMatch ats_record (re2_regex rule) then
        if SFeqb (rule_rate rule) Float.zero then mret (Some rule)
        else
          '(tv_sec, tv_usec) ← gettimeofday;
          ip_state1 ← retrieve ip ip_state;
          match ip_state1 with
          | None => try_rules rest total ip ats_record host None
          | Some l0 =>
              let l := resized total l0 in
              match l !! id rule with
              | None => lift (Fault OutOfBounds)
              | Some state =>
                  let state' := update_state (time_msec tv_sec tv_usec) (interval rule) state in
                  let l' := <[id rule := state']> l in
                  if exceeds state' rule then
                    _ ← regex_db_set ip l';
                    mret (Some rule)
                  else try_rules rest total ip ats_record host (Some l')
              end
          end
      else try_rules rest total ip ats_record host ip_state
  end.

Definition try_match (m : RegexManager) (ip ats_record client_request_host : str)
    : M (option RatedRegex) :=
  try_rules (rated_banning_regexes m) (total_no_of_rules m) ip ats_record client_request_host None.

(** The parts are read with [operator[]] on the shared map, which inserts the
    missing ones. *)
Definition with_parts (parts : TransactionParts) : str * str * str * str * str * TransactionParts :=
  let '(method, p1) := part_index parts Part.METHOD in
  let '(url, p2) := part_index p1 Part.URL in
  let '(host, p3) := part_index p2 Part.HOST in
  let '(ua, p4) := part_index p3 Part.UA in
  let '(ip, p5) := part_index p4 Part.IP in
  (method, url, host, ua, ip, p5).

Definition banning_reason (rule method url host ua : str) : str :=
  lit "matched regex rule " ++ rule ++ lit ", " ++ method ++ lit ", "
  ++ Util.encapsulate_in_quotes url ++ lit ", " ++ host ++ lit ", "
  ++ Util.encapsulate_in_quotes ua.

Definition on_http_request (m : RegexManager) (parts : TransactionParts)
    : M (FilterResponse * TransactionParts) :=
  let '(method, url, host, ua, ip, parts') := with_parts parts in
  let ats_record := method ++ lit " " ++ url ++ lit " " ++ host ++ lit " " ++ ua in
  result ← try_match m ip ats_record host;
  match result with
  | Some rule =>
      _ ← SwabberOps.ban ip (banning_reason (rule_name rule) method url host ua);
      mret (generator_response GEN_REGEX, parts')
  | None => mret (plain_response GO_AHEAD_NO_COMMENT, parts')
  end.

End Matching.

Definition generate_response (parts : TransactionParts) (response_info : FilterResponse) : str :=
  forbidden_message.

(** ** Framing *)

Section Frame.
Context {R2 : Re2}.

Lemma same_but_retrieve ip st : preserves (same_but ip) (retrieve ip st).
Proof. unfold retrieve. frame. Qed.
Hint Resolve same_but_retrieve : frame.

Lemma same_but_try_rules rules total ip ats host st :
  preserves (same_but ip) (try_rules rules total ip ats host st).
Proof.
  revert st; induction rules as [|r rules IH]; intros st; cbn [try_rules]; frame.
Qed.

Lemma same_but_try_match m ip ats host : preserves (same_but ip) (try_match m ip ats host).
Proof. apply same_but_try_rules. Qed.
End Frame.

(** ** The invariant of the rate database *)

(** A vector has a window for each rule, or was just made; no rate is negative. *)
Definition vec_ok (total : nat) (l : list RegexState) : Prop :=
  (l = [] \/ length l = total) /\ Forall (fun s => Float.not_negative (rate s) = true) l.

Definition db_ok (total : nat) (w : World) : Prop :=
  map_Forall (fun _ l => vec_ok total l) (regex_manager_ip_db w).

(** The rules' numbers are positions of the vector. *)
Definition manager_ok (m : RegexManager) : Prop :=
  Forall (fun r => (id r < total_no_of_rules m)%nat) (rated_banning_regexes m).

Lemma per_interval_pos iv : 0 <= iv -> Float.not_negative (per_interval iv) = true.
Proof.
  intros Hiv. unfold per_interval, Float.div64. apply Float.div_pos; [done| |done].
  unfold Float.double_of_Z, Float.f64.
  pose proof (Float.binary_normalize_pos 53 1024 iv 0 Hiv) as Hn.
  destruct iv as [|p|p]; [done| |lia].
  destruct (binary_normalize 53 1024 (Zpos p) 0 false) as [[]|[]| |[]] eqn:E; try done.
  cbn [binary_normalize] in E. unfold binary_round, binary_round_aux in E.
  repeat (case_match; try done).
Qed.

Lemma update_state_pos t iv s :
  0 <= iv -> Float.not_negative (rate s) = true ->
  Float.not_negative (rate (update_state t iv s)) = true.
Proof.
  intros Hiv Hs. pose proof (per_interval_pos iv Hiv) as Hp. unfold update_state.
  case_match; cbn [rate].
  - rewrite Float.negative_not. destruct (negb _) eqn:E; [|by apply negb_false_iff in E].
    by apply Float.to_float_pos.
  - apply Float.to_float_pos, Float.add_pos; [by apply Float.to_double_pos|done].
Qed.

Lemma vec_ok_resized total l : vec_ok total l -> vec_ok total (resized total l) /\
  length (resized total l) = total.
Proof.
  intros [Hl Hr]. destruct l as [|s l]; cbn [resized].
  - split; [|apply length_replicate]. split; [right; apply length_replicate|].
    by apply Forall_replicate.
  - destruct Hl as [?|Hl]; [done|]. split; [|done]. split; [by right|done].
Qed.

Lemma vec_ok_insert total l i s :
  vec_ok total l -> Float.not_negative (rate s) = true -> vec_ok total (<[i := s]> l).
Proof.
  intros [Hl Hr] Hs. split; [|by apply Forall_insert].
  destruct Hl as [->|Hl]; [by left|right]. by rewrite length_insert.
Qed.

Lemma vec_ok_lookup total l i s :
  vec_ok total l -> l !! i = Some s -> Float.not_negative (rate s) = true.
Proof. intros [_ Hr] Hl. by eapply (Forall_lookup_1 _ _ _ _ Hr). Qed.

Lemma regex_set_ok total ip l env w :
  db_ok total w -> vec_ok total l -> exists r w',
  regex_db_set ip l env w = (Ret r, w') /\ db_ok total w'.
Proof.
  intros Hw Hl. unfold regex_db_set. rewrite db_set_eq. do 2 eexists. split; [reflexivity|].
  unfold db_ok. cbn. destruct (env_lock env (tick w)); [|done]. by apply map_Forall_insert_2.
Qed.

Section Invariant.
Context {R2 : Re2}.

Lemma retrieve_ok total ip st env w :
  db_ok total w -> (forall l, st = Some l -> vec_ok total l) ->
  exists st' w', retrieve ip st env w = (Ret st', w') /\ db_ok total w' /\
    (forall l, st' = Some l -> vec_ok total l).
Proof.
  intros Hw Hst. unfold retrieve.
  assert (Hget : exists st' w', regex_db_get ip env w = (Ret st', w') /\ db_ok total w' /\
    (forall l, st' = Some l -> vec_ok total l)).
  { unfold regex_db_get. rewrite db_get_eq. do 2 eexists. split; [reflexivity|]. split; [done|].
    intros l. destruct (env_lock env (tick w)); intros [= <-]. unfold IpDb.view. cbn.
    destruct (regex_manager_ip_db w !! ip) as [l'|] eqn:E; [by apply (Hw ip)|].
    split; [by left|constructor]. }
  destruct st as [[|s l]|]; [done| |done]. by exists (Some (s :: l)), w.
Qed.

Lemma try_rules_ok rules total ip ats host st env w :
  Forall (fun r => (id r < total)%nat /\ 0 <= interval r) rules -> db_ok total w ->
  (forall l, st = Some l -> vec_ok total l) ->
  exists r w', try_rules rules total ip ats host st env w = (Ret r, w') /\ db_ok total w'.
Proof.
  revert st w; induction rules as [|rule rules IH]; intros st w Hids Hw Hst; cbn [try_rules].
  - destruct st as [[|s l]|]; [eauto| |eauto]. rewrite M_bind_eq.
    destruct (regex_set_ok total ip (s :: l) env w Hw (Hst _ eq_refl)) as (r & w' & -> & ?). eauto.
  - apply Forall_cons in Hids as [[Hid Hiv] Hids].
    destruct (skips rule host); [eauto|].
    destruct (FullMatch ats (re2_regex rule)); [|by apply IH].
    destruct (SFeqb _ _); [eauto|]. rewrite M_bind_eq. cbn [gettimeofday query]. rewrite M_bind_eq.
    destruct (retrieve_ok total ip st env (with_tick (S (tick w)) w) Hw Hst)
      as ([l0|] & w1 & -> & Hw1 & Hl0); [|by apply IH].
    destruct (vec_ok_resized total l0 (Hl0 _ eq_refl)) as [Hv Hlen].
    destruct (resized total l0 !! id rule) as [state|] eqn:El.
    2: { apply lookup_ge_None in El. lia. }
    set (state' := update_state _ _ _).
    assert (Hv' : vec_ok total (<[id rule := state']> (resized total l0))).
    { apply vec_ok_insert; [done|]. apply update_state_pos; [done|]. by eapply vec_ok_lookup. }
    destruct (exceeds state' rule).
    + rewrite M_bind_eq. destruct (regex_set_ok total ip _ env w1 Hw1 Hv') as (r & w' & -> & ?).
      eauto.
    + apply IH; [done|done|]. by intros l [= <-].
Qed.

End Invariant.

(** Configured managers. *)
Lemma load_rules_ids `{Yaml} nodes rules rules' :
  (forall i r, rules !! i = Some r -> id r = i /\ 0 <= interval r) ->
  load_rules nodes rules = Ret rules' ->
  (forall i r, rules' !! i = Some r -> id r = i /\ 0 <= interval r).
Proof.
  revert rules; induction nodes as [|n nodes IH]; intros rules Hr; cbn [load_rules].
  - intros [= <-]. done.
  - run_outcome. destruct (load_rule (length rules) n) as [r| |] eqn:E; [|done..].
    apply IH. intros i x [Hx|[Hx Hi]]%lookup_app_Some; [by apply Hr|].
    destruct (i - length rules)%nat as [|k] eqn:Ei; [|done]. injection Hi as <-.
    unfold load_rule in E. run_outcome in E. repeat (case_match; try done);
      injection E as <-; (split; [cbn; lia|]); apply Z.mod_pos_bound; lia.
Qed.

Lemma load_config_ok `{Yaml} cfg m :
  load_config cfg = Ret m ->
  Forall (fun r => (id r < total_no_of_rules m)%nat /\ 0 <= interval r) (rated_banning_regexes m).
Proof.
  unfold load_config. run_outcome. destruct (load_rules (y_iter cfg) []) as [rules| |] eqn:E; [|done..].
  intros [= <-]. cbn. apply Forall_lookup. intros i r Hi.
  destruct (load_rules_ids _ _ _ ltac:(intros ? ? Hn; by rewrite lookup_nil in Hn) E i r Hi) as [-> ?]. split; [|done].
  by eapply lookup_lt_Some.
Qed.

Lemma load_config_numbered `{Yaml} cfg m i r :
  load_config cfg = Ret m -> rated_banning_regexes m !! i = Some r -> id r = i.
Proof.
  unfold load_config. run_outcome. destruct (load_rules (y_iter cfg) []) as [rules| |] eqn:E; [|done..].
  intros [= <-] Hi.
  by destruct (load_rules_ids _ _ _ ltac:(intros ? ? Hn; by rewrite lookup_nil in Hn) E i r Hi) as [-> _].
Qed.

(** ** Properties *)

(** A hit of an address in the database: the ban it asks for also returns. *)
Lemma on_http_request_run `{Re2} m parts env w r w1 :
  let '(method, url, host, ua, ip, parts') := with_parts parts in
  try_match m ip (method ++ lit " " ++ url ++ lit " " ++ host ++ lit " " ++ ua) host env w
    = (Ret r, w1) ->
  on_http_request m parts env w =
    match r with
    | Some rule =>
        (Ret (generator_response GEN_REGEX, parts'),
         snd (SwabberOps.ban ip (banning_reason (rule_name rule) method url host ua) env w1))
    | None => (Ret (plain_response GO_AHEAD_NO_COMMENT, parts'), w1)
    end.
Proof.
  unfold on_http_request. destruct (with_parts parts) as [[[[[method url] host] ua] ip] parts'].
  intros Hr. rewrite M_bind_eq, Hr. destruct r as [rule|]; [|done]. rewrite M_bind_eq.
  pose proof (SwabberOps.ban_returns ip (banning_reason (rule_name rule) method url host ua) env w1)
    as Hb.
  destruct (SwabberOps.ban _ _ env w1) as [[[]| |] w2]; done.
Qed.

(** [ban] leaves the rate database alone. *)
Definition same_rates (w w' : World) : Prop := regex_manager_ip_db w' = regex_manager_ip_db w.

#[global] Instance same_rates_preorder : PreOrder same_rates.
Proof. split; unfold same_rates; [done|]. intros w1 w2 w3; congruence. Qed.

Lemma same_rates_ban ip reason : preserves same_rates (SwabberOps.ban ip reason).
Proof. by apply SwabberOps.ban_frame; [apply _|..]. Qed.

(** Bounds and error freedom: for a manager read from any configuration and
    any database it can have made, a request never indexes a vector out of
    range, never throws, and leaves vectors of one window per rule with no
    negative rate. *)
Lemma regex_manager_safe `{Re2} `{Yaml} (cfg : node) (m : RegexManager) (parts : TransactionParts)
    (env : Env) (w : World) :
  load_config cfg = Ret m -> db_ok (total_no_of_rules m) w ->
  is_ret (fst (on_http_request m parts env w)) = true /\
  db_ok (total_no_of_rules m) (snd (on_http_request m parts env w)).
Proof.
  intros Hm%load_config_ok Hw. pose proof (on_http_request_run m parts env w) as Hrun.
  destruct (with_parts parts) as [[[[[method url] host] ua] ip] parts'].
  destruct (try_rules_ok _ _ ip (method ++ lit " " ++ url ++ lit " " ++ host ++ lit " " ++ ua)
    host None env w Hm Hw ltac:(done)) as (r & w1 & Hr & Hw1).
  rewrite (Hrun _ _ Hr). destruct r as [rule|]; cbn [fst snd is_ret]; [|done]. split; [done|].
  unfold db_ok. pose proof (same_rates_ban ip (banning_reason (rule_name rule) method url host ua) env w1)
    as Hs. unfold same_rates in Hs. by rewrite Hs.
Qed.

Definition sample_rule (iv hits : str) : tree :=
  TMap [(lit "rule", TScalar (lit "dos")); (lit "regex", TScalar (lit "GET / h ua"));
        (lit "interval", TScalar iv); (lit "hits_per_interval", TScalar hits)].

Definition sample_manager : RegexManager :=
  MkManager [make_rule 0 (lit "dos") (lit "GET / h ua") 60 7 []] 1.

Lemma regex_manager_safe_witness :
  is_ret (fst (on_http_request (R2 := literal_re2) sample_manager ∅ SwabberOps.sample_env
                 (SwabberOps.sample_world 0))) = true /\
  db_ok 1 (snd (on_http_request (R2 := literal_re2) sample_manager ∅ SwabberOps.sample_env
                 (SwabberOps.sample_world 0))).
Proof.
  apply (regex_manager_safe (H := literal_re2) (H0 := tree_yaml)
    (TSeq [sample_rule (lit "60") (lit "7")]) sample_manager).
  - vm_compute. reflexivity.
  - apply map_Forall_empty.
Defined.

(** *** Rules that ban at first sight *)

(** A threshold of zero gives the rate zero, unless the interval in
    milliseconds wraps to zero. *)
Lemma zero_rate new_id name regex iv skip :
  u32 (iv * 1000) <> 0 ->
  SFeqb (rule_rate (make_rule new_id name regex iv 0 skip)) Float.zero = true.
Proof.
  intros Hiv. unfold make_rule. cbn [rule_rate].
  assert (Hr : 0 <= u32 (iv * 1000) < 2 ^ 32) by (apply Z.mod_pos_bound; lia).
  destruct (u32 (iv * 1000)) as [|p|p]; [done| |lia].
  destruct (Float.double_of_pos p) as (m & e & ->); [|done].
  apply Float.digits_bound; lia.
Qed.

(** A rule configured with [hits_per_interval] zero bans at first sight: a
    request that matches it, reaching it past rules that neither match nor skip
    the host, is answered by that rule, without reading or writing any state. *)
Lemma simple_rule_bans `{Re2} (m : RegexManager) (pre post : list RatedRegex)
    (new_id : nat) (rname regex ip ats host : str) (iv : Z) (skip : list str) (env : Env) (w : World) :
  let rule := make_rule new_id rname regex iv 0 skip in
  rated_banning_regexes m = pre ++ rule :: post ->
  Forall (fun r => skips r host = false /\ FullMatch ats (re2_regex r) = false) pre ->
  u32 (iv * 1000) <> 0 -> host ∉ skip -> FullMatch ats regex = true ->
  try_match m ip ats host env w = (Ret (Some rule), w).
Proof.
  intros rule Hm Hpre Hiv Hskip Hmatch. unfold try_match. rewrite Hm. clear Hm.
  pose proof (zero_rate new_id rname regex iv skip Hiv) as Hz. fold rule in Hz.
  induction Hpre as [|r pre [Hs Hf] _ IH]; cbn [app try_rules].
  - unfold skips. rewrite bool_decide_false by done.
    change (re2_regex rule) with regex. by rewrite Hmatch, Hz.
  - by rewrite Hs, Hf.
Qed.

(** *** Hosts to skip *)

Lemma try_rules_skip `{Re2} pre rule post total ip ats host st env w :
  skips rule host = true ->
  let '(r, w') := try_rules (pre ++ rule :: post) total ip ats host st env w in
  match r with
  | Ret (Some x) => x ∈ pre
  | _ => same_rates w w'
  end.
Proof.
  intros Hs. revert st w; induction pre as [|r pre IH]; intros st w; cbn [app try_rules].
  - by rewrite Hs.
  - destruct (skips r host); [done|].
    assert (Hmono : forall l w0, same_rates w w0 ->
      let '(r0, w') := try_rules (pre ++ rule :: post) total ip ats host l env w0 in
      match r0 with Ret (Some x) => x ∈ r :: pre | _ => same_rates w w' end).
    { intros l w0 H0. specialize (IH l w0).
      destruct (try_rules _ _ _ _ _ _ _ _) as [[[x|]| |] w'];
        [by right|unfold same_rates in *; congruence..]. }
    destruct (FullMatch ats (re2_regex r)); [|by apply Hmono].
    destruct (SFeqb _ _); [by left|].
    rewrite M_bind_eq. cbn [gettimeofday query]. rewrite M_bind_eq.
    destruct (retrieve ip st env _) as [o w1] eqn:Er.
    assert (Hw1 : same_rates w w1).
    { unfold retrieve in Er. destruct st as [[|? ?]|]; by injection Er as <- <-. }
    destruct o as [[l0|]| |]; [|by apply Hmono|done..].
    destruct (_ !! id r) as [state|]; [|done].
    destruct (exceeds _ r); [|by apply Hmono].
    rewrite M_bind_eq. unfold regex_db_set. rewrite db_set_eq. by left.
Qed.

(** A host to skip ends the whole walk: once a rule skips the request's
    host, no later rule can ban it, and unless an earlier rule bans, the hits
    counted by earlier rules are forgotten: the database stays as it was. *)
Lemma skip_forgets_hits `{Re2} (m : RegexManager) (pre post : list RatedRegex) (rule : RatedRegex)
    (ip ats host : str) (env : Env) (w : World) :
  rated_banning_regexes m = pre ++ rule :: post -> skips rule host = true ->
  let '(r, w') := try_match m ip ats host env w in
  match r with
  | Ret (Some x) => x ∈ pre
  | _ => regex_manager_ip_db w' = regex_manager_ip_db w
  end.
Proof. intros Hm Hs. unfold try_match. rewrite Hm. by apply try_rules_skip. Qed.

Definition skipping_manager : RegexManager :=
  MkManager [make_rule 0 (lit "dos") (lit "GET / h ua") 60 7 [];
             make_rule 1 (lit "other") (lit "POST") 60 7 [lit "h"]] 2.

(** A clock that stands still. *)
Definition still_env : Env :=
  MkEnv (fun _ => 1500000000) (fun _ => 250000) (fun _ => true) (fun _ => true) (fun _ => true)
    (fun _ => []) (fun _ => true).

End RegexManager.
