(* ===== verification/Rates.v ===== *)
(** * Rates: matching requests in several threads at once

    [RegexManager::try_match] of src/regex_manager.cpp reads the windows of an
    address, updates its copy rule by rule and writes it back at the end, each
    access under its own lock.  Here the requests of any addresses interleave
    between the accesses. *)

From S2P Require Import Prelude Util WhiteList IpDb Yaml Float World Swabber RegexManager.

Local Open Scope Z_scope.

Module Rates.
Import RegexManager.

Section Manager.
Context {R2 : Re2} (m : RegexManager).

Record request := MkRequest { r_ip : str; r_record : str; r_host : str }.

(** Where a request is: in front of a rule with its copy of the windows; with
    the windows just looked up for a rule; about to write its copy back and
    return. *)
Inductive position :=
  | AtRule (rules : list RatedRegex) (ip_state : option (list RegexState))
  | LookedUp (rule : RatedRegex) (rest : list RatedRegex) (cur_time_msec : Z) (ip_state : list RegexState)
  | Storing (ip_state : list RegexState) (result : option RatedRegex).

(** From one access to the next; [inr] is the value returned. *)
Definition advance (q : request) (p : position) : M (position + option RatedRegex) :=
  match p with
  | AtRule [] (Some ((_ :: _) as l)) => mret (inl (Storing l None))
  | AtRule [] _ => mret (inr None)
  | AtRule (rule :: rest) st =>
      if skips rule (r_host q) then mret (inr None)
      else if FullMatch (r_record q) (re2_regex rule) then
        if SFeqb (rule_rate rule) Float.zero then mret (inr (Some rule))
        else
          '(tv_sec, tv_usec) ← gettimeofday;
          st1 ← retrieve (r_ip q) st;
          mret (inl (match st1 with
                     | None => AtRule rest None
                     | Some l0 => LookedUp rule rest (time_msec tv_sec tv_usec) l0
                     end))
      else mret (inl (AtRule rest st))
  | LookedUp rule rest now l0 =>
      let l := resized (total_no_of_rules m) l0 in
      match l !! id rule with
      | None => lift (Fault OutOfBounds)
      | Some state =>
          let state' := update_state now (interval rule) state in
          let l' := <[id rule := state']> l in
          mret (inl (if exceeds state' rule then Storing l' (Some rule) else AtRule rest (Some l')))
      end
  | Storing l result => _ ← regex_db_set (r_ip q) l; mret (inr result)
  end.

(** A request alone, with fuel for its accesses. *)
Fixpoint alone (fuel : nat) (q : request) (p : position) : M (option RatedRegex) :=
  match fuel with
  | O => lift (Fault StackOverflow)
  | S fuel' => r ← advance q p; match r with inl p' => alone fuel' q p' | inr result => mret result end
  end.

Definition fuel_for (rules : list RatedRegex) : nat := (2 * length rules + 2)%nat.

Lemma alone_S fuel q p env w :
  alone (S fuel) q p env w =
  match advance q p env w with
  | (Ret (inl p'), w') => alone fuel q p' env w'
  | (Ret (inr r), w') => (Ret r, w')
  | (Throw e, w') => (Throw e, w')
  | (Fault f, w') => (Fault f, w')
  end.
Proof.
  cbn [alone]. rewrite M_bind_eq. by destruct (advance q p env w) as [[[p'|r]| |] w'].
Qed.

(** Taken one after the other, the accesses are [try_match]. *)
Lemma alone_try_rules q rules : forall fuel st env w, (fuel_for rules <= fuel)%nat ->
  alone fuel q (AtRule rules st) env w =
  try_rules rules (total_no_of_rules m) (r_ip q) (r_record q) (r_host q) st env w.
Proof.
  unfold fuel_for. induction rules as [|rule rules IH]; intros fuel st env w Hf; cbn [length] in Hf.
  - destruct fuel as [|[|fuel]]; [lia..|]. rewrite alone_S. cbn [advance try_rules].
    destruct st as [[|s l]|]; try done. cbn [mret M_ret]. rewrite alone_S. cbn [advance].
    rewrite !M_bind_eq. unfold regex_db_set. by rewrite db_set_eq.
  - destruct fuel as [|[|fuel]]; [lia..|]. rewrite alone_S. cbn [advance try_rules].
    destruct (skips rule (r_host q)); [done|].
    destruct (FullMatch (r_record q) (re2_regex rule)); [|cbn [mret M_ret]; apply IH; lia].
    destruct (SFeqb _ _); [done|]. rewrite !M_bind_eq. cbn [gettimeofday query]. rewrite !M_bind_eq.
    destruct (retrieve (r_ip q) st env _) as [[[l0|]| |] w1] eqn:Er; cbn [mret M_ret]; [|apply IH; lia|done..].
    rewrite alone_S. cbn [advance]. destruct (resized _ l0 !! id rule) as [state|]; [|done].
    cbn [mret M_ret]. destruct (exceeds _ rule); [|apply IH; lia].
    destruct fuel as [|fuel]; [lia|]. rewrite alone_S. cbn [advance]. rewrite !M_bind_eq.
    unfold regex_db_set. by rewrite db_set_eq.
Qed.

(** ** Interleaving *)

Record state := MkState { world : World; inflight : list (request * position) }.

(** A hit that a request counts in its copy of the windows: the address, the
    number of the rule and the time. *)
Record hit := MkHit { h_ip : str; h_rule : nat; h_msec : Z }.

Definition counted (q : request) (p : position) : list hit :=
  match p with
  | LookedUp rule _ now _ => [MkHit (r_ip q) (id rule) now]
  | _ => []
  end.

(** A request starts, takes one access, or returns, under any answers of the
    locks and the clock; the rest of the program leaves the windows alone.  A
    step is labelled with the hits it counts. *)
Inductive step (s : state) : list hit -> state -> Prop :=
  | step_start q : step s [] (MkState (world s) (inflight s ++ [(q, AtRule (rated_banning_regexes m) None)]))
  | step_advance env before q p after p' w' :
      inflight s = before ++ (q, p) :: after -> advance q p env (world s) = (Ret (inl p'), w') ->
      step s (counted q p) (MkState w' (before ++ (q, p') :: after))
  | step_return env before q p after r w' :
      inflight s = before ++ (q, p) :: after -> advance q p env (world s) = (Ret (inr r), w') ->
      step s [] (MkState w' (before ++ after))
  | step_other w' : same_rates (world s) w' -> step s [] (MkState w' (inflight s)).

(** A state that can be reached, with the hits counted on the way. *)
Inductive reachable : list hit -> state -> Prop :=
  | reach_start w : regex_manager_ip_db w = ∅ -> reachable [] (MkState w [])
  | reach_step log hs s s' : reachable log s -> step s hs s' -> reachable (log ++ hs) s'.

(** ** Invariant *)

Abbreviation total := (total_no_of_rules m).

Definition rule_ok (r : RatedRegex) : Prop := (id r < total)%nat /\ 0 <= interval r.

Definition position_ok (p : position) : Prop :=
  match p with
  | AtRule rules st => Forall rule_ok rules /\ (forall l, st = Some l -> vec_ok total l)
  | LookedUp rule rest _ l => rule_ok rule /\ Forall rule_ok rest /\ vec_ok total l
  | Storing l _ => vec_ok total l
  end.

(** An access returns and keeps the windows in shape. *)
Lemma advance_ok q p env w : db_ok total w -> position_ok p ->
  exists r w', advance q p env w = (Ret r, w') /\ db_ok total w' /\
    match r with inl p' => position_ok p' | inr _ => True end.
Proof.
  intros Hw. destruct p as [[|rule rest] st|rule rest now l0|l res]; cbn [advance position_ok].
  - intros [_ Hst]. destruct st as [[|s l]|]; [by do 2 eexists| |by do 2 eexists].
    do 2 eexists. split; [reflexivity|]. split; [done|]. by apply Hst.
  - intros [Hr Hst]. apply Forall_cons in Hr as [Hr Hrest].
    destruct (skips rule (r_host q)); [by do 2 eexists|].
    destruct (FullMatch _ _); [|by do 2 eexists; split_and!].
    destruct (SFeqb _ _); [by do 2 eexists|]. rewrite M_bind_eq. cbn [gettimeofday query]. rewrite M_bind_eq.
    destruct (retrieve_ok total (r_ip q) st env (with_tick (S (tick w)) w) Hw Hst) as ([l0|] & w1 & -> & Hw1 & Hl0).
    + do 2 eexists. split; [reflexivity|]. split; [done|]. split_and!; [done|done|]. by apply Hl0.
    + by do 2 eexists.
  - intros (Hr & Hrest & Hl). destruct (vec_ok_resized total l0 Hl) as [Hv Hlen].
    destruct (resized total l0 !! id rule) as [state|] eqn:El.
    2: { apply lookup_ge_None in El. destruct Hr. lia. }
    do 2 eexists. split; [reflexivity|]. split; [done|].
    assert (Hv' : vec_ok total (<[id rule := update_state now (interval rule) state]> (resized total l0))).
    { apply vec_ok_insert; [done|]. apply update_state_pos; [apply Hr|]. by eapply vec_ok_lookup. }
    destruct (exceeds _ rule); cbn [position_ok]; [done|]. split; [done|]. by intros l [= <-].
  - intros Hl. rewrite M_bind_eq. destruct (regex_set_ok total (r_ip q) l env w Hw Hl) as (r & w' & -> & Hw').
    by do 2 eexists.
Qed.

Definition state_ok (s : state) : Prop :=
  db_ok total (world s) /\ Forall (fun x => position_ok (snd x)) (inflight s).

Lemma step_state_ok s hs s' : Forall rule_ok (rated_banning_regexes m) -> state_ok s -> step s hs s' -> state_ok s'.
Proof.
  intros Hrules [Hw Hp] Hstep. unfold state_ok.
  destruct Hstep as [q|env before q p after p' w' Ei E|env before q p after r w' Ei E|w' Hs];
    cbn [world inflight].
  - split; [done|]. apply Forall_app. split; [done|]. by repeat constructor.
  - rewrite Ei in Hp. apply Forall_app in Hp as [Hb Ha]. apply Forall_cons in Ha as [Hq Ha].
    destruct (advance_ok q p env (world s) Hw Hq) as (r & w1 & E' & Hw1 & Hr). rewrite E in E'.
    injection E' as <- <-. split; [done|]. apply Forall_app. split; [done|]. by constructor.
  - rewrite Ei in Hp. apply Forall_app in Hp as [Hb Ha]. apply Forall_cons in Ha as [Hq Ha].
    destruct (advance_ok q p env (world s) Hw Hq) as (r' & w1 & E' & Hw1 & _). rewrite E in E'.
    injection E' as _ <-. split; [done|]. by apply Forall_app.
  - split; [|done]. unfold db_ok. by rewrite Hs.
Qed.

Lemma reachable_state_ok log s : Forall rule_ok (rated_banning_regexes m) -> reachable log s -> state_ok s.
Proof.
  intros Hrules. induction 1 as [w Hw|log hs s s' _ IH Hs]; [|by eapply step_state_ok].
  split; [|constructor]. unfold db_ok. cbn [world]. rewrite Hw. apply map_Forall_empty.
Qed.

(** The accesses a request has left at most. *)
Definition accesses_left (p : position) : nat :=
  match p with
  | AtRule rules _ => 2 * length rules + 2
  | LookedUp _ rest _ _ => 2 * length rest + 3
  | Storing _ _ => 1
  end.

Lemma advance_decreases q p env w p' w' :
  advance q p env w = (Ret (inl p'), w') -> (accesses_left p' < accesses_left p)%nat.
Proof.
  destruct p as [[|rule rest] st|rule rest now l0|l res]; cbn [advance].
  - destruct st as [[|s l]|]; [done| |done]. intros [= <- _]. cbn. lia.
  - destruct (skips rule (r_host q)); [done|].
    destruct (FullMatch _ _); [|intros [= <- _]; cbn; lia]. destruct (SFeqb _ _); [done|].
    rewrite M_bind_eq. cbn [gettimeofday query]. rewrite M_bind_eq.
    destruct (retrieve _ _ _ _) as [[[l0|]| |] w1]; [| |done..]; intros [= <- _]; cbn; lia.
  - destruct (_ !! id rule); [|done]. intros [= <- _]. destruct (exceeds _ rule); cbn; lia.
  - rewrite M_bind_eq. unfold regex_db_set. by rewrite db_set_eq.
Qed.

(** C15. Requests in several threads: for a manager read from any configuration,
    however the requests of any addresses interleave between their accesses to
    the windows, and whatever the locks and the clock do, every vector has one
    window per rule and no negative rate, and the next access of every request
    neither indexes a vector out of range nor throws, and leaves it fewer
    accesses, of two for each rule and two more. *)
Theorem rates_safe `{Yaml} (cfg : node) (log : list hit) (s : state) :
  load_config cfg = Ret m -> reachable log s ->
  db_ok (total_no_of_rules m) (world s) /\
  forall q p env, (q, p) ∈ inflight s ->
    exists r w', advance q p env (world s) = (Ret r, w') /\
      match r with inl p' => (accesses_left p' < accesses_left p)%nat | inr _ => True end.
Proof.
  intros Hm%load_config_ok [Hw Hp]%reachable_state_ok; [|done]. split; [done|].
  intros q p env Hin. rewrite Forall_forall in Hp.
  destruct (advance_ok q p env (world s) Hw (Hp _ Hin)) as (r & w' & E & _). exists r, w'. split; [done|].
  destruct r as [p'|]; [|done]. by eapply advance_decreases.
Qed.

End Manager.

(** ** A sample: one request in front of the rule, another about to store *)

Section Sample.
#[local] Existing Instance literal_re2.

Definition sample_hit : request := MkRequest (lit "10.0.0.7") (lit "GET / h ua") (lit "h").
Definition start : position := AtRule (rated_banning_regexes sample_manager) None.
Definition go (p : position) (w : World) := advance sample_manager sample_hit p SwabberOps.sample_env w.

Definition looked : position := LookedUp (make_rule 0 (lit "dos") (lit "GET / h ua") 60 7 []) [] 1000000 [].
Definition w_looked : World := snd (go start (SwabberOps.sample_world 0)).

Lemma rates_safe_witness : exists r w',
  advance sample_manager sample_hit looked SwabberOps.sample_env w_looked = (Ret r, w') /\
  match r with inl p' => (accesses_left p' < accesses_left looked)%nat | inr _ => True end.
Proof.
  destruct (rates_safe (H := tree_yaml) sample_manager (TSeq [sample_rule (lit "60") (lit "7")])
    [] (MkState w_looked [(sample_hit, looked)])) as [_ Hs].
  - vm_compute. reflexivity.
  - apply (reach_step sample_manager [] [] (MkState (SwabberOps.sample_world 0) [(sample_hit, start)])).
    + apply (reach_step sample_manager [] [] (MkState (SwabberOps.sample_world 0) [])).
      * by apply reach_start.
      * apply (step_start sample_manager (MkState (SwabberOps.sample_world 0) []) sample_hit).
    + apply (step_advance sample_manager (MkState (SwabberOps.sample_world 0) [(sample_hit, start)])
        SwabberOps.sample_env [] sample_hit start [] looked w_looked); [reflexivity|vm_compute; reflexivity].
  - apply Hs. by constructor.
Defined.
End Sample.
End Rates.
