(* ===== verification/Hits.v ===== *)
(** * Hits: what the rates count when requests interleave

    A request adds its hit to a copy of the windows of its address and stores
    the copy later (src/regex_manager.cpp), so that of two overlapping requests
    one overwrites the other.  Here every window is traced back to hits that
    were really counted: interleaving loses hits, and never invents one or counts
    one twice, so that no rule bans on fewer hits than it does when the requests
    come one after the other; and when they do, the number of hits it takes is the
    configured one or one more. *)

From S2P Require Import Prelude Util WhiteList IpDb Yaml Float World Swabber RegexManager Rates.

Local Open Scope Z_scope.

Module Hits.
Import RegexManager Rates.

(** The window after hits at these times. *)
Definition window_of (iv : Z) (ts : list Z) : RegexState :=
  fold_left (fun s t => update_state t iv s) ts regex_state0.

(** The times of the hits of an address on a rule, in the order of counting. *)
Definition times (log : list hit) (ip : str) (i : nat) : list Z :=
  map h_msec (filter (fun h => h_ip h = ip /\ h_rule h = i) log).

Lemma times_app log log' ip i : times (log ++ log') ip i = times log ip i ++ times log' ip i.
Proof. unfold times. by rewrite filter_app, map_app. Qed.

Lemma window_of_snoc iv ts t : window_of iv (ts ++ [t]) = update_state t iv (window_of iv ts).
Proof. unfold window_of. by rewrite fold_left_app. Qed.

(** ** Hits of one interval *)

(** One more hit that does not move the window. *)
Definition one_more (iv : Z) (x : spec_float) : spec_float :=
  Float.to_float (Float.add64 (Float.to_double x) (per_interval iv)).

(** The rate after [k] such hits. *)
Definition after (k : nat) (iv : Z) : spec_float := Nat.iter k (one_more iv) Float.zero.

Lemma no_movement T iv t b :
  0 <= iv < 2 ^ 32 -> T <= t <= T + iv -> T <= b <= T + iv -> s64 (u64 (t - b) - iv) = t - b - iv.
Proof.
  intros Hiv Ht Hb. unfold s64, u64.
  replace ((t - b) mod 2 ^ 64 - iv + 2 ^ 63) with ((t - b) mod 2 ^ 64 + (2 ^ 63 - iv)) by lia.
  rewrite Zplus_mod_idemp_l, Z.mod_small; lia.
Qed.

Lemma update_in T iv t s :
  0 < T -> T + iv < 2 ^ 63 -> 0 <= iv < 2 ^ 32 -> T <= t <= T + iv ->
  begin_msec s = 0 \/ T <= begin_msec s <= T + iv ->
  T <= begin_msec (update_state t iv s) <= T + iv /\
  rate (update_state t iv s) = one_more iv (rate s).
Proof.
  intros HT HT2 Hiv Ht Hb. unfold update_state.
  set (b := if begin_msec s =? 0 then u64 t else begin_msec s).
  assert (Hb' : T <= b <= T + iv).
  { unfold b, u64. destruct (Z.eqb_spec (begin_msec s) 0); [rewrite Z.mod_small; lia|lia]. }
  rewrite (no_movement T) by done. destruct (Z.ltb_spec 0 (t - b - iv)); [lia|]. done.
Qed.

(** Hits within one interval are counted whatever their times. *)
Lemma window_in T iv ts :
  0 < T -> T + iv < 2 ^ 63 -> 0 <= iv < 2 ^ 32 -> Forall (fun t => T <= t <= T + iv) ts ->
  rate (window_of iv ts) = after (length ts) iv.
Proof.
  intros HT HT2 Hiv Hts.
  enough ((begin_msec (window_of iv ts) = 0 \/ T <= begin_msec (window_of iv ts) <= T + iv) /\
    rate (window_of iv ts) = after (length ts) iv) by tauto.
  induction ts as [|t ts IH] using rev_ind; [by split; [left|]|].
  apply Forall_app in Hts as [Hts [Ht _]%Forall_cons]. destruct (IH Hts) as [Hb Hr].
  rewrite window_of_snoc, length_app, Nat.add_1_r.
  change (after (S (length ts)) iv) with (one_more iv (after (length ts) iv)). rewrite <- Hr.
  destruct (update_in T iv t (window_of iv ts)) as [Hb' ->]; [done..|]. split; [by right|done].
Qed.

(** The rates after none, one, ... hits. *)
Fixpoint rates (n : nat) (iv : Z) (x : spec_float) : list spec_float :=
  match n with
  | O => []
  | S n' => x :: rates n' iv (one_more iv x)
  end.

Lemma rates_lookup n iv x k : (k < n)%nat -> rates n iv x !! k = Some (Nat.iter k (one_more iv) x).
Proof.
  revert k x; induction n as [|n IH]; intros [|k] x Hk; [lia|lia|done|]. cbn [rates lookup list_lookup].
  rewrite IH by lia. by rewrite <- Nat.iter_succ_r.
Qed.

(** Fewer hits than configured do not reach the rate, computed for the usual
    intervals. *)
Definition too_few (iv : Z) : bool :=
  let table := rates 30 (u32 (iv * 1000)) Float.zero in
  forallb (fun hits => let r := rule_rate (make_rule 0 [] [] iv (Z.of_nat hits) []) in
                       forallb (fun x => negb (SFleb r x)) (take hits table)) (seq 1 30).

Definition usual_intervals : list Z := [1; 5; 10; 30; 60; 120; 300; 600; 3600].

Lemma too_few_table : forallb too_few usual_intervals = true.
Proof. vm_compute. reflexivity. Qed.

Lemma too_few_hits iv hits k :
  iv ∈ usual_intervals -> (1 <= hits <= 30)%nat ->
  SFleb (rule_rate (make_rule 0 [] [] iv (Z.of_nat hits) [])) (after k (u32 (iv * 1000))) = true -> (hits <= k)%nat.
Proof.
  intros Hiv Hh Hk. destruct (Nat.le_gt_cases hits k) as [|Hlt]; [done|exfalso].
  pose proof too_few_table as H. rewrite forallb_forall in H.
  specialize (H iv (proj1 (list_elem_of_In _ _) Hiv)). unfold too_few in H. rewrite forallb_forall in H.
  specialize (H hits ltac:(apply in_seq; lia)). cbv zeta in H. rewrite forallb_forall in H.
  specialize (H (after k (u32 (iv * 1000)))). rewrite Hk in H. discriminate H.
  apply list_elem_of_In, list_elem_of_lookup. exists k. rewrite lookup_take_lt by done.
  apply rates_lookup. lia.
Qed.

(** One hit more than configured reaches the rate, which is not zero. *)
Definition enough (iv : Z) : bool :=
  let table := rates 32 (u32 (iv * 1000)) Float.zero in
  forallb (fun hits => let r := rule_rate (make_rule 0 [] [] iv (Z.of_nat hits) []) in
             negb (SFeqb r Float.zero) && SFleb r (default Float.zero (table !! S hits))) (seq 1 30).

Lemma enough_table : forallb enough usual_intervals = true.
Proof. vm_compute. reflexivity. Qed.

Lemma enough_hits iv hits :
  iv ∈ usual_intervals -> (1 <= hits <= 30)%nat ->
  let r := rule_rate (make_rule 0 [] [] iv (Z.of_nat hits) []) in
  SFeqb r Float.zero = false /\ SFleb r (after (S hits) (u32 (iv * 1000))) = true.
Proof.
  intros Hiv Hh r. pose proof enough_table as H. rewrite forallb_forall in H.
  specialize (H iv (proj1 (list_elem_of_In _ _) Hiv)). unfold enough in H. rewrite forallb_forall in H.
  specialize (H hits ltac:(apply in_seq; lia)). cbv zeta in H. rewrite rates_lookup in H by lia.
  apply andb_true_iff in H as [Hz Hl]. split; [by apply negb_true_iff in Hz|exact Hl].
Qed.

(** ** The hits of one address, one after the other *)

Section Served.
Context {R2 : Re2} (m : RegexManager) (rule : RatedRegex) (ip : str) (T : Z).

(** A request that reaches the rule and matches it alone. *)
Definition hits_rule (ats host : str) : Prop :=
  exists pre post, rated_banning_regexes m = pre ++ rule :: post /\
    Forall (fun r => skips r host = false /\ FullMatch ats (re2_regex r) = false) (pre ++ post) /\
    skips rule host = false /\ FullMatch ats (re2_regex rule) = true.

(** Locks are free, and the clock stays within one interval. *)
Definition within (env : Env) : Prop :=
  uncontended env /\
  forall n, T <= time_msec (env_sec env n) (env_usec env n) <= T + interval rule.

(** The answers to the requests of the address so far: it starts without a
    record, and whatever else happens leaves its record alone. *)
Inductive served : list (option RatedRegex) -> World -> Prop :=
| served_none w : regex_manager_ip_db w !! ip = None -> served [] w
| served_hit l w w0 env ats host r w' :
    served l w -> regex_manager_ip_db w0 !! ip = regex_manager_ip_db w !! ip ->
    within env -> hits_rule ats host -> try_match m ip ats host env w0 = (Ret r, w') ->
    served (l ++ [r]) w'.

(** Rules that do not match are passed over. *)
Lemma try_rules_pass rules rest total ats host st env w :
  Forall (fun r => skips r host = false /\ FullMatch ats (re2_regex r) = false) rules ->
  try_rules (rules ++ rest) total ip ats host st env w = try_rules rest total ip ats host st env w.
Proof. induction 1 as [|r rules [Hs Hf] _ IH]; cbn [app try_rules]; [done|]. by rewrite Hs, Hf. Qed.

(** A hit whose record is [l0] stores the record with one more hit, and bans
    when the new rate reaches that of the rule. *)
Lemma try_match_hit ats host env w state :
  let l := resized (total_no_of_rules m) (default [] (regex_manager_ip_db w !! ip)) in
  let state' := update_state (time_msec (env_sec env (tick w)) (env_usec env (tick w))) (interval rule) state in
  hits_rule ats host -> uncontended env -> SFeqb (rule_rate rule) Float.zero = false -> l !! id rule = Some state ->
  exists w', try_match m ip ats host env w = (Ret (if exceeds state' rule then Some rule else None), w') /\
    regex_manager_ip_db w' !! ip = Some (<[id rule := state']> l).
Proof.
  intros l state' (pre & post & Hm & [Hpre Hpost]%Forall_app & Hs & Hf) He Hz Hl. unfold try_match.
  rewrite Hm, try_rules_pass by done. cbn [try_rules]. rewrite Hs, Hf, Hz, M_bind_eq. cbn [gettimeofday query].
  rewrite M_bind_eq. cbn [retrieve]. unfold regex_db_get. rewrite db_get_eq, He. unfold IpDb.view.
  cbn [regex_manager_ip_db with_tick]. fold l. rewrite Hl. fold state'.
  assert (Hset : forall env' w1, uncontended env' ->
    exists w', regex_db_set ip (<[id rule := state']> l) env' w1 = (Ret true, w') /\
      regex_manager_ip_db w' !! ip = Some (<[id rule := state']> l)).
  { intros env' w1 He'. unfold regex_db_set. rewrite db_set_eq, He'. eexists. split; [reflexivity|].
    cbn. by rewrite lookup_insert_eq. }
  destruct (exceeds state' rule).
  - rewrite M_bind_eq. edestruct Hset as (w' & -> & Hw'); [exact He|]. by exists w'.
  - rewrite <- (app_nil_r post), try_rules_pass by done. cbn [try_rules].
    destruct (<[id rule := state']> l) as [|x l'] eqn:El.
    { apply (f_equal length) in El. rewrite length_insert in El. apply lookup_lt_Some in Hl. cbn in El. lia. }
    rewrite M_bind_eq. edestruct Hset as (w' & -> & Hw'); [exact He|]. by exists w'.
Qed.

(** The record of the address holds the window of its hits, and each answer is
    decided by the number of hits so far. *)
Lemma served_window l w :
  0 < T -> T + interval rule < 2 ^ 63 -> 0 <= interval rule < 2 ^ 32 -> (id rule < total_no_of_rules m)%nat ->
  SFeqb (rule_rate rule) Float.zero = false -> served l w ->
  (exists ts, length ts = length l /\ Forall (fun t => T <= t <= T + interval rule) ts /\
     resized (total_no_of_rules m) (default [] (regex_manager_ip_db w !! ip)) !! id rule
     = Some (window_of (interval rule) ts)) /\
  forall k r, l !! k = Some r ->
    r = if SFleb (rule_rate rule) (after (S k) (interval rule)) then Some rule else None.
Proof.
  intros HT HT2 Hiv Hid Hz. induction 1 as [w Hw|l w w0 env ats host r w' _ [(ts & Hlen & Hts & Hl) IH] Hw0 [He Ht] Hr E].
  { split; [|intros k r Hk; by rewrite lookup_nil in Hk]. exists []. rewrite Hw. cbn. split; [done|].
    split; [done|]. by rewrite lookup_replicate_2. }
  rewrite <- Hw0 in Hl. destruct (try_match_hit ats host env w0 _ Hr He Hz Hl) as (w1 & E1 & Hw1).
  rewrite E in E1. injection E1 as -> <-. set (t := time_msec _ _) in *. rewrite <- window_of_snoc in *.
  assert (Hts' : Forall (fun t => T <= t <= T + interval rule) (ts ++ [t]))
    by (apply Forall_app; split; [done|]; apply Forall_singleton, Ht).
  split.
  - exists (ts ++ [t]). rewrite !length_app, Hlen. split; [done|]. split; [done|]. rewrite Hw1.
    pose proof (list_lookup_insert_eq _ _ (window_of (interval rule) (ts ++ [t])) (lookup_lt_Some _ _ _ Hl)) as Hl'.
    change (default [] (Some ?x)) with x. destruct (<[_ := _]> _) as [|x l']; [by rewrite lookup_nil in Hl'|exact Hl'].
  - intros k r [Hk|[Hk Hr']]%lookup_app_Some; [by apply IH|].
    destruct (k - length l)%nat as [|j] eqn:Ej; [|done]. injection Hr' as <-. unfold exceeds.
    rewrite (window_in T) by done. rewrite length_app, Hlen. cbn [length]. by replace (length l + 1)%nat with (S k) by lia.
Qed.

End Served.

(** C39. The rates implement the thresholds to one hit: for a rule of any
    configuration with a usual interval and one to thirty hits, whatever the
    moments of one interval at which the requests of an address that had no record
    match this rule and no other, and whatever happens in between that leaves the
    address's record alone, no request before the configured one is turned away,
    and the one after the configured one always is, each time by this rule.  The
    address's locks are free and the clock stays within the interval. *)
Theorem hits_threshold `{Re2} `{Yaml} (cfg : node) (m : RegexManager) (new_id : nat) (rname regex : str) (iv : Z)
    (hits : nat) (skip : list str) (ip : str) (T : Z) (l : list (option RatedRegex)) (w : World) :
  let rule := make_rule new_id rname regex iv (Z.of_nat hits) skip in
  load_config cfg = Ret m -> rule ∈ rated_banning_regexes m -> iv ∈ usual_intervals -> (1 <= hits <= 30)%nat ->
  0 < T -> T + interval rule < 2 ^ 63 -> served m rule ip T l w ->
  (forall k r, l !! k = Some (Some r) -> r = rule /\ (hits <= S k)%nat) /\
  ((hits < length l)%nat -> l !! hits = Some (Some rule)).
Proof.
  intros rule Hm Hin Hiv Hh HT HT2 Hs. destruct (enough_hits iv hits Hiv Hh) as [Hz He].
  assert (Hr : 0 <= interval rule < 2 ^ 32) by (apply Z.mod_pos_bound; lia).
  pose proof (load_config_ok cfg m Hm) as Hok. rewrite Forall_forall in Hok.
  destruct (served_window m rule ip T l w HT HT2 Hr (proj1 (Hok _ Hin)) Hz Hs) as [_ Hl]. split.
  - intros k r Hk%Hl. destruct (SFleb (rule_rate rule) (after (S k) (interval rule))) eqn:E; [|done].
    injection Hk as ->. split; [done|]. by apply (too_few_hits iv).
  - intros Hlen. destruct (lookup_lt_is_Some_2 l hits Hlen) as [r Er]. rewrite Er. f_equal.
    apply Hl in Er as ->. change (SFleb (rule_rate rule) (after (S hits) (interval rule)) = true) in He. by rewrite He.
Qed.

Section Manager.
Context {R2 : Re2} (m : RegexManager).

(** Rules are numbered by their position. *)
Definition numbered : Prop := forall i r, rated_banning_regexes m !! i = Some r -> id r = i.

(** The windows of a vector are made of some of the hits of the address. *)
Definition explained (log : list hit) (ip : str) (l : list RegexState) : Prop :=
  forall r, r ∈ rated_banning_regexes m ->
  exists ts, ts `sublist_of` times log ip (id r) /\
    default regex_state0 (l !! id r) = window_of (interval r) ts.

Definition of_manager (rules : list RatedRegex) : Prop := Forall (fun r => r ∈ rated_banning_regexes m) rules.

Definition position_explained (log : list hit) (ip : str) (p : position) : Prop :=
  match p with
  | AtRule rules st => of_manager rules /\ (forall l, st = Some l -> explained log ip l)
  | LookedUp rule rest _ l => of_manager (rule :: rest) /\ explained log ip l
  | Storing l result =>
      explained log ip l /\
      forall r, result = Some r -> r ∈ rated_banning_regexes m /\
        exceeds (default regex_state0 (l !! id r)) r = true
  end.

Definition db_explained (log : list hit) (w : World) : Prop :=
  map_Forall (explained log) (regex_manager_ip_db w).

Lemma same_number r r' : numbered -> r ∈ rated_banning_regexes m -> r' ∈ rated_banning_regexes m ->
  id r = id r' -> r = r'.
Proof.
  intros Hn [i Hi]%list_elem_of_lookup [j Hj]%list_elem_of_lookup E.
  rewrite (Hn _ _ Hi), (Hn _ _ Hj) in E. congruence.
Qed.

Lemma explained_nil log ip : explained log ip [].
Proof. intros r _. exists []. split; [apply sublist_nil_l|done]. Qed.

Lemma explained_more log hs ip l : explained log ip l -> explained (log ++ hs) ip l.
Proof.
  intros H r Hr. destruct (H r Hr) as (ts & Hs & E). exists ts. split; [|done].
  rewrite times_app. by apply sublist_inserts_r.
Qed.

Lemma explained_resized log ip total l : explained log ip l -> explained log ip (resized total l).
Proof.
  destruct l as [|s l]; [|done]. intros _ r _. exists []. split; [apply sublist_nil_l|]. cbn [resized].
  destruct (replicate total regex_state0 !! id r) as [x|] eqn:E; [|done].
  by apply lookup_replicate in E as [-> _].
Qed.

(** A request adds its hit. *)
Lemma explained_hit log ip l rule now state :
  numbered -> rule ∈ rated_banning_regexes m -> explained log ip l -> l !! id rule = Some state ->
  explained (log ++ [MkHit ip (id rule) now]) ip (<[id rule := update_state now (interval rule) state]> l).
Proof.
  intros Hn Hrule H El r Hr. destruct (H r Hr) as (ts & Hs & E). rewrite times_app.
  destruct (decide (id r = id rule)) as [Ei|Ei].
  - apply same_number in Ei as ->; [|done..]. exists (ts ++ [now]).
    rewrite list_lookup_insert_eq by (by eapply lookup_lt_Some). rewrite El in E. cbn in E.
    rewrite window_of_snoc, <- E. split; [|done]. apply sublist_app; [done|].
    unfold times. rewrite filter_cons_True by done. done.
  - exists ts. rewrite list_lookup_insert_ne by done. split; [by apply sublist_inserts_r|done].
Qed.

Lemma position_more log hs ip p : position_explained log ip p -> position_explained (log ++ hs) ip p.
Proof.
  destruct p as [rules st|rule rest now l|l result]; cbn [position_explained].
  - intros [Hr Hst]. split; [done|]. intros l E. by apply explained_more, Hst.
  - intros [Hr Hl]. split; [done|]. by apply explained_more.
  - intros [Hl Hres]. split; [by apply explained_more|done].
Qed.

Lemma db_more log hs w : db_explained log w -> db_explained (log ++ hs) w.
Proof. intros H ip l E. by apply explained_more, (H ip). Qed.

Lemma retrieve_explained log ip st env w st' w' :
  db_explained log w -> (forall l, st = Some l -> explained log ip l) ->
  retrieve ip st env w = (Ret st', w') ->
  db_explained log w' /\ forall l, st' = Some l -> explained log ip l.
Proof.
  intros Hw Hst.
  assert (Hget : regex_db_get ip env w = (Ret st', w') ->
    db_explained log w' /\ forall l, st' = Some l -> explained log ip l).
  { unfold regex_db_get. rewrite db_get_eq. intros [= <- <-]. split; [done|]. intros l.
    destruct (env_lock env (tick w)); [|done]. intros [= <-]. unfold IpDb.view. cbn.
    destruct (regex_manager_ip_db w !! ip) as [l|] eqn:E; [by apply (Hw ip)|apply explained_nil]. }
  unfold retrieve. destruct st as [[|x l]|]; [exact Hget| |exact Hget]. intros [= <- <-]. by split.
Qed.

(** One access keeps windows and copies explained. *)
Lemma advance_explained log q p env w r w' :
  numbered -> db_explained log w -> position_explained log (r_ip q) p -> advance m q p env w = (Ret r, w') ->
  db_explained (log ++ counted q p) w' /\
  match r with inl p' => position_explained (log ++ counted q p) (r_ip q) p' | inr _ => True end.
Proof.
  intros Hn Hw. destruct p as [[|rule rest] st|rule rest now l0|l res]; cbn [advance position_explained counted];
    rewrite ?app_nil_r.
  - intros [_ Hst]. destruct st as [[|s l]|]; intros [= <- <-]; split; try done. split; [by apply Hst|done].
  - intros [Hr Hst]. destruct (skips rule (r_host q)); [by intros [= <- <-]|].
    destruct (FullMatch _ _).
    2: { intros [= <- <-]. split; [done|]. split; [by apply Forall_cons in Hr as [_ ?]|done]. }
    destruct (SFeqb _ _); [by intros [= <- <-]|]. rewrite M_bind_eq. cbn [gettimeofday query]. rewrite M_bind_eq.
    destruct (retrieve _ _ _ _) as [[st1| |] w1] eqn:Er; [|done..]. intros [= <- <-].
    destruct (retrieve_explained log _ _ _ (with_tick (S (tick w)) w) _ _ Hw Hst Er) as [Hw1 Hst1]. split; [done|].
    destruct st1 as [l0|]; cbn [position_explained]; [split; [done|by apply Hst1]|].
    split; [by apply Forall_cons in Hr as [_ ?]|done].
  - intros [[Hrule Hrest]%Forall_cons Hl]. destruct (_ !! id rule) as [state|] eqn:El; [|done]. intros [= <- <-].
    split; [by apply db_more|].
    pose proof (explained_hit log (r_ip q) _ rule now state Hn Hrule (explained_resized _ _ _ _ Hl) El) as Hx.
    destruct (exceeds _ rule) eqn:Ex; cbn [position_explained]; [|split; [done|by intros l [= <-]]].
    split; [done|]. intros r [= <-]. split; [done|].
    by rewrite list_lookup_insert_eq by (by eapply lookup_lt_Some).
  - intros [Hl _]. rewrite M_bind_eq. unfold regex_db_set. rewrite db_set_eq. intros [= <- <-]. split; [|done].
    unfold db_explained. cbn. destruct (env_lock env (tick w)); [|done]. by apply map_Forall_insert_2.
Qed.

Definition all_explained (log : list hit) (s : state) : Prop :=
  db_explained log (world s) /\
  Forall (fun x => position_explained log (r_ip (fst x)) (snd x)) (inflight s).

Lemma inflight_more log hs l :
  Forall (fun x => position_explained log (r_ip (fst x)) (snd x)) l ->
  Forall (fun x => position_explained (log ++ hs) (r_ip (fst x)) (snd x)) l.
Proof. intros H. eapply Forall_impl; [exact H|]. intros x. apply position_more. Qed.

Lemma reachable_explained log s : numbered -> reachable m log s -> all_explained log s.
Proof.
  intros Hn. induction 1 as [w Hw|log hs s s' _ [Hw Hp] Hs].
  { split; [|constructor]. unfold db_explained. cbn [world]. rewrite Hw. apply map_Forall_empty. }
  unfold all_explained.
  destruct Hs as [q|env before q p after p' w' Ei E|env before q p after r w' Ei E|w' Hs]; cbn [world inflight].
  - rewrite app_nil_r. split; [done|]. apply Forall_app. split; [done|]. repeat constructor; [|done].
    cbn. by apply Forall_forall.
  - rewrite Ei in Hp. apply Forall_app in Hp as [Hb [Hq Ha]%Forall_cons].
    destruct (advance_explained log q p env _ _ _ Hn Hw Hq E) as [Hw' Hp']. split; [done|].
    apply Forall_app. split; [by apply inflight_more|]. constructor; [done|by apply inflight_more].
  - rewrite Ei in Hp. apply Forall_app in Hp as [Hb [Hq Ha]%Forall_cons]. rewrite app_nil_r.
    assert (Ec : counted q p = []).
    { destruct p as [| |]; try done. cbn [advance] in E. by destruct (_ !! id rule). }
    destruct (advance_explained log q p env _ _ _ Hn Hw Hq E) as [Hw' _]. rewrite Ec, app_nil_r in Hw'.
    split; [done|]. by apply Forall_app.
  - rewrite app_nil_r. split; [|done]. unfold db_explained. by rewrite Hs.
Qed.

(** A rule with a rate that is returned has windows that reach it. *)
Lemma banned_window log q p env w r w' :
  position_explained log (r_ip q) p -> advance m q p env w = (Ret (inr (Some r)), w') ->
  SFeqb (rule_rate r) Float.zero = false ->
  exists ts, ts `sublist_of` times log (r_ip q) (id r) /\ exceeds (window_of (interval r) ts) r = true.
Proof.
  destruct p as [[|rule rest] st|rule rest now l0|l res]; cbn [advance position_explained].
  - by destruct st as [[|s l]|].
  - intros _ E Hz. revert E. destruct (skips rule (r_host q)); [done|]. destruct (FullMatch _ _); [|done].
    destruct (SFeqb (rule_rate rule) Float.zero) eqn:Ez.
    { intros E. injection E as -> _. by rewrite Hz in Ez. }
    rewrite M_bind_eq.
    cbn [gettimeofday query]. rewrite M_bind_eq. by destruct (retrieve _ _ _ _) as [[st1| |] w1].
  - intros _. by destruct (_ !! id rule).
  - intros [Hl Hres]. rewrite M_bind_eq. unfold regex_db_set. rewrite db_set_eq. intros [= ->] _.
    destruct (Hres r eq_refl) as [Hr Hx]. destruct (Hl r Hr) as (ts & Hs & E). exists ts. by rewrite <- E.
Qed.

(** C16. No hit is counted twice: however the requests of any addresses
    interleave, and whatever the locks and the clock do, a request that is
    turned away for the rate of a rule has a window that some of the hits of its
    address on this rule, in the order in which they were counted and each at
    most once, would have given one after the other; in particular, for the usual
    intervals and up to thirty hits, when the hits fall into one interval there
    are at least as many as the rule is configured with. *)
Theorem rate_ban_needs_hits `{Yaml} (cfg : node) (log : list hit) (s : state) (q : request) (p : position)
    (env : Env) (r : RatedRegex) (w' : World) :
  load_config cfg = Ret m -> reachable m log s -> (q, p) ∈ inflight s ->
  advance m q p env (world s) = (Ret (inr (Some r)), w') -> SFeqb (rule_rate r) Float.zero = false ->
  (exists ts, ts `sublist_of` times log (r_ip q) (id r) /\ exceeds (window_of (interval r) ts) r = true) /\
  forall T new_id rname regex iv hits skip,
    r = make_rule new_id rname regex iv (Z.of_nat hits) skip -> iv ∈ usual_intervals -> (1 <= hits <= 30)%nat ->
    0 < T -> T + interval r < 2 ^ 63 ->
    Forall (fun t => T <= t <= T + interval r) (times log (r_ip q) (id r)) ->
    (hits <= length (times log (r_ip q) (id r)))%nat.
Proof.
  intros Hm Hs Hin E Hz.
  assert (Hn : numbered) by (intros i x; by apply (load_config_numbered cfg)).
  destruct (reachable_explained log s Hn Hs) as [_ Hp]. rewrite Forall_forall in Hp.
  destruct (banned_window log q p env _ r w' (Hp _ Hin) E Hz) as (ts & Hsub & Hx).
  split; [by exists ts|]. intros T new_id rname regex iv hits skip -> Hiv Hh HT HT2 Hin2.
  assert (Hr : 0 <= u32 (iv * 1000) < 2 ^ 32) by (apply Z.mod_pos_bound; lia).
  etransitivity; [|by apply sublist_length]. apply (too_few_hits iv hits); [done..|].
  unfold exceeds in Hx. rewrite (window_in T) in Hx; [exact Hx|done|done|exact Hr|].
  rewrite Forall_forall in Hin2 |- *. intros t Ht. by eapply Hin2, elem_of_sublist.
Qed.

(** ** Schedules *)

(** The next access of the request at a position of [inflight]. *)
Definition turn (env : Env) (s : state) (n : nat) : option (list hit * state) :=
  match inflight s !! n with
  | None => None
  | Some (q, p) =>
      match advance m q p env (world s) with
      | (Ret (inl p'), w') => Some (counted q p, MkState w' (<[n := (q, p')]> (inflight s)))
      | (Ret (inr _), w') => Some ([], MkState w' (delete n (inflight s)))
      | _ => None
      end
  end.

Fixpoint schedule (env : Env) (ns : list nat) (log : list hit) (s : state) : option (list hit * state) :=
  match ns with
  | [] => Some (log, s)
  | n :: rest => match turn env s n with
                 | Some (hs, s') => schedule env rest (log ++ hs) s'
                 | None => None
                 end
  end.

Lemma turn_step env s n hs s' : turn env s n = Some (hs, s') -> step m s hs s'.
Proof.
  unfold turn. destruct (inflight s !! n) as [[q p]|] eqn:En; [|done].
  pose proof (take_drop_middle _ _ _ En) as Es. pose proof (lookup_lt_Some _ _ _ En).
  destruct (advance m q p env (world s)) as [[[p'|r]| |] w1] eqn:E; [| |done..]; intros [= <- <-].
  - rewrite insert_take_drop by done. by eapply step_advance.
  - rewrite delete_take_drop. by eapply step_return.
Qed.

Lemma schedule_reachable env ns log s log' s' :
  reachable m log s -> schedule env ns log s = Some (log', s') -> reachable m log' s'.
Proof.
  revert log s; induction ns as [|n ns IH]; intros log s Hr; cbn [schedule]; [by intros [= <- <-]|].
  destruct (turn env s n) as [[hs s1]|] eqn:E; [|done]. apply IH. eapply reach_step; [exact Hr|].
  by apply (turn_step env s n).
Qed.

End Manager.

(** ** Samples *)

Section Sample.
#[local] Existing Instance literal_re2.

(** Two requests of one address that have just started. *)
Definition two_started (m : RegexManager) : state :=
  MkState (SwabberOps.sample_world 0)
    [(sample_hit, AtRule (rated_banning_regexes m) None); (sample_hit, AtRule (rated_banning_regexes m) None)].

Lemma two_started_reachable m : reachable m [] (two_started m).
Proof.
  apply (reach_step m [] [] (MkState (SwabberOps.sample_world 0) [(sample_hit, AtRule (rated_banning_regexes m) None)])).
  - apply (reach_step m [] [] (MkState (SwabberOps.sample_world 0) [])); [by apply reach_start|].
    apply (step_start m (MkState (SwabberOps.sample_world 0) []) sample_hit).
  - apply (step_start m (MkState (SwabberOps.sample_world 0) [(sample_hit, _)]) sample_hit).
Qed.

(** Two requests that look up the windows before either has stored its copy: two
    hits are counted, and the stored window holds one of them. *)
Lemma lost_hit : exists log s,
  reachable sample_manager log s /\ length (times log (lit "10.0.0.7") 0) = 2%nat /\ inflight s = [] /\
  regex_manager_ip_db (world s) !! lit "10.0.0.7" = Some [window_of 60000 [1500000000250]].
Proof.
  destruct (schedule sample_manager still_env [0; 1; 0; 0; 0; 0; 0; 0]%nat [] (two_started sample_manager))
    as [[log s]|] eqn:E; [|vm_compute in E; discriminate].
  exists log, s. split; [by eapply schedule_reachable, E; apply two_started_reachable|].
  revert E. vm_compute. intros [= <- <-]. split_and!; vm_compute; reflexivity.
Qed.

Definition first_hit_bans : RegexManager := MkManager [make_rule 0 (lit "dos") (lit "GET / h ua") 60 1 []] 1.

Abbreviation first_banned := (schedule first_hit_bans still_env [0; 0]%nat [] (two_started first_hit_bans)).

Lemma rate_ban_needs_hits_witness : exists log s,
  first_banned = Some (log, s) /\ (1 <= length (times log (lit "10.0.0.7") 0))%nat.
Proof.
  destruct first_banned as [[log s]|] eqn:E; [|vm_compute in E; discriminate].
  exists log, s. split; [reflexivity|].
  assert (Hr : reachable first_hit_bans log s)
    by (eapply schedule_reachable; [apply two_started_reachable|exact E]).
  revert E. vm_compute. intros [= <- <-].
  match type of Hr with reachable _ ?log ?s =>
    edestruct (rate_ban_needs_hits (H := tree_yaml) first_hit_bans (TSeq [sample_rule (lit "60") (lit "1")])
      log s sample_hit (snd (hd (sample_hit, AtRule [] None) (inflight s))) still_env
      (make_rule 0 (lit "dos") (lit "GET / h ua") 60 1 [])) as [_ H]
  end.
  - vm_compute. reflexivity.
  - exact Hr.
  - apply list_elem_of_here.
  - vm_compute. reflexivity.
  - vm_compute. reflexivity.
  - apply (H 1500000000000 0%nat (lit "dos") (lit "GET / h ua") 60 1%nat []).
    + reflexivity.
    + apply (bool_decide_unpack _). vm_compute. exact I.
    + lia.
    + lia.
    + vm_compute. reflexivity.
    + apply Forall_singleton. vm_compute. split; discriminate.
Defined.

(** The answers to requests one after the other. *)
Fixpoint answers (n : nat) (m : RegexManager) (q : request) (l : list (option RatedRegex)) (w : World)
    : option (list (option RatedRegex) * World) :=
  match n with
  | O => Some (l, w)
  | S n' => match try_match m (r_ip q) (r_record q) (r_host q) still_env w with
            | (Ret r, w') => answers n' m q (l ++ [r]) w'
            | _ => None
            end
  end.

Lemma answers_served n m rule T q l w l' w' :
  within rule T still_env -> hits_rule m rule (r_record q) (r_host q) -> served m rule (r_ip q) T l w ->
  answers n m q l w = Some (l', w') -> served m rule (r_ip q) T l' w'.
Proof.
  intros Hi Hr. revert l w; induction n as [|n IH]; intros l w Hs; cbn [answers]; [by intros [= <- <-]|].
  destruct (try_match _ _ _ _ _ _) as [[r| |] w1] eqn:E; [|done..]. apply IH. by eapply served_hit.
Qed.

(** Seven hits per minute, in [float]: the seventh hit does not reach the rate. *)
Lemma seven_per_minute :
  option_map fst (answers 8 sample_manager sample_hit [] (SwabberOps.sample_world 0))
  = Some (replicate 7 None ++ [Some (make_rule 0 (lit "dos") (lit "GET / h ua") 60 7 [])]).
Proof. vm_compute. reflexivity. Qed.

Abbreviation eight := (answers 8 sample_manager sample_hit [] (SwabberOps.sample_world 0)).

Lemma hits_threshold_witness : exists l w, eight = Some (l, w) /\ length l = 8%nat /\
  l !! 7%nat = Some (Some (make_rule 0 (lit "dos") (lit "GET / h ua") 60 7 [])).
Proof.
  destruct eight as [[l w]|] eqn:E; [|vm_compute in E; discriminate]. exists l, w. split; [reflexivity|].
  assert (Hlen : length l = 8%nat).
  { pose proof seven_per_minute as H. rewrite E in H. injection H as ->. reflexivity. }
  split; [exact Hlen|].
  apply (hits_threshold (H0 := tree_yaml) (TSeq [sample_rule (lit "60") (lit "7")]) sample_manager 0
    (lit "dos") (lit "GET / h ua") 60 7 [] (lit "10.0.0.7") 1500000000000 l w).
  - vm_compute. reflexivity.
  - apply list_elem_of_here.
  - apply (bool_decide_unpack _). vm_compute. exact I.
  - lia.
  - lia.
  - vm_compute. reflexivity.
  - eapply (answers_served 8 sample_manager _ _ sample_hit); [| |apply (served_none _ _ _ _ (SwabberOps.sample_world 0)); reflexivity|exact E].
    + split; [intros n; reflexivity|]. intros n. vm_compute. split; discriminate.
    + exists [], []. split_and!; [reflexivity|constructor|reflexivity|vm_compute; reflexivity].
  - rewrite Hlen. lia.
Defined.

End Sample.
End Hits.
