(* ===== verification/Reports.v ===== *)
(** * Reports: what Banjax tells Kafka (src/banjax.cpp, src/kafka.cpp)

    The reports of [Banjax] on challenges and bans.  A message is a JSON object,
    a finite map from field names; [send_message] asks the outside whether the
    Kafka producer took it. *)

From S2P Require Import Prelude Util WhiteList IpDb Yaml Float World Swabber.

Local Open Scope Z_scope.

Module Reports.

(** [KafkaProducer::send_message]. *)
Definition send_message (message : json_object) : M Z :=
  ok ← query env_kafka;
  if (ok : bool) then _ ← emit (KafkaSend message); mret 0 else mret (-1).

(** [message["value_challenger_db"] = ...]. *)
Definition challenger_db_value (challenger_ip_state : option Z) : json :=
  match challenger_ip_state with
  | Some n => JInt n
  | None => JNull
  end.

Section WithHost.
Context (host_name : str).

(** The three messages about an address and a site differ in their name. *)
Definition site_message (msg_name site ip : str) (st : option Z) : json_object :=
  <[lit "value_challenger_db" := challenger_db_value st]>
  (<[lit "value_site" := JString site]>
  (<[lit "value_ip" := JString ip]>
  (<[lit "name" := JString msg_name]>
  (<[lit "id" := JString host_name]> ∅)))).

Definition report_pass_or_failure (site ip : str) (passed : bool) : M Z :=
  producer ← gets kafka_producer;
  if negb producer then mret (-1)
  else
    challenger_ip_state ← challenger_db_get ip;
    send_message (site_message (if passed then lit "ip_passed_challenge" else lit "ip_failed_challenge")
                    site ip challenger_ip_state).

Definition report_pass_or_failure2 (site ip : str) (passed : bool) : M Z :=
  producer ← gets kafka_producer;
  if negb producer then mret (-1)
  else
    challenger_ip_state ← challenger_db_get ip;
    send_message (site_message (if passed then lit "ip_passed_challenge2" else lit "ip_failed_challenge2")
                    site ip challenger_ip_state).

Definition report_ip_banned (site ip : str) : M Z :=
  producer ← gets kafka_producer;
  if negb producer then mret (-1)
  else
    challenger_ip_state ← challenger_db_get ip;
    send_message (site_message (lit "ip_banned") site ip challenger_ip_state).

Definition report_if_ip_in_database (ip : str) : M Z :=
  producer ← gets kafka_producer;
  if negb producer then mret (-1)
  else
    challenger_ip_state ← challenger_db_get ip;
    send_message
      (<[lit "value_challenger_db" := challenger_db_value challenger_ip_state]>
       (<[lit "value_ip" := JString ip]> (<[lit "name" := JString (lit "ip_in_database")]> ∅))).

End WithHost.

(** ** Framing: a report changes nothing but the clock and the trace *)

Definition reports_only (w w' : World) : Prop :=
  swabber_ip_db w' = swabber_ip_db w /\ challenger_ip_db w' = challenger_ip_db w /\
  regex_manager_ip_db w' = regex_manager_ip_db w /\ swabber w' = swabber w /\
  host_to_challenge_dynamic w' = host_to_challenge_dynamic w /\
  ip_to_challenge_dynamic w' = ip_to_challenge_dynamic w.

#[global] Instance reports_only_preorder : PreOrder reports_only.
Proof.
  split; unfold reports_only; [done|]. intros w1 w2 w3 (?&?&?&?&?&?) (?&?&?&?&?&?).
  repeat split; congruence.
Qed.

Lemma reports_only_query {A} (f : Env -> nat -> A) : preserves reports_only (query f).
Proof. by intros env w. Qed.
Lemma reports_only_emit e : preserves reports_only (emit e).
Proof. by intros env w. Qed.
Lemma reports_only_db_get {V} (d : V) get ip : preserves reports_only (db_get d get ip).
Proof. by intros env w. Qed.
#[export] Hint Resolve reports_only_query reports_only_emit reports_only_db_get : frame.

Lemma reports_only_send m : preserves reports_only (send_message m).
Proof. unfold send_message. frame. Qed.
#[export] Hint Resolve reports_only_send : frame.

Lemma reports_only_pof h s ip b : preserves reports_only (report_pass_or_failure h s ip b).
Proof. unfold report_pass_or_failure. frame. Qed.
Lemma reports_only_pof2 h s ip b : preserves reports_only (report_pass_or_failure2 h s ip b).
Proof. unfold report_pass_or_failure2. frame. Qed.
Lemma reports_only_if_in_db ip : preserves reports_only (report_if_ip_in_database ip).
Proof. unfold report_if_ip_in_database. frame. Qed.

Lemma reports_only_same_but ip w w' : reports_only w w' -> same_but ip w w'.
Proof. intros (E1&E2&E3&_) ip' _. by rewrite E1, E2, E3. Qed.

Lemma same_but_pof ip0 h s ip b : preserves (same_but ip0) (report_pass_or_failure h s ip b).
Proof. intros env w. apply reports_only_same_but, reports_only_pof. Qed.
Lemma same_but_pof2 ip0 h s ip b : preserves (same_but ip0) (report_pass_or_failure2 h s ip b).
Proof. intros env w. apply reports_only_same_but, reports_only_pof2. Qed.

(** Reports never fail. *)
Lemma send_message_returns m env w : exists r, fst (send_message m env w) = Ret r.
Proof. unfold send_message. run_M. by destruct (env_kafka env (tick w)); eexists. Qed.

Ltac report_returns :=
  rewrite M_bind_eq; cbn [gets];
  match goal with |- context [kafka_producer ?w] => destruct (kafka_producer w) end; cbn [negb]; [|by eexists];
  rewrite M_bind_eq; unfold challenger_db_get; rewrite db_get_eq; apply send_message_returns.

Lemma pof_returns h s ip b env w : exists r, fst (report_pass_or_failure h s ip b env w) = Ret r.
Proof. unfold report_pass_or_failure. report_returns. Qed.

Lemma pof2_returns h s ip b env w : exists r, fst (report_pass_or_failure2 h s ip b env w) = Ret r.
Proof. unfold report_pass_or_failure2. report_returns. Qed.

Lemma if_in_db_returns ip env w : exists r, fst (report_if_ip_in_database ip env w) = Ret r.
Proof. unfold report_if_ip_in_database. report_returns. Qed.

End Reports.

#[export] Hint Resolve Reports.same_but_pof Reports.same_but_pof2 Reports.reports_only_pof
  Reports.reports_only_pof2 Reports.reports_only_if_in_db Reports.reports_only_query
  Reports.reports_only_db_get Reports.reports_only_emit : frame.
