(* ===== verification/Kafka.v ===== *)
(** * Kafka: the producer's configuration and the consumer thread (src/kafka.cpp)

    The consumer runs in a thread of its own: it loads the stored configuration
    under a lock, consumes messages until the configuration is no longer valid,
    and starts again.  Reloads and the shutdown come from other threads.  The
    states of the thread and the shared members are one state; [step]
    interleaves the thread with the others.  What happens under the lock and is
    read under it only is one step; [config_valid] and [shutting_down] are read
    without it, so a reload takes one step for each of its assignments. *)

From S2P Require Import Prelude Util Yaml.

Local Open Scope Z_scope.

Module Kafka.

Section WithYaml.
Context `{Yaml}.

(** [RdKafka::Conf::set] accepts a field and a value; the name of the host. *)
Context (conf_set : str -> str -> bool) (host_name : str).

Abbreviation conf := (list (str * str)).

(** ** Configuration *)

(** [throw;] with no active exception: std::terminate. *)
Definition set_single_config_field (rd_conf : conf) (yaml_conf : node) (field : str) : outcome conf :=
  has ← y_has yaml_conf field;
  if negb has then Fault Rethrow
  else
    n ← y_get yaml_conf field;
    if IsNull n then Ret rd_conf
    else
      value ← as_string n;
      if conf_set field value then Ret (rd_conf ++ [(field, value)]) else Fault Rethrow.

Definition broker_fields : list str :=
  [lit "metadata.broker.list"; lit "security.protocol"; lit "ssl.ca.location";
   lit "ssl.certificate.location"; lit "ssl.key.location"; lit "ssl.key.password"].

Fixpoint set_fields (rd_conf : conf) (yaml_conf : node) (fields : list str) : outcome conf :=
  match fields with
  | [] => Ret rd_conf
  | f :: rest => c ← set_single_config_field rd_conf yaml_conf f; set_fields c yaml_conf rest
  end.

(** [created]: whether [Producer::create] gives a producer.  The result is the
    configuration it was created with and the topic of the reports. *)
Definition KafkaProducer (created : bool) (config : node) : outcome (conf * str) :=
  if negb (IsMap config) then Fault Rethrow
  else
    c ← set_fields [] config broker_fields;
    report_topic ← y_field as_string config (lit "report_topic");
    if created then Ret (c, report_topic) else Fault Rethrow.

(** The locked section of the consumer thread. *)
Definition load_config (stored_config : node) : outcome (str * conf) :=
  if negb (IsMap stored_config) then Fault Rethrow
  else
    topic ← y_field as_string stored_config (lit "command_topic");
    c ← set_fields [] stored_config broker_fields;
    if conf_set (lit "group.id") host_name then Ret (topic, c ++ [(lit "group.id", host_name)])
    else Fault Rethrow.

(** ** The consumer *)

Section Machine.
(** The identity of a [Banjax] object, and what a message says. *)
Context {message : Type}.

(** A reload that holds the lock: its arguments, the last of its lines that was
    executed, and the configuration it found. *)
Inductive line := Locked | ConfigWritten | BanjaxWritten | Invalidated.

Record reload := MkReload { new_config : node; new_banjax : nat; at_line : line; old_config : node }.

Record KafkaConsumer := MkConsumer {
  config_valid : bool;
  shutting_down : bool;
  stored_config : node;
  banjax : nat;
  stored_config_lock : option reload      (* the other thread that holds the lock *)
}.

(** Where the thread is; [Crashed]: an exception nobody catches. *)
Inductive pc :=
  | Top                                   (* while (!shutting_down) *)
  | Loading                               (* before the lock *)
  | Loaded (topic : str) (c : conf)       (* config_valid is set, the lock released *)
  | Running (topic : str) (c : conf)      (* while (config_valid && !shutting_down) *)
  | Got (topic : str) (c : conf) (m : message)
  | Closing
  | Finished
  | Crashed.

Record state := MkState {
  consumer : KafkaConsumer;
  thread : pc;
  consumed : list (nat * message);        (* handed to kafka_message_consume *)
  skipped : list message                  (* the lock was not to be had *)
}.

(** The constructor leaves [config_valid] unset; nothing reads it before the
    thread has set it. *)
Definition start (valid : bool) (config : node) (b : nat) : state :=
  MkState (MkConsumer valid false config b None) Top [] [].

Definition at_pc (p : pc) (s : state) : state :=
  MkState (consumer s) p (consumed s) (skipped s).
Definition with_consumer (c : KafkaConsumer) (s : state) : state :=
  MkState c (thread s) (consumed s) (skipped s).
Definition set_valid (v : bool) (c : KafkaConsumer) : KafkaConsumer :=
  MkConsumer v (shutting_down c) (stored_config c) (banjax c) (stored_config_lock c).
Definition set_lock (l : option reload) (c : KafkaConsumer) : KafkaConsumer :=
  MkConsumer (config_valid c) (shutting_down c) (stored_config c) (banjax c) l.

(** [msg_consume], which tries the lock; [returned]: [kafka_message_consume]
    throws nothing.  Nobody catches what it throws. *)
Definition msg_consume (returned : bool) (m : message) (s : state) : state :=
  match stored_config_lock (consumer s) with
  | Some _ => MkState (consumer s) (thread s) (consumed s) (skipped s ++ [m])
  | None => MkState (consumer s) (if returned then thread s else Crashed)
              (consumed s ++ [(banjax (consumer s), m)]) (skipped s)
  end.

(** What the outside answers to the thread: whether the consumer could be created
    and subscribed, what [consume] returns, whether the message is handled
    without an exception. *)
Record answer := MkAnswer { created : bool; polled : message; returned : bool }.

(** The thread's next step, [None] while it waits for the lock or has ended.  The
    inner loop reads its two flags one after the other; each of the outcomes is
    that of reading both at once, at the time of one of the reads. *)
Definition thread_step (a : answer) (s : state) : option state :=
  let c := consumer s in
  match thread s with
  | Top => Some (at_pc (if shutting_down c then Finished else Loading) s)
  | Loading =>
      match stored_config_lock c with
      | Some _ => None
      | None =>
          Some (match load_config (stored_config c) with
                | Ret (topic, rd_conf) => at_pc (Loaded topic rd_conf) (with_consumer (set_valid true c) s)
                | _ => at_pc Crashed s
                end)
      end
  | Loaded topic rd_conf => Some (at_pc (if created a then Running topic rd_conf else Crashed) s)
  | Running topic rd_conf =>
      Some (at_pc (if config_valid c && negb (shutting_down c) then Got topic rd_conf (polled a) else Closing) s)
  | Got topic rd_conf m => Some (msg_consume (returned a) m (at_pc (Running topic rd_conf) s))
  | Closing => Some (at_pc Top s)
  | Finished | Crashed => None
  end.

(** [reload_config]: it waits for the lock, executes its three assignments and
    releases the lock. *)
Definition reload_lock (config : node) (b : nat) (s : state) : option state :=
  let c := consumer s in
  match stored_config_lock c with
  | Some _ => None
  | None => Some (with_consumer (set_lock (Some (MkReload config b Locked (stored_config c))) c) s)
  end.

Definition reload_write (s : state) : option state :=
  let c := consumer s in
  match stored_config_lock c with
  | Some (MkReload config b Locked old) =>
      Some (with_consumer (MkConsumer (config_valid c) (shutting_down c) config (banjax c)
                             (Some (MkReload config b ConfigWritten old))) s)
  | Some (MkReload config b ConfigWritten old) =>
      Some (with_consumer (MkConsumer (config_valid c) (shutting_down c) (stored_config c) b
                             (Some (MkReload config b BanjaxWritten old))) s)
  | Some (MkReload config b BanjaxWritten old) =>
      Some (with_consumer (MkConsumer false (shutting_down c) (stored_config c) (banjax c)
                             (Some (MkReload config b Invalidated old))) s)
  | Some (MkReload _ _ Invalidated _) | None => None
  end.

Definition reload_unlock (s : state) : option state :=
  match stored_config_lock (consumer s) with
  | Some (MkReload _ _ Invalidated _) => Some (with_consumer (set_lock None (consumer s)) s)
  | _ => None
  end.

(** The first line of [shutdown]. *)
Definition shutdown (s : state) : state :=
  let c := consumer s in
  with_consumer (MkConsumer (config_valid c) true (stored_config c) (banjax c) (stored_config_lock c)) s.

Inductive step (s : state) : state -> Prop :=
  | step_thread a s' : thread_step a s = Some s' -> step s s'
  | step_lock config b s' : reload_lock config b s = Some s' -> step s s'
  | step_write s' : reload_write s = Some s' -> step s s'
  | step_unlock s' : reload_unlock s = Some s' -> step s s'
  | step_shutdown : step s (shutdown s).

Inductive reachable : state -> Prop :=
  | reach_start valid config b : reachable (start valid config b)
  | reach_step s s' : reachable s -> step s s' -> reachable s'.

(** ** The configuration in use *)

(** What the thread consumes with, if it does. *)
Definition in_use (p : pc) : option (str * conf) :=
  match p with
  | Loaded t c | Running t c | Got t c _ => Some (t, c)
  | _ => None
  end.

(** The configuration a valid one is taken from: that in store, or, once a reload
    has overwritten it and before it has marked it invalid, the one before. *)
Definition marked_valid (c : KafkaConsumer) : node :=
  match stored_config_lock c with
  | Some (MkReload _ _ (ConfigWritten | BanjaxWritten) old) => old
  | _ => stored_config c
  end.

Definition up_to_date (s : state) : Prop :=
  config_valid (consumer s) = true -> forall x, in_use (thread s) = Some x ->
  load_config (marked_valid (consumer s)) = Ret x.

(** A reload that has written nothing yet remembers what is in store. *)
Definition remembers (c : KafkaConsumer) : Prop :=
  forall config b old, stored_config_lock c = Some (MkReload config b Locked old) -> old = stored_config c.

(** What holds in every reachable state. *)
Definition sound (s : state) : Prop :=
  up_to_date s /\ remembers (consumer s) /\ (thread s = Finished -> shutting_down (consumer s) = true).

Lemma thread_step_sound a s s' : sound s -> thread_step a s = Some s' -> sound s'.
Proof.
  unfold sound, up_to_date, thread_step. intros (Hs & Hm & Hf).
  destruct (thread s) as [| |t c|t c|t c m0| | |] eqn:Ep; cbn [in_use] in Hs.
  - intros [= <-]. cbn. by destruct (shutting_down _).
  - destruct (stored_config_lock _) eqn:El; [done|].
    destruct (load_config (stored_config _)) as [[t c]| |] eqn:E; intros [= <-]; cbn; (split; [|split; [exact Hm|done]]); [|done..].
    unfold marked_valid. cbn. rewrite El. intros _ x [= <-]. exact E.
  - intros [= <-]. cbn. destruct (created a); cbn; (split; [|done]); [|done]. intros Hv x [= <-]. by apply Hs.
  - intros [= <-]. cbn. destruct (_ && _); cbn; (split; [|done]); [|done]. intros Hv x [= <-]. by apply Hs.
  - intros [= <-]. unfold msg_consume. cbn [at_pc consumer].
    destruct (stored_config_lock _); [|destruct (returned a)]; cbn; (split; [|done]); try done;
      intros Hv x [= <-]; by apply Hs.
  - intros [= <-]. by cbn.
  - done.
  - done.
Qed.

Lemma reload_step_sound s s' config b :
  sound s -> reload_lock config b s = Some s' \/ reload_write s = Some s' \/ reload_unlock s = Some s' -> sound s'.
Proof.
  destruct s as [[v sd sc bx [[nc nb [] oc]|]] th cs sk]; unfold sound, up_to_date, marked_valid, remembers; cbn;
    intros (Hu & Hr & Hf) [E|[E|E]]; try done; injection E as <-; cbn; split_and!; try done.
  - intros Hv x Hx. rewrite (Hr _ _ _ eq_refl). by apply Hu.
  - by intros ? ? ? [= _ _ <-].
Qed.

Lemma reachable_sound s : reachable s -> sound s.
Proof.
  induction 1 as [valid config b|s s' _ IH Hstep]; [by unfold sound, up_to_date|].
  destruct Hstep as [a s' E|config b s' E|s' E|s' E|]; [by eapply thread_step_sound| | | |].
  - eapply (reload_step_sound s s' config b); auto.
  - eapply (reload_step_sound s s' (stored_config (consumer s)) 0%nat); auto.
  - eapply (reload_step_sound s s' (stored_config (consumer s)) 0%nat); auto.
  - destruct IH as (Hu & Hr & Hf). done.
Qed.

(** C20. Under every interleaving of the consumer thread with the single
    assignments of reloads and with the shutdown: as long as the configuration is
    marked valid, the thread consumes with the topic and the client settings that
    the stored configuration loads to; only while a reload is between its first
    assignment and its last, which marks the configuration invalid, it still uses
    the configuration from before this reload. *)
Theorem consumer_up_to_date (s : state) (x : str * conf) :
  reachable s -> config_valid (consumer s) = true -> in_use (thread s) = Some x ->
  load_config (marked_valid (consumer s)) = Ret x.
Proof. intros (Hu & _)%reachable_sound Hv Hx. by apply Hu. Qed.

(** ** Progress of the thread *)

(** The thread alone, one step for each answer. *)
Fixpoint thread_run (l : list answer) (s : state) : state :=
  match l with
  | [] => s
  | a :: l' => match thread_step a s with Some s' => thread_run l' s' | None => s end
  end.

(** The outside is well-disposed: a consumer can be created and subscribed, and
    no message makes its handler throw. *)
Definition favourable (a : answer) : Prop := created a = true /\ returned a = true.

(** The thread has not crashed, nobody holds the lock. *)
Definition quiet (s : state) : Prop :=
  thread s <> Crashed /\ stored_config_lock (consumer s) = None.

(** How many steps the thread takes from a point until it consumes with the stored
    configuration, or has ended. *)
Definition distance (c : KafkaConsumer) (p : pc) : nat :=
  if shutting_down c then
    match p with
    | Top => 1 | Loading => 5 | Loaded _ _ => 4 | Running _ _ => 3 | Got _ _ _ => 4 | Closing => 2
    | Finished | Crashed => 0
    end
  else if config_valid c then
    match p with
    | Top => 3 | Loading => 2 | Loaded _ _ => 1 | Running _ _ => 0 | Got _ _ _ => 1 | Closing => 4
    | Finished | Crashed => 0
    end
  else
    match p with
    | Top => 3 | Loading => 2 | Loaded _ _ => 6 | Running _ _ => 5 | Got _ _ _ => 6 | Closing => 4
    | Finished | Crashed => 0
    end.

(** C21. Reloads and the shutdown take effect: from any reachable state in which
    nobody else holds the lock and the thread has not crashed, if the stored
    configuration can be loaded, the consumer can be created and subscribed, and
    no message makes its handler throw, the thread needs at most six steps of its
    own to consume with the stored configuration or, when it was told to shut
    down, to end. *)
Theorem consumer_progress (s : state) (l : list answer) (x : str * conf) :
  reachable s -> quiet s -> load_config (stored_config (consumer s)) = Ret x ->
  Forall favourable l -> length l = 6%nat ->
  exists n, (n <= 6)%nat /\
  if shutting_down (consumer s) then thread (thread_run (take n l) s) = Finished
  else thread (thread_run (take n l) s) = Running (fst x) (snd x) /\
       config_valid (consumer (thread_run (take n l) s)) = true.
Proof.
  intros Hr [Hc Hl] Hx Hfav Hlen. destruct (reachable_sound s Hr) as (Hu & _ & Hf).
  unfold up_to_date, marked_valid in Hu. rewrite Hl in Hu. clear Hr.
  destruct s as [[v sd sc b lk] p cs sk]. cbn in Hc, Hl, Hx, Hu, Hf. subst lk.
  exists (distance (MkConsumer v sd sc b None) p). split.
  { unfold distance. cbn. destruct sd, v, p; lia. }
  do 6 (destruct l as [|[? ? ?] l]; [done|]; apply Forall_cons in Hfav as [[? ?] Hfav]; cbn in *; subst).
  destruct x as [tx cx]. unfold distance. cbn [consumer shutting_down config_valid fst snd].
  destruct sd; [|destruct v].
  - by destruct p; try done; destruct v; cbn; rewrite ?Hx.
  - assert (Hin : forall y, in_use p = Some y -> y = (tx, cx))
      by (intros y Hy; specialize (Hu eq_refl y Hy); congruence).
    destruct p; cbn in Hin; try (specialize (Hin _ eq_refl) as [= -> ->]); try done; cbn; rewrite ?Hx; try done.
    by specialize (Hf eq_refl).
  - destruct p; try done; cbn; rewrite ?Hx; try done. by specialize (Hf eq_refl).
Qed.

End Machine.
End WithYaml.

(** ** A sample: a thread that runs when a reload comes *)

Definition sample_broker (topic : str) : tree :=
  TMap ((lit "command_topic", TScalar topic)
        :: map (fun f => (f, TScalar (lit "x"))) broker_fields).

Definition sample_load : node -> outcome (str * list (str * str)) :=
  load_config (H := tree_yaml) (fun _ _ => true) (lit "edge1").

Definition sample_answer : answer := MkAnswer true (lit "m") true.

Definition sample_step (s : state (H := tree_yaml)) : state (H := tree_yaml) :=
  default s (thread_step (H := tree_yaml) (fun _ _ => true) (lit "edge1") sample_answer s).

(** Running on the first topic. *)
Definition running1 : state (H := tree_yaml) :=
  sample_step (sample_step (sample_step (start (H := tree_yaml) false (sample_broker (lit "t1")) 0))).

(** A reload to the second topic: it has the lock, has stored the configuration,
    and is done. *)
Definition locked : state (H := tree_yaml) :=
  default running1 (reload_lock (H := tree_yaml) (sample_broker (lit "t2")) 1 running1).

Definition overwritten : state (H := tree_yaml) := default running1 (reload_write (H := tree_yaml) locked).

Definition reloaded : state (H := tree_yaml) :=
  default running1 (
    s1 ← reload_write (H := tree_yaml) overwritten; s2 ← reload_write (H := tree_yaml) s1;
    reload_unlock (H := tree_yaml) s2).

Lemma running1_reachable :
  reachable (H := tree_yaml) (fun _ _ => true) (lit "edge1") running1.
Proof.
  unfold running1. set (s0 := start (H := tree_yaml) false (sample_broker (lit "t1")) 0).
  apply (reach_step _ _ (sample_step (sample_step s0))); [|by apply (step_thread _ _ _ sample_answer)].
  apply (reach_step _ _ (sample_step s0)); [|by apply (step_thread _ _ _ sample_answer)].
  apply (reach_step _ _ s0); [|by apply (step_thread _ _ _ sample_answer)].
  apply reach_start.
Qed.

Lemma overwritten_reachable :
  reachable (H := tree_yaml) (fun _ _ => true) (lit "edge1") overwritten.
Proof.
  apply (reach_step _ _ locked); [|by apply step_write].
  apply (reach_step _ _ running1); [|by apply (step_lock (H := tree_yaml) _ _ _ (sample_broker (lit "t2")) 1)].
  exact running1_reachable.
Qed.

Lemma reloaded_reachable :
  reachable (H := tree_yaml) (fun _ _ => true) (lit "edge1") reloaded.
Proof.
  pose (s1 := default running1 (reload_write (H := tree_yaml) overwritten)).
  pose (s2 := default running1 (reload_write (H := tree_yaml) s1)).
  apply (reach_step _ _ s2); [|by apply step_unlock].
  apply (reach_step _ _ s1); [|by apply step_write].
  apply (reach_step _ _ overwritten); [|by apply step_write].
  exact overwritten_reachable.
Qed.

(** The window: the second topic is stored and marked valid, the thread still
    consumes from the first. *)
Lemma stale_while_valid :
  config_valid (consumer overwritten) = true /\ stored_config (consumer overwritten) = sample_broker (lit "t2") /\
  (fst <$> in_use (thread overwritten)) = Some (lit "t1").
Proof. vm_compute. auto. Qed.

Lemma consumer_up_to_date_witness :
  exists x, in_use (thread overwritten) = Some x /\ sample_load (sample_broker (lit "t1")) = Ret x.
Proof.
  eexists. split; [reflexivity|].
  apply (consumer_up_to_date (H := tree_yaml) (fun _ _ => true) (lit "edge1") overwritten).
  - exact overwritten_reachable.
  - reflexivity.
  - reflexivity.
Defined.

Lemma consumer_progress_witness :
  exists n, (n <= 6)%nat /\
    thread (thread_run (H := tree_yaml) (fun _ _ => true) (lit "edge1") (take n (replicate 6 sample_answer)) reloaded)
    = Running (lit "t2") (map (fun f => (f, lit "x")) broker_fields ++ [(lit "group.id", lit "edge1")]) /\
    config_valid (consumer (thread_run (H := tree_yaml) (fun _ _ => true) (lit "edge1")
      (take n (replicate 6 sample_answer)) reloaded)) = true.
Proof.
  exact (consumer_progress (H := tree_yaml) (fun _ _ => true) (lit "edge1") reloaded (replicate 6 sample_answer)
    (lit "t2", map (fun f => (f, lit "x")) broker_fields ++ [(lit "group.id", lit "edge1")])
    reloaded_reachable ltac:(split; [discriminate|reflexivity]) eq_refl
    ltac:(repeat constructor) eq_refl).
Defined.

End Kafka.
