(* ===== verification/ChallengeChecks.v ===== *)
(** * ChallengeChecks: the pure parts of the challenger (src/challenger.cpp)

    The check of a solved SHA challenge, the check of a password, the test for
    protected URLs, and the filling of page templates. *)

From S2P Require Import Prelude Base64 Cookie CookieHash Util GmTime WhiteList IpDb Yaml Float World.
From S2P Require Import Swabber RegexManager.

Local Open Scope Z_scope.

Module ChallengeChecks.

Definition COOKIE_SIZE : nat := 100.

Definition SUB_TOKEN : str := lit "$token".
Definition SUB_TIME : str := lit "$time".
Definition SUB_URL : str := lit "$url".
Definition SUB_ZEROS : str := lit "$zeros".

Definition too_many_failures_message : str :=
  lit "<html><header></header><body>you are banned by deflect/banjax</body></html>".

Definition is_captcha_url (url : str) : bool := bool_decide (is_Some (rfind url (lit "__captcha"))).
Definition is_captcha_answer (url : str) : bool := bool_decide (is_Some (rfind url (lit "__validate/"))).

(** ** Splitting at a delimiter: [std::getline] until the stream is exhausted *)

Fixpoint split_loop (s : str) (delim : char) (item : str) : list str :=
  match s with
  | [] => match item with [] => [] | _ => [item] end
  | c :: t => if bool_decide (c = delim) then item :: split_loop t delim []
              else split_loop t delim (item ++ [c])
  end.

Definition split (s : str) (delim : char) : list str := split_loop s delim [].

(** ** [replace]: the first occurrence of [from] *)

Definition replace (original from to : str) : bool * str :=
  match find original from with
  | None => (false, original)
  | Some start_pos => (true, replace_at original start_pos (length from) to)
  end.

(** ** [check_sha] *)

(** The masks in the order the code tests them: the nibbles of a byte swapped. *)
Definition masks : list Z := [16; 32; 64; 128; 1; 2; 4; 8].

(** One byte: the bits counted, and whether the loop goes on. *)
Fixpoint count_byte (h : Z) (ms : list Z) (count : Z) : Z * bool :=
  match ms with
  | [] => (count, true)
  | m :: rest => if negb (Z.land h m =? 0) then (count, false) else count_byte h rest (count + 1)
  end.

Fixpoint count_zeros (hash : str) (count : Z) : Z :=
  match hash with
  | [] => count
  | h :: rest =>
      let '(count', go_on) := count_byte (code h) masks count in
      if (go_on : bool) then count_zeros rest count' else count'
  end.

Section WithCrypto.
Context {crypto : Crypto}.

Definition check_sha (number_of_trailing_zeros : Z) (cookiestr : str) : bool :=
  number_of_trailing_zeros <=? count_zeros (SHA256 (c_str cookiestr)) 0.

(** ** [check_auth_validity] *)

Definition check_auth_validity (cookiestr password_hash : str) : outcome bool :=
  let cookie := c_str cookiestr in
  if (length cookie <? CookieHash.COOKIE_B64_LENGTH + length password_hash)%nat then Ret false
  else
    let hash := SHA256 (take CookieHash.COOKIE_B64_LENGTH cookie ++ password_hash) in
    match Base64.Decode (drop CookieHash.COOKIE_B64_LENGTH cookie) with
    | Throw invalid_argument => Ret false
    | Throw e => Throw e
    | Fault f => Fault f
    | Ret cookiedata =>
        data ← CookieHash.read_c_str cookiedata 32;
        mret (bool_decide (data = hash))
    end.
End WithCrypto.

(** ** Protected URLs *)

Section WithRe2.
Context {R2 : Re2}.

Definition is_match (word : MagicWord) (url : str) : bool :=
  match mw_type word with
  | MW_regexp => PartialMatch url (magic_word word)
  | MW_substr => bool_decide (is_Some (find url (magic_word word)))
  end.

(** [std::search(url.begin(), end, w.begin(), w.end()) != end]: an empty word
    is found at the beginning, which is [end] only for an empty range. *)
Definition occurs_before (range word : str) : bool :=
  match find range word with
  | Some pos => negb (pos =? length range)%nat
  | None => false
  end.

Definition needs_authentication (url : str) (challenge : HostChallengeSpec) : bool :=
  if negb (existsb (fun word => is_match word url) (magic_words challenge)) then false
  else
    let path := match find url ["?"%char] with
                | Some query_start => take query_start url
                | None => url
                end in
    negb (existsb (occurs_before path) (magic_word_exceptions challenge)).
End WithRe2.

(** ** [format_validity_time_for_cookie]: "%a, %d %b %Y %T GMT" *)

Definition weekdays : list str := map lit ["Sun"; "Mon"; "Tue"; "Wed"; "Thu"; "Fri"; "Sat"].
Definition months : list str :=
  map lit ["Jan"; "Feb"; "Mar"; "Apr"; "May"; "Jun"; "Jul"; "Aug"; "Sep"; "Oct"; "Nov"; "Dec"].

Definition format_validity_time_for_cookie (validity_time : Z) : str :=
  let timeinfo := GmTime.gmtime validity_time in
  default [] (weekdays !! Z.to_nat ((validity_time / 86400 + 4) mod 7)) ++ lit ", "
  ++ GmTime.pad2 (GmTime.tm_mday timeinfo) ++ lit " "
  ++ default [] (months !! Z.to_nat (GmTime.tm_mon timeinfo - 1)) ++ lit " "
  ++ to_string (GmTime.tm_year timeinfo) ++ lit " " ++ GmTime.pad2 (GmTime.tm_hour timeinfo)
  ++ lit ":" ++ GmTime.pad2 (GmTime.tm_min timeinfo) ++ lit ":" ++ GmTime.pad2 (GmTime.tm_sec timeinfo)
  ++ lit " GMT".

Example format_epoch :
  format_validity_time_for_cookie 784111777 = lit "Sun, 06 Nov 1994 08:49:37 GMT".
Proof. vm_compute. reflexivity. Qed.

Example format_leap_day :
  format_validity_time_for_cookie 1709251199 = lit "Thu, 29 Feb 2024 23:59:59 GMT".
Proof. vm_compute. reflexivity. Qed.

(** ** [check_sha] against the number the hash stands for *)

(** The digits of the hash as it is printed in hexadecimal, and their number with
    the first digit the least significant one. *)
Definition hex_digits (hash : str) : list Z := flat_map (fun h => [code h / 16; code h mod 16]) hash.

Fixpoint from_digits (l : list Z) : Z :=
  match l with
  | [] => 0
  | d :: t => d + 16 * from_digits t
  end.

(** The bits of the hash in the order of the tests. *)
Definition tested_bits (h : char) : list bool := map (fun m => negb (Z.land (code h) m =? 0)) masks.
Definition bit_stream (hash : str) : list bool := flat_map tested_bits hash.

(** A byte is tested in the order of the bits of its two digits. *)
Lemma tested_bits_digits h :
  tested_bits h = map (fun i => Z.testbit (code h / 16 + 16 * (code h mod 16)) (Z.of_nat i)) (seq 0 8).
Proof. destruct h as [[] [] [] [] [] [] [] []]; vm_compute; reflexivity. Qed.

Lemma digits_range h : 0 <= code h / 16 + 16 * (code h mod 16) < 256.
Proof. destruct h as [[] [] [] [] [] [] [] []]; vm_compute; (split; [discriminate|reflexivity]). Qed.

(** The low bits of a byte in front, and the rest behind it. *)
Lemma testbit_low x y i : 0 <= x < 256 -> 0 <= i < 8 -> Z.testbit (x + 256 * y) i = Z.testbit x i.
Proof.
  intros Hx Hi. rewrite <- (Z.mod_pow2_bits_low (x + 256 * y) 8 i) by lia. f_equal.
  change (2 ^ 8) with 256. rewrite (Z.mul_comm 256), Z.mod_add by lia. by apply Z.mod_small.
Qed.

Lemma testbit_high x y i : 0 <= x < 256 -> 0 <= i -> Z.testbit (x + 256 * y) (i + 8) = Z.testbit y i.
Proof.
  intros Hx Hi. rewrite <- (Z.div_pow2_bits (x + 256 * y) 8 i) by lia. f_equal.
  change (2 ^ 8) with 256. rewrite (Z.mul_comm 256), Z.div_add by lia. rewrite Z.div_small by lia. lia.
Qed.

(** The tests go through the bits of the number. *)
Lemma bit_stream_number hash i b :
  bit_stream hash !! i = Some b -> Z.testbit (from_digits (hex_digits hash)) (Z.of_nat i) = b.
Proof.
  revert i; induction hash as [|h hash IH]; intros i; cbn [bit_stream flat_map]; [done|].
  replace (from_digits (hex_digits (h :: hash)))
    with (code h / 16 + 16 * (code h mod 16) + 256 * from_digits (hex_digits hash))
    by (change (hex_digits (h :: hash)) with (code h / 16 :: code h mod 16 :: hex_digits hash);
        cbn [from_digits]; ring).
  intros [E|[Hi E]]%lookup_app_Some.
  - rewrite tested_bits_digits in E. pose proof (lookup_lt_Some _ _ _ E) as Hi. cbn in Hi.
    rewrite testbit_low by (apply digits_range || lia).
    change (map ?f (seq 0 8)) with (f <$> seq 0 8) in E.
    rewrite list_lookup_fmap, lookup_seq_lt in E by lia. by injection E as <-.
  - change (length (tested_bits h)) with 8%nat in Hi, E. apply IH in E.
    replace (Z.of_nat i) with (Z.of_nat (i - 8) + 8) by lia. by rewrite testbit_high by (apply digits_range || lia).
Qed.

(** The number of leading zeros of a stream. *)
Fixpoint leading_zeros (l : list bool) : nat :=
  match l with
  | false :: t => S (leading_zeros t)
  | _ => 0
  end.

Lemma count_byte_spec h ms n :
  count_byte h ms n =
  let bits := map (fun m => negb (Z.land h m =? 0)) ms in
  (n + Z.of_nat (leading_zeros bits), (leading_zeros bits =? length bits)%nat).
Proof.
  revert n; induction ms as [|m ms IH]; intros n; cbn [count_byte map leading_zeros length].
  - cbn. f_equal. lia.
  - destruct (negb (Z.land h m =? 0)); cbn [leading_zeros]; [f_equal; lia|].
    rewrite IH. cbv zeta. cbn [Nat.eqb]. f_equal. lia.
Qed.

Lemma leading_zeros_app l1 l2 :
  leading_zeros (l1 ++ l2) =
  if (leading_zeros l1 =? length l1)%nat then (length l1 + leading_zeros l2)%nat else leading_zeros l1.
Proof.
  induction l1 as [|[] l1 IH]; cbn [app leading_zeros length Nat.eqb]; [done..|].
  rewrite IH. by destruct (_ =? _)%nat.
Qed.

Lemma count_zeros_spec hash n :
  count_zeros hash n = n + Z.of_nat (leading_zeros (bit_stream hash)).
Proof.
  revert n; induction hash as [|h hash IH]; intros n; cbn [count_zeros bit_stream flat_map].
  - cbn. lia.
  - rewrite count_byte_spec. cbv zeta. fold (tested_bits h). rewrite leading_zeros_app.
    destruct (leading_zeros (tested_bits h) =? length (tested_bits h))%nat eqn:E; [|done].
    apply Nat.eqb_eq in E. rewrite IH, E. fold (bit_stream hash). lia.
Qed.

Lemma leading_zeros_take n l :
  (n <= leading_zeros l)%nat <-> (n <= length l)%nat /\ Forall (eq false) (take n l).
Proof.
  revert n; induction l as [|[] l IH]; intros [|n]; cbn [leading_zeros length take].
  1, 3, 5: split; [intros _; split; [lia|constructor]|lia].
  - split; [lia|]. intros [? _]. lia.
  - split; [lia|]. intros [_ Hf]. inversion Hf. done.
  - rewrite <- Nat.succ_le_mono, IH, Forall_cons, <- Nat.succ_le_mono. naive_solver.
Qed.

Lemma length_bit_stream hash : length (bit_stream hash) = (8 * length hash)%nat.
Proof.
  induction hash as [|h hash IH]; [done|]. cbn [bit_stream flat_map].
  rewrite length_app. fold (bit_stream hash). rewrite IH. cbn. lia.
Qed.

(** The low bits of a number are zero when a power of two divides it. *)
Lemma low_bits_zero (n : nat) (x : Z) :
  (2 ^ Z.of_nat n | x) <-> forall i, (i < n)%nat -> Z.testbit x (Z.of_nat i) = false.
Proof.
  rewrite <- Z.mod_divide by lia. split.
  - intros E i Hi. by rewrite <- (Z.mod_pow2_bits_low x (Z.of_nat n)), E, Z.bits_0 by lia.
  - intros Hb. apply Z.bits_inj'. intros i Hi. rewrite Z.bits_0.
    destruct (Z.lt_ge_cases i (Z.of_nat n)); [|by apply Z.mod_pow2_bits_high; lia].
    rewrite Z.mod_pow2_bits_low by done. replace i with (Z.of_nat (Z.to_nat i)) by lia. apply Hb. lia.
Qed.

(** C34. The solution check against its meaning: a cookie solves a challenge of
    difficulty [n] exactly when [n] is at most 256 and two to the power [n]
    divides the number whose hexadecimal digits are those of the printed SHA-256
    of the cookie, the first digit being the least significant one; so the [n]
    bits that are zero are counted from the low bit of the first digit. *)
Theorem check_sha_spec {crypto : Crypto} (n : nat) (cookiestr : str) :
  check_sha (Z.of_nat n) cookiestr = true <->
  (n <= 256)%nat /\ (2 ^ Z.of_nat n | from_digits (hex_digits (SHA256 (c_str cookiestr)))).
Proof.
  unfold check_sha. rewrite Z.leb_le, count_zeros_spec, Z.add_0_l, <- Nat2Z.inj_le, leading_zeros_take, low_bits_zero.
  set (hash := SHA256 _). assert (Hl : length (bit_stream hash) = 256%nat)
    by (by rewrite length_bit_stream; unfold hash; rewrite length_SHA256).
  rewrite Hl. split; intros [Hn Hz]; (split; [done|]).
  - intros i Hi. destruct (lookup_lt_is_Some_2 (bit_stream hash) i ltac:(lia)) as [b Eb].
    rewrite (bit_stream_number hash i b Eb). symmetry. rewrite Forall_lookup in Hz. apply (Hz i).
    by rewrite lookup_take_lt.
  - apply Forall_lookup. intros i b [Eb Hi]%lookup_take_Some. symmetry. rewrite <- (bit_stream_number hash i b Eb).
    by apply Hz.
Qed.

(** ** Protection cannot be lifted by the query *)

(** A URL whose path holds a protected word and none of the exceptions
    needs authentication whatever the query string says: an exception smuggled
    into the query does not lift it. *)
Lemma query_cannot_exempt {R2 : Re2} (ch : HostChallengeSpec) (word x y query : str) :
  let path := x ++ word ++ y in
  MkMagicWord MW_substr word ∈ magic_words ch -> "?"%char ∉ path ->
  Forall (fun ex => occurs_before path ex = false) (magic_word_exceptions ch) ->
  needs_authentication (path ++ "?"%char :: query) ch = true.
Proof.
  intros path Hw Hq Hex. unfold needs_authentication.
  assert (Hm : existsb (fun w => is_match w (path ++ "?"%char :: query)) (magic_words ch) = true).
  { apply existsb_exists. eexists. split; [by apply list_elem_of_In|]. cbn.
    apply bool_decide_eq_true. destruct (find _ word) eqn:E; [by eexists|].
    exfalso. apply (proj1 (find_None _ _) E x (y ++ "?"%char :: query)).
    unfold path. by rewrite <- !app_assoc. }
  rewrite Hm. cbn [negb]. rewrite find_char_app, take_app_length by done.
  apply negb_true_iff. apply not_true_iff_false. intros (ex & Hin & Ho)%existsb_exists.
  rewrite Forall_forall in Hex. by rewrite Hex in Ho by (by apply list_elem_of_In).
Qed.

Definition sample_auth : HostChallengeSpec :=
  MkSpec (lit "auth") CHALLENGE_AUTH [] 0 3600 [] [MkMagicWord MW_substr (lit "wp-admin")]
    [lit "ajax"] [] 0.

Lemma query_cannot_exempt_witness :
  needs_authentication (R2 := literal_re2) (lit "http://h/wp-admin/x?ajax") sample_auth = true.
Proof.
  apply (query_cannot_exempt (R2 := literal_re2) sample_auth (lit "wp-admin") (lit "http://h/")
           (lit "/x") (lit "ajax")).
  - apply (bool_decide_unpack _). vm_compute. exact I.
  - apply (bool_decide_unpack _). vm_compute. exact I.
  - repeat constructor.
Defined.

(** ** Passwords *)

(** The password check accepts what a client with the password sends: the
    forty characters of a token followed by the base64 of the SHA-256 of token
    and password hash, when the configured hash is at most 44 characters. *)
Lemma check_auth_roundtrip {crypto : Crypto} (token password_hash : str) :
  length token = CookieHash.COOKIE_B64_LENGTH -> NUL ∉ token -> (length password_hash <= 44)%nat ->
  check_auth_validity (token ++ Base64.b64_ref (SHA256 (token ++ password_hash))) password_hash
  = Ret true.
Proof.
  intros Hlen Hnul Hph. unfold check_auth_validity.
  rewrite (c_str_no_nul (token ++ _)).
  2: { intros [?|?]%elem_of_app; [done|]. by eapply Base64.b64_ref_no_nul. }
  rewrite length_app, Base64.length_b64_ref, length_SHA256, Hlen.
  assert (Hl : (CookieHash.COOKIE_B64_LENGTH + Base64.b64_length 32 <?
                CookieHash.COOKIE_B64_LENGTH + length password_hash)%nat = false).
  { apply Nat.ltb_ge. cbn. lia. }
  rewrite Hl, <- Hlen, take_app_length, drop_app_length, Base64.decode_encode.
  unfold CookieHash.read_c_str. rewrite length_SHA256. cbn [Nat.leb Nat.add].
  run_outcome. rewrite take_app_length' by (by rewrite length_SHA256).
  by rewrite bool_decide_true.
Qed.

End ChallengeChecks.
