(* ===== verification/Challenger.v ===== *)
(** * Challenger: challenging clients of protected hosts (src/challenger.cpp)

    The whole request handler with its effects on the failure counts, the
    swabber and the reports, the generation of challenge pages and cookies, and
    the challenges that come and go at run time.  The captcha picture is drawn and
    encoded by [Captcha]. *)

From S2P Require Import Prelude Captcha Base64 Cookie CookieHash Util WhiteList IpDb Yaml Float World.
From S2P Require Import Swabber RegexManager Reports ChallengeChecks.

Local Open Scope Z_scope.

Module Challenger.
Import ChallengeChecks.

(** A configured challenger.  [banjax] is the host name of the [Banjax] it
    reports to, [None] for a null pointer; [dynamic_expiry_seconds] is [None]
    when no configuration has set it. *)
Record Challenger := MkChallenger {
  hashed_key : str;
  number_of_trailing_zeros : Z;
  dynamic_expiry_seconds : option Z;
  host_challenges_static : gmap str (list HostChallengeSpec);
  global_white_list : option GlobalWhiteList.GlobalWhiteList;
  banjax : option str
}.

Definition requested_info : Z :=
  Z.lor (Z.lor (Z.lor (Z.lor (Z.lor Part.IP Part.URL) Part.HOST) Part.UA) Part.URL_WITH_HOST)
    Part.COOKIE.

Section Handlers.
Context {crypto : Crypto} {I : Inet} {R2 : Re2}.

Definition is_globally_white_listed (c : Challenger) (ip : str) : bool :=
  match global_white_list c with
  | None => false
  | Some wl => bool_decide (is_Some (GlobalWhiteList.is_white_listed wl ip))
  end.

(** ** Failure counts *)

Definition failure_reason (ch : HostChallengeSpec) (failed_host : str) (count : Z)
    (parts : TransactionParts) : str :=
  lit "failed challenge " ++ name ch ++ lit " for host " ++ failed_host ++ lit " "
  ++ to_string count ++ lit " times, "
  ++ Util.encapsulate_in_quotes (default [] (parts !! Part.URL)) ++ lit ", "
  ++ default [] (parts !! Part.HOST) ++ lit ", "
  ++ Util.encapsulate_in_quotes (default [] (parts !! Part.UA)).

(** The part of [report_failure] after the count was read. *)
Definition count_failure (failed_challenge : HostChallengeSpec) (parts : TransactionParts)
    (client_ip failed_host : str) (st : Z) : M bool :=
  let st' := u64 (st + 1) in
  if fail_tolerance_threshold failed_challenge <=? st' then
    _ ← SwabberOps.ban (c_str client_ip) (failure_reason failed_challenge failed_host st' parts);
    _ ← challenger_db_drop client_ip;
    mret true
  else
    _ ← challenger_db_set client_ip st';
    mret false.

Definition report_failure (failed_challenge : HostChallengeSpec) (parts : TransactionParts) : M bool :=
  client_ip ← lift (part_at parts Part.IP);
  failed_host ← lift (part_at parts Part.HOST);
  ip_state ← challenger_db_get client_ip;
  match ip_state with
  | None => mret false
  | Some st => count_failure failed_challenge parts client_ip failed_host st
  end.

Definition report_success (client_ip : str) : M unit :=
  _ ← challenger_db_set client_ip 1; mret tt.

(** ** Cookies *)

(** [banjax->report_pass_or_failure2(host, ip, passed)], without a test for a
    null pointer. *)
Definition report2 (c : Challenger) (host ip : str) (passed : bool) : M Z :=
  match banjax c with
  | None => lift (Fault NullDeref)
  | Some host_name => Reports.report_pass_or_failure2 host_name host ip passed
  end.

(** [if (banjax != nullptr) banjax->report_pass_or_failure(host, ip, passed)]. *)
Definition report1 (c : Challenger) (host ip : str) (passed : bool) : M unit :=
  match banjax c with
  | None => mret tt
  | Some host_name => _ ← Reports.report_pass_or_failure host_name host ip passed; mret tt
  end.

(** The requirement of the challenge's type. *)
Definition challenge_prevailed (c : Challenger) (ch : HostChallengeSpec) (captcha_cookie : str)
    : outcome bool :=
  match challenge_type ch with
  | CHALLENGE_SHA_INVERSE => Ret (check_sha (number_of_trailing_zeros c) captcha_cookie)
  | CHALLENGE_AUTH => check_auth_validity captcha_cookie (password_hash ch)
  | CHALLENGE_CAPTCHA => Ret true
  end.

(** The first cookie named "deflect". *)
Fixpoint deflect_cookie (l : list Cookie.Cookie) : option str :=
  match l with
  | [] => None
  | k :: rest => if bool_decide (Cookie.name k = lit "deflect") then Some (Cookie.value k)
                 else deflect_cookie rest
  end.

Definition check_cookie (c : Challenger) (answer : str) (parts : TransactionParts)
    (cookied_challenge : HostChallengeSpec) : M bool :=
  cookie_jar ← lift (part_at parts Part.COOKIE);
  ip ← lift (part_at parts Part.IP);
  host ← lift (part_at parts Part.HOST);
  match deflect_cookie (Cookie.cookies cookie_jar) with
  | None => mret false
  | Some captcha_cookie =>
      prevailed ← lift (challenge_prevailed c cookied_challenge captcha_cookie);
      now ← time_now;
      result ← lift (CookieHash.ValidateCookie answer (hashed_key c) now ip
                       (take CookieHash.COOKIE_B64_LENGTH captcha_cookie));
      let passed := prevailed && (result =? 1) in
      _ ← report2 c host ip passed;
      mret passed
  end.

(** ** Requests *)

(** [custom_response(challenge)]. *)
Definition custom_response (ch : HostChallengeSpec) : ExtendedResponse :=
  extended_response GEN_CHALLENGER (Some ch).

Definition respond (e : ExtendedResponse) : FilterResponse := MkResponse I_RESPOND (Some e).

Definition set_banned (b : bool) (e : ExtendedResponse) : ExtendedResponse :=
  MkExt (response_generator e) (content_type e) b (set_cookie_header e) (response_code e)
    (responding_challenge e) (alternative_url e).

Definition append_cookie_header (h : str) (e : ExtendedResponse) : ExtendedResponse :=
  MkExt (response_generator e) (content_type e) (banned_ip e) (set_cookie_header e ++ h)
    (response_code e) (responding_challenge e) (alternative_url e).

Definition delete_cookie : str :=
  lit "deflect=deleted; path=/; expires=Thu, 01 Jan 1970 00:00:00 GMT; HttpOnly".

(** The response to a failed challenge; a threshold of zero keeps no count. *)
Definition failure_response (ch : HostChallengeSpec) (parts : TransactionParts) : M ExtendedResponse :=
  if negb (fail_tolerance_threshold ch =? 0) then
    banned ← report_failure ch parts;
    mret (set_banned banned (custom_response ch))
  else mret (custom_response ch).

(** What one challenge decides: a response, or on to the next challenge. *)
Definition run_captcha (c : Challenger) (ch : HostChallengeSpec) (host ip : str)
    (parts : TransactionParts) : M (option FilterResponse) :=
  if is_globally_white_listed c ip then mret None
  else
    url ← lift (part_at parts Part.URL_WITH_HOST);
    if is_captcha_url url || is_captcha_answer url then mret (Some (respond (custom_response ch)))
    else
      ok ← check_cookie c [] parts ch;
      if (ok : bool) then
        _ ← report_success ip;
        _ ← report1 c host ip true;
        mret None
      else
        _ ← report1 c host ip false;
        e ← failure_response ch parts;
        mret (Some (respond e)).

Definition run_sha_inverse (c : Challenger) (ch : HostChallengeSpec) (host ip : str)
    (parts : TransactionParts) : M (option FilterResponse) :=
  if is_globally_white_listed c ip then mret None
  else
    ok ← check_cookie c [] parts ch;
    if negb ok then
      _ ← report1 c host ip false;
      e ← failure_response ch parts;
      mret (Some (respond (append_cookie_header delete_cookie e)))
    else
      _ ← report1 c host ip true;
      mret None.

Definition run_auth (c : Challenger) (ch : HostChallengeSpec) (host ip : str)
    (parts : TransactionParts) : M (option FilterResponse) :=
  ok ← check_cookie c [] parts ch;
  if (ok : bool) then
    _ ← report_success ip;
    _ ← report1 c host ip true;
    mret (Some (plain_response SERVE_FRESH))
  else
    _ ← report1 c host ip false;
    url ← lift (part_at parts Part.URL_WITH_HOST);
    if needs_authentication url ch then
      e ← failure_response ch parts;
      mret (Some (respond (append_cookie_header delete_cookie e)))
    else mret None.

Definition run_challenge (c : Challenger) (ch : HostChallengeSpec) (host ip : str)
    (parts : TransactionParts) : M (option FilterResponse) :=
  match GlobalWhiteList.first_match ip (white_listed_ips ch) with
  | Some _ => mret (Some (plain_response SERVE_IMMIDIATELY_DONT_CACHE))
  | None =>
      match challenge_type ch with
      | CHALLENGE_CAPTCHA => run_captcha c ch host ip parts
      | CHALLENGE_SHA_INVERSE => run_sha_inverse c ch host ip parts
      | CHALLENGE_AUTH => run_auth c ch host ip parts
      end
  end.

Fixpoint run_challenges (c : Challenger) (l : list HostChallengeSpec) (host ip : str)
    (parts : TransactionParts) : M FilterResponse :=
  match l with
  | [] =>
      _ ← report_success ip;
      mret (plain_response GO_AHEAD_NO_COMMENT)
  | ch :: rest =>
      r ← run_challenge c ch host ip parts;
      match r with
      | Some response => mret response
      | None => run_challenges c rest host ip parts
      end
  end.

(** The challenges of a host, or the dynamic ones of the host or the address;
    [None] when the handler returns without comment.  An address challenge is
    put into the list twice. *)
Definition challenges_to_run (c : Challenger) (host ip : str) : M (option (list HostChallengeSpec)) :=
  match host_challenges_static c !! host with
  | Some l => mret (Some l)
  | None =>
      locked ← TSMutexLockTry;
      if negb locked then mret None
      else
        hosts ← gets host_to_challenge_dynamic;
        match hosts !! host with
        | Some ch => mret (Some [ch])
        | None =>
            locked' ← TSMutexLockTry;
            if negb locked' then mret None
            else
              ips ← gets ip_to_challenge_dynamic;
              match ips !! ip with
              | None => mret None
              | Some ch => mret (Some [ch; ch])
              end
        end
  end.

Definition on_http_request (c : Challenger) (parts : TransactionParts) : M FilterResponse :=
  host ← lift (part_at parts Part.HOST);
  ip ← lift (part_at parts Part.IP);
  l ← challenges_to_run c host ip;
  match l with
  | None => mret (plain_response GO_AHEAD_NO_COMMENT)
  | Some l =>
      _ ← lift (part_at parts Part.COOKIE);
      run_challenges c l host ip parts
  end.

(** ** Responses *)

Definition set_code (n : Z) (e : ExtendedResponse) : ExtendedResponse :=
  MkExt (response_generator e) (content_type e) (banned_ip e) (set_cookie_header e) n
    (responding_challenge e) (alternative_url e).

Definition set_content_type (t : str) (e : ExtendedResponse) : ExtendedResponse :=
  MkExt (response_generator e) (Some t) (banned_ip e) (set_cookie_header e) (response_code e)
    (responding_challenge e) (alternative_url e).

(** "deflect=<cookie>; path=/; HttpOnly". *)
Definition cookie_header (cookie : str) : str :=
  lit "deflect=" ++ c_str cookie ++ lit "; path=/; HttpOnly".

(** The captcha picture, with a cookie that holds its answer for 120 seconds.
    [makegif] overwrites the whole buffer. *)
Definition captcha_page (c : Challenger) (ip : str) (e : ExtendedResponse)
    : M (str * ExtendedResponse) :=
  random ← query env_random;
  '(text, im) ← lift (Captcha.captcha random);
  gif ← lift (Captcha.makegif im (replicate (Z.to_nat Captcha.gifsize) 0));
  now ← time_now;
  cookie ← lift (CookieHash.GenerateCookie text (hashed_key c) (now + 120) ip COOKIE_SIZE);
  let e1 := set_content_type (lit "image/gif") (set_code 200 e) in
  mret (map chr gif, append_cookie_header (cookie_header cookie) e1).

Definition the_challenge (e : ExtendedResponse) : outcome HostChallengeSpec :=
  match responding_challenge e with
  | Some ch => Ret ch
  | None => Fault NullDeref
  end.

(** The answer is what follows the last "__validate/" of the URL. *)
Definition answer_page (c : Challenger) (ip : str) (t : Z) (parts : TransactionParts)
    (e : ExtendedResponse) : M (str * ExtendedResponse) :=
  let e1 := set_content_type (lit "text/html") (set_code 200 e) in
  url ← lift (part_at parts Part.URL_WITH_HOST);
  answer ← lift (match rfind url (lit "__validate/") with
                 | Some found => substr url (found + 11)
                 | None => substr url 10   (* npos + 11 wraps around *)
                 end);
  let e2 := set_code 403 e1 in
  ch ← lift (the_challenge e2);
  ok ← check_cookie c answer parts ch;
  if (ok : bool) then
    cookie ← lift (CookieHash.GenerateCookie [] (hashed_key c) t ip COOKIE_SIZE);
    mret (lit "OK", append_cookie_header (cookie_header cookie) (set_code 200 e2))
  else
    e3 ← (if negb (fail_tolerance_threshold ch =? 0) then
            banned ← report_failure ch parts;
            mret (set_banned banned e2)
          else mret e2);
    if banned_ip e3 then mret (lit "Too many failures", e3) else mret (lit "X", e3).

(** The page template with its four placeholders filled, in this order. *)
Definition challenge_page (page t_str token url zeros : str) : str :=
  let page1 := snd (replace page SUB_TIME t_str) in
  let page2 := snd (replace page1 SUB_TOKEN token) in
  let page3 := snd (replace page2 SUB_URL url) in
  snd (replace page3 SUB_ZEROS zeros).

Definition generate_html (c : Challenger) (ip : str) (t : Z) (url : str) (parts : TransactionParts)
    (e : ExtendedResponse) : M (str * ExtendedResponse) :=
  if is_captcha_url url then captcha_page c ip e
  else if is_captcha_answer url then answer_page c ip t parts e
  else
    ch ← lift (the_challenge e);
    token ← lift (CookieHash.GenerateCookie [] (hashed_key c) t ip COOKIE_SIZE);
    mret (challenge_page (challenge_stream ch) (format_validity_time_for_cookie t) (c_str token) url
            (to_string (number_of_trailing_zeros c)), e).

Definition generate_response (c : Challenger) (parts : TransactionParts) (response_info : FilterResponse)
    : M (str * ExtendedResponse) :=
  match response_data response_info with
  | None => lift (Fault NullDeref)
  | Some e =>
      if banned_ip e then mret (too_many_failures_message, e)
      else
        now ← time_now;
        ch ← lift (the_challenge e);
        let time_validity := s64 (now + challenge_validity_period ch) in
        ip ← lift (part_at parts Part.IP);
        url ← lift (part_at parts Part.URL_WITH_HOST);
        _ ← lift (part_at parts Part.HOST);
        generate_html c ip time_validity
          (if bool_decide (alternative_url e = []) then url else alternative_url e) parts e
  end.

End Handlers.

(** ** Failure counts as a counter *)

(** [ban] leaves the failure counts alone. *)
Lemma ban_keeps_counts ip reason env w :
  challenger_ip_db (snd (SwabberOps.ban ip reason env w)) = challenger_ip_db w.
Proof.
  pose (R := fun w w' : World => challenger_ip_db w' = challenger_ip_db w).
  assert (HR : PreOrder R) by (split; unfold R; [done|congruence]).
  exact (SwabberOps.ban_frame R ltac:(done) ltac:(done) ltac:(done) ltac:(done) ip reason env w).
Qed.

Definition count (w : World) (ip : str) : Z := IpDb.view 0 (challenger_ip_db w) ip.

(** Nothing was reported to the swabber. *)
Definition unreported (w w' : World) : Prop :=
  swabber_ip_db w' = swabber_ip_db w /\ swabber w' = swabber w /\ trace w' = trace w.

(** What one failure does once its count was read: below the threshold it is
    written back, and the swabber hears nothing. *)
Lemma count_failure_below ch parts ip host st env w :
  u64 (st + 1) < fail_tolerance_threshold ch ->
  exists w', count_failure ch parts ip host st env w = (Ret false, w') /\ unreported w w' /\
    count w' ip = if env_lock env (tick w) then u64 (st + 1) else count w ip.
Proof.
  intros Ht. unfold count_failure. rewrite (proj2 (Z.leb_gt _ _)) by done.
  rewrite M_bind_eq. unfold challenger_db_set. rewrite db_set_eq. eexists. split; [reflexivity|].
  split; [done|]. unfold count. cbn. destruct (env_lock env (tick w)); [|done].
  by rewrite IpDb.view_insert, decide_True.
Qed.

(** At the threshold it is reported to the swabber, and the count dropped. *)
Lemma count_failure_at ch parts ip host st env w :
  fail_tolerance_threshold ch <= u64 (st + 1) ->
  exists w1 w', SwabberOps.ban (c_str ip) (failure_reason ch host (u64 (st + 1)) parts) env w = (Ret tt, w1) /\
    count_failure ch parts ip host st env w = (Ret true, w') /\
    swabber_ip_db w' = swabber_ip_db w1 /\ trace w' = trace w1 /\
    count w' ip = if env_lock env (tick w1) then 0 else count w ip.
Proof.
  intros Ht. unfold count_failure. rewrite (proj2 (Z.leb_le _ _)) by done. rewrite M_bind_eq.
  set (reason := failure_reason _ _ _ _).
  pose proof (SwabberOps.ban_returns (c_str ip) reason env w) as Hb.
  pose proof (ban_keeps_counts (c_str ip) reason env w) as Hk.
  destruct (SwabberOps.ban _ _ env w) as [[[]| |] w1]; try done. cbn [snd] in Hk.
  exists w1. rewrite M_bind_eq. unfold challenger_db_drop. rewrite db_drop_eq. eexists. split; [done|].
  split; [reflexivity|]. split; [done|]. split; [done|]. unfold count. cbn.
  destruct (env_lock env (tick w1)); cbn; [by rewrite IpDb.view_delete, decide_True|by rewrite Hk].
Qed.

(** Reading the count. *)
Lemma report_failure_read ch parts ip host env w :
  parts !! Part.IP = Some ip -> parts !! Part.HOST = Some host ->
  report_failure ch parts env w =
  if env_lock env (tick w) then count_failure ch parts ip host (count w ip) env (with_tick (S (tick w)) w)
  else (Ret false, with_tick (S (tick w)) w).
Proof.
  intros Hip%part_at_Ret Hh%part_at_Ret. unfold report_failure. rewrite M_bind_eq, Hip. cbn [lift].
  rewrite M_bind_eq, Hh. cbn [lift]. rewrite M_bind_eq. unfold challenger_db_get. rewrite db_get_eq.
  by destruct (env_lock env (tick w)).
Qed.

(** [k] failures in a row, and what each of them answered. *)
Fixpoint fail_times (k : nat) (ch : HostChallengeSpec) (parts : TransactionParts) : M (list bool) :=
  match k with
  | O => mret []
  | S k' => b ← report_failure ch parts; bs ← fail_times k' ch parts; mret (b :: bs)
  end.

(** Below the threshold the failures are counted, and nothing else happens. *)
Lemma fail_times_below k ch parts ip host env w :
  uncontended env -> parts !! Part.IP = Some ip -> parts !! Part.HOST = Some host ->
  0 <= count w ip -> count w ip + Z.of_nat k < fail_tolerance_threshold ch ->
  fail_tolerance_threshold ch < 2 ^ 64 ->
  exists w', fail_times k ch parts env w = (Ret (replicate k false), w') /\
    count w' ip = count w ip + Z.of_nat k /\ unreported w w'.
Proof.
  intros Hl Hip Hhost. revert w; induction k as [|k IH]; intros w Hn Hk Ht; cbn [fail_times].
  { exists w. split; [done|]. by split; [lia|]. }
  rewrite M_bind_eq, (report_failure_read ch parts ip host) by done. rewrite Hl.
  assert (Hu : u64 (count w ip + 1) = count w ip + 1) by (apply Z.mod_small; lia).
  destruct (count_failure_below ch parts ip host (count w ip) env (with_tick (S (tick w)) w))
    as (w1 & -> & Hq & Hc); [lia|]. rewrite Hl, Hu in Hc.
  destruct (IH w1) as (w2 & Hw2 & Hc2 & Hq2); [lia..|].
  rewrite M_bind_eq, Hw2. exists w2. split; [reflexivity|]. split; [lia|].
  destruct Hq as (? & ? & ?), Hq2 as (? & ? & ?). unfold unreported. cbn in *. by split_and!; etransitivity.
Qed.

(** C17. Tolerance: on free locks, with a bound socket, a clock that is not at
    zero and an address without NUL, the failures of an address are counted
    without a word to the swabber as long as its count stays below the threshold
    of the challenge; the failure that brings the count to the threshold is
    reported to the swabber, which flags, ignores or bans the address as its
    grace period says, and the count starts again at zero. *)
Theorem failures_until_ban (ch : HostChallengeSpec) (parts : TransactionParts) (ip host : str)
    (env : Env) (w : World) (k : nat) :
  uncontended env -> SwabberOps.connected w -> (forall n, env_sec env n <> 0) -> NUL ∉ ip ->
  parts !! Part.IP = Some ip -> parts !! Part.HOST = Some host ->
  0 <= count w ip -> count w ip + Z.of_nat k + 1 = fail_tolerance_threshold ch ->
  fail_tolerance_threshold ch < 2 ^ 32 ->
  exists w1 w', fail_times k ch parts env w = (Ret (replicate k false), w1) /\ unreported w w1 /\
    report_failure ch parts env w1 = (Ret true, w') /\ count w' ip = 0 /\
    let '(st, v) := SwabberOps.abs_ban (grace_period (swabber w)) (env_sec env (S (tick w1)))
                      (SwabberOps.status_of w ip) in
    exists evs, SwabberOps.status_of w' ip = st /\ trace w' = trace w ++ evs /\
      SwabberOps.observed ip (failure_reason ch host (fail_tolerance_threshold ch) parts) v evs.
Proof.
  intros Hl Hs Ht Hnul Hip Hhost Hn Hk Hth.
  destruct (fail_times_below k ch parts ip host env w) as (w1 & E1 & Hc1 & Hq1); [done..|lia|lia|].
  assert (Hu : u64 (count w1 ip + 1) = fail_tolerance_threshold ch) by (rewrite Hc1, <- Hk; apply Z.mod_small; lia).
  set (w2 := with_tick (S (tick w1)) w1).
  destruct (count_failure_at ch parts ip host (count w1 ip) env w2) as (w3 & w4 & E3 & E4 & Hdb & Htr & Hc4); [lia|].
  rewrite Hu, c_str_no_nul in E3 by done.
  destruct Hq1 as (Hq1 & Hq2 & Hq3).
  pose proof (SwabberOps.ban_run env w2 ip (failure_reason ch host (fail_tolerance_threshold ch) parts) Hl
    ltac:(by unfold SwabberOps.connected; cbn; rewrite Hq2) (Ht _)) as Hb.
  replace (SwabberOps.status_of w2 ip) with (SwabberOps.status_of w ip) in Hb
    by (unfold SwabberOps.status_of; cbn; by rewrite Hq1).
  cbn [swabber tick with_tick w2] in Hb. rewrite Hq2 in Hb.
  exists w1, w4. split; [done|]. split; [done|].
  rewrite (report_failure_read ch parts ip host env w1), Hl by done. split; [exact E4|].
  split; [by rewrite Hc4, Hl|]. destruct (SwabberOps.abs_ban _ _ _) as [st v].
  destruct Hb as (w3' & evs & E3' & Hst & Htr' & Ho). fold w2 in E3'. rewrite E3 in E3'. injection E3' as <-.
  exists evs. split; [by unfold SwabberOps.status_of; rewrite Hdb|]. split; [|done].
  rewrite Htr, Htr'. cbn. by rewrite Hq3.
Qed.

Definition sample_spec (th : Z) (ty : ChallengeType) : HostChallengeSpec :=
  MkSpec (lit "ch") ty (lit "page $token") th 3600 [] [] [] [] 0.

Definition client_parts : TransactionParts :=
  <[Part.IP := lit "10.0.0.7"]> (<[Part.HOST := lit "h.org"]> ∅).

Lemma failures_until_ban_witness :
  exists w1 w', fail_times 2 (sample_spec 3 CHALLENGE_AUTH) client_parts SwabberOps.sample_env
               (SwabberOps.sample_world 0) = (Ret [false; false], w1) /\
    report_failure (sample_spec 3 CHALLENGE_AUTH) client_parts SwabberOps.sample_env w1 = (Ret true, w') /\
    count w' (lit "10.0.0.7") = 0.
Proof.
  destruct (failures_until_ban (sample_spec 3 CHALLENGE_AUTH) client_parts (lit "10.0.0.7")
           (lit "h.org") SwabberOps.sample_env (SwabberOps.sample_world 0) 2)
    as (w1 & w' & E1 & _ & E2 & Hc & _).
  - by intros n.
  - eexists. split; [reflexivity|]. vm_compute. reflexivity.
  - intros n. cbn. lia.
  - apply (bool_decide_unpack _). vm_compute. exact Logic.I.
  - reflexivity.
  - reflexivity.
  - vm_compute. discriminate.
  - reflexivity.
  - reflexivity.
  - exists w1, w'. by split_and!.
Defined.

(** A success does not wipe the record, it leaves one failure on it. *)
Lemma success_leaves_one (ip : str) (env : Env) (w : World) :
  uncontended env -> count (snd (report_success ip env w)) ip = 1.
Proof.
  intros Hl. unfold report_success. rewrite M_bind_eq. unfold challenger_db_set. rewrite db_set_eq, Hl.
  unfold count. cbn. by rewrite IpDb.view_insert, decide_True.
Qed.

End Challenger.
