(* ===== verification/Failures.v ===== *)
(** * Failures: failed challenges of one client in several requests at once

    Requests are handled by many threads, and [report_failure] of
    src/challenger.cpp reads the failure count of an address and writes it back
    in two separate accesses.  Here the requests of one client, for any hosts and
    any challenges, interleave on the one count of its address: a request has
    read the count, others read and write in between, then it goes on. *)

From S2P Require Import Prelude Util WhiteList IpDb Yaml World Swabber Reports ChallengeChecks Challenger.

Local Open Scope Z_scope.

Module Failures.
Import Challenger.

(** A request that has read the count: the challenge it failed, its parts, its
    host, and the count it read. *)
Record flight := MkFlight {
  f_challenge : HostChallengeSpec;
  f_parts : TransactionParts;
  f_host : str;
  f_count : Z
}.

Section Client.
Context (ip : str).

(** [failures] and [succeeded]: how many failures were reported, and whether a
    success was, since the client last had no failure on record and no request
    in flight. *)
Record state := MkState { world : World; pending : list flight; failures : Z; succeeded : bool }.

(** A client without a record and without a request in flight starts anew. *)
Definition settle (w : World) (p : list flight) (f : Z) (b : bool) : state :=
  match p with
  | [] => if count w ip =? 0 then MkState w [] 0 false else MkState w [] f b
  | _ :: _ => MkState w p f b
  end.

(** The steps of the requests of this client, under any answers of the locks,
    the clock and the socket; the last rule is whatever leaves its count alone.
    The label is a request that goes on after its read, and what it answers. *)
Inductive step (s : state) : option (flight * bool) -> state -> Prop :=
  | step_read env ch parts host st w' :
      parts !! Part.IP = Some ip -> parts !! Part.HOST = Some host ->
      challenger_db_get ip env (world s) = (Ret (Some st), w') ->
      step s None (MkState w' (pending s ++ [MkFlight ch parts host st]) (failures s + 1) (succeeded s))
  | step_count env before r after banned w' :
      pending s = before ++ r :: after ->
      count_failure (f_challenge r) (f_parts r) ip (f_host r) (f_count r) env (world s) = (Ret banned, w') ->
      step s (Some (r, banned)) (settle w' (before ++ after) (failures s) (succeeded s))
  | step_success env w' :
      report_success ip env (world s) = (Ret tt, w') ->
      step s None (MkState w' (pending s) (failures s) true)
  | step_other w' :
      count w' ip = count (world s) ip ->
      step s None (MkState w' (pending s) (failures s) (succeeded s)).

(** From a client without a record. *)
Inductive reachable : state -> Prop :=
  | reach_start w : count w ip = 0 -> reachable (MkState w [] 0 false)
  | reach_step s b s' : reachable s -> step s b s' -> reachable s'.

(** A report is the read and, when that succeeds, what goes on after it. *)
Lemma report_failure_split ch parts host env w :
  parts !! Part.IP = Some ip -> parts !! Part.HOST = Some host ->
  report_failure ch parts env w =
  (st ← challenger_db_get ip;
   match st with None => mret false | Some st => count_failure ch parts ip host st end) env w.
Proof.
  intros Hip Hh. unfold report_failure.
  by rewrite M_bind_eq, (proj2 (part_at_Ret _ _ _) Hip), M_bind_eq, (proj2 (part_at_Ret _ _ _) Hh).
Qed.

(** What the failures allow the count to be. *)
Definition allowance (s : state) : Z := failures s + (if succeeded s then 1 else 0).

Definition bounded (s : state) : Prop :=
  0 <= count (world s) ip <= allowance s /\ 0 <= failures s /\
  Forall (fun r => 0 <= f_count r /\ f_count r + 1 <= allowance s) (pending s).

Lemma u64_le z : 0 <= z -> 0 <= u64 z <= z.
Proof. intros Hz. unfold u64. split; [apply Z.mod_pos_bound; lia|apply Z.mod_le; lia]. Qed.

Lemma count_failure_count ch parts host st env w banned w' :
  count_failure ch parts ip host st env w = (Ret banned, w') ->
  count w' ip = 0 \/ count w' ip = u64 (st + 1) \/ count w' ip = count w ip.
Proof.
  intros E. destruct (Z.le_gt_cases (fail_tolerance_threshold ch) (u64 (st + 1))) as [Ht|Ht].
  - destruct (count_failure_at ch parts ip host st env w Ht) as (w1 & w2 & _ & E2 & _ & _ & Hc).
    rewrite E in E2. injection E2 as _ <-. rewrite Hc. destruct (env_lock _ _); auto.
  - destruct (count_failure_below ch parts ip host st env w Ht) as (w2 & E2 & _ & Hc).
    rewrite E in E2. injection E2 as _ <-. rewrite Hc. destruct (env_lock _ _); auto.
Qed.

Lemma settle_bounded w p f b : bounded (MkState w p f b) -> bounded (settle w p f b).
Proof.
  unfold settle. destruct p; [|done]. destruct (Z.eqb_spec (count w ip) 0); [|done]. intros _.
  unfold bounded, allowance. cbn. split; [lia|]. by split; [lia|].
Qed.

Lemma step_bounded s b s' : bounded s -> step s b s' -> bounded s'.
Proof.
  intros (Hc & Hf & Hp) Hstep. unfold allowance in *.
  destruct Hstep as [env ch parts host st w' _ _ E|env before r after banned w' Ep E|env w' E|w' E];
    [|apply settle_bounded|..]; unfold bounded, allowance; cbn [world pending failures succeeded].
  - unfold challenger_db_get in E. rewrite db_get_eq in E.
    destruct (env_lock env (tick (world s))); [|done]. injection E as <- <-.
    change (IpDb.view 0 _ ip) with (count (world s) ip). split; [unfold count in *; cbn; lia|].
    split; [lia|]. apply Forall_app. split; [|constructor; [cbn; lia|constructor]].
    eapply Forall_impl; [exact Hp|]. cbv beta. lia.
  - rewrite Ep in Hp. apply Forall_app in Hp as [Hb Ha]. inversion Ha as [|? ? Hst Ha']; subst.
    apply count_failure_count in E. pose proof (u64_le (f_count r + 1) ltac:(lia)).
    split; [lia|]. split; [lia|]. by apply Forall_app.
  - unfold report_success in E. rewrite M_bind_eq in E. unfold challenger_db_set in E.
    rewrite db_set_eq in E. injection E as <-. split; [|split; [lia|]].
    + unfold count in *. cbn. destruct (env_lock env (tick (world s))); [|destruct (succeeded s); lia].
      rewrite IpDb.view_insert, decide_True by done. lia.
    + eapply Forall_impl; [exact Hp|]. cbv beta. destruct (succeeded s); lia.
  - by rewrite E.
Qed.

Lemma reachable_bounded s : reachable s -> bounded s.
Proof.
  induction 1 as [w Hw|s b s' _ IH Hs]; [|by eapply step_bounded].
  unfold bounded, allowance. cbn. split; [lia|]. split; [lia|constructor].
Qed.

Lemma world_settle w p f b : world (settle w p f b) = w.
Proof. unfold settle. destruct p; [|done]. by destruct (_ =? _). Qed.

(** C18. However the requests of a client for any hosts and challenges
    interleave on the failure count of its address, and whatever the locks, the
    clock and the socket do: a failure that is answered as a ban was handed to
    the swabber with its reason, and comes only when as many failures of the
    client were reported as the threshold of this challenge says, counted since
    it last had no failure on record and no request in flight (a success in this
    time counts as one); the record is then dropped if its lock is free.  A
    failure that is not answered as a ban tells the swabber nothing. *)
Theorem no_early_ban (s s' : state) (r : flight) (banned : bool) :
  reachable s -> step s (Some (r, banned)) s' ->
  if banned then
    fail_tolerance_threshold (f_challenge r) <= failures s + (if succeeded s then 1 else 0) /\
    exists env w1,
      SwabberOps.ban (c_str ip) (failure_reason (f_challenge r) (f_host r) (u64 (f_count r + 1)) (f_parts r))
        env (world s) = (Ret tt, w1) /\
      swabber_ip_db (world s') = swabber_ip_db w1 /\ trace (world s') = trace w1 /\
      count (world s') ip = if env_lock env (tick w1) then 0 else count (world s) ip
  else unreported (world s) (world s').
Proof.
  intros (_ & _ & Hp)%reachable_bounded Hstep. inversion Hstep as [|env before r' after b w' Ep E| |]; subst.
  rewrite world_settle. rewrite Ep in Hp. apply Forall_app in Hp as [_ Ha]. inversion Ha as [|? ? Hst _]; subst.
  pose proof (u64_le (f_count r + 1) ltac:(lia)) as Hu. unfold allowance in Hst.
  destruct (Z.le_gt_cases (fail_tolerance_threshold (f_challenge r)) (u64 (f_count r + 1))) as [Ht|Ht].
  - destruct (count_failure_at _ (f_parts r) ip (f_host r) _ env (world s) Ht)
      as (w1 & w2 & E1 & E2 & H1 & H2 & H3). rewrite E in E2. injection E2 as -> <-. split; [lia|].
    by exists env, w1.
  - destruct (count_failure_below _ (f_parts r) ip (f_host r) _ env (world s) Ht) as (w2 & E2 & H1 & _).
    rewrite E in E2. by injection E2 as -> <-.
Qed.

End Client.

(** ** Samples *)

Definition w0 : World := SwabberOps.sample_world 0.
Definition env0 : Env := SwabberOps.sample_env.
Definition client : str := lit "10.0.0.7".

(** A world after a computation. *)
Definition after {A} (m : M A) (w : World) : World := snd (m env0 w).

Definition strict : HostChallengeSpec := sample_spec 1 CHALLENGE_AUTH.
Definition lenient : HostChallengeSpec := sample_spec 3 CHALLENGE_AUTH.

Definition read1 : World := after (challenger_db_get client) w0.
Definition banned1 : World := after (count_failure strict client_parts client (lit "h.org") 0) read1.

Lemma read_reachable ch :
  reachable client (MkState read1 [MkFlight ch client_parts (lit "h.org") 0] 1 false).
Proof.
  apply (reach_step client (MkState w0 [] 0 false) None); [by apply reach_start|].
  by apply (step_read client (MkState w0 [] 0 false) env0 ch client_parts (lit "h.org") 0).
Qed.

Lemma no_early_ban_witness :
  fail_tolerance_threshold strict <= 1 + 0 /\ exists env w1,
    SwabberOps.ban (c_str client) (failure_reason strict (lit "h.org") 1 client_parts) env read1 = (Ret tt, w1).
Proof.
  destruct (no_early_ban client (MkState read1 [MkFlight strict client_parts (lit "h.org") 0] 1 false)
    (settle client banned1 [] 1 false) (MkFlight strict client_parts (lit "h.org") 0) true)
    as (Hle & env & w1 & E & _).
  - apply read_reachable.
  - apply (step_count client (MkState read1 [MkFlight strict client_parts (lit "h.org") 0] 1 false) env0 []
             (MkFlight strict client_parts (lit "h.org") 0) []); reflexivity.
  - split; [exact Hle|]. exists env, w1. exact E.
Defined.

(** The price of the two accesses: two failures of one client that overlap
    can count as one, so the ban can come later than configured. *)
Lemma lost_update :
  exists w, reachable client (MkState w [] 2 false) /\ count w client = 1.
Proof.
  pose (r := MkFlight lenient client_parts (lit "h.org") 0).
  pose (read2 := after (challenger_db_get client) read1).
  pose (count1 := after (count_failure lenient client_parts client (lit "h.org") 0) read2).
  pose (count2 := after (count_failure lenient client_parts client (lit "h.org") 0) count1).
  exists count2. split; [|vm_compute; reflexivity].
  eapply reach_step; [|by apply (step_count client (MkState count1 [r] 2 false) env0 [] r [] false count2)].
  eapply reach_step; [|by apply (step_count client (MkState read2 [r; r] 2 false) env0 [] r [r] false count1)].
  eapply reach_step; [|by apply (step_read client (MkState read1 [r] 1 false) env0 lenient client_parts (lit "h.org") 0 read2)].
  apply read_reachable.
Qed.

End Failures.
