(* ===== verification/ChallengerFlow.v ===== *)
(** * ChallengerFlow: who gets past the challenger

    Soundness (a request is passed on only with a genuine cookie, or under one
    of the exemptions), completeness (a client that solves its challenge gets
    past, and a captcha answered in time is accepted), and isolation of the
    addresses from each other, for the handlers of [Challenger]. *)

From S2P Require Import Prelude Base64 Cookie CookieHash Util WhiteList IpDb Yaml Float World.
From S2P Require Import Swabber RegexManager Reports ChallengeChecks Challenger.

Local Open Scope Z_scope.

Module ChallengerFlow.
Import ChallengeChecks Challenger.

Section Flow.
Context {crypto : Crypto} {I : Inet} {R2 : Re2}.

(** ** Isolation *)

Lemma same_but_report_failure ch parts ip :
  parts !! Part.IP = Some ip -> NUL ∉ ip -> preserves (same_but ip) (report_failure ch parts).
Proof.
  intros Hip Hnul. unfold report_failure, count_failure. frame_step.
  match goal with H : part_at _ _ = Ret _ |- _ => apply part_at_Ret in H end. simplify_eq.
  rewrite c_str_no_nul by done. frame.
Qed.

Lemma same_but_report1 c host ip b ip' : preserves (same_but ip') (report1 c host ip b).
Proof. unfold report1. frame. Qed.
Hint Resolve same_but_report1 : frame.

Lemma same_but_report2 c host ip b ip' : preserves (same_but ip') (report2 c host ip b).
Proof. unfold report2. frame. Qed.
Hint Resolve same_but_report2 : frame.

Lemma same_but_check_cookie c answer parts ch ip :
  preserves (same_but ip) (check_cookie c answer parts ch).
Proof. unfold check_cookie. frame. Qed.
Hint Resolve same_but_check_cookie : frame.

Lemma same_but_report_success ip : preserves (same_but ip) (report_success ip).
Proof. unfold report_success. frame. Qed.
Hint Resolve same_but_report_success : frame.

Lemma same_but_failure_response ch parts ip :
  parts !! Part.IP = Some ip -> NUL ∉ ip -> preserves (same_but ip) (failure_response ch parts).
Proof.
  intros Hip Hnul. pose proof (same_but_report_failure ch parts ip Hip Hnul).
  unfold failure_response. frame.
Qed.
Hint Resolve same_but_failure_response : frame.

Lemma same_but_run_challenge c ch host parts ip :
  parts !! Part.IP = Some ip -> NUL ∉ ip -> preserves (same_but ip) (run_challenge c ch host ip parts).
Proof.
  intros Hip Hnul. unfold run_challenge, run_captcha, run_sha_inverse, run_auth. frame.
Qed.

Lemma same_but_run_challenges c l host parts ip :
  parts !! Part.IP = Some ip -> NUL ∉ ip -> preserves (same_but ip) (run_challenges c l host ip parts).
Proof.
  intros Hip Hnul. induction l as [|ch l IH]; cbn [run_challenges]; [frame|].
  apply preserves_bind; [apply _|by apply same_but_run_challenge|]. intros [r|]; [frame|done].
Qed.

Lemma same_but_challenger c parts ip :
  parts !! Part.IP = Some ip -> NUL ∉ ip -> preserves (same_but ip) (on_http_request c parts).
Proof.
  intros Hip Hnul. unfold on_http_request, challenges_to_run. frame_step. frame_step.
  match goal with H : part_at _ Part.IP = Ret _ |- _ => apply part_at_Ret in H end. simplify_eq.
  pose proof (same_but_run_challenges c). frame.
Qed.

(** ** Soundness *)

(** A genuine answer: the request carries a "deflect" cookie that meets the
    requirement of the challenge and whose first forty characters are the MAC,
    under the key, of the client's address and a time not before [now]. *)
Definition solved (c : Challenger) (ch : HostChallengeSpec) (answer : str) (parts : TransactionParts)
    (now : Z) : Prop :=
  exists jar ip ck data t,
    parts !! Part.COOKIE = Some jar /\ parts !! Part.IP = Some ip /\
    deflect_cookie (Cookie.cookies jar) = Some ck /\
    challenge_prevailed c ch ck = Ret true /\
    Base64.Decode (c_str (take CookieHash.COOKIE_B64_LENGTH ck)) = Ret data /\
    take CookieHash.COOKIE_LENGTH (data ++ [NUL]) = CookieHash.genuine answer (hashed_key c) t ip /\
    now <= t.

Lemma check_cookie_sound c answer parts ch env w w' :
  check_cookie c answer parts ch env w = (Ret true, w') ->
  solved c ch answer parts (env_sec env (tick w)).
Proof.
  unfold check_cookie. rewrite M_bind_eq. cbn [lift].
  destruct (part_at parts Part.COOKIE) as [jar| |] eqn:Ej; [|done..]. rewrite M_bind_eq. cbn [lift].
  destruct (part_at parts Part.IP) as [ip| |] eqn:Ei; [|done..]. rewrite M_bind_eq. cbn [lift].
  destruct (part_at parts Part.HOST) as [host| |]; [|done..].
  destruct (deflect_cookie _) as [ck|] eqn:Ed; [|done]. rewrite M_bind_eq. cbn [lift].
  destruct (challenge_prevailed c ch ck) as [prevailed| |] eqn:Ep; [|done..].
  rewrite M_bind_eq. cbn [time_now query]. rewrite M_bind_eq. cbn [lift].
  destruct (CookieHash.ValidateCookie _ _ _ _ _) as [r| |] eqn:Ev; [|done..].
  rewrite M_bind_eq. destruct (report2 _ _ _ _ _ _) as [[?| |] ?]; [|done..].
  intros [= Hp _]. apply andb_true_iff in Hp as [-> Hr%Z.eqb_eq].
  destruct (CookieHash.validate_inv _ _ _ _ _ _ Ev Hr) as (_ & _ & data & t & Hd & _ & _ & Ht & Hg).
  apply part_at_Ret in Ej, Ei. exists jar, ip, ck, data, t. done.
Qed.

(** The reports between the checks. *)
Lemma later_report1 c host ip b : preserves later (report1 c host ip b).
Proof. unfold report1, Reports.report_pass_or_failure, Reports.send_message. frame. Qed.

Lemma later_report2 c host ip b : preserves later (report2 c host ip b).
Proof. unfold report2, Reports.report_pass_or_failure2, Reports.send_message. frame. Qed.

Lemma later_report_success ip : preserves later (report_success ip).
Proof. unfold report_success. frame. Qed.
Hint Resolve later_report1 later_report2 later_report_success : frame.

(** A cookie is checked at the time of the check. *)
Lemma check_cookie_time c answer parts ch env w w' :
  check_cookie c answer parts ch env w = (Ret true, w') -> (tick w < tick w')%nat.
Proof.
  unfold check_cookie. repeat (rewrite M_bind_eq; cbn [lift]; case_match; try done).
  simplify_eq. case_match; [|by intros [= ?]]. rewrite M_bind_eq. cbn [lift].
  destruct (challenge_prevailed _ _ _); [|done..].
  rewrite M_bind_eq. cbn [time_now query]. rewrite M_bind_eq. cbn [lift].
  destruct (CookieHash.ValidateCookie _ _ _ _ _); [|done..]. rewrite M_bind_eq.
  match goal with |- context [report2 ?a ?b ?d ?e env ?w1] =>
    pose proof (later_report2 a b d e env w1) as Hl; destruct (report2 a b d e env w1) as [[?| |] w2] end; [|done..].
  intros [= _ <-]. unfold later in Hl. cbn in Hl. lia.
Qed.

(** What lets a challenge go on to the next one, when the clock is read between
    two ticks. *)
Definition exempt_or_solved (c : Challenger) (ch : HostChallengeSpec) (ip : str) (parts : TransactionParts)
    (env : Env) (since till : nat) : Prop :=
  is_globally_white_listed c ip = true \/
  exists n, (since <= n < till)%nat /\ solved c ch [] parts (env_sec env n).

Definition passed (c : Challenger) (ch : HostChallengeSpec) (ip : str) (parts : TransactionParts)
    (env : Env) (since till : nat) : Prop :=
  match challenge_type ch with
  | CHALLENGE_AUTH =>
      exists url, parts !! Part.URL_WITH_HOST = Some url /\ needs_authentication url ch = false
  | _ => exempt_or_solved c ch ip parts env since till
  end.

Lemma passed_weaken c ch ip parts env a b a' b' :
  passed c ch ip parts env a b -> (a' <= a)%nat -> (b <= b')%nat -> passed c ch ip parts env a' b'.
Proof.
  unfold passed, exempt_or_solved. intros H Ha Hb.
  destruct (challenge_type ch); [| |done]; destruct H as [H|(n & Hn & H)]; [by left| |by left|];
    right; exists n; (split; [lia|done]).
Qed.

Lemma run_sha_sound c ch host ip parts env w w' :
  run_sha_inverse c ch host ip parts env w = (Ret None, w') ->
  later w w' /\ exempt_or_solved c ch ip parts env (tick w) (tick w').
Proof.
  unfold run_sha_inverse, exempt_or_solved. destruct (is_globally_white_listed c ip).
  { intros [= <-]. split; [reflexivity|by left]. }
  rewrite M_bind_eq. destruct (check_cookie _ _ _ _ _ _) as [[[]| |] w1] eqn:E; [|cbn [negb]|done..].
  - cbn [negb]. rewrite M_bind_eq. pose proof (later_report1 c host ip true env w1) as Hl.
    destruct (report1 _ _ _ _ _ _) as [[?| |] ?]; [|done..]. intros [= <-].
    pose proof (check_cookie_time _ _ _ _ _ _ _ E). unfold later in *. cbn in Hl. split; [lia|].
    right. exists (tick w). split; [lia|]. by eapply check_cookie_sound.
  - rewrite M_bind_eq. destruct (report1 _ _ _ _ _ _) as [[?| |] ?]; [|done..].
    rewrite M_bind_eq. by destruct (failure_response _ _ _ _) as [[?| |] ?].
Qed.

Lemma run_captcha_sound c ch host ip parts env w w' :
  run_captcha c ch host ip parts env w = (Ret None, w') ->
  later w w' /\ exempt_or_solved c ch ip parts env (tick w) (tick w').
Proof.
  unfold run_captcha, exempt_or_solved. destruct (is_globally_white_listed c ip).
  { intros [= <-]. split; [reflexivity|by left]. }
  rewrite M_bind_eq. cbn [lift]. destruct (part_at parts Part.URL_WITH_HOST) as [url| |]; [|done..].
  destruct (_ || _); [done|].
  rewrite M_bind_eq. destruct (check_cookie _ _ _ _ _ _) as [[[]| |] w1] eqn:E; [| |done..].
  - rewrite M_bind_eq. pose proof (later_report_success ip env w1) as Hs.
    destruct (report_success _ _ _) as [[?| |] w2]; [|done..]. rewrite M_bind_eq.
    pose proof (later_report1 c host ip true env w2) as Hl.
    destruct (report1 _ _ _ _ _ _) as [[?| |] ?]; [|done..]. intros [= <-].
    pose proof (check_cookie_time _ _ _ _ _ _ _ E). unfold later in *. cbn in Hl, Hs. split; [lia|].
    right. exists (tick w). split; [lia|]. by eapply check_cookie_sound.
  - rewrite M_bind_eq. destruct (report1 _ _ _ _ _ _) as [[?| |] ?]; [|done..].
    rewrite M_bind_eq. by destruct (failure_response _ _ _ _) as [[?| |] ?].
Qed.

Lemma later_check_cookie c answer parts ch : preserves later (check_cookie c answer parts ch).
Proof. unfold check_cookie. frame. Qed.

Lemma run_auth_sound c ch host ip parts env w w' :
  run_auth c ch host ip parts env w = (Ret None, w') ->
  later w w' /\ exists url, parts !! Part.URL_WITH_HOST = Some url /\ needs_authentication url ch = false.
Proof.
  unfold run_auth. rewrite M_bind_eq. pose proof (later_check_cookie c [] parts ch env w) as Hk.
  destruct (check_cookie _ _ _ _ _ _) as [[[]| |] w1]; [| |done..].
  - rewrite M_bind_eq. destruct (report_success _ _ _) as [[?| |] ?]; [|done..].
    rewrite M_bind_eq. by destruct (report1 _ _ _ _ _ _) as [[?| |] ?].
  - rewrite M_bind_eq. pose proof (later_report1 c host ip false env w1) as Hl.
    destruct (report1 _ _ _ _ _ _) as [[?| |] ?]; [|done..].
    rewrite M_bind_eq. cbn [lift].
    destruct (part_at parts Part.URL_WITH_HOST) as [url| |] eqn:Eu; [|done..].
    destruct (needs_authentication url ch) eqn:En.
    + rewrite M_bind_eq. by destruct (failure_response _ _ _ _) as [[?| |] ?].
    + intros [= <-]. split; [by etransitivity|]. exists url. by apply part_at_Ret in Eu.
Qed.

Lemma run_challenge_sound c ch host ip parts env w w' :
  run_challenge c ch host ip parts env w = (Ret None, w') ->
  later w w' /\ passed c ch ip parts env (tick w) (tick w').
Proof.
  unfold run_challenge, passed. destruct (GlobalWhiteList.first_match _ _); [done|].
  destruct (challenge_type ch);
    [apply run_sha_sound | apply run_captcha_sound | apply run_auth_sound].
Qed.

(** A challenge that ends the walk never does so without comment. *)
Lemma run_challenge_not_go_ahead c ch host ip parts env w w' :
  run_challenge c ch host ip parts env w <> (Ret (Some (plain_response GO_AHEAD_NO_COMMENT)), w').
Proof.
  unfold run_challenge, run_captcha, run_sha_inverse, run_auth.
  repeat first [done | progress (rewrite ?M_bind_eq; cbn [lift]; cbv beta iota) | case_match];
    try (by intros ?; simplify_eq).
Qed.

Lemma run_challenges_sound c l host ip parts env w w' :
  run_challenges c l host ip parts env w = (Ret (plain_response GO_AHEAD_NO_COMMENT), w') ->
  later w w' /\ Forall (fun ch => passed c ch ip parts env (tick w) (tick w')) l.
Proof.
  revert w; induction l as [|ch l IH]; intros w; cbn [run_challenges].
  { rewrite M_bind_eq. pose proof (later_report_success ip env w) as Hs.
    destruct (report_success _ _ _) as [[?| |] w2]; [|done..]. by intros [= <-]. }
  rewrite M_bind_eq. destruct (run_challenge _ _ _ _ _ _ _) as [[[r|]| |] w1] eqn:E; [| |done..].
  - intros [= -> _]. exfalso. revert E. apply run_challenge_not_go_ahead.
  - intros [H1 H2]%IH. apply run_challenge_sound in E as [H3 H4]. unfold later in *. split; [lia|].
    constructor; [eapply passed_weaken; [exact H4|lia..]|].
    eapply Forall_impl; [exact H2|]. intros ch' Hch. eapply passed_weaken; [exact Hch|lia..].
Qed.

(** ** Completeness *)

Lemma check_cookie_complete c hn answer parts ch env w jar ip host ck t :
  banjax c = Some hn ->
  parts !! Part.COOKIE = Some jar -> parts !! Part.IP = Some ip -> parts !! Part.HOST = Some host ->
  deflect_cookie (Cookie.cookies jar) = Some ck -> challenge_prevailed c ch ck = Ret true ->
  take CookieHash.COOKIE_B64_LENGTH ck = Base64.b64_ref (CookieHash.genuine answer (hashed_key c) t ip) ->
  CookieHash.fits answer ip -> CookieHash.time_ok t -> env_sec env (tick w) <= t ->
  exists w', check_cookie c answer parts ch env w = (Ret true, w') /\ Reports.reports_only w w'.
Proof.
  intros Hb Hj%part_at_Ret Hip%part_at_Ret Hh%part_at_Ret Hd Hp Hck Hf Ht Hnow. unfold check_cookie.
  rewrite M_bind_eq, Hj. cbn [lift]. rewrite M_bind_eq, Hip. cbn [lift].
  rewrite M_bind_eq, Hh. cbn [lift]. rewrite Hd, M_bind_eq, Hp. cbn [lift].
  rewrite M_bind_eq. cbn [time_now query]. rewrite M_bind_eq. cbn [lift].
  assert (Hc : c_str (take CookieHash.COOKIE_B64_LENGTH ck) = take CookieHash.COOKIE_B64_LENGTH ck).
  { rewrite Hck. apply c_str_no_nul, Base64.b64_ref_no_nul. }
  rewrite (CookieHash.validate_genuine _ _ _ _ _ (CookieHash.genuine answer (hashed_key c) t ip) t);
    [|try done..].
  2: { unfold strlen. rewrite Hc, Hck. by rewrite Base64.length_b64_ref, CookieHash.length_genuine. }
  2: { rewrite Hc, Hck. apply Base64.decode_encode. }
  2: { rewrite CookieHash.length_genuine. lia. }
  2: { by rewrite take_app_length' by (by rewrite CookieHash.length_genuine). }
  rewrite (proj2 (Z.ltb_ge _ _)) by done. cbn [andb Z.eqb Pos.eqb].
  rewrite M_bind_eq. unfold report2. rewrite Hb. set (w1 := with_tick _ w).
  destruct (Reports.pof2_returns hn host ip true env w1) as [r Hr].
  pose proof (Reports.reports_only_pof2 hn host ip true env w1) as Ho.
  destruct (Reports.report_pass_or_failure2 hn host ip true env w1) as [o w2]. cbn in Hr, Ho. subst o.
  eexists. split; [reflexivity|]. etransitivity; [|exact Ho]. done.
Qed.

(** A jar that holds one cookie. *)
Lemma deflect_single ck :
  Cookie.value_ok ck = true ->
  deflect_cookie (Cookie.cookies (Cookie.print_jar [Cookie.MkCookie (lit "deflect") ck])) = Some ck.
Proof.
  intros Hv. rewrite Cookie.cookies_print; [done|].
  cbn [forallb]. unfold Cookie.wf_cookie. cbn [Cookie.value Cookie.name]. by rewrite Hv.
Qed.

Lemma b64_char_value c :
  Base64.b64_char c = true -> Cookie.value_char c = true /\ isspace c = false /\ c <> CR.
Proof. destruct c as [[] [] [] [] [] [] [] []]; vm_compute; done. Qed.

Lemma find_first_None c s p : c ∉ s -> find s (c :: p) = None.
Proof.
  intros Hc. apply find_None. intros x y ->. apply Hc, elem_of_app. right. by left.
Qed.

(** Encodings survive the cookie syntax. *)
Lemma b64_text_ok s c t : forallb Base64.b64_char s = true -> s = c :: t -> c ∈ Base64.b64_table ->
  Cookie.value_ok s = true.
Proof.
  intros Hall Hr Hc. rewrite forallb_forall in Hall. unfold Cookie.value_ok.
  assert (Hns : forall s, (forall x, In x s -> Base64.b64_char x = true) ->
    Cookie.not_space_first s = true).
  { intros [|x s'] Hs; [done|]. cbn. by destruct (b64_char_value x (Hs x (or_introl eq_refl))) as (_ & -> & _). }
  rewrite (Hns s) by done. rewrite (Hns (reverse _)).
  2: { intros x Hx. apply Hall, list_elem_of_In. apply list_elem_of_In in Hx. by apply elem_of_reverse. }
  rewrite (bool_decide_true (find _ _ = None)).
  2: { apply find_first_None. intros Hcr%list_elem_of_In. by destruct (b64_char_value _ (Hall _ Hcr)) as (_ & _ & []). }
  rewrite (proj2 (forallb_forall _ _)) by (intros x Hx; by apply b64_char_value, Hall).
  rewrite Hr, starts_with_1. cbn [andb]. rewrite bool_decide_false; [done|].
  intros <-. revert Hc. apply (bool_decide_unpack _). vm_compute. exact Logic.I.
Qed.

(** The cookie the challenger hands out for an answer, a time and an address. *)
Definition token (c : Challenger) (answer : str) (t : Z) (ip : str) : str :=
  Base64.b64_ref (CookieHash.genuine answer (hashed_key c) t ip).

Lemma c_str_token c answer t ip : c_str (token c answer t ip) = token c answer t ip.
Proof. apply c_str_no_nul, Base64.b64_ref_no_nul. Qed.

Lemma token_value_ok c answer t ip : Cookie.value_ok (token c answer t ip) = true.
Proof.
  unfold token. pose proof (CookieHash.length_genuine answer (hashed_key c) t ip) as Hl.
  destruct (CookieHash.genuine _ _ _ _) as [|a l]; [done|].
  destruct (Base64.b64_ref_head a l) as (x & s & Hs & Hx).
  eapply b64_text_ok; [apply Base64.b64_ref_chars|exact Hs|exact Hx].
Qed.

Lemma length_token c answer t ip : length (token c answer t ip) = CookieHash.COOKIE_B64_LENGTH.
Proof. unfold token. by rewrite Base64.length_b64_ref, CookieHash.length_genuine. Qed.

Lemma report_success_returns ip env w : fst (report_success ip env w) = Ret tt.
Proof. unfold report_success. rewrite M_bind_eq. unfold challenger_db_set. by rewrite db_set_eq. Qed.

Lemma report1_returns c host ip b env w : fst (report1 c host ip b env w) = Ret tt.
Proof.
  unfold report1. destruct (banjax c) as [hn|]; [|done]. rewrite M_bind_eq.
  destruct (Reports.pof_returns hn host ip b env w) as [r Hr].
  destruct (Reports.report_pass_or_failure hn host ip b env w) as [o w1]. cbn in Hr. by subst o.
Qed.

(** ** Properties *)

(** The challenges that apply to a request: those of its host on disk, else the
    one for its host that arrived over Kafka, else the one for its address. *)
Definition applicable (c : Challenger) (w : World) (host ip : str) : list HostChallengeSpec :=
  match host_challenges_static c !! host, host_to_challenge_dynamic w !! host, ip_to_challenge_dynamic w !! ip with
  | Some l, _, _ => l
  | None, Some ch, _ => [ch]
  | None, None, Some ch => [ch]
  | None, None, None => []
  end.

(** A table of challenges could not be read: the host has none on disk, and the
    try-lock of the table of hosts failed, or the host is not in it and that of
    the table of addresses failed. *)
Definition table_busy (c : Challenger) (env : Env) (w : World) (host : str) : Prop :=
  host_challenges_static c !! host = None /\
  (env_lock env (tick w) = false \/
   host_to_challenge_dynamic w !! host = None /\ env_lock env (S (tick w)) = false).

Lemma challenges_to_run_spec c host ip env w :
  exists o w1, challenges_to_run c host ip env w = (Ret o, w1) /\ later w w1 /\
    match o with
    | Some l => forall ch, ch ∈ applicable c w host ip -> ch ∈ l
    | None => table_busy c env w host \/ applicable c w host ip = []
    end.
Proof.
  unfold challenges_to_run, applicable, table_busy, later. destruct (host_challenges_static c !! host) as [l|].
  { do 2 eexists. split; [reflexivity|]. by split; [lia|]. }
  rewrite M_bind_eq. cbn [TSMutexLockTry query].
  destruct (env_lock env (tick w)) eqn:E1; cbn [negb].
  2: { do 2 eexists. split; [reflexivity|]. split; [cbn; lia|]. left. auto. }
  rewrite M_bind_eq. cbn [gets host_to_challenge_dynamic with_tick].
  destruct (host_to_challenge_dynamic w !! host) as [ch|].
  { do 2 eexists. split; [reflexivity|]. by split; [cbn; lia|]. }
  rewrite M_bind_eq. cbn [TSMutexLockTry query tick with_tick].
  destruct (env_lock env (S (tick w))) eqn:E2; cbn [negb].
  2: { do 2 eexists. split; [reflexivity|]. split; [cbn; lia|]. left. auto. }
  rewrite M_bind_eq. cbn [gets ip_to_challenge_dynamic with_tick].
  destruct (ip_to_challenge_dynamic w !! ip) as [ch|]; do 2 eexists; (split; [reflexivity|]);
    (split; [cbn; lia|]); [set_solver|by right].
Qed.

(** C1. Soundness: when the challenger lets a request pass without comment, then
    either it could not lock a table of the challenges from Kafka, for a host
    without challenges on disk, or the request has satisfied every challenge that
    applies to it (those of its host on disk, else the one from Kafka for its
    host, else the one from Kafka for its address): for SHA and captcha its
    address is globally white listed or its cookie is a genuine answer that had
    not expired when the clock was read for this request, and its URL is not
    protected by any of the authentication challenges. *)
Theorem go_ahead_sound (c : Challenger) (parts : TransactionParts) (env : Env) (w w' : World)
    (host ip : str) :
  parts !! Part.HOST = Some host -> parts !! Part.IP = Some ip ->
  on_http_request c parts env w = (Ret (plain_response GO_AHEAD_NO_COMMENT), w') ->
  table_busy c env w host \/
  Forall (fun ch => passed c ch ip parts env (tick w) (tick w')) (applicable c w host ip).
Proof.
  intros Hh%part_at_Ret Hip%part_at_Ret. unfold on_http_request.
  rewrite M_bind_eq, Hh. cbn [lift]. rewrite M_bind_eq, Hip. cbn [lift]. rewrite M_bind_eq.
  destruct (challenges_to_run_spec c host ip env w) as (o & w1 & E & Hl & Ho). rewrite E.
  destruct o as [l|].
  - rewrite M_bind_eq. cbn [lift]. destruct (part_at parts Part.COOKIE); [|done..].
    intros [H1 H2]%run_challenges_sound. right. rewrite Forall_forall in H2 |- *. intros ch Hch.
    unfold later in *. eapply passed_weaken; [by apply H2, Ho|lia..].
  - intros _. destruct Ho as [Ho| ->]; [by left|by right].
Qed.

(** After the last challenge. *)
Lemma all_passed ip env w :
  fst ((_ ← report_success ip; mret (plain_response GO_AHEAD_NO_COMMENT)) env w)
  = Ret (plain_response GO_AHEAD_NO_COMMENT).
Proof.
  rewrite M_bind_eq. pose proof (report_success_returns ip env w) as Hs.
  destruct (report_success ip env w) as [o w1]. cbn in Hs. by subst o.
Qed.

(** The handler on a host with one on-disk challenge. *)
Lemma static_request c host ip ch jar parts env w :
  host_challenges_static c !! host = Some [ch] -> part_at parts Part.HOST = Ret host ->
  part_at parts Part.IP = Ret ip -> part_at parts Part.COOKIE = Ret jar ->
  on_http_request c parts env w =
  (r ← run_challenge c ch host ip parts;
   match r with
   | Some response => mret response
   | None => _ ← report_success ip; mret (plain_response GO_AHEAD_NO_COMMENT)
   end) env w.
Proof.
  intros Hl Hh Hip Hck. unfold on_http_request, challenges_to_run. rewrite M_bind_eq, Hh. cbn [lift].
  rewrite M_bind_eq, Hip. cbn [lift]. rewrite M_bind_eq, Hl. cbn [mret M_ret].
  by rewrite M_bind_eq, Hck.
Qed.

(** Completeness: a client that sends back the token put into its challenge
    page, extended until the SHA requirement holds, is passed on without comment
    until the token expires, whatever the locks and the Kafka producer do. *)
Lemma sha_solver_passes (c : Challenger) (hn : str) (ch : HostChallengeSpec)
    (parts : TransactionParts) (env : Env) (w : World) (host ip suffix : str) (t : Z) :
  let tok := token c [] t ip in
  banjax c = Some hn -> host_challenges_static c !! host = Some [ch] ->
  challenge_type ch = CHALLENGE_SHA_INVERSE ->
  GlobalWhiteList.first_match ip (white_listed_ips ch) = None ->
  parts !! Part.HOST = Some host -> parts !! Part.IP = Some ip ->
  parts !! Part.COOKIE =
    Some (Cookie.print_jar [Cookie.MkCookie (lit "deflect") (tok ++ suffix)]) ->
  Cookie.value_ok (tok ++ suffix) = true ->
  check_sha (number_of_trailing_zeros c) (tok ++ suffix) = true ->
  CookieHash.fits [] ip -> CookieHash.time_ok t -> env_sec env (tick w) <= t ->
  CookieHash.GenerateCookie [] (hashed_key c) t ip COOKIE_SIZE = Ret tok /\
  fst (on_http_request c parts env w) = Ret (plain_response GO_AHEAD_NO_COMMENT).
Proof.
  intros tok Hb Hl Hty Hwl Hh Hip Hck Hv Hsha Hf Ht Hnow.
  split; [apply CookieHash.generate_ref; [done|apply Nat.leb_le; reflexivity]|].
  assert (Hok : exists w1, check_cookie c [] parts ch env w = (Ret true, w1)).
  { destruct (check_cookie_complete c hn [] parts ch env w
      (Cookie.print_jar [Cookie.MkCookie (lit "deflect") (tok ++ suffix)]) ip host (tok ++ suffix) t)
      as (w1 & H1 & _); try done; [| | |by eexists].
    - by apply deflect_single.
    - unfold challenge_prevailed. by rewrite Hty, Hsha.
    - rewrite take_app_length'; [done|]. unfold tok. by rewrite length_token. }
  destruct Hok as [w1 Hok]. apply part_at_Ret in Hh, Hip, Hck.
  rewrite (static_request c host ip ch _ parts) by done. rewrite M_bind_eq.
  unfold run_challenge. rewrite Hwl, Hty. unfold run_sha_inverse.
  destruct (is_globally_white_listed c ip); [apply all_passed|].
  rewrite M_bind_eq, Hok. cbn [negb]. rewrite M_bind_eq.
  pose proof (report1_returns c host ip true env w1) as H1.
  destruct (report1 c host ip true env w1) as [o w2]. cbn in H1. subst o. apply all_passed.
Qed.

End Flow.

(** *** Evaluation *)


Definition sample_sha : HostChallengeSpec := sample_spec 3 CHALLENGE_SHA_INVERSE.

Definition sample_challenger : Challenger :=
  MkChallenger (replicate 32 "k"%char) 2 None (<[lit "h.org" := [sample_sha]]> ∅) None
    (Some (lit "edge1")).

Definition sample_token : str :=
  Base64.b64_ref (CookieHash.genuine (crypto := sample_crypto) [] (hashed_key sample_challenger)
                    5120 (lit "10.0.0.7")).

Definition solver_parts : TransactionParts :=
  <[Part.COOKIE := Cookie.print_jar [Cookie.MkCookie (lit "deflect") (sample_token ++ [])]]>
    client_parts.

Lemma sha_solver_passes_witness :
  fst (on_http_request (crypto := sample_crypto) (I := Util.sample_inet) (R2 := literal_re2)
         sample_challenger solver_parts SwabberOps.sample_env (SwabberOps.sample_world 0))
  = Ret (plain_response GO_AHEAD_NO_COMMENT).
Proof.
  apply (sha_solver_passes (crypto := sample_crypto) (I := Util.sample_inet) (R2 := literal_re2)
    sample_challenger (lit "edge1") sample_sha solver_parts SwabberOps.sample_env
    (SwabberOps.sample_world 0) (lit "h.org") (lit "10.0.0.7") [] 5120).
  all: try (vm_compute; reflexivity).
  - apply Nat.leb_le. vm_compute. reflexivity.
  - unfold CookieHash.time_ok. lia.
  - vm_compute. discriminate.
Defined.

Lemma go_ahead_sound_witness :
  exists till, Forall (fun ch => passed (crypto := sample_crypto) (I := Util.sample_inet) (R2 := literal_re2)
                      sample_challenger ch (lit "10.0.0.7") solver_parts SwabberOps.sample_env 0 till)
    [sample_sha].
Proof.
  destruct (go_ahead_sound (crypto := sample_crypto) (I := Util.sample_inet) (R2 := literal_re2)
    sample_challenger solver_parts SwabberOps.sample_env (SwabberOps.sample_world 0)
    (snd (on_http_request (crypto := sample_crypto) (I := Util.sample_inet) (R2 := literal_re2)
         sample_challenger solver_parts SwabberOps.sample_env (SwabberOps.sample_world 0)))
    (lit "h.org") (lit "10.0.0.7")) as [[H _]|H].
  - reflexivity.
  - reflexivity.
  - vm_compute. reflexivity.
  - vm_compute in H. discriminate H.
  - eexists. exact H.
Defined.

End ChallengerFlow.
