(* ===== verification/CaptchaFlow.v ===== *)
(** * CaptchaFlow: from the picture to the session cookie

    The two pages of a captcha: the picture comes with a cookie that holds its
    answer, and the answer sent back with that cookie earns the session cookie
    the challenger accepts. *)

From S2P Require Import Prelude Captcha Base64 Cookie CookieHash Util WhiteList IpDb Yaml Float World.
From S2P Require Import Swabber RegexManager Reports ChallengeChecks Challenger ChallengerFlow.

Local Open Scope Z_scope.

Module CaptchaFlow.
Import ChallengeChecks Challenger ChallengerFlow.

(** ** The last occurrence of a pattern *)

Lemma rfind_validate y :
  "_"%char ∉ y -> rfind (lit "__validate/" ++ y) (lit "__validate/") = Some 0%nat.
Proof.
  intros Hy. change (lit "__validate/") with
    ["_"; "_"; "v"; "a"; "l"; "i"; "d"; "a"; "t"; "e"; "/"]%char.
  cbn [app rfind]. rewrite rfind_absent by done. reflexivity.
Qed.

(** ** Captcha texts *)

(** The letters the client is asked to type. *)
Definition captcha_text (random : str) : str := Captcha.text_of (Captcha.letter_numbers random).

Lemma captcha_text_letters r c : c ∈ captcha_text r -> c ∈ Captcha.letters.
Proof.
  unfold captcha_text, Captcha.text_of. intros (x & -> & Hx)%list_elem_of_fmap.
  pose proof (proj1 (Forall_forall _ _) (Captcha.letter_numbers_ok r) x Hx) as Hr.
  unfold Captcha.is_letter in Hr.
  destruct (lookup_lt_is_Some_2 Captcha.letters (Z.to_nat x)) as [d Hd].
  { change (length Captcha.letters) with 26%nat. lia. }
  rewrite Hd. by eapply list_elem_of_lookup_2.
Qed.

Lemma captcha_text_no c r : bool_decide (c ∉ Captcha.letters) = true -> c ∉ captcha_text r.
Proof. intros Hc%bool_decide_eq_true Hin. by apply Hc, (captcha_text_letters r). Qed.

Lemma length_captcha_text r : length (captcha_text r) = 5%nat.
Proof.
  unfold captcha_text, Captcha.text_of, Captcha.letter_numbers, Captcha.random_bytes.
  by rewrite !length_map, length_seq.
Qed.

Section Flow.
Context {crypto : Crypto} {I : Inet} {R2 : Re2}.

Lemma captcha_page_run c ip e env w :
  let random := env_random env (tick w) in
  let text := captcha_text random in
  Captcha.letters_fit random = true -> CookieHash.fits text ip ->
  exists im gif, Captcha.captcha random = Ret (text, im) /\
  Captcha.read_gif (map code gif) = Some (Captcha.shown_image im) /\
  captcha_page c ip e env w =
  (Ret (gif, append_cookie_header (cookie_header (token c text (env_sec env (S (tick w)) + 120) ip))
          (set_content_type (lit "image/gif") (set_code 200 e))),
   with_tick (S (S (tick w))) w).
Proof.
  intros random text Hl Hf. destruct (Captcha.captcha_in random Hl) as (im & Him & Hp).
  pose (old := replicate (Z.to_nat Captcha.gifsize) 0).
  assert (Ho : Z.of_nat (length old) = Captcha.gifsize)
    by (unfold old; rewrite length_replicate; reflexivity).
  destruct (Captcha.gif_read im old Hp Ho) as (gif & Hg & Hr & Hb & _).
  exists im, (map chr gif). split; [exact Him|].
  split; [rewrite Captcha.code_chr_bytes by exact Hb; exact Hr|].
  unfold captcha_page. rewrite M_bind_eq. cbn [query]. fold random.
  rewrite M_bind_eq, Him. cbn [lift]. rewrite M_bind_eq. fold old. rewrite Hg. cbn [lift].
  rewrite M_bind_eq. cbn [time_now query]. rewrite M_bind_eq. cbn [lift tick with_tick].
  rewrite CookieHash.generate_ref; [done|done|]. apply Nat.leb_le. reflexivity.
Qed.

(** A request of [ip] whose jar holds the token for an answer and a time. *)
Definition carries (c : Challenger) (answer : str) (t : Z) (ip host : str) (parts : TransactionParts)
    : Prop :=
  parts !! Part.COOKIE =
    Some (Cookie.print_jar [Cookie.MkCookie (lit "deflect") (token c answer t ip)]) /\
  parts !! Part.IP = Some ip /\ parts !! Part.HOST = Some host.

(** A captcha challenge accepts any jar that holds a token for its answer. *)
Lemma check_cookie_token c hn answer parts ch env w ip host t :
  banjax c = Some hn -> challenge_type ch = CHALLENGE_CAPTCHA ->
  carries c answer t ip host parts ->
  CookieHash.fits answer ip -> CookieHash.time_ok t -> env_sec env (tick w) <= t ->
  exists w', check_cookie c answer parts ch env w = (Ret true, w').
Proof.
  intros Hb Hty (Hck & Hip & Hh) Hf Ht Hnow.
  destruct (check_cookie_complete c hn answer parts ch env w
    (Cookie.print_jar [Cookie.MkCookie (lit "deflect") (token c answer t ip)]) ip host
    (token c answer t ip) t) as (w1 & H1 & _); try done; [| | |by eexists].
  - apply deflect_single, token_value_ok.
  - unfold challenge_prevailed. by rewrite Hty.
  - by rewrite take_ge by (by rewrite length_token).
Qed.

Lemma answer_page_run c hn ip t parts e env w x text host ch till :
  banjax c = Some hn -> responding_challenge e = Some ch -> challenge_type ch = CHALLENGE_CAPTCHA ->
  parts !! Part.URL_WITH_HOST = Some (x ++ lit "__validate/" ++ text) -> "_"%char ∉ text ->
  carries c text till ip host parts ->
  CookieHash.fits text ip -> CookieHash.time_ok till -> env_sec env (tick w) <= till ->
  exists w', answer_page c ip t parts e env w =
    (Ret (lit "OK", append_cookie_header (cookie_header (token c [] t ip))
            (set_code 200 (set_code 403 (set_content_type (lit "text/html") (set_code 200 e))))), w').
Proof.
  intros Hb Hch Hty Hurl Hno Hck Hf Ht Hnow. unfold answer_page.
  rewrite M_bind_eq, (proj2 (part_at_Ret _ _ _) Hurl). cbn [lift].
  rewrite (rfind_app x _ _ _ (rfind_validate text Hno)), Nat.add_0_r.
  assert (Hsub : substr (x ++ lit "__validate/" ++ text) (length x + 11) = Ret text).
  { unfold substr. rewrite (proj2 (Nat.ltb_ge _ _)).
    - by rewrite app_assoc, drop_app_length' by (rewrite length_app; done).
    - rewrite !length_app. cbn. lia. }
  rewrite M_bind_eq, Hsub. cbn [lift]. rewrite M_bind_eq.
  assert (Hthe : the_challenge (set_code 403 (set_content_type (lit "text/html") (set_code 200 e)))
                 = Ret ch) by (unfold the_challenge; cbn; by rewrite Hch).
  rewrite Hthe. cbn [lift]. rewrite M_bind_eq.
  destruct (check_cookie_token c hn text parts ch env w ip host till) as (w1 & H1); try done.
  rewrite H1, M_bind_eq. cbn [lift]. rewrite CookieHash.generate_ref; [by eexists| |].
  - unfold CookieHash.fits in *. cbn. lia.
  - apply Nat.leb_le. reflexivity.
Qed.

End Flow.

Definition sample_captcha_challenge : HostChallengeSpec := sample_spec 3 CHALLENGE_CAPTCHA.

End CaptchaFlow.
