(* ===== verification/ChallengerConfig.v ===== *)
(** * ChallengerConfig: reading challenges, on start and at run time
    (src/challenger.cpp)

    [parse_single_challenge] reads one challenge of the configuration;
    [load_config] builds the table of the hosts' challenges; the challenges that
    arrive over Kafka are parsed from one template and dropped when they expire.
    [read_file] gives the contents of a page file, empty when it cannot be read. *)

From Stdlib Require Import Sorted.
From S2P Require Import Prelude Base64 Cookie CookieHash Util WhiteList IpDb Yaml Float World.
From S2P Require Import Swabber RegexManager Reports ChallengeChecks Challenger.

Local Open Scope Z_scope.

Module ChallengerConfig.
Import Challenger.

Definition CHALLENGE_LIST : list str := [lit "sha_inverse"; lit "captcha"; lit "auth"].
Definition CHALLENGE_FILE_LIST : list str := [lit "solver.html"; lit "captcha.html"; lit "auth.html"].

(** The map the constructor fills; [operator[]] gives the first enumerator for
    a name that is not in it. *)
Definition challenge_type_of (requested : str) : ChallengeType :=
  if bool_decide (requested = lit "captcha") then CHALLENGE_CAPTCHA
  else if bool_decide (requested = lit "auth") then CHALLENGE_AUTH
  else CHALLENGE_SHA_INVERSE.

(** [challenge_specs[type]->default_page_filename]. *)
Definition default_page (t : ChallengeType) : str :=
  match t with
  | CHALLENGE_SHA_INVERSE => lit "solver.html"
  | CHALLENGE_CAPTCHA => lit "captcha.html"
  | CHALLENGE_AUTH => lit "auth.html"
  end.

(** *** The set of magic words *)

(** [operator<] of [std::string]: lexicographic on the unsigned bytes. *)
Fixpoint str_ltb (a b : str) : bool :=
  match a, b with
  | [], [] => false
  | [], _ :: _ => true
  | _ :: _, [] => false
  | c :: a', d :: b' => (code c <? code d) || (bool_decide (c = d) && str_ltb a' b')
  end.

Definition type_rank (t : MagicWordType) : Z := match t with MW_substr => 0 | MW_regexp => 1 end.

Definition word_ltb (a b : MagicWord) : bool :=
  (type_rank (mw_type a) <? type_rank (mw_type b))
  || ((type_rank (mw_type a) =? type_rank (mw_type b)) && str_ltb (magic_word a) (magic_word b)).

(** [std::set<MagicWord>::insert]. *)
Fixpoint word_insert (m : MagicWord) (l : list MagicWord) : list MagicWord :=
  match l with
  | [] => [m]
  | x :: t => if word_ltb m x then m :: l else if word_ltb x m then x :: word_insert m t else l
  end.

Section Parse.
Context {I : Inet} `{Yaml} (read_file : str -> str) (banjax_dir : str).

Definition load_word (entry : node) (storage : list MagicWord) : outcome (list MagicWord) :=
  if IsSequence entry then
    n0 ← y_at entry 0; type ← as_string n0;
    n1 ← y_at entry 1; word ← as_string n1;
    if bool_decide (type = lit "regexp") then mret (word_insert (MkMagicWord MW_regexp word) storage)
    else if bool_decide (type = lit "substr") then
      mret (word_insert (MkMagicWord MW_substr word) storage)
    else Throw YAML_Exception
  else
    word ← as_string entry;
    mret (word_insert (MkMagicWord MW_substr word) storage).

Fixpoint load_words (l : list node) (storage : list MagicWord) : outcome (list MagicWord) :=
  match l with
  | [] => mret storage
  | e :: rest => storage' ← load_word e storage; load_words rest storage'
  end.

Definition magic_words_of (ch : node) : outcome (list MagicWord) :=
  has ← y_has ch (lit "magic_word");
  if (has : bool) then
    mw ← y_get ch (lit "magic_word");
    if IsSequence mw then load_words (y_iter mw) []
    else word ← as_string mw; mret (word_insert (MkMagicWord MW_substr word) [])
  else mret [].

Fixpoint ranges_of (l : list str) (ranges : list Util.SubnetRange) : outcome (list Util.SubnetRange) :=
  match l with
  | [] => mret ranges
  | ipr :: rest =>
      r ← Util.make_mask_for_range ipr; ranges_of rest (GlobalWhiteList.set_insert r ranges)
  end.

(** The parts of the challenge that do not depend on the time. *)
Definition parse_fields (ch : node) (now : Z) : outcome HostChallengeSpec :=
  nm ← y_field as_string ch (lit "name");
  requested_challenge_type ← y_field as_string ch (lit "challenge_type");
  let type := challenge_type_of requested_challenge_type in
  validity ← y_field as_uint ch (lit "validity_period");
  threshold ← y_opt as_uint ch (lit "no_of_fails_to_ban") 0;
  file ← y_opt as_string ch (lit "challenge") [];
  let challenge_file := if bool_decide (file = []) then default_page type else file in
  let stream := read_file (banjax_dir ++ lit "/" ++ challenge_file) in
  password ← y_opt as_string ch (lit "password_hash") [];
  words ← magic_words_of ch;
  exceptions ← y_opt as_strings ch (lit "magic_word_exceptions") [];
  white ← y_opt as_strings ch (lit "white_listed_ips") [];
  ranges ← ranges_of white [];
  mret (MkSpec nm type stream threshold validity password words exceptions ranges now).

(** [make_shared<HostChallengeSpec>()] records the time. *)
Definition parse_single_challenge (ch : node) : M HostChallengeSpec :=
  now ← time_now;
  lift (parse_fields ch now).

(** *** [load_config] *)

(** [host_challenges_static[cur_domain].push_back(host_challenge_spec)]. *)
Definition add_challenge (domain : str) (spec : HostChallengeSpec)
    (m : gmap str (list HostChallengeSpec)) : gmap str (list HostChallengeSpec) :=
  <[domain := default [] (m !! domain) ++ [spec]]> m.

(** [for (i = 0; i < domain_count; i++) ... ch["domains"][i] ...], from [i]
    with [n] domains to go. *)
Fixpoint add_domains (ch : node) (spec : HostChallengeSpec) (i n : nat)
    (m : gmap str (list HostChallengeSpec)) : outcome (gmap str (list HostChallengeSpec)) :=
  match n with
  | O => mret m
  | S n' =>
      ds ← y_get ch (lit "domains");
      d ← y_at ds i;
      cur_domain ← as_string d;
      add_domains ch spec (S i) n' (add_challenge cur_domain spec m)
  end.

Fixpoint load_challenges (l : list node) (m : gmap str (list HostChallengeSpec))
    : M (gmap str (list HostChallengeSpec)) :=
  match l with
  | [] => mret m
  | ch :: rest =>
      spec ← parse_single_challenge ch;
      ds ← lift (y_get ch (lit "domains"));
      domain_count ← lift (y_size ds);
      m' ← lift (add_domains ch spec 0 domain_count m);
      load_challenges rest m'
  end.

(** [if (!cfg["dynamic_challenger_config"]) throw;] and the same for its
    "challenge_type"; there is no exception to throw on. *)
Definition check_template (cfg : node) : outcome unit :=
  has ← y_has cfg (lit "dynamic_challenger_config");
  if negb has then Fault Rethrow
  else
    d ← y_get cfg (lit "dynamic_challenger_config");
    has_type ← y_has d (lit "challenge_type");
    if negb has_type then Fault Rethrow else mret tt.

(** The run-time challenges are optional: a missing or bad expiry time is
    tolerated; once it is read it stays, also when looking for the template
    throws. *)
Definition load_dynamic (cfg : node) : outcome (option Z) :=
  let tolerated e := bool_decide (e = YAML_RepresentationException) in
  expiry ← try_catch tolerated
             (z ← y_field as_uint cfg (lit "dynamic_expiry_seconds"); mret (Some z)) (mret None);
  match expiry with
  | None => mret None
  | Some _ => _ ← try_catch tolerated (check_template cfg) (mret tt); mret expiry
  end.

Definition load_config {crypto : Crypto} (cfg : node) (wl : option GlobalWhiteList.GlobalWhiteList)
    (banjax : option str) : M Challenger :=
  chs ← lift (y_get cfg (lit "challenges"));
  static ← load_challenges (y_iter chs) ∅;
  challenger_key ← lift (y_field as_string cfg (lit "key"));
  difficulty ← lift (y_field as_uint cfg (lit "difficulty"));
  expiry ← lift (load_dynamic cfg);
  mret (MkChallenger (SHA256 challenger_key) difficulty expiry static wl banjax).

(** *** Challenges at run time *)

Definition load_single_host_challenge (cfg : node) (domain : str) : M unit :=
  t ← lift (y_get cfg (lit "dynamic_challenger_config"));
  spec ← parse_single_challenge t;
  m ← gets host_to_challenge_dynamic;
  modify (with_host_dynamic (<[domain := spec]> m)).

Definition load_single_ip_challenge (cfg : node) (ip : str) : M unit :=
  t ← lift (y_get cfg (lit "dynamic_challenger_config"));
  spec ← parse_single_challenge t;
  m ← gets ip_to_challenge_dynamic;
  modify (with_ip_dynamic (<[ip := spec]> m)).

End Parse.

Definition expired (now expiry : Z) (spec : HostChallengeSpec) : bool :=
  expiry <? s64 (now - time_added spec).

(** The loops compare every entry with [dynamic_expiry_seconds], which is read
    although no configuration may have set it. *)
Definition drop_expired (now : Z) (expiry : option Z) (m : gmap str HostChallengeSpec)
    : outcome (gmap str HostChallengeSpec) :=
  match expiry with
  | Some e => Ret (filter (fun kv => expired now e (snd kv) = false) m)
  | None => if bool_decide (m = ∅) then Ret m else Fault UninitRead
  end.

Definition remove_expired_challenges (c : Challenger) : M Z :=
  current_timestamp ← time_now;
  hosts ← gets host_to_challenge_dynamic;
  hosts' ← lift (drop_expired current_timestamp (dynamic_expiry_seconds c) hosts);
  _ ← modify (with_host_dynamic hosts');
  ips ← gets ip_to_challenge_dynamic;
  ips' ← lift (drop_expired current_timestamp (dynamic_expiry_seconds c) ips);
  _ ← modify (with_ip_dynamic ips');
  mret 0.

Definition dynamic_host_challenges_size : M nat := gets (fun w => size (host_to_challenge_dynamic w)).
Definition dynamic_ip_challenges_size : M nat := gets (fun w => size (ip_to_challenge_dynamic w)).

(** ** The table of static challenges *)

(** *** Sets in their order *)

Definition word_lt (a b : MagicWord) : Prop := word_ltb a b = true.

Lemma str_ltb_trans a : forall b c, str_ltb a b = true -> str_ltb b c = true -> str_ltb a c = true.
Proof.
  induction a as [|x a IH]; intros [|y b] [|z c]; cbn [str_ltb]; try done.
  rewrite !orb_true_iff, !andb_true_iff, !Z.ltb_lt, !bool_decide_eq_true.
  intros [Hxy|[-> Hab]] [Hyz|[-> Hbc]]; [left; lia|left; lia|left; lia|].
  right. split; [done|]. by eapply IH.
Qed.

Lemma word_lt_trans a b c : word_lt a b -> word_lt b c -> word_lt a c.
Proof.
  unfold word_lt, word_ltb. rewrite !orb_true_iff, !andb_true_iff, !Z.ltb_lt, !Z.eqb_eq.
  intros [Hab|[Hab Hab']] [Hbc|[Hbc Hbc']]; [left; lia|left; lia|left; lia|].
  right. split; [lia|]. by eapply str_ltb_trans.
Qed.

Lemma str_ltb_total a : forall b, str_ltb a b = false -> str_ltb b a = false -> a = b.
Proof.
  induction a as [|x a IH]; intros [|y b]; cbn [str_ltb]; try done.
  rewrite !orb_false_iff, !andb_false_iff, !Z.ltb_ge, !bool_decide_eq_false.
  intros [Hxy H1] [Hyx H2]. assert (x = y) as -> by (apply code_inj; lia).
  f_equal. apply IH; naive_solver.
Qed.

Lemma word_ltb_total a b : word_ltb a b = false -> word_ltb b a = false -> a = b.
Proof.
  unfold word_ltb. rewrite !orb_false_iff, !andb_false_iff, !Z.ltb_ge, !Z.eqb_neq.
  destruct a as [ta wa], b as [tb wb]. cbn [mw_type magic_word]. intros [H1 H2] [H3 H4].
  assert (ta = tb) as -> by (destruct ta, tb; cbn in *; done || lia).
  f_equal. apply str_ltb_total; [destruct H2|destruct H4]; done.
Qed.

Lemma elem_of_word_insert m x l : x ∈ word_insert m l <-> x = m \/ x ∈ l.
Proof.
  induction l as [|y t IH]; cbn [word_insert]; [set_solver|].
  destruct (word_ltb m y) eqn:E1; [set_solver|]. destruct (word_ltb y m) eqn:E2; [set_solver|].
  rewrite (word_ltb_total _ _ E1 E2). set_solver.
Qed.

Lemma word_insert_sorted m l : StronglySorted word_lt l -> StronglySorted word_lt (word_insert m l).
Proof.
  induction 1 as [|y t Ht IH Hall]; cbn [word_insert]; [repeat constructor|].
  destruct (word_ltb m y) eqn:E1.
  - constructor; [by constructor|]. constructor; [done|].
    eapply Forall_impl; [exact Hall|]. intros z. by apply word_lt_trans.
  - destruct (word_ltb y m) eqn:E2; [|by constructor]. constructor; [done|].
    apply Forall_forall. intros z [->|Hz]%elem_of_word_insert; [done|].
    by eapply Forall_forall in Hall.
Qed.

(** What the configuration lists: each challenge with its domains. *)
Definition challenges_for (entries : list (HostChallengeSpec * list str)) (d : str)
    : list HostChallengeSpec :=
  flat_map (fun e => map (fun _ => fst e) (filter (fun x => x = d) (snd e))) entries.

Definition table_lookup (m : gmap str (list HostChallengeSpec)) (d : str) : list HostChallengeSpec :=
  default [] (m !! d).

Lemma lookup_add_challenge domain spec m d :
  table_lookup (add_challenge domain spec m) d =
  table_lookup m d ++ (if decide (domain = d) then [spec] else []).
Proof.
  unfold table_lookup, add_challenge. rewrite lookup_insert.
  case_decide; [by subst|]. by rewrite app_nil_r.
Qed.

Section Table.
Context {I : Inet} `{Yaml} (read_file : str -> str) (banjax_dir : str).

(** The domains [add_domains] reads. *)
Fixpoint domains_from (ch : node) (i n : nat) : outcome (list str) :=
  match n with
  | O => mret []
  | S n' =>
      ds ← y_get ch (lit "domains");
      d ← y_at ds i;
      x ← as_string d;
      xs ← domains_from ch (S i) n';
      mret (x :: xs)
  end.

Definition domains_of (ch : node) : outcome (list str) :=
  ds ← y_get ch (lit "domains");
  n ← y_size ds;
  domains_from ch 0 n.

Lemma add_domains_spec ch spec i n m m' :
  add_domains ch spec i n m = Ret m' ->
  exists ds, domains_from ch i n = Ret ds /\
    forall d, table_lookup m' d = table_lookup m d ++ challenges_for [(spec, ds)] d.
Proof.
  revert i m; induction n as [|n IH]; intros i m; cbn [add_domains domains_from].
  - intros [= <-]. exists []. split; [done|]. intros d. cbn. by rewrite app_nil_r.
  - run_outcome. destruct (y_get ch (lit "domains")) as [ds| |]; [|done..].
    destruct (y_at ds i) as [nd| |]; [|done..]. destruct (as_string nd) as [x| |]; [|done..].
    intros (xs & Hxs & Hm)%IH. run_outcome in Hxs. rewrite Hxs. exists (x :: xs). split; [done|].
    intros d. rewrite Hm, lookup_add_challenge, <- app_assoc. f_equal.
    unfold challenges_for. cbn [flat_map fst snd]. rewrite filter_cons, !app_nil_r. by case_decide.
Qed.

(** An entry of the configuration as the loop reads it. *)
Definition entry_of (ch : node) (e : HostChallengeSpec * list str) : Prop :=
  (exists now, parse_fields read_file banjax_dir ch now = Ret (fst e)) /\ domains_of ch = Ret (snd e).

Lemma load_challenges_spec l m env w m' w' :
  load_challenges read_file banjax_dir l m env w = (Ret m', w') ->
  exists entries, Forall2 entry_of l entries /\
    forall d, table_lookup m' d = table_lookup m d ++ challenges_for entries d.
Proof.
  revert m w; induction l as [|ch l IH]; intros m w; cbn [load_challenges].
  - intros [= <- <-]. exists []. split; [constructor|]. intros d. by rewrite app_nil_r.
  - rewrite M_bind_eq. unfold parse_single_challenge. rewrite M_bind_eq. cbn [time_now query lift].
    destruct (parse_fields read_file banjax_dir ch _) as [spec| |] eqn:Ep; [|done..].
    rewrite M_bind_eq. cbn [lift]. destruct (y_get ch (lit "domains")) as [ds| |] eqn:Eg; [|done..].
    rewrite M_bind_eq. cbn [lift]. destruct (y_size ds) as [n| |] eqn:En; [|done..].
    rewrite M_bind_eq. cbn [lift].
    destruct (add_domains ch spec 0 n m) as [m1| |] eqn:Ea; [|done..].
    intros (entries & Hf & Hm)%IH. destruct (add_domains_spec _ _ _ _ _ _ Ea) as (xs & Hxs & Hm1).
    exists ((spec, xs) :: entries). split.
    + constructor; [|done]. split; [by eexists|]. unfold domains_of. run_outcome.
      by rewrite Eg, En.
    + intros d. rewrite Hm, Hm1, <- app_assoc. cbn. by rewrite app_nil_r.
Qed.

(** C32. The static table is the configuration: after a successful load, the
    challenges of a host are those whose "domains" name it, in the order of the
    file and once for each time they name it. *)
Theorem static_table_spec {crypto : Crypto} (cfg chs : node) (wl : option GlobalWhiteList.GlobalWhiteList)
    (bj : option str) (env : Env) (w w' : World) (c : Challenger) :
  y_get cfg (lit "challenges") = Ret chs ->
  load_config read_file banjax_dir cfg wl bj env w = (Ret c, w') ->
  exists entries, Forall2 entry_of (y_iter chs) entries /\
    forall d, default [] (host_challenges_static c !! d) = challenges_for entries d.
Proof.
  intros Hc. unfold load_config. rewrite M_bind_eq. cbn [lift]. rewrite Hc, M_bind_eq.
  destruct (load_challenges _ _ _ _ _ _) as [[static| |] w1] eqn:El; [|done..].
  rewrite M_bind_eq. cbn [lift]. destruct (y_field as_string cfg (lit "key")); [|done..].
  rewrite M_bind_eq. cbn [lift]. destruct (y_field as_uint cfg (lit "difficulty")); [|done..].
  rewrite M_bind_eq. cbn [lift]. destruct (load_dynamic cfg); [|done..].
  intros [= <- _]. exact (load_challenges_spec _ _ _ _ _ _ El).
Qed.

(** The ranges of a list of texts, as a set. *)
Lemma ranges_of_spec l : forall st r,
  StronglySorted GlobalWhiteList.range_lt st -> ranges_of l st = Ret r ->
  StronglySorted GlobalWhiteList.range_lt r /\
  forall x, x ∈ r <-> x ∈ st \/ exists s, s ∈ l /\ Util.make_mask_for_range s = Ret x.
Proof.
  induction l as [|s l IH]; intros st r Hs; cbn [ranges_of].
  { intros [= <-]. split; [done|]. intros x. split; [by left|]. by intros [?|(s & ?%elem_of_nil & _)]. }
  cbv [mbind outcome_bind]. destruct (Util.make_mask_for_range s) as [rg| |] eqn:E; [|done..].
  intros Hr. destruct (IH _ _ (GlobalWhiteList.set_insert_sorted rg st Hs) Hr) as [Hs' Hx]. split; [done|].
  intros x. rewrite Hx, GlobalWhiteList.elem_of_set_insert. split.
  - intros [[->|?]|(s' & ? & ?)]; [right; exists s|by left|right; exists s']; split; try done; by (left || right).
  - intros [?|(s' & [->|?]%elem_of_cons & E')]; [auto| |right; by exists s'].
    left. left. rewrite E in E'. by injection E'.
Qed.

End Table.

Definition sample_challenge_node (nm : str) (domains : list tree) : tree :=
  TMap [(lit "name", TScalar nm); (lit "challenge_type", TScalar (lit "captcha"));
        (lit "validity_period", TScalar (lit "60")); (lit "domains", TSeq domains)].

Definition sample_challenger_config : tree :=
  TMap [(lit "challenges", TSeq [sample_challenge_node (lit "a") [TScalar (lit "x.org")];
           sample_challenge_node (lit "b") [TScalar (lit "y.org"); TScalar (lit "x.org")]]);
        (lit "key", TScalar (lit "secret")); (lit "difficulty", TScalar (lit "8"))].

Definition load_sample : outcome Challenger * World :=
  load_config (I := Util.sample_inet) (H := tree_yaml) (crypto := sample_crypto) (fun _ => lit "page")
    (lit "/etc") sample_challenger_config None None SwabberOps.sample_env (SwabberOps.sample_world 0).

Lemma static_table_spec_witness :
  exists c, fst load_sample = Ret c /\ exists entries,
    Forall2 (entry_of (I := Util.sample_inet) (H := tree_yaml) (fun _ => lit "page") (lit "/etc"))
      [sample_challenge_node (lit "a") [TScalar (lit "x.org")];
       sample_challenge_node (lit "b") [TScalar (lit "y.org"); TScalar (lit "x.org")]] entries /\
    forall d, default [] (host_challenges_static c !! d) = challenges_for entries d.
Proof.
  destruct load_sample as [[c| |] w'] eqn:E; [|vm_compute in E; discriminate E..].
  exists c. split; [done|].
  apply (static_table_spec (I := Util.sample_inet) (H := tree_yaml) (crypto := sample_crypto)
    (fun _ => lit "page") (lit "/etc") sample_challenger_config
    (assoc (lit "challenges") (match sample_challenger_config with TMap l => l | _ => [] end))
    None None SwabberOps.sample_env (SwabberOps.sample_world 0) w' c); [done|exact E].
Defined.

(** ** Run-time challenges *)

Definition keep_fresh (now e : Z) (o : option HostChallengeSpec) : option HostChallengeSpec :=
  match o with
  | Some spec => if expired now e spec then None else Some spec
  | None => None
  end.

Lemma drop_expired_lookup now e m k :
  exists m', drop_expired now (Some e) m = Ret m' /\ m' !! k = keep_fresh now e (m !! k).
Proof.
  eexists. split; [reflexivity|]. rewrite map_lookup_filter.
  destruct (m !! k) as [spec|]; [|done]. cbn. destruct (expired now e spec) eqn:E.
  - by rewrite option_guard_False.
  - by rewrite option_guard_True.
Qed.

(** Expiry: with an expiry time configured, a sweep drops exactly the
    challenges older than it from both tables and keeps every other one. *)
Lemma remove_expired_exact (c : Challenger) (e : Z) (env : Env) (w : World) (k : str) :
  dynamic_expiry_seconds c = Some e ->
  exists w', remove_expired_challenges c env w = (Ret 0, w') /\
    host_to_challenge_dynamic w' !! k =
      keep_fresh (env_sec env (tick w)) e (host_to_challenge_dynamic w !! k) /\
    ip_to_challenge_dynamic w' !! k =
      keep_fresh (env_sec env (tick w)) e (ip_to_challenge_dynamic w !! k).
Proof.
  intros He. unfold remove_expired_challenges. rewrite M_bind_eq. cbn [time_now query].
  rewrite M_bind_eq. cbn [gets]. rewrite M_bind_eq, He. cbn [lift].
  destruct (drop_expired_lookup (env_sec env (tick w)) e (host_to_challenge_dynamic w) k) as (m1 & H1 & L1).
  destruct (drop_expired_lookup (env_sec env (tick w)) e (ip_to_challenge_dynamic w) k) as (m2 & H2 & L2).
  cbn [host_to_challenge_dynamic with_tick]. rewrite H1. rewrite M_bind_eq. cbn [modify].
  rewrite M_bind_eq. cbn [gets]. rewrite M_bind_eq. cbn [lift ip_to_challenge_dynamic with_tick with_host_dynamic].
  rewrite H2. eexists. split; [reflexivity|]. done.
Qed.

Lemma remove_expired_exact_witness :
  exists w', remove_expired_challenges (MkChallenger [] 0 (Some 50) ∅ None None) SwabberOps.sample_env
      (with_host_dynamic (<[lit "h" := sample_spec 1 CHALLENGE_AUTH]> ∅) (SwabberOps.sample_world 0))
    = (Ret 0, w') /\
    host_to_challenge_dynamic w' !! lit "h" =
      keep_fresh 1000 50 (host_to_challenge_dynamic (with_host_dynamic
        (<[lit "h" := sample_spec 1 CHALLENGE_AUTH]> ∅) (SwabberOps.sample_world 0)) !! lit "h") /\
    ip_to_challenge_dynamic w' !! lit "h" =
      keep_fresh 1000 50 (ip_to_challenge_dynamic (SwabberOps.sample_world 0) !! lit "h").
Proof.
  exact (remove_expired_exact (MkChallenger [] 0 (Some 50) ∅ None None) 50 SwabberOps.sample_env
    (with_host_dynamic (<[lit "h" := sample_spec 1 CHALLENGE_AUTH]> ∅) (SwabberOps.sample_world 0))
    (lit "h") eq_refl).
Defined.

End ChallengerConfig.
