(* ===== verification/ChallengerText.v ===== *)
(** * ChallengerText: a challenger written down and read back
    (src/challenger.cpp, config/)

    The configuration of a challenger under the keys the documentation and the
    sample files give, as a YAML tree; reading it with [load_config] gives the
    challenger that was written. *)

From Stdlib Require Import Sorted.
From S2P Require Import Prelude Base64 Cookie CookieHash Util WhiteList IpDb Yaml Float World.
From S2P Require Import Swabber RegexManager Reports ChallengeChecks Challenger ChallengerConfig.

Local Open Scope Z_scope.

Module ChallengerText.
Import Challenger ChallengerConfig.

(** ** Numbers *)

(** The decimal digits of a number, in front of [acc]. *)
Fixpoint decimal_onto (fuel : nat) (z : Z) (acc : str) : str :=
  match fuel with
  | O => acc
  | S fuel' => if z <? 10 then chr (48 + z) :: acc
               else decimal_onto fuel' (z / 10) (chr (48 + z mod 10) :: acc)
  end.

Definition decimal (z : Z) : str := decimal_onto 10 z [].

Lemma digit_code d : 0 <= d < 10 -> code (chr (48 + d)) = 48 + d.
Proof. intros Hd. rewrite code_chr. apply Z.mod_small. lia. Qed.

Lemma digit_isdigit d : 0 <= d < 10 -> isdigit (chr (48 + d)) = true.
Proof. intros Hd. unfold isdigit. rewrite digit_code by done. lia. Qed.

Lemma decimal_onto_spec fuel : forall z acc,
  0 <= z < 10 ^ Z.of_nat fuel -> forallb isdigit acc = true ->
  forallb isdigit (decimal_onto fuel z acc) = true /\
  fold_left (fun n c => 10 * n + (code c - 48)) (decimal_onto fuel z acc) 0
  = fold_left (fun n c => 10 * n + (code c - 48)) acc z.
Proof.
  induction fuel as [|fuel IH]; intros z acc Hz Ha; cbn [decimal_onto].
  { split; [done|]. cbn in Hz. by replace z with 0 by lia. }
  rewrite Nat2Z.inj_succ, Z.pow_succ_r in Hz by lia. destruct (Z.ltb_spec z 10) as [Hl|Hl].
  - cbn [forallb fold_left]. rewrite digit_isdigit, digit_code by lia. split; [done|]. f_equal. lia.
  - pose proof (Z.mod_pos_bound z 10 ltac:(lia)). pose proof (Z.div_mod z 10 ltac:(lia)).
    destruct (IH (z / 10) (chr (48 + z mod 10) :: acc)) as [H1 H2].
    + split; [apply Z.div_pos; lia|apply Z.div_lt_upper_bound; lia].
    + cbn [forallb]. by rewrite digit_isdigit.
    + split; [done|]. rewrite H2. cbn [fold_left]. rewrite digit_code by done. f_equal. lia.
Qed.

(** The numbers the sample reader takes. *)
Definition small (z : Z) : Prop := 0 <= z < 2 ^ 31.

Lemma decimal_onto_nonempty fuel z acc : (fuel <> 0)%nat -> decimal_onto fuel z acc <> [].
Proof.
  intros Hf. assert (H : forall fuel z acc, acc <> [] -> decimal_onto fuel z acc <> []).
  { clear. intros fuel. induction fuel as [|fuel IH]; intros z acc Ha; cbn; [done|].
    destruct (z <? 10); [done|]. by apply IH. }
  destruct fuel as [|fuel]; [done|]. cbn. destruct (z <? 10); [done|]. by apply H.
Qed.

Lemma tree_nat_decimal z : small z -> tree_nat (TScalar (decimal z)) = Ret z.
Proof.
  intros Hz. unfold small in Hz. destruct (decimal_onto_spec 10 z [] ltac:(cbn; lia) eq_refl) as [Hd Hv].
  fold (decimal z) in Hd, Hv. cbn [fold_left] in Hv. unfold tree_nat.
  pose proof (decimal_onto_nonempty 10 z [] ltac:(done)) as Hn. fold (decimal z) in Hn.
  destruct (decimal z) as [|c s]; [done|]. cbv zeta. rewrite Hd, Hv.
  destruct (Z.leb_spec 0 z); [|lia]. by destruct (Z.ltb_spec z (2 ^ 31)); [|lia].
Qed.

(** ** The configuration of a challenger *)

Record challenge := MkChallenge {
  c_name : str;
  c_type : ChallengeType;
  c_validity : Z;
  c_fails : Z;
  c_page : str;
  c_password : str;
  c_words : list MagicWord;
  c_exceptions : list str;
  c_white : list str;
  c_domains : list str
}.

Record configuration := MkConfiguration {
  g_key : str;
  g_difficulty : Z;
  g_expiry : Z;
  g_template : challenge;
  g_challenges : list challenge
}.

Definition type_text (t : ChallengeType) : str :=
  match t with
  | CHALLENGE_SHA_INVERSE => lit "sha_inverse"
  | CHALLENGE_CAPTCHA => lit "captcha"
  | CHALLENGE_AUTH => lit "auth"
  end.

Definition word_text (m : MagicWord) : tree :=
  TSeq [TScalar (match mw_type m with MW_substr => lit "substr" | MW_regexp => lit "regexp" end);
        TScalar (magic_word m)].

Definition challenge_text (c : challenge) : tree :=
  TMap [(lit "name", TScalar (c_name c)); (lit "domains", TSeq (map TScalar (c_domains c)));
        (lit "challenge_type", TScalar (type_text (c_type c))); (lit "challenge", TScalar (c_page c));
        (lit "password_hash", TScalar (c_password c)); (lit "magic_word", TSeq (map word_text (c_words c)));
        (lit "magic_word_exceptions", TSeq (map TScalar (c_exceptions c)));
        (lit "white_listed_ips", TSeq (map TScalar (c_white c)));
        (lit "validity_period", TScalar (decimal (c_validity c)));
        (lit "no_of_fails_to_ban", TScalar (decimal (c_fails c)))].

Definition configuration_text (g : configuration) : tree :=
  TMap [(lit "difficulty", TScalar (decimal (g_difficulty g))); (lit "key", TScalar (g_key g));
        (lit "dynamic_expiry_seconds", TScalar (decimal (g_expiry g)));
        (lit "dynamic_challenger_config", challenge_text (g_template g));
        (lit "challenges", TSeq (map challenge_text (g_challenges g)))].

Section Reading.
Context {I : Inet} {crypto : Crypto} (read_file : str -> str) (banjax_dir : str).
#[local] Existing Instance tree_yaml.

(** A challenge that can be written: its numbers fit, it names its page, and its
    ranges are ranges. *)
Definition writable (c : challenge) : Prop :=
  small (c_validity c) /\ small (c_fails c) /\ c_page c <> [] /\
  Forall (fun s => exists r, Util.make_mask_for_range s = Ret r) (c_white c).

(** The challenge in memory: every member comes from its key; words and ranges
    are sets in their order. *)
Definition reads_as (c : challenge) (s : HostChallengeSpec) : Prop :=
  name s = c_name c /\ challenge_type s = c_type c /\
  challenge_stream s = read_file (banjax_dir ++ lit "/" ++ c_page c) /\
  fail_tolerance_threshold s = c_fails c /\ challenge_validity_period s = c_validity c /\
  password_hash s = c_password c /\ magic_word_exceptions s = c_exceptions c /\
  (StronglySorted word_lt (magic_words s) /\ forall m, m ∈ magic_words s <-> m ∈ c_words c) /\
  (StronglySorted GlobalWhiteList.range_lt (white_listed_ips s) /\
   forall r, r ∈ white_listed_ips s <-> exists x, x ∈ c_white c /\ Util.make_mask_for_range x = Ret r).

Lemma tree_strings_map l : tree_strings (map TScalar l) = Ret l.
Proof. induction l as [|s l IH]; [done|]. cbn. by rewrite IH. Qed.

Lemma load_words_text l : forall st, StronglySorted word_lt st ->
  exists ws, load_words (map word_text l) st = Ret ws /\ StronglySorted word_lt ws /\
    forall m, m ∈ ws <-> m ∈ st \/ m ∈ l.
Proof.
  induction l as [|[t w] l IH]; intros st Hs; cbn [map load_words].
  { exists st. split; [done|]. split; [done|]. intros m. rewrite elem_of_nil. tauto. }
  destruct (IH (word_insert (MkMagicWord t w) st)) as (ws & E & Hw & Hm); [by apply word_insert_sorted|].
  exists ws. split; [by destruct t|]. split; [done|].
  intros m. rewrite Hm, elem_of_word_insert, elem_of_cons. tauto.
Qed.

Lemma ranges_of_returns l : forall st, Forall (fun s => exists r, Util.make_mask_for_range s = Ret r) l ->
  exists r, ranges_of l st = Ret r.
Proof.
  induction l as [|s l IH]; intros st Hl; cbn [ranges_of]; [by eexists|].
  apply Forall_cons in Hl as [[r E] Hl]. rewrite E. apply (IH _ Hl).
Qed.

Lemma challenge_type_text t : challenge_type_of (type_text t) = t.
Proof. by destruct t. Qed.

Lemma parse_text c now : writable c ->
  exists s, parse_fields read_file banjax_dir (challenge_text c) now = Ret s /\ reads_as c s.
Proof.
  intros (Hv & Hf & Hp & Hw). destruct (load_words_text (c_words c) [] (SSorted_nil _)) as (ws & Ews & Hws & Hm).
  destruct (ranges_of_returns (c_white c) [] Hw) as [rs Ers].
  destruct (ranges_of_spec (c_white c) [] rs (SSorted_nil _) Ers) as [Hrs Hr].
  exists (MkSpec (c_name c) (c_type c) (read_file (banjax_dir ++ lit "/" ++ c_page c)) (c_fails c) (c_validity c)
            (c_password c) ws (c_exceptions c) rs now). split.
  - set (t := challenge_text c).
    assert (E1 : y_field as_string t (lit "name") = Ret (c_name c)) by reflexivity.
    assert (E2 : y_field as_string t (lit "challenge_type") = Ret (type_text (c_type c))) by reflexivity.
    assert (E3 : y_field as_uint t (lit "validity_period") = Ret (c_validity c)) by exact (tree_nat_decimal _ Hv).
    assert (E4 : y_opt as_uint t (lit "no_of_fails_to_ban") 0 = Ret (c_fails c)) by exact (tree_nat_decimal _ Hf).
    assert (E5 : y_opt as_string t (lit "challenge") [] = Ret (c_page c)) by reflexivity.
    assert (E6 : y_opt as_string t (lit "password_hash") [] = Ret (c_password c)) by reflexivity.
    assert (E7 : magic_words_of t = Ret ws) by exact Ews.
    assert (E8 : y_opt as_strings t (lit "magic_word_exceptions") [] = Ret (c_exceptions c))
      by exact (tree_strings_map _).
    assert (E9 : y_opt as_strings t (lit "white_listed_ips") [] = Ret (c_white c)) by exact (tree_strings_map _).
    unfold parse_fields. rewrite E1, E2, E3, E4, E5, E6, E7, E8, E9. run_outcome.
    rewrite Ers, challenge_type_text, bool_decide_false by done. reflexivity.
  - unfold reads_as. cbn. split_and!; try done.
    + intros m. rewrite Hm, elem_of_nil. tauto.
    + intros r. rewrite Hr, elem_of_nil. split; [by intros [[]|?]|by right].
Qed.

(** The domains of a challenge. *)
Lemma add_domains_text c spec n : forall i m,
  (i + n = length (c_domains c))%nat ->
  exists m', add_domains (challenge_text c) spec i n m = Ret m' /\
    forall d, table_lookup m' d = table_lookup m d ++ challenges_for [(spec, drop i (c_domains c))] d.
Proof.
  induction n as [|n IH]; intros i m Hi; cbn [add_domains].
  { exists m. split; [done|]. intros d. rewrite drop_ge by lia. by rewrite app_nil_r. }
  destruct (lookup_lt_is_Some_2 (c_domains c) i ltac:(lia)) as [x Ex].
  change (@y_get tree_yaml (challenge_text c) (lit "domains")) with (Ret (TSeq (map TScalar (c_domains c))) : outcome tree).
  run_outcome. cbn [y_at tree_yaml tree_iter].
  change (map TScalar (c_domains c) !! i) with ((TScalar <$> c_domains c) !! i).
  rewrite list_lookup_fmap, Ex. cbn [fmap option_fmap option_map default from_option as_string tree_yaml tree_string].
  destruct (IH (S i) (add_challenge x spec m) ltac:(lia)) as (m' & E & Hm).
  run_outcome in E. exists m'. split; [exact E|]. intros d. rewrite Hm, lookup_add_challenge, <- app_assoc. f_equal.
  rewrite (drop_S _ _ _ Ex). unfold challenges_for. cbn [flat_map fst snd]. rewrite filter_cons, !app_nil_r.
  by case_decide.
Qed.

Lemma load_challenges_text l : Forall writable l -> forall m env w,
  exists m' w' specs, load_challenges read_file banjax_dir (map challenge_text l) m env w = (Ret m', w') /\
    Forall2 (fun c e => reads_as c (fst e) /\ snd e = c_domains c) l specs /\
    forall d, table_lookup m' d = table_lookup m d ++ challenges_for specs d.
Proof.
  induction 1 as [|c l Hc _ IH]; intros m env w; cbn [map load_challenges].
  { exists m, w, []. split; [done|]. split; [constructor|]. intros d. by rewrite app_nil_r. }
  destruct (parse_text c (env_sec env (tick w)) Hc) as (spec & Ep & Hr).
  rewrite M_bind_eq. unfold parse_single_challenge. rewrite M_bind_eq. cbn [time_now query]. rewrite Ep. cbn [lift].
  rewrite M_bind_eq. cbn [lift].
  change (@y_get tree_yaml (challenge_text c) (lit "domains")) with (Ret (TSeq (map TScalar (c_domains c))) : outcome tree).
  cbv beta iota. rewrite M_bind_eq. cbn [lift y_size tree_yaml tree_iter]. rewrite length_map, M_bind_eq.
  destruct (add_domains_text c spec (length (c_domains c)) 0 m eq_refl) as (m1 & Ea & Hm1). rewrite Ea. cbn [lift].
  destruct (IH m1 env (with_tick (S (tick w)) w)) as (m' & w' & specs & El & Hf & Hm').
  exists m', w', ((spec, c_domains c) :: specs). split; [exact El|]. split; [by constructor|].
  intros d. rewrite Hm', Hm1, <- app_assoc. cbn. by rewrite app_nil_r.
Qed.

(** C33. A challenger that is written down under the keys of the documentation
    and read from that tree is the one that was written: its key is the SHA-256 of
    the one given, difficulty and expiry time are those given, and the challenges
    of a host are those that name it, in the order of the file and once for each
    time, each with every member from its own key (name, type, page, number of
    failures, validity period, password hash, exceptions) and with exactly the
    magic words and the white-listed ranges given, as ordered sets.  YAML is
    that of plain trees ([tree_yaml]); numbers are below two to the power 31, every
    challenge names its page and the ranges can be parsed. *)
Theorem challenger_roundtrip (g : configuration) (wl : option GlobalWhiteList.GlobalWhiteList) (bj : option str)
    (env : Env) (w : World) :
  small (g_difficulty g) -> small (g_expiry g) -> Forall writable (g_challenges g) ->
  exists c w' specs, load_config read_file banjax_dir (configuration_text g) wl bj env w = (Ret c, w') /\
    hashed_key c = SHA256 (g_key g) /\ number_of_trailing_zeros c = g_difficulty g /\
    dynamic_expiry_seconds c = Some (g_expiry g) /\ global_white_list c = wl /\ banjax c = bj /\
    Forall2 (fun t e => reads_as t (fst e) /\ snd e = c_domains t) (g_challenges g) specs /\
    forall d, default [] (host_challenges_static c !! d) = challenges_for specs d.
Proof.
  intros Hd He Hc. destruct (load_challenges_text _ Hc ∅ env w) as (m & w' & specs & El & Hf & Hm).
  exists (MkChallenger (SHA256 (g_key g)) (g_difficulty g) (Some (g_expiry g)) m wl bj), w', specs.
  split; [|by split_and!]. set (t := configuration_text g).
  assert (E0 : y_field as_string t (lit "key") = Ret (g_key g)) by reflexivity.
  assert (E1 : y_field as_uint t (lit "difficulty") = Ret (g_difficulty g)) by exact (tree_nat_decimal _ Hd).
  assert (E2 : y_field as_uint t (lit "dynamic_expiry_seconds") = Ret (g_expiry g))
    by exact (tree_nat_decimal _ He).
  unfold load_config. rewrite M_bind_eq.
  change (@y_get tree_yaml t (lit "challenges")) with (Ret (TSeq (map challenge_text (g_challenges g))) : outcome tree).
  cbn [lift]. rewrite M_bind_eq. cbn [y_iter tree_yaml tree_iter]. rewrite El, M_bind_eq.
  rewrite E0. cbn [lift].
  rewrite M_bind_eq, E1. cbn [lift]. rewrite M_bind_eq. unfold load_dynamic. rewrite E2. reflexivity.
Qed.

End Reading.
(** ** A sample *)

Definition sample_challenge : challenge :=
  MkChallenge (lit "login") CHALLENGE_AUTH 120 10 (lit "auth.html") (lit "hash")
    [MkMagicWord MW_regexp (lit "wp-.*"); MkMagicWord MW_substr (lit "admin")] [lit "ajax"]
    [lit "10.0.0.0/8"] [lit "h.org"; lit "www.h.org"].

Definition sample_configuration : configuration :=
  MkConfiguration (lit "secret") 10 60 sample_challenge [sample_challenge].

Lemma challenger_roundtrip_witness :
  exists c w' specs,
    load_config (I := Util.sample_inet) (H := tree_yaml) (crypto := sample_crypto) (fun _ => lit "page") (lit "/etc")
      (configuration_text sample_configuration) None None SwabberOps.sample_env (SwabberOps.sample_world 0)
    = (Ret c, w') /\ number_of_trailing_zeros c = 10 /\
    default [] (host_challenges_static c !! lit "h.org") = challenges_for specs (lit "h.org").
Proof.
  destruct (challenger_roundtrip (I := Util.sample_inet) (crypto := sample_crypto) (fun _ => lit "page") (lit "/etc")
    sample_configuration None None SwabberOps.sample_env (SwabberOps.sample_world 0))
    as (c & w' & specs & E & _ & Hd & _ & _ & _ & _ & Hm).
  - unfold small. cbn. lia.
  - unfold small. cbn. lia.
  - repeat constructor; try (unfold small; cbn; lia); try discriminate.
    exists (match Util.make_mask_for_range (I := Util.sample_inet) (lit "10.0.0.0/8") with
            | Ret r => r | _ => (0, 0) end).
    vm_compute. reflexivity.
  - exists c, w', specs. split; [exact E|]. split; [exact Hd|]. apply Hm.
Defined.

End ChallengerText.
