(* ===== verification/Muncher.v ===== *)
(** * Muncher: the parts of a transaction (src/transaction_muncher.cpp)

    The parts of a request are retrieved on demand and kept.  What Traffic Server
    answers for one transaction is a [Txn]; setting the host of the URL changes
    what the URL prints as, so the host that was set is part of the state. *)

From S2P Require Import Prelude Util WhiteList IpDb Yaml World.

Local Open Scope Z_scope.

(** The answers of the Traffic Server calls for one transaction.  A header
    field may be absent, or present without a value. *)
Record Txn := MkTxn {
  client_req_ok : bool;                     (* TSHttpTxnClientReqGet *)
  client_addr : option str;                 (* TSHttpTxnClientAddrGet, inet_ntoa *)
  url_get_ok : bool;                        (* TSHttpHdrUrlGet *)
  url_string : option str -> option str;    (* TSUrlStringGet, given the host that was set *)
  url_scheme : str;                         (* TSUrlSchemeGet *)
  url_host_set_ok : bool;                   (* TSUrlHostSet *)
  http_method : option str;                 (* TSHttpHdrMethodGet *)
  host_field : option (option str);         (* TSMimeHdrFieldFind, ...ValueStringGet *)
  ua_field : option (option str);
  cookie_field : option (option str);
  client_resp_ok : bool;                    (* TSHttpTxnClientRespGet *)
  resp_status : Z;                          (* TSHttpHdrStatusGet *)
  content_length_field : option str
}.

Module Muncher.

Record TransactionMuncher := MkMuncher {
  cur_trans_parts : TransactionParts;
  valid_parts : Z;               (* uint64_t *)
  request_header : bool;         (* not null *)
  response_header : bool;
  url_host : option str          (* the host set in the URL *)
}.

Definition with_parts (p : TransactionParts) (m : TransactionMuncher) : TransactionMuncher :=
  MkMuncher p (valid_parts m) (request_header m) (response_header m) (url_host m).
Definition with_valid (v : Z) (m : TransactionMuncher) : TransactionMuncher :=
  MkMuncher (cur_trans_parts m) v (request_header m) (response_header m) (url_host m).
Definition with_request_header (m : TransactionMuncher) : TransactionMuncher :=
  MkMuncher (cur_trans_parts m) (valid_parts m) true (response_header m) (url_host m).
Definition with_response_header (m : TransactionMuncher) : TransactionMuncher :=
  MkMuncher (cur_trans_parts m) (valid_parts m) (request_header m) true (url_host m).
Definition with_url_host (h : str) (m : TransactionMuncher) : TransactionMuncher :=
  MkMuncher (cur_trans_parts m) (valid_parts m) (request_header m) (response_header m) (Some h).

(** [parts & flag]. *)
Definition has (parts flag : Z) : bool := negb (Z.land parts flag =? 0).

(** [cur_trans_parts.insert({k, v})]: an existing part stays. *)
Definition emplace (k : Z) (v : str) (m : TransactionMuncher) : TransactionMuncher :=
  match cur_trans_parts m !! k with
  | Some _ => m
  | None => with_parts (<[k := v]> (cur_trans_parts m)) m
  end.

(** [cur_trans_parts[k] = v]. *)
Definition assign (k : Z) (v : str) (m : TransactionMuncher) : TransactionMuncher :=
  with_parts (<[k := v]> (cur_trans_parts m)) m.

Definition update_validity_status (m : TransactionMuncher) : TransactionMuncher :=
  assign Part.VALIDITY_STAT (le_split 8 (valid_parts m)) m.

Definition init : TransactionMuncher :=
  update_validity_status (MkMuncher ∅ 0 false false None).

Definition miss (m : TransactionMuncher) : TransactionMuncher := assign Part.MISS [] m.

Section WithTxn.
Context (txn : Txn).

Definition retrieve_ip (m : TransactionMuncher) : TransactionMuncher :=
  match client_addr txn with
  | None => assign Part.IP [] m
  | Some a => assign Part.IP a m
  end.

Definition retrieve_url (m : TransactionMuncher) : TransactionMuncher :=
  if negb (url_get_ok txn) then emplace Part.PROTOCOL [] (emplace Part.URL [] m)
  else
    match url_string txn (url_host m) with
    | None => emplace Part.PROTOCOL [] (emplace Part.URL [] m)
    | Some url => emplace Part.PROTOCOL (url_scheme txn) (emplace Part.URL url m)
    end.

(** After the host was retrieved. *)
Definition retrieve_url_with_host (m : TransactionMuncher) : TransactionMuncher :=
  if negb (url_get_ok txn) then emplace Part.URL_WITH_HOST [] m
  else
    let '(host, parts) := part_index (cur_trans_parts m) Part.HOST in
    let m1 := with_parts parts m in
    if negb (url_host_set_ok txn) then m1
    else
      let m2 := with_url_host host m1 in
      match url_string txn (Some host) with
      | None => emplace Part.URL_WITH_HOST [] m2
      | Some url => emplace Part.URL_WITH_HOST url m2
      end.

Definition retrieve_method (m : TransactionMuncher) : TransactionMuncher :=
  emplace Part.METHOD (default [] (http_method txn)) m.

(** A header field: empty when it is absent or has no value. *)
Definition field_value (f : option (option str)) : str := default [] (mjoin f).

(** The host is lowered, so that its case cannot bypass the filters. *)
Definition retrieve_host (m : TransactionMuncher) : TransactionMuncher :=
  emplace Part.HOST (Util.to_lower (field_value (host_field txn))) m.

Definition retrieve_ua (m : TransactionMuncher) : TransactionMuncher :=
  emplace Part.UA (field_value (ua_field txn)) m.

Definition retrieve_cookie (m : TransactionMuncher) : TransactionMuncher :=
  emplace Part.COOKIE (field_value (cookie_field txn)) m.

Definition when (b : bool) (f : TransactionMuncher -> TransactionMuncher) (m : TransactionMuncher)
    : TransactionMuncher := if b then f m else m.

(** The body of [retrieve_parts]; [rec] is its call to itself. *)
Definition retrieve_body (rec : Z -> TransactionMuncher -> outcome TransactionMuncher)
    (requested : Z) (m : TransactionMuncher) : outcome TransactionMuncher :=
  let todo := Z.ldiff requested (valid_parts m) in
  if todo =? 0 then Ret m
  else if negb (request_header m) && negb (client_req_ok txn) then Throw HEADER_RETRIEVAL_ERROR
  else
    let m1 := when (has todo Part.IP) retrieve_ip (with_request_header m) in
    let m2 := when (has todo Part.URL || has todo Part.PROTOCOL) retrieve_url m1 in
    m3 ← (if has todo Part.URL_WITH_HOST
          then m' ← rec (Z.lor Part.HOST Part.URL) m2; mret (retrieve_url_with_host m')
          else mret m2);
    let m4 := when (has todo Part.METHOD) retrieve_method m3 in
    let m5 := when (has todo Part.HOST) retrieve_host m4 in
    let m6 := when (has todo Part.UA) retrieve_ua m5 in
    let m7 := when (has todo Part.COOKIE) retrieve_cookie m6 in
    mret (update_validity_status (with_valid (Z.lor (valid_parts m7) requested) m7)).

(** The inner call asks for the host and the URL only, so it does not call
    itself again. *)
Definition retrieve_parts (requested : Z) (m : TransactionMuncher) : outcome TransactionMuncher :=
  retrieve_body (retrieve_body (fun _ m => Ret m)) requested m.

Definition retrieve_response_header (m : TransactionMuncher) : outcome TransactionMuncher :=
  if client_resp_ok txn then Ret (with_response_header m) else Throw HEADER_RETRIEVAL_ERROR.

Definition need_response_header (m : TransactionMuncher) : outcome TransactionMuncher :=
  if response_header m then Ret m else retrieve_response_header m.

Definition get_response_status (m : TransactionMuncher) : outcome (Z * TransactionMuncher) :=
  m' ← need_response_header m; mret (resp_status txn, m').

Definition retrieve_response_parts (requested : Z) (m : TransactionMuncher) : outcome TransactionMuncher :=
  let todo := Z.ldiff requested (valid_parts m) in
  if todo =? 0 then Ret m
  else
    m1 ← need_response_header m;
    let m2 := when (has todo Part.STATUS)
                (fun m => let m' := assign Part.STATUS (to_string (resp_status txn)) m in
                          with_valid (Z.lor (valid_parts m') Part.STATUS) m') m1 in
    let m3 := when (has todo Part.CONTENT_LENGTH)
                (fun m => let m' := assign Part.CONTENT_LENGTH
                                      (default (lit "0") (content_length_field txn)) m in
                          with_valid (Z.lor (valid_parts m') Part.CONTENT_LENGTH) m') m2 in
    mret (update_validity_status m3).

(** [set_url_host]: the new URL is inserted, which leaves a URL that was
    already retrieved as it was. *)
Definition set_url_host (hostname : option str) (m : TransactionMuncher) : outcome TransactionMuncher :=
  if negb (request_header m) && negb (client_req_ok txn) then Throw HEADER_RETRIEVAL_ERROR
  else
    m1 ← (match hostname with
          | None => retrieve_parts Part.HOST (with_request_header m)
          | Some _ => mret (with_request_header m)
          end);
    let '(host, m2) :=
      match hostname with
      | None => let '(h, parts) := part_index (cur_trans_parts m1) Part.HOST in (h, with_parts parts m1)
      | Some h => (h, m1)
      end in
    if negb (url_get_ok txn) then Throw HEADER_RETRIEVAL_ERROR
    else if negb (url_host_set_ok txn) then Throw HEADER_RETRIEVAL_ERROR
    else
      match url_string txn (Some host) with
      | None => Throw HEADER_RETRIEVAL_ERROR
      | Some url => mret (emplace Part.URL url (with_url_host host m2))
      end.

(** ** The contract with the filters *)

(** The parts a filter may ask for; the full URL is promised only when the host
    can be set in it. *)
Definition promised (p : Z) : Prop :=
  p ∈ [Part.IP; Part.URL; Part.HOST; Part.UA; Part.COOKIE; Part.METHOD; Part.PROTOCOL] \/
  (p = Part.URL_WITH_HOST /\ (url_get_ok txn = true -> url_host_set_ok txn = true)).

Definition muncher_ok (m : TransactionMuncher) : Prop :=
  forall p, promised p -> has (valid_parts m) p = true -> is_Some (cur_trans_parts m !! p).

Definition present (m : TransactionMuncher) (p : Z) : Prop := is_Some (cur_trans_parts m !! p).

(** What only adds parts and leaves the flags. *)
Definition adds (m m' : TransactionMuncher) : Prop :=
  (forall p, present m p -> present m' p) /\ valid_parts m' = valid_parts m.

#[local] Instance adds_preorder : PreOrder adds.
Proof.
  split; [done|]. intros m1 m2 m3 [H1 V1] [H2 V2]. split; [auto|congruence].
Qed.

Lemma emplace_adds k v m : adds m (emplace k v m).
Proof.
  unfold emplace. destruct (cur_trans_parts m !! k); [done|]. split; [|done].
  intros p Hp. unfold present. cbn. destruct (decide (k = p)) as [->|];
    [rewrite lookup_insert_eq; by eexists|by rewrite lookup_insert_ne].
Qed.

Lemma emplace_present k v m : present (emplace k v m) k.
Proof.
  unfold emplace, present. destruct (cur_trans_parts m !! k) eqn:E; [by rewrite E|].
  cbn. rewrite lookup_insert_eq. by eexists.
Qed.

Lemma assign_adds k v m : adds m (assign k v m).
Proof.
  split; [|done]. intros p Hp. unfold present. cbn. destruct (decide (k = p)) as [->|];
    [rewrite lookup_insert_eq; by eexists|by rewrite lookup_insert_ne].
Qed.

Lemma assign_present k v m : present (assign k v m) k.
Proof. unfold present. cbn. rewrite lookup_insert_eq. by eexists. Qed.

Lemma when_adds b f m : (forall m, adds m (f m)) -> adds m (when b f m).
Proof. destruct b; cbn; [done|reflexivity]. Qed.

Lemma when_present b f m p : b = true -> present (f m) p -> present (when b f m) p.
Proof. by intros ->. Qed.

Lemma retrieve_ip_adds m : adds m (retrieve_ip m).
Proof. unfold retrieve_ip. case_match; apply assign_adds. Qed.
Lemma retrieve_ip_present m : present (retrieve_ip m) Part.IP.
Proof. unfold retrieve_ip. case_match; apply assign_present. Qed.

Lemma retrieve_url_adds m : adds m (retrieve_url m).
Proof. unfold retrieve_url. repeat case_match; (etransitivity; [apply emplace_adds|apply emplace_adds]). Qed.
Lemma retrieve_url_present m : present (retrieve_url m) Part.URL /\ present (retrieve_url m) Part.PROTOCOL.
Proof.
  unfold retrieve_url. repeat case_match;
    (split; [apply emplace_adds, emplace_present|apply emplace_present]).
Qed.

Lemma with_index_adds m k : adds m (with_parts (snd (part_index (cur_trans_parts m) k)) m).
Proof.
  unfold part_index. destruct (cur_trans_parts m !! k) eqn:E; cbn [snd].
  - destruct m. done.
  - apply assign_adds.
Qed.

Lemma retrieve_uwh_adds m : adds m (retrieve_url_with_host m).
Proof.
  unfold retrieve_url_with_host. case_match; [apply emplace_adds|].
  pose proof (with_index_adds m Part.HOST) as Hi.
  destruct (part_index _ _) as [host parts]. cbn [snd] in Hi. case_match; [done|].
  case_match; (etransitivity; [exact Hi|]; etransitivity; [|apply emplace_adds]; done).
Qed.

Lemma retrieve_uwh_present m :
  (url_get_ok txn = true -> url_host_set_ok txn = true) ->
  present (retrieve_url_with_host m) Part.URL_WITH_HOST.
Proof.
  intros Hset. unfold retrieve_url_with_host.
  destruct (url_get_ok txn); cbn [negb]; [|apply emplace_present]. rewrite Hset by done. cbn [negb].
  destruct (part_index _ _) as [host parts]. case_match; apply emplace_present.
Qed.

(** *** Flags *)

Lemma has_lor a b p : has (Z.lor a b) p = has a p || has b p.
Proof.
  unfold has. rewrite Z.land_lor_distr_l, <- negb_andb. f_equal.
  apply eq_true_iff_eq. rewrite andb_true_iff, !Z.eqb_eq. apply Z.lor_eq_0_iff.
Qed.

Lemma has_ldiff r v p : has r p = true -> has v p = false -> has (Z.ldiff r v) p = true.
Proof.
  unfold has. rewrite !negb_true_iff, negb_false_iff, !Z.eqb_neq, Z.eqb_eq. intros Hr Hv.
  replace (Z.land (Z.ldiff r v) p) with (Z.land r p); [done|].
  apply Z.bits_inj'. intros n Hn. rewrite !Z.land_spec, Z.ldiff_spec.
  apply (f_equal (fun z => Z.testbit z n)) in Hv. rewrite Z.land_spec, Z.bits_0 in Hv.
  by destruct (Z.testbit r n), (Z.testbit v n), (Z.testbit p n).
Qed.

Lemma has_ldiff_inv r v p : has (Z.ldiff r v) p = true -> has r p = true.
Proof.
  unfold has. rewrite !negb_true_iff, !Z.eqb_neq. intros Hd Hr. apply Hd.
  apply Z.bits_inj'. intros n Hn. rewrite Z.land_spec, Z.ldiff_spec, Z.bits_0.
  apply (f_equal (fun z => Z.testbit z n)) in Hr. rewrite Z.land_spec, Z.bits_0 in Hr.
  by destruct (Z.testbit r n), (Z.testbit v n), (Z.testbit p n).
Qed.

(** *** [retrieve_parts] *)

(** What a call promises: parts stay, and every part that it flags or that was
    asked for is there, unless its flag was already set. *)
Definition call_ok (requested : Z) (m m' : TransactionMuncher) : Prop :=
  (forall p, present m p -> present m' p) /\
  (forall p, promised p -> has (valid_parts m') p = true \/ has requested p = true ->
     has (valid_parts m) p = true \/ present m' p).

Lemma call_ok_muncher requested m m' :
  call_ok requested m m' -> muncher_ok m -> muncher_ok m'.
Proof.
  intros (Hmono & Hflag) Hok p Hp Hv. destruct (Hflag p Hp (or_introl Hv)) as [?|Hr]; [|done].
  by apply Hmono, Hok.
Qed.

(** The part of the body before the inner call, and after it. *)
Definition first_steps (todo : Z) (m : TransactionMuncher) : TransactionMuncher :=
  when (has todo Part.URL || has todo Part.PROTOCOL) retrieve_url
    (when (has todo Part.IP) retrieve_ip (with_request_header m)).

Definition last_steps (todo : Z) (m : TransactionMuncher) : TransactionMuncher :=
  when (has todo Part.COOKIE) retrieve_cookie
    (when (has todo Part.UA) retrieve_ua
      (when (has todo Part.HOST) retrieve_host
        (when (has todo Part.METHOD) retrieve_method m))).

Ltac chain := repeat (etransitivity; [|apply when_adds; intros; apply emplace_adds]); reflexivity.

Lemma first_adds todo m : adds m (first_steps todo m).
Proof.
  unfold first_steps. etransitivity; [|apply when_adds, retrieve_url_adds].
  etransitivity; [|apply when_adds, retrieve_ip_adds]. done.
Qed.

Lemma last_adds todo m : adds m (last_steps todo m).
Proof.
  unfold last_steps, retrieve_cookie, retrieve_ua, retrieve_host, retrieve_method. chain.
Qed.

Lemma first_present todo m p :
  p ∈ [Part.IP; Part.URL; Part.PROTOCOL] -> has todo p = true -> present (first_steps todo m) p.
Proof.
  unfold first_steps. rewrite !elem_of_cons, elem_of_nil. intros [->|[->|[->|[]]]] Ht.
  - apply (when_adds _ _ _ retrieve_url_adds). rewrite Ht. apply retrieve_ip_present.
  - apply when_present; [by rewrite Ht|]. apply retrieve_url_present.
  - apply when_present; [by rewrite Ht, orb_true_r|]. apply retrieve_url_present.
Qed.

Lemma last_present todo m p :
  p ∈ [Part.METHOD; Part.HOST; Part.UA; Part.COOKIE] -> has todo p = true ->
  present (last_steps todo m) p.
Proof.
  unfold last_steps. rewrite !elem_of_cons, elem_of_nil. intros [->|[->|[->|[->|[]]]]] Ht; rewrite Ht.
  all: repeat (first [apply emplace_present | apply when_adds; [intros; apply emplace_adds|]]).
Qed.

Lemma retrieve_body_eq rec requested m :
  let todo := Z.ldiff requested (valid_parts m) in
  retrieve_body rec requested m =
  if todo =? 0 then Ret m
  else if negb (request_header m) && negb (client_req_ok txn) then Throw HEADER_RETRIEVAL_ERROR
  else
    m3 ← (if has todo Part.URL_WITH_HOST
          then m' ← rec (Z.lor Part.HOST Part.URL) (first_steps todo m);
               mret (retrieve_url_with_host m')
          else mret (first_steps todo m));
    mret (update_validity_status
            (with_valid (Z.lor (valid_parts (last_steps todo m3)) requested) (last_steps todo m3))).
Proof. reflexivity. Qed.

(** The middle of the body: the inner call and the full URL. *)
Lemma middle_ok rec todo m m3 :
  (has todo Part.URL_WITH_HOST = true -> forall m0 m1,
     rec (Z.lor Part.HOST Part.URL) m0 = Ret m1 -> call_ok (Z.lor Part.HOST Part.URL) m0 m1) ->
  (if has todo Part.URL_WITH_HOST
   then m' ← rec (Z.lor Part.HOST Part.URL) m; mret (retrieve_url_with_host m')
   else mret m) = Ret m3 ->
  (forall p, present m p -> present m3 p) /\
  (forall p, promised p -> has (valid_parts m3) p = true -> has (valid_parts m) p = true \/ present m3 p) /\
  (promised Part.URL_WITH_HOST -> has todo Part.URL_WITH_HOST = true -> present m3 Part.URL_WITH_HOST).
Proof.
  intros Hrec. destruct (has todo Part.URL_WITH_HOST) eqn:Eu; run_outcome.
  2: { intros [= <-]. split; [done|]. split; [by left|]. done. }
  destruct (rec _ m) as [m'| |] eqn:Er; [|done..]. intros [= <-].
  destruct (Hrec eq_refl _ _ Er) as [Hmono Hflag]. destruct (retrieve_uwh_adds m') as [Ha Hv].
  split; [auto|]. split.
  - intros p Hp Hf. rewrite Hv in Hf. destruct (Hflag p Hp (or_introl Hf)); auto.
  - intros [Hp|[_ Hset]] _; [|by apply retrieve_uwh_present].
    exfalso. by repeat (apply elem_of_cons in Hp as [Hp|Hp]; [discriminate Hp|]); apply elem_of_nil in Hp.
Qed.

Lemma retrieve_body_ok rec requested m m' :
  (has requested Part.URL_WITH_HOST = true -> forall m0 m1,
     rec (Z.lor Part.HOST Part.URL) m0 = Ret m1 -> call_ok (Z.lor Part.HOST Part.URL) m0 m1) ->
  retrieve_body rec requested m = Ret m' -> call_ok requested m m'.
Proof.
  intros Hrec. rewrite retrieve_body_eq. cbv zeta. set (todo := Z.ldiff requested (valid_parts m)).
  assert (Htodo : forall p, has requested p = true -> has (valid_parts m) p = false -> has todo p = true)
    by (intros; by apply has_ldiff).
  destruct (Z.eqb_spec todo 0) as [Ez|_].
  { intros [= <-]. split; [done|]. intros p _ [?|Hr]; [by left|].
    destruct (has (valid_parts m) p) eqn:E; [by left|]. specialize (Htodo p Hr E). by rewrite Ez in Htodo. }
  destruct (negb _ && _); [done|]. cbv [mbind outcome_bind].
  destruct (if has todo Part.URL_WITH_HOST then _ else _) as [m3| |] eqn:E3; [|done..].
  destruct (middle_ok rec todo _ _ (fun Ht => Hrec (has_ldiff_inv _ _ _ Ht)) E3) as (Hmono3 & Hflag3 & Huwh).
  destruct (first_adds todo m) as [Ha1 Hv1]. destruct (last_adds todo m3) as [Ha2 Hv2].
  intros [= <-].
  assert (Hfin : forall p, present (last_steps todo m3) p -> present (update_validity_status
    (with_valid (Z.lor (valid_parts (last_steps todo m3)) requested) (last_steps todo m3))) p).
  { intros p Hp. by apply (proj1 (assign_adds _ _ (with_valid _ (last_steps todo m3)))). }
  split; [auto|]. intros p Hp Hf. destruct (has (valid_parts m) p) eqn:E; [by left|]. right. apply Hfin.
  cbn [valid_parts update_validity_status assign with_parts with_valid] in Hf.
  rewrite has_lor, Hv2 in Hf.
  destruct (has requested p) eqn:Er.
  - specialize (Htodo p Er E). destruct Hp as [Hp|[-> Hset]].
    + assert (p ∈ [Part.IP; Part.URL; Part.PROTOCOL] \/
              p ∈ [Part.METHOD; Part.HOST; Part.UA; Part.COOKIE]) as [Hin|Hin]
        by (rewrite !elem_of_cons in *; tauto).
      * by apply Ha2, Hmono3, first_present.
      * by apply last_present.
    + apply Ha2, Huwh; [|done]. by right.
  - destruct Hf as [Hf|?]; [|done]. rewrite orb_false_r in Hf. apply Ha2.
    destruct (Hflag3 p Hp Hf) as [Hx|?]; [|done]. rewrite Hv1 in Hx. congruence.
Qed.

(** *** The address of the client *)

Definition same_ip (m m' : TransactionMuncher) : Prop :=
  cur_trans_parts m' !! Part.IP = cur_trans_parts m !! Part.IP.

#[local] Instance same_ip_preorder : PreOrder same_ip.
Proof. split; unfold same_ip; [done|]. intros m1 m2 m3; congruence. Qed.

Lemma emplace_same_ip k v m : k <> Part.IP -> same_ip m (emplace k v m).
Proof. intros Hk. unfold emplace, same_ip. case_match; [done|]. cbn. by rewrite lookup_insert_ne. Qed.
Lemma assign_same_ip k v m : k <> Part.IP -> same_ip m (assign k v m).
Proof. intros Hk. unfold same_ip. cbn. by rewrite lookup_insert_ne. Qed.
Lemma when_same_ip b f m : (forall m, same_ip m (f m)) -> same_ip m (when b f m).
Proof. destruct b; cbn; [done|reflexivity]. Qed.

Lemma retrieve_url_same_ip m : same_ip m (retrieve_url m).
Proof.
  unfold retrieve_url. repeat case_match; (etransitivity; [|by apply emplace_same_ip]);
    by apply emplace_same_ip.
Qed.

Lemma retrieve_uwh_same_ip m : same_ip m (retrieve_url_with_host m).
Proof.
  unfold retrieve_url_with_host, part_index.
  repeat case_match; simplify_eq; try (by apply emplace_same_ip).
  all: unfold same_ip, emplace, with_url_host, with_parts; cbn.
  all: repeat case_match; cbn; by rewrite ?lookup_insert_ne.
Qed.

Lemma last_same_ip todo m : same_ip m (last_steps todo m).
Proof.
  unfold last_steps. repeat (etransitivity; [|apply when_same_ip; intros; by apply emplace_same_ip]).
  reflexivity.
Qed.

(** A retrieval that asks for the address stores the client's, and one that
    does not leaves it. *)
Lemma retrieve_body_ip rec requested m m' :
  (forall m0 m1, rec (Z.lor Part.HOST Part.URL) m0 = Ret m1 -> same_ip m0 m1) ->
  retrieve_body rec requested m = Ret m' ->
  same_ip (when (has (Z.ldiff requested (valid_parts m)) Part.IP) retrieve_ip m) m'.
Proof.
  intros Hrec. rewrite retrieve_body_eq. cbv zeta. set (todo := Z.ldiff requested (valid_parts m)).
  destruct (Z.eqb_spec todo 0) as [->|_]; [by intros [= <-]|].
  destruct (negb _ && _); [done|]. cbv [mbind outcome_bind].
  assert (Hf : same_ip (when (has todo Part.IP) retrieve_ip m) (first_steps todo m)).
  { unfold first_steps. etransitivity; [|apply when_same_ip, retrieve_url_same_ip].
    unfold same_ip, when, retrieve_ip. by repeat case_match. }
  destruct (if has todo Part.URL_WITH_HOST then _ else _) as [m3| |] eqn:E3; [|done..].
  assert (H3 : same_ip (first_steps todo m) m3).
  { destruct (has todo Part.URL_WITH_HOST); [|by injection E3 as <-].
    destruct (rec _ _) as [m0| |] eqn:Er; [|done..]. injection E3 as <-.
    etransitivity; [by eapply Hrec|]. apply retrieve_uwh_same_ip. }
  intros [= <-]. etransitivity; [exact Hf|]. etransitivity; [exact H3|].
  etransitivity; [apply (last_same_ip todo)|].
  etransitivity; [|by apply assign_same_ip]. done.
Qed.

Lemma retrieve_parts_ip requested m m' ip :
  client_addr txn = Some ip -> has requested Part.IP = true -> has (valid_parts m) Part.IP = false ->
  retrieve_parts requested m = Ret m' -> cur_trans_parts m' !! Part.IP = Some ip.
Proof.
  intros Hc Hr Hv Hrun. apply retrieve_body_ip in Hrun.
  - rewrite (has_ldiff _ _ _ Hr Hv) in Hrun. unfold same_ip, when, retrieve_ip in Hrun.
    rewrite Hc in Hrun. cbn in Hrun. by rewrite lookup_insert_eq in Hrun.
  - intros m0 m1 Hin. apply retrieve_body_ip in Hin; [|by intros ? ? [= <-]].
    destruct (has (Z.ldiff _ _) Part.IP) eqn:E; [|done]. by apply has_ldiff_inv in E.
Qed.

(** *** A URL whose host cannot be set *)

Definition no_url (m : TransactionMuncher) : Prop := cur_trans_parts m !! Part.URL_WITH_HOST = None.

(** The part that says which parts are valid does so. *)
Definition synced (m : TransactionMuncher) : Prop :=
  cur_trans_parts m !! Part.VALIDITY_STAT = Some (le_split 8 (valid_parts m)).

Lemma emplace_no_url k v m : k <> Part.URL_WITH_HOST -> no_url m -> no_url (emplace k v m).
Proof. intros Hk. unfold no_url, emplace. case_match; [done|]. cbn. by rewrite lookup_insert_ne. Qed.

Lemma assign_no_url k v m : k <> Part.URL_WITH_HOST -> no_url m -> no_url (assign k v m).
Proof. intros Hk. unfold no_url. cbn. by rewrite lookup_insert_ne. Qed.

Lemma when_no_url b f m : (no_url m -> no_url (f m)) -> no_url m -> no_url (when b f m).
Proof. by destruct b. Qed.

Lemma first_no_url todo m : no_url m -> no_url (first_steps todo m).
Proof.
  intros H. unfold first_steps. apply when_no_url; [|apply when_no_url; [|done]]; intros H'.
  - unfold retrieve_url. repeat case_match; by do 2 (apply emplace_no_url; [done|]).
  - unfold retrieve_ip. case_match; by apply assign_no_url.
Qed.

Lemma last_no_url todo m : no_url m -> no_url (last_steps todo m).
Proof.
  intros H. unfold last_steps. by do 4 (apply when_no_url; [by apply emplace_no_url|]).
Qed.

Section Lost.
Hypothesis (url_found : url_get_ok txn = true) (host_not_set : url_host_set_ok txn = false).

Lemma retrieve_uwh_no_url m : no_url m -> no_url (retrieve_url_with_host m).
Proof.
  unfold retrieve_url_with_host, part_index. rewrite url_found, host_not_set. cbn [negb].
  intros H. destruct (cur_trans_parts m !! Part.HOST); [done|]. unfold no_url in *. cbn.
  by rewrite lookup_insert_ne.
Qed.

Lemma retrieve_body_no_url rec requested m m' :
  (forall m0 m1, rec (Z.lor Part.HOST Part.URL) m0 = Ret m1 -> no_url m0 -> no_url m1) ->
  retrieve_body rec requested m = Ret m' -> no_url m -> no_url m'.
Proof.
  intros Hrec. rewrite retrieve_body_eq. cbv zeta. set (todo := Z.ldiff requested (valid_parts m)).
  destruct (todo =? 0); [by intros [= <-]|]. destruct (negb _ && _); [done|].
  intros Hrun Hn. apply (first_no_url todo) in Hn. revert Hrun. cbv [mbind outcome_bind].
  destruct (if has todo Part.URL_WITH_HOST then _ else _) as [m3| |] eqn:E3; [|done..].
  assert (H3 : no_url m3).
  { destruct (has todo Part.URL_WITH_HOST); [|by injection E3 as <-].
    destruct (rec _ _) as [m0| |] eqn:Er; [|done..]. injection E3 as <-.
    by eapply retrieve_uwh_no_url, Hrec. }
  intros [= <-]. apply assign_no_url; [done|]. by apply (last_no_url todo) in H3.
Qed.

Lemma retrieve_parts_no_url requested m m' :
  retrieve_parts requested m = Ret m' -> no_url m -> no_url m'.
Proof.
  apply retrieve_body_no_url. intros m0 m1. apply retrieve_body_no_url. by intros ? ? [= <-].
Qed.
End Lost.

(** Retrieval returns when the request header can be had. *)
Lemma retrieve_body_returns rec requested m : client_req_ok txn = true ->
  (forall m0, exists m1, rec (Z.lor Part.HOST Part.URL) m0 = Ret m1) ->
  exists m', retrieve_body rec requested m = Ret m'.
Proof.
  intros Hc Hrec. rewrite retrieve_body_eq. cbv zeta. destruct (_ =? 0); [by eexists|].
  rewrite Hc, andb_false_r. cbv [mbind outcome_bind]. destruct (has _ _); [|by eexists].
  destruct (Hrec (first_steps (Z.ldiff requested (valid_parts m)) m)) as [m1 ->]. by eexists.
Qed.

Lemma retrieve_parts_returns requested m : client_req_ok txn = true ->
  exists m', retrieve_parts requested m = Ret m'.
Proof.
  intros Hc. apply retrieve_body_returns; [done|]. intros m0. apply retrieve_body_returns; [done|].
  by eexists.
Qed.

(** Every part asked for is flagged, and the flags are up to date. *)
Lemma retrieve_parts_flags requested m m' p :
  retrieve_parts requested m = Ret m' -> synced m ->
  synced m' /\ (has requested p = true -> has (valid_parts m') p = true).
Proof.
  unfold retrieve_parts. rewrite retrieve_body_eq. cbv zeta.
  destruct (Z.ldiff requested (valid_parts m) =? 0) eqn:E.
  - intros [= <-] Hs. split; [done|]. intros Hr. destruct (has (valid_parts m) p) eqn:Hv; [done|].
    apply (has_ldiff _ _ _ Hr) in Hv. apply Z.eqb_eq in E. by rewrite E in Hv.
  - destruct (negb _ && _); [done|]. cbv [mbind outcome_bind].
    destruct (if has _ _ then _ else _) as [m3| |]; [|done..]. intros [= <-] _. split.
    + unfold synced, update_validity_status. cbn. by rewrite lookup_insert_eq.
    + intros Hr. cbn [valid_parts update_validity_status assign with_parts with_valid].
      by rewrite has_lor, Hr, orb_true_r.
Qed.

Lemma retrieve_parts_ok requested m m' : retrieve_parts requested m = Ret m' -> call_ok requested m m'.
Proof.
  intros Hr. eapply retrieve_body_ok; [|exact Hr]. intros _ m0 m1 Hin. by eapply retrieve_body_ok; [|exact Hin].
Qed.

(** Once retrieved, nothing of what was asked for is left to retrieve. *)
Lemma retrieve_parts_todo requested m m' :
  retrieve_parts requested m = Ret m' -> Z.ldiff requested (valid_parts m') = 0.
Proof.
  unfold retrieve_parts. rewrite retrieve_body_eq. cbv zeta.
  destruct (Z.ldiff requested (valid_parts m) =? 0) eqn:E; [intros [= <-]; by apply Z.eqb_eq|].
  destruct (negb _ && _); [done|]. cbv [mbind outcome_bind].
  destruct (if has _ _ then _ else _) as [m3| |]; [|done..]. intros [= <-].
  cbn [valid_parts update_validity_status assign with_parts with_valid].
  apply Z.bits_inj'. intros n Hn. rewrite Z.ldiff_spec, Z.lor_spec, Z.bits_0.
  by destruct (Z.testbit requested n), (Z.testbit _ n).
Qed.

(** C36. The contract of the muncher with the filters: after a retrieval that
    returns, every part that was ever asked for is in the map, except that the
    full URL may be missing when Traffic Server could not set its host. *)
Theorem retrieve_parts_complete (requested : Z) (m m' : TransactionMuncher) :
  muncher_ok m -> retrieve_parts requested m = Ret m' ->
  muncher_ok m' /\
  forall p, promised p -> has requested p = true -> is_Some (cur_trans_parts m' !! p).
Proof.
  intros Hok Hr. pose proof (retrieve_parts_ok requested m m' Hr) as Hc. split; [by eapply call_ok_muncher|]. intros p Hp Hf. destruct Hc as [Hmono Hflag].
  destruct (Hflag p Hp (or_intror Hf)) as [Hv|?]; [|done]. by apply Hmono, Hok.
Qed.

End WithTxn.

Lemma init_ok txn : muncher_ok txn init.
Proof. intros p _ Hf. by rewrite (eq_refl : has (valid_parts init) p = false) in Hf. Qed.

(** A request for "http://Ex.org/x" with a cookie. *)
Definition sample_txn (host_set_ok : bool) : Txn :=
  MkTxn true (Some (lit "10.0.0.7")) true
    (fun h => Some (match h with Some h => lit "http://" ++ h ++ lit "/x" | None => lit "/x" end))
    (lit "http") host_set_ok (Some (lit "GET")) (Some (Some (lit "Ex.org"))) None
    (Some (Some (lit "a=b"))) true 200 None.

Definition sample_request : Z :=
  Z.lor Part.IP (Z.lor Part.HOST (Z.lor Part.COOKIE Part.URL_WITH_HOST)).

Definition retrieved (host_set_ok : bool) : TransactionMuncher :=
  match retrieve_parts (sample_txn host_set_ok) sample_request init with
  | Ret m => m
  | _ => init
  end.

Lemma retrieve_parts_complete_witness :
  muncher_ok (sample_txn true) (retrieved true) /\
  forall p, promised (sample_txn true) p -> has sample_request p = true ->
    is_Some (cur_trans_parts (retrieved true) !! p).
Proof.
  apply (retrieve_parts_complete (sample_txn true) sample_request init (retrieved true)).
  - apply init_ok.
  - vm_compute. reflexivity.
Defined.

End Muncher.
