(* ===== verification/Transaction.v ===== *)
(** * Transaction: the filters on a request (src/transaction_data.cpp)

    [handle_request] calls the filters in their order until one decides;
    [handle_response] produces the page of the filter that answered.  The calls
    to Traffic Server that decide the fate of a transaction are returned as a
    list, in order. *)

From S2P Require Import Prelude Base64 Cookie CookieHash Util WhiteList IpDb Yaml Float World.
From S2P Require Import Swabber BotSniffer WhiteLister Denialator RegexManager Reports ChallengeChecks.
From S2P Require Import Challenger ChallengerFlow Muncher.

Local Open Scope Z_scope.

Module Transaction.

(** The classes that implement [BanjaxFilter]. *)
Inductive filter :=
  | FRegexManager (m : RegexManager.RegexManager)
  | FChallenger (c : Challenger.Challenger)
  | FWhiteLister (wl : GlobalWhiteList.GlobalWhiteList)
  | FDenialator (d : Denialator.Denialator)
  | FBotSniffer.

Inductive ats_call :=
  | NoStoreSet                                     (* TSHttpTxnServerRespNoStoreSet *)
  | CacheHttpOff                                   (* TSHttpTxnConfigIntSet(..., CACHE_HTTP, 0) *)
  | SetStatus (code : Z)
  | AppendHeader (hname value : str)
  | ErrorBodySet (body : str) (ctype : option str)
  | Reenable (continue : bool).                    (* TS_EVENT_HTTP_CONTINUE or ..._ERROR *)

#[global] Instance ats_call_eq_dec : EqDecision ats_call.
Proof. solve_decision. Defined.

(** What [TransactionData] keeps between its two handlers, with the calls made. *)
Record Result := MkResult { response_info : FilterResponse; calls : list ats_call }.

Section Handlers.
Context {crypto : Crypto} {I : Inet} {R2 : Re2}.

(** The virtual [requested_info]. *)
Definition requested_info (f : filter) : Z :=
  match f with
  | FRegexManager _ => RegexManager.requested_info
  | FChallenger _ => Challenger.requested_info
  | FWhiteLister _ => WhiteLister.requested_info
  | FDenialator _ => Denialator.requested_info
  | FBotSniffer => BotSniffer.requested_info
  end.

(** The virtual [on_http_request]; the parts are shared, and the regex manager
    may add to them. *)
Definition on_http_request (f : filter) (parts : TransactionParts)
    : M (FilterResponse * TransactionParts) :=
  match f with
  | FRegexManager m => RegexManager.on_http_request m parts
  | FChallenger c => r ← Challenger.on_http_request c parts; mret (r, parts)
  | FWhiteLister wl => r ← lift (WhiteLister.on_http_request wl parts); mret (r, parts)
  | FDenialator d => r ← Denialator.on_http_request d parts; mret (r, parts)
  | FBotSniffer => mret (plain_response GO_AHEAD_NO_COMMENT, parts)
  end.

(** The virtual [response_info]. *)
Definition response_parts_info (f : filter) : Z :=
  match f with
  | FBotSniffer => BotSniffer.response_info
  | _ => 0
  end.

(** ** Queues (src/banjax_filter.h) *)

Inductive ExecutionQueue :=
  | HTTP_START | HTTP_REQUEST | HTTP_READ_CACHE | HTTP_SEND_TO_ORIGIN | HTTP_RESPONSE | HTTP_CLOSE.

#[global] Instance ExecutionQueue_eq_dec : EqDecision ExecutionQueue.
Proof. solve_decision. Defined.

(** The queue a filter enters itself into: [queued_tasks[q] = this]. *)
Definition queued_task (f : filter) (q : ExecutionQueue) : bool :=
  match f with
  | FBotSniffer => bool_decide (q = HTTP_CLOSE)
  | _ => bool_decide (q = HTTP_REQUEST)
  end.

(** [task_queues[q]], in the order in which the filters were built. *)
Definition task_queue (q : ExecutionQueue) (l : list filter) : list filter :=
  base.filter (fun f => queued_task f q = true) l.

(** The loop of [handle_request]. *)
Fixpoint run_filters (l : list filter) (parts : TransactionParts) (made : list ats_call)
    : M (Result * TransactionParts) :=
  match l with
  | [] => mret (MkResult (plain_response GO_AHEAD_NO_COMMENT) (made ++ [Reenable true]), parts)
  | f :: rest =>
      '(r, parts') ← on_http_request f parts;
      match response_type r with
      | GO_AHEAD_NO_COMMENT => run_filters rest parts' made
      | SERVE_IMMIDIATELY_DONT_CACHE =>
          mret (MkResult (plain_response GO_AHEAD_NO_COMMENT) (made ++ [NoStoreSet; Reenable true]),
                parts')
      | SERVE_FRESH =>
          ok ← query env_api;
          run_filters rest parts' (made ++ (if (ok : bool) then [NoStoreSet; CacheHttpOff] else [NoStoreSet]))
      | I_RESPOND => mret (MkResult r (made ++ [Reenable false]), parts')
      end
  end.

Definition all_filters_response_part (l : list filter) : Z :=
  fold_left (fun acc f => Z.lor acc (response_parts_info f)) l 0.

Definition all_filters_requested_part (l : list filter) : Z :=
  fold_left (fun acc f => Z.lor acc (requested_info f)) l 0.

(** The parts are retrieved before the loop; what the regex manager inserts
    goes into the muncher's own map. *)
Definition handle_request (txn : Txn) (l : list filter) (m : Muncher.TransactionMuncher)
    : M (Result * Muncher.TransactionMuncher) :=
  m' ← lift (Muncher.retrieve_parts txn (all_filters_requested_part l) m);
  '(r, parts) ← run_filters (task_queue HTTP_REQUEST l) (Muncher.cur_trans_parts m') [];
  mret (r, Muncher.with_parts parts m').

Fixpoint find_challenger (l : list filter) : option Challenger.Challenger :=
  match l with
  | [] => None
  | FChallenger c :: _ => Some c
  | _ :: rest => find_challenger rest
  end.

(** The closure a filter stored: its own [generate_response]. *)
Definition generate (l : list filter) (parts : TransactionParts) (e : ExtendedResponse)
    (r : FilterResponse) : M (str * ExtendedResponse) :=
  match response_generator e with
  | GEN_REGEX => mret (RegexManager.generate_response parts r, e)
  | GEN_DENIALATOR => mret (Denialator.generate_response parts r, e)
  | GEN_CHALLENGER =>
      match find_challenger l with
      | Some c => Challenger.generate_response c parts r
      | None => lift (Fault NullDeref)
      end
  end.

Definition no_cache_headers : list (str * str) :=
  [(lit "Expires", lit "Mon, 23 Aug 1982 12:00:00 GMT");
   (lit "Cache-Control", lit "no-store, no-cache, must-revalidate");
   (lit "Pragma", lit "no-cache")].

(** [TransactionMuncher::set_status]. *)
Definition set_status (txn : Txn) (status : Z) (m : Muncher.TransactionMuncher)
    : M (list ats_call * Muncher.TransactionMuncher) :=
  m' ← lift (Muncher.need_response_header txn m);
  mret ([SetStatus status], m').

(** [TransactionMuncher::append_header]: the field may fail to be created. *)
Definition append_header (txn : Txn) (hname value : str) (m : Muncher.TransactionMuncher)
    : M (list ats_call * Muncher.TransactionMuncher) :=
  m' ← lift (Muncher.need_response_header txn m);
  ok ← query env_api;
  mret (if (ok : bool) then [AppendHeader hname value] else [], m').

Fixpoint append_headers (txn : Txn) (l : list (str * str)) (m : Muncher.TransactionMuncher)
    : M (list ats_call * Muncher.TransactionMuncher) :=
  match l with
  | [] => mret ([], m)
  | (hname, value) :: rest =>
      '(c1, m1) ← append_header txn hname value m;
      '(c2, m2) ← append_headers txn rest m1;
      mret (c1 ++ c2, m2)
  end.

Definition quoted (s : str) : str := dquote :: s ++ [dquote].

(** The page for the status 110 of a failed connection. *)
Definition connect_fail_body (status : Z) : str :=
  lit "<!DOCTYPE HTML PUBLIC " ++ quoted (lit "-//W3C//DTD HTML 4.01//EN") ++ [LF]
  ++ lit "        " ++ quoted (lit "http://www.w3.org/TR/html4/strict.dtd") ++ lit ">" ++ [LF]
  ++ lit "<html>" ++ [LF] ++ lit "    <head>" ++ [LF]
  ++ lit "        <meta http-equiv=" ++ quoted (lit "Content-Type") ++ lit " content="
  ++ quoted (lit "text/html;charset=utf-8") ++ lit ">" ++ [LF]
  ++ lit "        <title>Error response</title>" ++ [LF]
  ++ lit "    </head>" ++ [LF] ++ lit "    <body>" ++ [LF]
  ++ lit "        <h1>Error response</h1>" ++ [LF]
  ++ lit "        <p>Error code: " ++ to_string status ++ lit "</p>" ++ [LF]
  ++ lit "        <p>Error code explanation: ERR_CONNECT_FAIL</p>" ++ [LF]
  ++ lit "    </body>" ++ [LF] ++ lit "</html>" ++ [LF].

Definition TS_HTTP_STATUS_GATEWAY_TIMEOUT : Z := 504.

(** The caller takes the content type out of the response data. *)
Definition get_and_release_content_type (e : ExtendedResponse) : option str * ExtendedResponse :=
  (content_type e, MkExt (response_generator e) None (banned_ip e) (set_cookie_header e) (response_code e)
                     (responding_challenge e) (alternative_url e)).

(** The lambda [set_error_body], on the response data when there is any. *)
Definition set_error_body (buf : str) (r : FilterResponse) : ats_call * FilterResponse :=
  match response_data r with
  | Some rd =>
      let '(ct, rd') := get_and_release_content_type rd in
      (ErrorBodySet buf ct, MkResponse (response_type r) (Some rd'))
  | None => (ErrorBodySet buf None, r)
  end.

(** The response data is shared with the generator, which may change it; the
    last component is [response_info] at the end. *)
Definition handle_response (txn : Txn) (l : list filter) (r : FilterResponse)
    (m : Muncher.TransactionMuncher) : M (list ats_call * Muncher.TransactionMuncher * FilterResponse) :=
  '(status, m1) ← lift (Muncher.get_response_status txn m);
  m2 ← lift (Muncher.retrieve_response_parts txn (all_filters_response_part l) m1);
  if bool_decide (response_type r = I_RESPOND) then
    match response_data r with
    | None => lift (Fault NullDeref)
    | Some e =>
        '(c1, m3) ← set_status txn TS_HTTP_STATUS_GATEWAY_TIMEOUT m2;
        m4 ← lift (Muncher.retrieve_parts txn (all_filters_requested_part l) m3);
        '(buf, e') ← generate l (Muncher.cur_trans_parts m4) e r;
        '(c2, m5) ← set_status txn (response_code e') m4;
        '(c3, m6) ← (if bool_decide (set_cookie_header e' = []) then mret ([], m5)
                     else append_header txn (lit "Set-Cookie") (c_str (set_cookie_header e')) m5);
        '(c4, m7) ← append_headers txn no_cache_headers m6;
        let '(c5, r') := set_error_body (if bool_decide (buf = []) then lit "Not authorized" else buf)
                           (MkResponse (response_type r) (Some e')) in
        mret (c1 ++ c2 ++ c3 ++ c4 ++ [c5; Reenable true], m7, r')
    end
  else if status =? 110 then
    let '(c, r') := set_error_body (connect_fail_body status) r in
    mret ([c; Reenable false], m2, r')
  else mret ([Reenable true], m2, r).

(** ** One address per request *)

Lemma with_parts_ip parts ip :
  parts !! Part.IP = Some ip ->
  let '(method, url, host, ua, ip', parts') := RegexManager.with_parts parts in
  ip' = ip /\ parts' !! Part.IP = Some ip.
Proof.
  intros Hip. unfold RegexManager.with_parts.
  assert (Hk : forall p k, k <> Part.IP -> p !! Part.IP = Some ip ->
    snd (part_index p k) !! Part.IP = Some ip).
  { intros p k Hne Hp. unfold part_index. destruct (p !! k); [done|]. cbn. by rewrite lookup_insert_ne. }
  pose proof (Hk parts Part.METHOD ltac:(done) Hip) as H1.
  destruct (part_index parts Part.METHOD) as [? p1]. cbn in H1.
  pose proof (Hk p1 Part.URL ltac:(done) H1) as H2.
  destruct (part_index p1 Part.URL) as [? p2]. cbn in H2.
  pose proof (Hk p2 Part.HOST ltac:(done) H2) as H3.
  destruct (part_index p2 Part.HOST) as [? p3]. cbn in H3.
  pose proof (Hk p3 Part.UA ltac:(done) H3) as H4.
  destruct (part_index p3 Part.UA) as [? p4]. cbn in H4.
  unfold part_index. by rewrite H4.
Qed.

Lemma same_but_regex m parts ip :
  parts !! Part.IP = Some ip -> preserves (same_but ip) (RegexManager.on_http_request m parts).
Proof.
  intros Hip. unfold RegexManager.on_http_request. pose proof (with_parts_ip parts ip Hip) as H.
  destruct (RegexManager.with_parts parts) as [[[[[method url] host] ua] ip'] parts'].
  destruct H as [-> _]. pose proof (RegexManager.same_but_try_match m ip). frame.
Qed.

Lemma same_but_filter f parts ip :
  parts !! Part.IP = Some ip -> NUL ∉ ip -> preserves (same_but ip) (on_http_request f parts).
Proof.
  intros Hip Hnul. destruct f as [m|c|wl|d|]; cbn [on_http_request].
  - by apply same_but_regex.
  - apply preserves_bind; [apply _|by apply ChallengerFlow.same_but_challenger|intros; frame].
  - frame.
  - apply preserves_bind; [apply _|by apply Denialator.same_but_denialator|intros; frame].
  - frame.
Qed.

(** The filters leave the address part as it is. *)
Lemma filter_keeps_ip f parts ip env w r parts' w' :
  parts !! Part.IP = Some ip ->
  on_http_request f parts env w = (Ret (r, parts'), w') -> parts' !! Part.IP = Some ip.
Proof.
  intros Hip. destruct f as [m|c|wl|d|]; cbn [on_http_request].
  - unfold RegexManager.on_http_request. pose proof (with_parts_ip parts ip Hip) as H.
    destruct (RegexManager.with_parts parts) as [[[[[method url] host] ua] ip'] parts0].
    rewrite M_bind_eq. destruct (RegexManager.try_match _ _ _ _ _ _) as [[[x|]| |] w1]; [| |done..].
    + rewrite M_bind_eq. destruct (SwabberOps.ban _ _ _ _) as [[?| |] ?]; [|done..].
      intros [= _ <- _]. apply H.
    + intros [= _ <- _]. apply H.
  - rewrite M_bind_eq. destruct (Challenger.on_http_request _ _ _ _) as [[?| |] ?]; [|done..].
    by intros [= _ <- _].
  - rewrite M_bind_eq. cbn [lift]. destruct (WhiteLister.on_http_request _ _); [|done..].
    by intros [= _ <- _].
  - rewrite M_bind_eq. destruct (Denialator.on_http_request _ _ _ _) as [[?| |] ?]; [|done..].
    by intros [= _ <- _].
  - by intros [= _ <- _].
Qed.

Lemma same_but_run_filters l parts made ip :
  parts !! Part.IP = Some ip -> NUL ∉ ip -> preserves (same_but ip) (run_filters l parts made).
Proof.
  intros Hip Hnul env. revert parts made Hip; induction l as [|f l IH]; intros parts made Hip w;
    cbn [run_filters]; [done|].
  rewrite M_bind_eq. pose proof (same_but_filter f parts ip Hip Hnul env w) as Hf.
  destruct (on_http_request f parts env w) as [[[r parts']| |] w1] eqn:E; [|done..]. cbn [snd] in Hf.
  assert (Hip' : parts' !! Part.IP = Some ip) by (by eapply filter_keeps_ip).
  destruct (response_type r); cbn [mret M_ret snd]; [|done..|].
  - etransitivity; [exact Hf|]. by apply IH.
  - rewrite M_bind_eq. cbn [query]. etransitivity; [exact Hf|].
    etransitivity; [|by apply IH]. done.
Qed.

(** Every filter asks for the address. *)
Lemma all_request_ip f l : Muncher.has (all_filters_requested_part (f :: l)) Part.IP = true.
Proof.
  unfold all_filters_requested_part. cbn [fold_left].
  assert (H : forall acc, Muncher.has acc Part.IP = true ->
    Muncher.has (fold_left (fun acc f => Z.lor acc (requested_info f)) l acc) Part.IP = true).
  { induction l as [|g l IH]; intros acc Ha; [done|]. cbn [fold_left]. apply IH.
    by rewrite Muncher.has_lor, Ha. }
  apply H. by destruct f.
Qed.

(** C13. Isolation: whatever the filters, the locks, the clock and the outside
    do, a request changes the ban, failure and rate records of no address but
    that of its client. *)
Theorem request_isolation (txn : Txn) (l : list filter) (env : Env) (w : World) (ip : str) :
  client_addr txn = Some ip -> NUL ∉ ip ->
  same_but ip w (snd (handle_request txn l Muncher.init env w)).
Proof.
  intros Hc Hnul. unfold handle_request. rewrite M_bind_eq. cbn [lift].
  destruct (Muncher.retrieve_parts _ _ _) as [m'| |] eqn:Em; [|done..].
  rewrite M_bind_eq. destruct l as [|f l]; [done|].
  pose proof (Muncher.retrieve_parts_ip txn _ Muncher.init _ ip Hc (all_request_ip f l) eq_refl Em) as Hip.
  pose proof (same_but_run_filters (task_queue HTTP_REQUEST (f :: l)) (Muncher.cur_trans_parts m') [] ip Hip Hnul env w) as H.
  destruct (run_filters _ _ _ _ _) as [[[r parts]| |] w1]; done.
Qed.

(** ** One decision per request *)

Definition is_reenable (c : ats_call) : bool := match c with Reenable _ => true | _ => false end.

(** The calls hand the transaction back exactly once, at their end, and as an
    error exactly when a filter answers the request itself. *)
Definition decided_once (r : Result) : Prop :=
  exists pre b, calls r = pre ++ [Reenable b] /\ forallb (fun c => negb (is_reenable c)) pre = true /\
    (b = false <-> response_type (response_info r) = I_RESPOND).

Lemma run_filters_once l parts made env w r w' :
  forallb (fun c => negb (is_reenable c)) made = true ->
  run_filters l parts made env w = (Ret r, w') -> decided_once (fst r).
Proof.
  revert parts made w; induction l as [|f l IH]; intros parts made w Hm; cbn [run_filters].
  - intros [= <- _]. by exists made, true.
  - rewrite M_bind_eq. destruct (on_http_request f parts env w) as [[[x parts']| |] w1]; [|done..].
    destruct (response_type x) eqn:Ex.
    + by apply IH.
    + intros [= <- _]. by exists made, false.
    + intros [= <- _]. exists (made ++ [NoStoreSet]), true. cbn. rewrite <- app_assoc. split; [done|].
      by rewrite forallb_app, Hm.
    + rewrite M_bind_eq. cbn [query]. apply IH. rewrite forallb_app, Hm. by case_match.
Qed.

(** A request handler that returns decides once. *)
Lemma handle_request_once txn l m env w r m' w' :
  handle_request txn l m env w = (Ret (r, m'), w') -> decided_once r.
Proof.
  unfold handle_request. rewrite M_bind_eq. cbn [lift].
  destruct (Muncher.retrieve_parts _ _ _) as [m1| |]; [|done..]. rewrite M_bind_eq.
  destruct (run_filters _ _ _ _ _) as [[[x parts]| |] w1] eqn:E; [|done..]. intros [= <- _ _].
  exact (run_filters_once _ _ [] _ _ _ _ eq_refl E).
Qed.

End Handlers.

Definition sample_filters : list filter :=
  [FWhiteLister WhiteLister.sample_list; FDenialator Denialator.sample_denialator;
   FRegexManager RegexManager.sample_manager].

Definition sample_run : outcome (Result * Muncher.TransactionMuncher) * World :=
  handle_request (crypto := sample_crypto) (I := Util.sample_inet) (R2 := literal_re2)
    (Muncher.sample_txn true) sample_filters Muncher.init SwabberOps.sample_env
    (SwabberOps.sample_world 0).

Lemma request_isolation_witness :
  same_but (lit "10.0.0.7") (SwabberOps.sample_world 0) (snd sample_run).
Proof.
  apply (request_isolation (crypto := sample_crypto) (I := Util.sample_inet) (R2 := literal_re2)
    (Muncher.sample_txn true)); [reflexivity|].
  apply (bool_decide_unpack _). vm_compute. exact Logic.I.
Defined.

End Transaction.
