(* ===== verification/Lifecycle.v ===== *)
(** * Lifecycle: a transaction from its start to its close (src/transaction_data.cpp)

    Traffic Server calls [handle_transaction_change] with the events of one
    transaction; the data of the transaction is created when it starts and
    freed when it closes.  A run over a sequence of events collects the calls
    each event leads to. *)

From S2P Require Import Prelude Base64 Cookie CookieHash Util Print GmTime WhiteList IpDb Yaml Float World.
From S2P Require Import Swabber BotSniffer WhiteLister Denialator RegexManager Reports ChallengeChecks.
From S2P Require Import Challenger ChallengerFlow Muncher Transaction.

Local Open Scope Z_scope.

Module Lifecycle.
Import Print Transaction.

(** The members that change; the transaction and the [Banjax] it keeps alive are
    arguments of the handlers. *)
Record TransactionData := MkTransactionData {
  transaction_muncher : Muncher.TransactionMuncher;
  response_info : FilterResponse
}.

(** The constructor. *)
Definition transaction_data0 : TransactionData :=
  MkTransactionData Muncher.init (plain_response GO_AHEAD_NO_COMMENT).

Section Events.
Context {crypto : Crypto} {I : Inet} {R2 : Re2} {ssl : OpenSSL}.

(** The virtual [on_http_close], which is empty in the other filters. *)
Definition on_http_close (f : filter) (parts : TransactionParts) : M unit :=
  match f with
  | FBotSniffer => BotSniffer.on_http_close parts
  | _ => mret tt
  end.

Fixpoint run_close (current_queue : list filter) (parts : TransactionParts) : M unit :=
  match current_queue with
  | [] => mret tt
  | f :: rest => _ ← on_http_close f parts; run_close rest parts
  end.

Definition handle_http_close (txn : Txn) (l : list filter) (m : Muncher.TransactionMuncher) : M unit :=
  m' ← lift (Muncher.retrieve_parts txn (all_filters_requested_part l) m);
  run_close (task_queue HTTP_CLOSE l) (Muncher.cur_trans_parts m').

(** The member is assigned when a filter answers. *)
Definition answered (old r : FilterResponse) : FilterResponse :=
  if bool_decide (response_type r = I_RESPOND) then r else old.

(** The calls of one event and the data after it, [None] once it is freed. *)
Definition handle_transaction_change (txn : Txn) (l : list filter) (event : TSEvent)
    (self : TransactionData) : M (list ats_call * option TransactionData) :=
  match event with
  | TS_EVENT_HTTP_READ_REQUEST_HDR =>
      '(r, m) ← handle_request txn l (transaction_muncher self);
      mret (calls r, Some (MkTransactionData m (answered (response_info self) (Transaction.response_info r))))
  | TS_EVENT_HTTP_READ_CACHE_HDR => mret ([Reenable true], Some self)
  | TS_EVENT_HTTP_SEND_REQUEST_HDR =>
      mret ([Reenable true],
            Some (MkTransactionData (Muncher.miss (transaction_muncher self)) (response_info self)))
  | TS_EVENT_HTTP_SEND_RESPONSE_HDR =>
      '(c, m, r) ← handle_response txn l (response_info self) (transaction_muncher self);
      mret (c, Some (MkTransactionData m r))
  | TS_EVENT_HTTP_TXN_CLOSE =>
      _ ← handle_http_close txn l (transaction_muncher self);
      mret ([Reenable true], None)
  | TS_EVENT_TIMEOUT | TS_EVENT_HTTP_TXN_START | TS_EVENT_OTHER => mret ([], Some self)
  end.

(** The events of one transaction; [None] when an event arrives after the data
    was freed. *)
Fixpoint run (txn : Txn) (l : list filter) (events : list TSEvent) (self : option TransactionData)
    : M (option (list (list ats_call) * option TransactionData)) :=
  match events with
  | [] => mret (Some ([], self))
  | ev :: rest =>
      match self with
      | None => mret None
      | Some td =>
          '(c, self') ← handle_transaction_change txn l ev td;
          r ← run txn l rest self';
          mret (match r with Some (cs, self'') => Some (c :: cs, self'') | None => None end)
      end
  end.

(** [handle_transaction_start]: the data is created and the transaction handed
    back; the hooks are those of the four HTTP events of a transaction. *)
Definition hooked : list TSEvent :=
  [TS_EVENT_HTTP_READ_REQUEST_HDR; TS_EVENT_HTTP_SEND_REQUEST_HDR; TS_EVENT_HTTP_SEND_RESPONSE_HDR;
   TS_EVENT_HTTP_TXN_CLOSE].

Definition handle_transaction_start (event : TSEvent) : option (list ats_call * TransactionData) :=
  if bool_decide (event = TS_EVENT_HTTP_TXN_START) then Some ([Reenable true], transaction_data0)
  else None.

(** ** One answer per event *)

(** Handed back exactly once, as the last call. *)
Definition once (c : list ats_call) : Prop :=
  exists pre b, c = pre ++ [Reenable b] /\ forallb (fun x => negb (is_reenable x)) pre = true.

Lemma append_header_calls txn nm v m env w c m' w' :
  append_header txn nm v m env w = (Ret (c, m'), w') -> c = [AppendHeader nm v] \/ c = [].
Proof.
  unfold append_header. rewrite M_bind_eq. cbn [lift].
  destruct (Muncher.need_response_header txn m); [|done..]. rewrite M_bind_eq. cbn [query].
  destruct (env_api env _); intros [= <- _ _]; auto.
Qed.

Lemma append_headers_quiet txn hs : forall m env w c m' w',
  append_headers txn hs m env w = (Ret (c, m'), w') ->
  forallb (fun x => negb (is_reenable x)) c = true /\
  ((forall n, env_api env n = true) -> c = map (fun h => AppendHeader (fst h) (snd h)) hs).
Proof.
  induction hs as [|[nm v] hs IH]; intros m env w c m' w'; cbn [append_headers].
  - by intros [= <- _ _].
  - rewrite M_bind_eq. destruct (append_header txn nm v m env w) as [[[c1 m1]| |] w1] eqn:E1; [|done..].
    rewrite M_bind_eq. destruct (append_headers txn hs m1 env w1) as [[[c2 m2]| |] w2] eqn:E2; [|done..].
    intros [= <- _ _]. destruct (IH _ _ _ _ _ _ E2) as [Hq Hok].
    destruct (append_header_calls _ _ _ _ _ _ _ _ _ E1) as [->| ->].
    + split; [done|]. intros Ha. by rewrite Hok.
    + split; [done|]. intros Ha. exfalso. revert E1. unfold append_header. rewrite M_bind_eq. cbn [lift].
      destruct (Muncher.need_response_header txn m); [|done..]. rewrite M_bind_eq. cbn [query].
      by rewrite Ha.
Qed.

(** What an answered request is answered with. *)
Definition page_calls (c : list ats_call) (complete : Prop) : Prop :=
  exists code hs body ctype,
    c = [SetStatus TS_HTTP_STATUS_GATEWAY_TIMEOUT; SetStatus code] ++ hs
        ++ [ErrorBodySet body ctype; Reenable true] /\
    forallb (fun x => negb (is_reenable x)) hs = true /\ body <> [] /\
    (complete -> Forall (fun h => AppendHeader (fst h) (snd h) ∈ hs) no_cache_headers).

Lemma set_status_calls txn st m env w c m' w' :
  set_status txn st m env w = (Ret (c, m'), w') -> c = [SetStatus st].
Proof.
  unfold set_status. rewrite M_bind_eq. cbn [lift].
  destruct (Muncher.need_response_header txn m); [|done..]. by intros [= <- _ _].
Qed.

Lemma handle_response_calls txn l r m env w c m' r' w' :
  handle_response txn l r m env w = (Ret (c, m', r'), w') ->
  (response_type r = I_RESPOND -> page_calls c (forall n, env_api env n = true)) /\
  (response_type r <> I_RESPOND ->
     c = if resp_status txn =? 110
         then [fst (set_error_body (connect_fail_body (resp_status txn)) r); Reenable false]
         else [Reenable true]).
Proof.
  unfold handle_response, Muncher.get_response_status. rewrite M_bind_eq. cbn [lift].
  destruct (Muncher.need_response_header txn m) as [m1| |]; cbn [mbind outcome_bind mret outcome_ret]; [|done..].
  rewrite M_bind_eq. cbn [lift]. destruct (Muncher.retrieve_response_parts _ _ _) as [m2| |]; [|done..].
  case_bool_decide as Hr.
  2: { destruct (resp_status txn =? 110); [destruct (set_error_body _ r)|]; intros [= <- _ _ _]; done. }
  destruct (response_data r) as [e|]; [|done].
  rewrite M_bind_eq. destruct (set_status txn _ m2 env w) as [[[c1 m3]| |] w1] eqn:E1; [|done..].
  apply set_status_calls in E1 as ->.
  rewrite M_bind_eq. cbn [lift]. destruct (Muncher.retrieve_parts _ _ _) as [m4| |]; [|done..].
  rewrite M_bind_eq. destruct (generate _ _ _ _ _ _) as [[[buf e']| |] w2]; [|done..].
  rewrite M_bind_eq. destruct (set_status txn _ m4 env w2) as [[[c2 m5]| |] w3] eqn:E2; [|done..].
  apply set_status_calls in E2 as ->. rewrite M_bind_eq.
  match goal with |- context [match ?x with (_, _) => _ end] =>
    destruct x as [[[c3 m6]| |] w4] eqn:E3; [|done..] end.
  rewrite M_bind_eq.
  destruct (append_headers txn no_cache_headers m6 env w4) as [[[c4 m7]| |] w5] eqn:E4; [|done..].
  intros [= <- _ _ _]. split; [intros _|done].
  apply append_headers_quiet in E4 as [Hq Hok].
  assert (H3 : forallb (fun x => negb (is_reenable x)) c3 = true).
  { revert E3. case_bool_decide; [by intros [= <- _ _]|].
    intros [->| ->]%append_header_calls; done. }
  exists (response_code e'), (c3 ++ c4), (if bool_decide (buf = []) then lit "Not authorized" else buf),
    (content_type e'). rewrite <- !app_assoc. split; [reflexivity|].
  split; [by rewrite forallb_app, H3|]. split; [by destruct (bool_decide_reflect (buf = []))|].
  intros Ha. rewrite (Hok Ha). apply Forall_forall. intros h Hh. apply elem_of_app. right.
  apply list_elem_of_fmap. by exists h.
Qed.

(** Timeouts and unknown events are ignored. *)
Definition solicited (ev : TSEvent) : bool :=
  match ev with TS_EVENT_TIMEOUT | TS_EVENT_HTTP_TXN_START | TS_EVENT_OTHER => false | _ => true end.

Definition answered_once (ev : TSEvent) (c : list ats_call) : Prop :=
  if solicited ev then once c else c = [].

Lemma page_calls_once c P : page_calls c P -> once c.
Proof.
  intros (code & hs & body & ctype & -> & Hq & _).
  exists ([SetStatus TS_HTTP_STATUS_GATEWAY_TIMEOUT; SetStatus code] ++ hs ++ [ErrorBodySet body ctype]), true.
  rewrite <- !app_assoc. split; [done|]. cbn [app forallb is_reenable negb andb].
  by rewrite forallb_app, Hq.
Qed.

Lemma change_calls txn l ev td env w c td' w' :
  handle_transaction_change txn l ev td env w = (Ret (c, td'), w') ->
  answered_once ev c /\ (td' = None <-> ev = TS_EVENT_HTTP_TXN_CLOSE).
Proof.
  destruct ev; unfold handle_transaction_change, answered_once, solicited.
  - by intros [= <- <- _].
  - rewrite M_bind_eq. destruct (handle_request _ _ _ _ _) as [[[r m]| |] w1] eqn:E; [|done..].
    intros [= <- <- _]. apply handle_request_once in E as (pre & b & Hc & Hp & _).
    split; [by exists pre, b|done].
  - intros [= <- <- _]. split; [by exists [], true|done].
  - intros [= <- <- _]. split; [by exists [], true|done].
  - rewrite M_bind_eq. destruct (handle_response _ _ _ _ _ _) as [[[[c0 m] r0]| |] w1] eqn:E; [|done..].
    intros [= <- <- _]. split; [|done]. apply handle_response_calls in E as [Hy Hn].
    destruct (decide (response_type (response_info td) = I_RESPOND)) as [Hr|Hr].
    + by eapply page_calls_once, Hy.
    + rewrite (Hn Hr). destruct (_ =? _); [|by exists [], true].
      exists [fst (set_error_body (connect_fail_body (resp_status txn)) (response_info td))], false.
      split; [done|]. unfold set_error_body. by destruct (response_data _).
  - rewrite M_bind_eq. destruct (handle_http_close _ _ _ _ _) as [[u| |] w1]; [|done..].
    intros [= <- <- _]. split; [by exists [], true|done].
  - by intros [= <- <- _].
  - by intros [= <- <- _].
Qed.

(** The data of a transaction before its close, at it and after it. *)
Lemma run_until_close txn l events : TS_EVENT_HTTP_TXN_CLOSE ∉ events ->
  forall td rest env w r w',
  run txn l (events ++ TS_EVENT_HTTP_TXN_CLOSE :: rest) (Some td) env w = (Ret r, w') ->
  if decide (rest = [])
  then exists cs, r = Some (cs, None) /\ Forall2 answered_once (events ++ [TS_EVENT_HTTP_TXN_CLOSE]) cs
  else r = None.
Proof.
  induction events as [|ev events IH]; intros Hn td rest env w r w'; cbn [app run]; rewrite M_bind_eq;
    destruct (handle_transaction_change _ _ _ _ _ _) as [[[c td']| |] w1] eqn:E; try done;
    apply change_calls in E as [Hc Ht]; rewrite M_bind_eq.
  - rewrite (proj2 Ht eq_refl). destruct rest as [|ev rest]; cbn [run].
    + intros [= <- _]. rewrite decide_True by done. exists [c]. split; [done|]. by repeat constructor.
    + intros [= <- _]. by rewrite decide_False.
  - apply not_elem_of_cons in Hn as [Hne Hn]. destruct td' as [td'|]; [|destruct Hne; symmetry; by apply Ht].
    destruct (run _ _ _ _ _ _) as [[r0| |] w2] eqn:E2; [|done..]. apply IH in E2; [|done].
    intros [= <- _]. case_decide; [|by rewrite E2].
    destruct E2 as (cs & -> & Hf). exists (c :: cs). split; [done|]. by constructor.
Qed.

(** C14. The life of a transaction: whatever events arrive before the close,
    when all handlers return, the data is freed by the close and not before,
    every event of the transaction is answered by handing it back exactly once
    as the last call, and unknown events are ignored; only an event after the
    close would find the data freed. *)
Theorem transaction_lifecycle (txn : Txn) (l : list filter) (events rest : list TSEvent)
    (td : TransactionData) (env : Env) (w w' : World)
    (r : option (list (list ats_call) * option TransactionData)) :
  TS_EVENT_HTTP_TXN_CLOSE ∉ events ->
  run txn l (events ++ TS_EVENT_HTTP_TXN_CLOSE :: rest) (Some td) env w = (Ret r, w') ->
  if decide (rest = [])
  then exists cs, r = Some (cs, None) /\ Forall2 answered_once (events ++ [TS_EVENT_HTTP_TXN_CLOSE]) cs
  else r = None.
Proof. intros Hn. by apply run_until_close. Qed.

(** C19. The client gets a page of Banjax exactly when a filter answered its
    request: then the response carries the status of the filter, a body that is
    not empty and, when Traffic Server could create the fields, the headers that
    forbid caching; otherwise the response is passed on untouched, unless the
    origin could not be reached. *)
Theorem answered_request (txn : Txn) (l : list filter) (env : Env) (w w' : World)
    (c1 c2 : list ats_call) (td : option TransactionData) :
  run txn l [TS_EVENT_HTTP_READ_REQUEST_HDR; TS_EVENT_HTTP_SEND_RESPONSE_HDR]
    (Some transaction_data0) env w = (Ret (Some ([c1; c2], td)), w') ->
  if decide (Reenable false ∈ c1)
  then page_calls c2 (forall n, env_api env n = true)
  else c2 = if resp_status txn =? 110
            then [ErrorBodySet (connect_fail_body (resp_status txn)) None; Reenable false]
            else [Reenable true].
Proof.
  cbn [run handle_transaction_change transaction_data0 transaction_muncher response_info].
  rewrite !M_bind_eq. destruct (handle_request _ _ _ _ _) as [[[r m]| |] w1] eqn:E1; [|done..].
  cbn [mret M_ret]. rewrite !M_bind_eq. cbn [response_info transaction_muncher].
  destruct (handle_response _ _ _ _ _ _) as [[[[c m2] r2]| |] w2] eqn:E2; [|done..].
  cbn [mret M_ret]. rewrite M_bind_eq. cbn [mret M_ret]. intros [= <- <- _ _].
  apply handle_request_once in E1 as (pre & b & Hc & Hp & Hb).
  apply handle_response_calls in E2 as [Hy Hn]. unfold answered in *.
  assert (Hin : Reenable false ∈ calls r <-> response_type (Transaction.response_info r) = I_RESPOND).
  { rewrite Hc, <- Hb, elem_of_app, list_elem_of_singleton. split; [intros [Hin|[= <-]]; [|done]|intros ->; auto].
    rewrite forallb_forall in Hp. by apply list_elem_of_In, Hp in Hin. }
  case_bool_decide as Hr.
  - rewrite decide_True by (by apply Hin). by apply Hy.
  - rewrite decide_False by (by rewrite Hin). by apply Hn.
Qed.

(** A white-listed client bypasses the filters: when the white lister is the
    first filter of the request queue, the request of a listed address is served
    uncached, and no filter behind it sees it: no record, no counter, no log and
    no message changes. *)
Lemma white_listed_bypass (txn : Txn) (l rest : list filter)
    (wl : GlobalWhiteList.GlobalWhiteList) (m : Muncher.TransactionMuncher) (ip host : str)
    (env : Env) (w : World) :
  task_queue HTTP_REQUEST l = FWhiteLister wl :: rest ->
  Muncher.retrieve_parts txn (all_filters_requested_part l) Muncher.init = Ret m ->
  Muncher.cur_trans_parts m !! Part.IP = Some ip -> Muncher.cur_trans_parts m !! Part.HOST = Some host ->
  is_Some (GlobalWhiteList.is_white_listed_host wl host ip) ->
  handle_transaction_change txn l TS_EVENT_HTTP_READ_REQUEST_HDR transaction_data0 env w =
  (Ret ([NoStoreSet; Reenable true],
        Some (MkTransactionData m (plain_response GO_AHEAD_NO_COMMENT))), w).
Proof.
  intros Hq Hm Hip Hh [range Hl].
  cbn [handle_transaction_change transaction_data0 transaction_muncher response_info].
  unfold handle_request. rewrite !M_bind_eq, Hm. cbn [lift]. rewrite M_bind_eq, Hq.
  cbn [run_filters on_http_request]. rewrite !M_bind_eq. unfold WhiteLister.on_http_request.
  rewrite (proj2 (part_at_Ret _ _ _) Hip), (proj2 (part_at_Ret _ _ _) Hh).
  cbn [mbind outcome_bind]. rewrite Hl. cbn. by destruct m.
Qed.

(** ** Closing without a URL *)

Lemma sniffer_first l : FBotSniffer ∈ l -> exists rest, task_queue HTTP_CLOSE l = FBotSniffer :: rest.
Proof.
  unfold task_queue. induction l as [|f l IH]; [by intros ?%elem_of_nil|].
  intros Hin. rewrite filter_cons. destruct (decide (queued_task f HTTP_CLOSE = true)) as [Hq|Hq].
  - exists (base.filter (fun f => queued_task f HTTP_CLOSE = true) l).
    by destruct f; try (vm_compute in Hq; discriminate).
  - apply IH. apply elem_of_cons in Hin as [<-|Hin]; [|done]. by destruct Hq.
Qed.

Lemma all_request_of f l p : f ∈ l -> Muncher.has (requested_info f) p = true ->
  Muncher.has (all_filters_requested_part l) p = true.
Proof.
  intros Hin Hf. unfold all_filters_requested_part. generalize 0 as acc.
  assert (Hk : forall l acc, Muncher.has acc p = true ->
    Muncher.has (fold_left (fun acc f => Z.lor acc (requested_info f)) l acc) p = true).
  { clear. induction l as [|g l IH]; intros acc Ha; [done|]. cbn [fold_left]. apply IH.
    by rewrite Muncher.has_lor, Ha. }
  induction l as [|g l IH]; intros acc; [by apply elem_of_nil in Hin|]. cbn [fold_left].
  apply elem_of_cons in Hin as [->|Hin]; [|by apply IH]. apply Hk.
  by rewrite Muncher.has_lor, Hf, orb_true_r.
Qed.

(** The flags survive their way through eight bytes. *)
Lemma flags_read v : Z.land (le_combine (le_split 8 v)) Part.URL_WITH_HOST
                             = Z.land v Part.URL_WITH_HOST.
Proof.
  rewrite le_combine_split. change (256 ^ Z.of_nat 8) with (2 ^ 64).
  change Part.URL_WITH_HOST with (Z.shiftl 1 5).
  apply Z.bits_inj'. intros n Hn. rewrite !Z.land_spec.
  destruct (decide (n < 64)) as [E|E].
  - by rewrite Z.mod_pow2_bits_low by lia.
  - rewrite (Z.bits_above_log2 (Z.shiftl 1 5)) by (first [done | change (Z.log2 (Z.shiftl 1 5)) with 5; lia]). by rewrite !andb_false_r.
Qed.

(** C40. A gap between two components: when Traffic Server cannot set the host
    of a URL, the muncher flags the full URL as retrieved without storing it, and
    the bot sniffer, which asks for it, throws when the transaction closes while
    it could send, with only the first of the two frames of its message sent; the
    transaction is not handed back. *)
Theorem close_without_url (txn : Txn) (l : list filter) (m : Muncher.TransactionMuncher) (s : Socket)
    (r : FilterResponse) (env : Env) (w : World) :
  client_req_ok txn = true -> url_get_ok txn = true -> url_host_set_ok txn = false ->
  FBotSniffer ∈ l -> Muncher.synced m -> Muncher.no_url m -> BotSniffer.ready env w s ->
  exists e w', handle_transaction_change txn l TS_EVENT_HTTP_TXN_CLOSE (MkTransactionData m r) env w
               = (Throw e, w') /\ trace w' = trace w ++ [SnifferSend BotSniffer.LOG true].
Proof.
  intros Hreq Hget Hset Hin Hsync Hno Hready.
  cbn [handle_transaction_change transaction_muncher]. unfold handle_http_close.
  rewrite !M_bind_eq. cbn [lift].
  destruct (Muncher.retrieve_parts_returns txn (all_filters_requested_part l) m Hreq) as (m' & Hm).
  rewrite Hm. destruct (sniffer_first l Hin) as [rest ->]. cbn [run_close on_http_close].
  destruct (Muncher.retrieve_parts_flags txn _ _ _ Part.URL_WITH_HOST Hm Hsync) as [Hs' Hflag].
  specialize (Hflag (all_request_of _ _ Part.URL_WITH_HOST Hin eq_refl)).
  pose proof (Muncher.retrieve_parts_no_url txn Hget Hset _ _ _ Hm Hno) as Hn'.
  rewrite M_bind_eq, (BotSniffer.on_http_close_run _ _ _ s _ Hready Hs'), M_bind_eq.
  destruct (BotSniffer.plaintext_log_missing (Muncher.cur_trans_parts m')
    (le_split 8 (Muncher.valid_parts m')) (le_combine (le_split 8 (Muncher.valid_parts m')))
    (GmTime.strftime (GmTime.gmtime (env_sec env (tick w))))) as [e He].
  - apply length_le_split.
  - reflexivity.
  - intros Hp. unfold BotSniffer.flagged_present, BotSniffer.reported_parts in Hp.
    rewrite !Forall_cons in Hp. destruct Hp as (_ & Hp & _). rewrite Hn' in Hp.
    destruct Hp as [x ?]; [|done].
    rewrite flags_read. unfold Muncher.has in Hflag. lia.
  - rewrite He. cbn [lift]. by do 2 eexists.
Qed.

End Events.

(** ** Samples *)

(** The filters of the other samples, behind the white lister, with a bot
    sniffer. *)
Definition sniffed_filters : list filter := sample_filters ++ [FBotSniffer].

Definition life_events : list TSEvent :=
  [TS_EVENT_HTTP_READ_REQUEST_HDR; TS_EVENT_HTTP_SEND_REQUEST_HDR; TS_EVENT_TIMEOUT;
   TS_EVENT_HTTP_SEND_RESPONSE_HDR].

Definition sample_change (l : list filter) (w : World) (events : list TSEvent) :=
  run (crypto := sample_crypto) (I := Util.sample_inet) (R2 := literal_re2)
    (ssl := BotSniffer.sample_ssl) (Muncher.sample_txn true) l events (Some transaction_data0)
    SwabberOps.sample_env w.

Definition sample_life :=
  sample_change sniffed_filters BotSniffer.sniffing_world (life_events ++ [TS_EVENT_HTTP_TXN_CLOSE]).

Lemma transaction_lifecycle_witness :
  exists cs, fst sample_life = Ret (Some (cs, None)) /\
    Forall2 answered_once (life_events ++ [TS_EVENT_HTTP_TXN_CLOSE]) cs.
Proof.
  assert (Hr : match fst sample_life with Ret _ => True | _ => False end) by (vm_compute; exact Logic.I).
  destruct sample_life as [[r| |] w'] eqn:E; [|destruct Hr..].
  pose proof (transaction_lifecycle (crypto := sample_crypto) (I := Util.sample_inet)
    (R2 := literal_re2) (ssl := BotSniffer.sample_ssl) (Muncher.sample_txn true) sniffed_filters
    life_events [] transaction_data0 SwabberOps.sample_env BotSniffer.sniffing_world w' r
    ltac:(apply (bool_decide_unpack _); vm_compute; exact Logic.I) E) as H.
  rewrite decide_True in H by done. destruct H as (cs & -> & Hf). exists cs. split; [reflexivity|exact Hf].
Defined.

(** A client the denialator blocks. *)
Definition denying_filters : list filter := [FDenialator Denialator.sample_denialator].

Definition flagged_world : World :=
  with_swabber_ip_db (<[lit "10.0.0.7" := 1]> ∅) (SwabberOps.sample_world 300).

Definition denied := sample_change denying_filters flagged_world
  [TS_EVENT_HTTP_READ_REQUEST_HDR; TS_EVENT_HTTP_SEND_RESPONSE_HDR].

Definition denied_calls : list (list ats_call) :=
  match fst denied with Ret (Some (cs, _)) => cs | _ => [] end.

Lemma answered_request_witness :
  page_calls (nth 1 denied_calls []) (forall n, env_api SwabberOps.sample_env n = true).
Proof.
  pose proof (answered_request (crypto := sample_crypto) (I := Util.sample_inet) (R2 := literal_re2)
    (ssl := BotSniffer.sample_ssl) (Muncher.sample_txn true) denying_filters SwabberOps.sample_env
    flagged_world (snd denied) (nth 0 denied_calls [])
    (nth 1 denied_calls [])
    (match fst denied with Ret (Some (_, td)) => td | _ => None end)
    ltac:(vm_compute; reflexivity)) as H.
  rewrite decide_True in H; [exact H|]. apply (bool_decide_unpack _). vm_compute. exact Logic.I.
Defined.

Definition sample_muncher (host_ok : bool) (l : list filter) : Muncher.TransactionMuncher :=
  match Muncher.retrieve_parts (Muncher.sample_txn host_ok)
          (all_filters_requested_part l) Muncher.init with
  | Ret m => m
  | _ => Muncher.init
  end.

Lemma white_listed_bypass_witness :
  handle_transaction_change (crypto := sample_crypto) (I := Util.sample_inet) (R2 := literal_re2)
    (ssl := BotSniffer.sample_ssl) (Muncher.sample_txn true) sniffed_filters
    TS_EVENT_HTTP_READ_REQUEST_HDR transaction_data0 SwabberOps.sample_env BotSniffer.sniffing_world
  = (Ret ([NoStoreSet; Reenable true],
          Some (MkTransactionData (sample_muncher true sniffed_filters)
                  (plain_response GO_AHEAD_NO_COMMENT))), BotSniffer.sniffing_world).
Proof.
  apply (white_listed_bypass (crypto := sample_crypto) (I := Util.sample_inet) (R2 := literal_re2)
    (ssl := BotSniffer.sample_ssl) _ _ (drop 1 sample_filters) WhiteLister.sample_list _
    (lit "10.0.0.7") (lit "ex.org")); vm_compute; try reflexivity. by eexists.
Defined.

Lemma close_without_url_witness :
  exists e w', handle_transaction_change (crypto := sample_crypto) (I := Util.sample_inet)
      (R2 := literal_re2) (ssl := BotSniffer.sample_ssl) (Muncher.sample_txn false) [FBotSniffer]
      TS_EVENT_HTTP_TXN_CLOSE transaction_data0 SwabberOps.sample_env BotSniffer.sniffing_world
    = (Throw e, w') /\ trace w' = [] ++ [SnifferSend BotSniffer.LOG true].
Proof.
  apply (close_without_url (crypto := sample_crypto) (I := Util.sample_inet) (R2 := literal_re2)
    (ssl := BotSniffer.sample_ssl) (Muncher.sample_txn false) [FBotSniffer] Muncher.init
    BotSniffer.sample_socket); try reflexivity.
  - by apply list_elem_of_singleton.
  - repeat split; reflexivity.
Defined.

End Lifecycle.
