(* ===== verification/Session.v ===== *)
(** * Session: a client from its challenge to its page

    The transactions of a client of a host with a SHA challenge, from the header
    of the request (src/transaction_muncher.cpp) through the filters and the
    response (src/transaction_data.cpp, src/challenger.cpp): the first one is
    answered with a page that carries a token, and the one that brings the
    extended token back is passed on. *)

From S2P Require Import Prelude Base64 Cookie CookieHash Util Print GmTime WhiteList IpDb Yaml Float World.
From S2P Require Import Swabber BotSniffer WhiteLister Denialator RegexManager Reports ChallengeChecks.
From S2P Require Import Challenger ChallengerFlow Muncher Transaction Lifecycle.

Local Open Scope Z_scope.

Module Session.
Import Print ChallengeChecks Challenger ChallengerFlow Transaction Lifecycle.

(** ** A request as Traffic Server describes it *)

Record visit (txn : Txn) (ip host url jar : str) : Prop := {
  visit_req : client_req_ok txn = true;
  visit_resp : client_resp_ok txn = true;
  visit_ip : client_addr txn = Some ip;
  visit_host : Util.to_lower (Muncher.field_value (host_field txn)) = host;
  visit_url_get : url_get_ok txn = true;
  visit_host_set : url_host_set_ok txn = true;
  visit_url : url_string txn (Some host) = Some url;
  visit_jar : Muncher.field_value (cookie_field txn) = jar
}.

(** The parts the challenger reads. *)
Definition parts_of (ip host url jar : str) (parts : TransactionParts) : Prop :=
  parts !! Part.IP = Some ip /\ parts !! Part.HOST = Some host /\
  parts !! Part.URL_WITH_HOST = Some url /\ parts !! Part.COOKIE = Some jar.

Section Retrieval.
Context (txn : Txn) (ip host url jar : str) (Hv : visit txn ip host url jar).

(** The value a part must have, for the four parts. *)
Definition right (k : Z) (v : str) : Prop :=
  (k = Part.IP -> v = ip) /\ (k = Part.HOST -> v = host) /\
  (k = Part.URL_WITH_HOST -> v = url) /\ (k = Part.COOKIE -> v = jar).

Definition faithful (m : Muncher.TransactionMuncher) : Prop := map_Forall right (Muncher.cur_trans_parts m).

Lemma right_other k v : k ∉ [Part.IP; Part.HOST; Part.URL_WITH_HOST; Part.COOKIE] -> right k v.
Proof. rewrite !not_elem_of_cons. intros (? & ? & ? & ? & _). by split_and!. Qed.

Lemma assign_faithful k v m : right k v -> faithful m -> faithful (Muncher.assign k v m).
Proof. intros Hr Hm. by apply map_Forall_insert_2. Qed.

Lemma emplace_faithful k v m : right k v -> faithful m -> faithful (Muncher.emplace k v m).
Proof. intros Hr Hm. unfold Muncher.emplace. case_match; [done|]. by apply map_Forall_insert_2. Qed.

Lemma when_faithful b f m : (faithful m -> faithful (f m)) -> faithful m -> faithful (Muncher.when b f m).
Proof. by destruct b. Qed.

Ltac other := apply right_other; by apply (bool_decide_unpack _).

Lemma first_faithful todo m : faithful m -> faithful (Muncher.first_steps txn todo m).
Proof.
  intros Hm. unfold Muncher.first_steps. apply when_faithful.
  - intros H1. unfold Muncher.retrieve_url.
    destruct (negb _); [|destruct (url_string _ _)]; repeat (apply emplace_faithful; [other|]); done.
  - apply when_faithful; [|done]. intros H1. unfold Muncher.retrieve_ip. rewrite (visit_ip _ _ _ _ _ Hv).
    by apply assign_faithful.
Qed.

Lemma last_faithful todo m : faithful m -> faithful (Muncher.last_steps txn todo m).
Proof.
  intros Hm. unfold Muncher.last_steps.
  repeat (apply when_faithful; [intros H1; apply emplace_faithful; [|done]|]); try done; try other.
  - split_and!; try done. intros _. apply (visit_jar _ _ _ _ _ Hv).
  - split_and!; try done. intros _. apply (visit_host _ _ _ _ _ Hv).
Qed.

(** The full URL is made with the host that was retrieved. *)
Lemma uwh_faithful m : faithful m -> Muncher.present m Part.HOST ->
  faithful (Muncher.retrieve_url_with_host txn m).
Proof.
  intros Hm [h Hh]. unfold Muncher.retrieve_url_with_host, part_index.
  rewrite (visit_url_get _ _ _ _ _ Hv), (visit_host_set _ _ _ _ _ Hv), Hh. cbn [negb].
  destruct (Hm _ _ Hh) as (_ & Eh & _). rewrite (Eh eq_refl), (visit_url _ _ _ _ _ Hv).
  apply emplace_faithful; [by split_and!|]. exact Hm.
Qed.

Lemma body_faithful rec requested m m' :
  (Muncher.has requested Part.URL_WITH_HOST = true -> forall m0 m1,
     rec (Z.lor Part.HOST Part.URL) m0 = Ret m1 -> faithful m0 ->
     Muncher.valid_parts m0 = Muncher.valid_parts m -> faithful m1 /\ Muncher.present m1 Part.HOST) ->
  Muncher.retrieve_body txn rec requested m = Ret m' -> faithful m -> faithful m'.
Proof.
  intros Hrec. rewrite Muncher.retrieve_body_eq. cbv zeta. destruct (_ =? 0); [by intros [= <-]|].
  destruct (_ && _); [done|]. set (todo := Z.ldiff _ _). intros E Hm. revert E.
  destruct (Muncher.has todo Part.URL_WITH_HOST) eqn:Eu; cbv [mbind outcome_bind mret outcome_ret].
  - destruct (rec _ _) as [m1| |] eqn:E1; [|done..]. intros [= <-].
    apply Hrec in E1 as [? ?]; [|by eapply Muncher.has_ldiff_inv|by apply first_faithful|apply Muncher.first_adds].
    apply assign_faithful; [other|]. by apply last_faithful, uwh_faithful.
  - intros [= <-]. apply assign_faithful; [other|]. by apply last_faithful, first_faithful.
Qed.

Lemma parts_faithful requested m :
  Muncher.retrieve_parts txn requested Muncher.init = Ret m -> faithful m.
Proof.
  intros Hm. eapply body_faithful; [|exact Hm|].
  - intros _ m0 m1 E Hf Hv0. split; [by eapply body_faithful; [|exact E|]|].
    assert (Hc : Muncher.call_ok txn (Z.lor Part.HOST Part.URL) m0 m1)
      by (by eapply Muncher.retrieve_body_ok; [|exact E]).
    destruct Hc as [_ Hp].
    destruct (Hp Part.HOST) as [Hx|Hx]; [|by right|by rewrite Hv0 in Hx|done].
    left. apply (bool_decide_unpack _). vm_compute. exact Logic.I.
  - apply map_Forall_insert_2; [other|]. apply map_Forall_empty.
Qed.

(** Retrieval of a whole request: the parts are those of the request, whatever
    else was asked for, and nothing that was asked for is left to retrieve. *)
Lemma visit_parts requested :
  (forall p, p ∈ [Part.IP; Part.HOST; Part.URL_WITH_HOST; Part.COOKIE] -> Muncher.has requested p = true) ->
  exists m, Muncher.retrieve_parts txn requested Muncher.init = Ret m /\
    parts_of ip host url jar (Muncher.cur_trans_parts m) /\
    Z.ldiff requested (Muncher.valid_parts m) = 0.
Proof.
  intros Hreq. destruct (Muncher.retrieve_parts_returns txn requested Muncher.init (visit_req _ _ _ _ _ Hv)) as [m Hm].
  exists m. split; [done|]. split; [|by eapply Muncher.retrieve_parts_todo].
  pose proof (parts_faithful requested m Hm) as Hf.
  destruct (Muncher.retrieve_parts_ok txn _ _ _ Hm) as [_ Hp].
  assert (Hget : forall k v, k ∈ [Part.IP; Part.HOST; Part.URL_WITH_HOST; Part.COOKIE] ->
    (forall x, right k x -> x = v) -> Muncher.cur_trans_parts m !! k = Some v).
  { intros k v Hk Hr. destruct (Hp k) as [Hx|[x Hx]]; [| |done|].
    - rewrite !elem_of_cons, elem_of_nil in Hk. unfold Muncher.promised. rewrite !elem_of_cons.
      pose proof (visit_host_set _ _ _ _ _ Hv). tauto.
    - right. by apply Hreq.
    - rewrite Hx. f_equal. apply Hr. by apply Hf. }
  split_and!; apply Hget; try (apply (bool_decide_unpack _); vm_compute; exact Logic.I).
  - intros x (E & _). auto.
  - intros x (_ & E & _). auto.
  - intros x (_ & _ & E & _). auto.
  - intros x (_ & _ & _ & E). auto.
Qed.

End Retrieval.
(** ** Serving a page *)

(** What the client gets of a page: the status, the body, and the cookie when
    Traffic Server can create the field. *)
Definition served (env : Env) (buf : str) (e : ExtendedResponse) (calls : list ats_call) : Prop :=
  SetStatus (response_code e) ∈ calls /\
  ErrorBodySet (if bool_decide (buf = []) then lit "Not authorized" else buf) (content_type e) ∈ calls /\
  ((forall n, env_api env n = true) -> set_cookie_header e <> [] ->
   AppendHeader (lit "Set-Cookie") (c_str (set_cookie_header e)) ∈ calls).

Section Serving.
Context {crypto : Crypto} {I : Inet} {R2 : Re2}.
Context (txn : Txn) (Hr : client_resp_ok txn = true).

Lemma header_returns m : exists m', Muncher.need_response_header txn m = Ret m'.
Proof.
  unfold Muncher.need_response_header, Muncher.retrieve_response_header. rewrite Hr.
  destruct (Muncher.response_header m); by eexists.
Qed.

Lemma response_parts_return req m : exists m', Muncher.retrieve_response_parts txn req m = Ret m'.
Proof.
  unfold Muncher.retrieve_response_parts. destruct (_ =? 0); [by eexists|].
  destruct (header_returns m) as [m1 ->]. by eexists.
Qed.

Lemma set_status_returns st m env w : exists m',
  Muncher.need_response_header txn m = Ret m' /\ set_status txn st m env w = (Ret ([SetStatus st], m'), w).
Proof.
  destruct (header_returns m) as [m' E]. exists m'. split; [done|]. unfold set_status. by rewrite M_bind_eq, E.
Qed.

Lemma append_header_returns nm v m env w : exists calls m' n,
  append_header txn nm v m env w = (Ret (calls, m'), with_tick n w) /\
  ((forall n, env_api env n = true) -> calls = [AppendHeader nm v]).
Proof.
  destruct (header_returns m) as [m' E]. unfold append_header. rewrite M_bind_eq, E. cbn [lift].
  rewrite M_bind_eq. cbn [query]. do 3 eexists. split; [reflexivity|]. intros Ha. by rewrite Ha.
Qed.

Lemma append_headers_returns hs : forall m env w, exists calls m' n,
  append_headers txn hs m env w = (Ret (calls, m'), with_tick n w).
Proof.
  induction hs as [|[nm v] hs IH]; intros m env w; cbn [append_headers].
  { exists [], m, (tick w). by destruct w. }
  rewrite M_bind_eq. destruct (append_header_returns nm v m env w) as (c1 & m1 & n1 & -> & _).
  rewrite M_bind_eq. destruct (IH m1 env (with_tick n1 w)) as (c2 & m2 & n2 & ->). by do 3 eexists.
Qed.

(** The page of a filter reaches the client; [Q] is what the generator needs to
    know of the muncher and [W] what it guarantees of the store. *)
Lemma response_shows l r e m env w buf e' (Q : Muncher.TransactionMuncher -> Prop) (W : World -> Prop) :
  (forall m m', Q m -> Muncher.need_response_header txn m = Ret m' -> Q m') ->
  (forall req m m', Q m -> Muncher.retrieve_response_parts txn req m = Ret m' -> Q m') ->
  (forall m, Q m -> exists m' w1, Muncher.retrieve_parts txn (all_filters_requested_part l) m = Ret m' /\
     generate l (Muncher.cur_trans_parts m') e r env w = (Ret (buf, e'), w1) /\ W w1) ->
  Q m -> response_type r = I_RESPOND -> response_data r = Some e ->
  exists calls m' r' w1 n, handle_response txn l r m env w = (Ret (calls, m', r'), with_tick n w1) /\ W w1 /\
    served env buf e' calls.
Proof.
  intros Hh Hp Hg Hm Ht Hd. unfold handle_response, Muncher.get_response_status.
  destruct (header_returns m) as [m1 E1]. rewrite E1. pose proof (Hh _ _ Hm E1) as H1.
  rewrite M_bind_eq. cbn [lift mbind outcome_bind mret outcome_ret].
  destruct (response_parts_return (all_filters_response_part l) m1) as [m2 E2]. pose proof (Hp _ _ _ H1 E2) as H2.
  rewrite M_bind_eq, E2. cbn [lift]. rewrite bool_decide_true, Hd by done. rewrite M_bind_eq.
  destruct (set_status_returns TS_HTTP_STATUS_GATEWAY_TIMEOUT m2 env w) as (m3 & E3 & ->).
  destruct (Hg _ (Hh _ _ H2 E3)) as (m4 & w1 & E4 & E5 & HW). rewrite M_bind_eq, E4. cbn [lift].
  rewrite M_bind_eq, E5, M_bind_eq.
  destruct (set_status_returns (response_code e') m4 env w1) as (m5 & _ & ->). rewrite M_bind_eq.
  assert (H6 : exists c3 m6 n3, (if bool_decide (set_cookie_header e' = []) then mret ([], m5)
    else append_header txn (lit "Set-Cookie") (c_str (set_cookie_header e')) m5) env w1 = (Ret (c3, m6), with_tick n3 w1) /\
    ((forall n, env_api env n = true) -> set_cookie_header e' <> [] ->
     c3 = [AppendHeader (lit "Set-Cookie") (c_str (set_cookie_header e'))])).
  { case_bool_decide; [exists [], m5, (tick w1); by destruct w1|].
    destruct (append_header_returns (lit "Set-Cookie") (c_str (set_cookie_header e')) m5 env w1)
      as (c3 & m6 & n3 & E & Hc). exists c3, m6, n3. split; [exact E|]. intros Ha _. by apply Hc. }
  destruct H6 as (c3 & m6 & n3 & -> & Hc3). rewrite M_bind_eq.
  destruct (append_headers_returns no_cache_headers m6 env (with_tick n3 w1)) as (c4 & m7 & n4 & ->).
  do 3 eexists. exists w1, n4. split; [reflexivity|]. split; [exact HW|]. unfold served. rewrite !elem_of_app. split_and!.
  - right; left. constructor.
  - do 4 right. constructor.
  - intros Ha Hne. rewrite (Hc3 Ha Hne). do 2 right. left. constructor.
Qed.
End Serving.

(** ** The handlers on such a request *)

Section Handlers.
Context {crypto : Crypto} {I : Inet} {R2 : Re2} {ssl : OpenSSL}.
Context (l : list filter) (c : Challenger) (Hq : task_queue HTTP_REQUEST l = [FChallenger c]).

Lemma queue_challenger : FChallenger c ∈ l.
Proof.
  assert (H : FChallenger c ∈ task_queue HTTP_REQUEST l) by (rewrite Hq; constructor).
  by apply list_elem_of_filter in H as [_ H].
Qed.

Lemma queue_find : find_challenger l = Some c.
Proof.
  clear ssl. revert Hq. unfold task_queue. induction l as [|f l' IH]; [done|]. rewrite filter_cons.
  destruct f; cbn [find_challenger]; try (rewrite decide_True by done; by intros [= ->]).
  rewrite decide_False by done. exact IH.
Qed.

Lemma queue_requests p : p ∈ [Part.IP; Part.HOST; Part.URL_WITH_HOST; Part.COOKIE] ->
  Muncher.has (all_filters_requested_part l) p = true.
Proof.
  intros Hp. apply (all_request_of (FChallenger c)); [apply queue_challenger|].
  rewrite !elem_of_cons, elem_of_nil in Hp. by destruct Hp as [->|[->|[->|[->|[]]]]].
Qed.

(** A muncher that holds the parts and has nothing left to retrieve. *)
Definition holds (ip host url jar : str) (m : Muncher.TransactionMuncher) : Prop :=
  parts_of ip host url jar (Muncher.cur_trans_parts m) /\
  Z.ldiff (all_filters_requested_part l) (Muncher.valid_parts m) = 0.

Lemma holds_again txn ip host url jar m : holds ip host url jar m ->
  Muncher.retrieve_parts txn (all_filters_requested_part l) m = Ret m.
Proof. intros [_ Hz]. unfold Muncher.retrieve_parts. rewrite Muncher.retrieve_body_eq. cbv zeta. by rewrite Hz. Qed.

Lemma holds_assign ip host url jar m k v : k ∈ [Part.STATUS; Part.CONTENT_LENGTH; Part.VALIDITY_STAT] ->
  holds ip host url jar m -> holds ip host url jar (Muncher.assign k v m).
Proof.
  intros Hk [Hp Hz]. split; [|done]. unfold parts_of in *. cbn [Muncher.cur_trans_parts Muncher.assign Muncher.with_parts].
  rewrite !elem_of_cons, elem_of_nil in Hk.
  destruct Hk as [->|[->|[->|[]]]]; by rewrite !lookup_insert_ne.
Qed.

Lemma holds_valid ip host url jar m x v : v = Z.lor (Muncher.valid_parts m) x -> holds ip host url jar m ->
  holds ip host url jar (Muncher.with_valid v m).
Proof.
  intros -> [Hp Hz]. split; [done|]. cbn [Muncher.valid_parts Muncher.with_valid].
  by rewrite <- Z.ldiff_ldiff_l, Hz, Z.ldiff_0_l.
Qed.

Lemma holds_header txn ip host url jar m m' : holds ip host url jar m ->
  Muncher.need_response_header txn m = Ret m' -> holds ip host url jar m'.
Proof.
  intros Hm. unfold Muncher.need_response_header, Muncher.retrieve_response_header.
  destruct (Muncher.response_header m); [by intros [= <-]|]. destruct (client_resp_ok txn); [|done]. by intros [= <-].
Qed.

Lemma holds_response txn ip host url jar req m m' : holds ip host url jar m ->
  Muncher.retrieve_response_parts txn req m = Ret m' -> holds ip host url jar m'.
Proof.
  intros Hm. unfold Muncher.retrieve_response_parts. destruct (_ =? 0); [by intros [= <-]|].
  destruct (Muncher.need_response_header txn m) as [m1| |] eqn:E1; [|done..].
  pose proof (holds_header txn ip host url jar _ _ Hm E1) as H1. clear E1.
  cbv [mbind outcome_bind mret outcome_ret]. intros [= <-]. apply holds_assign; [set_solver|]. unfold Muncher.when.
  repeat case_match; repeat first [eapply holds_valid; [reflexivity|] | apply holds_assign; [set_solver|] | done].
Qed.

Lemma run_one txn ev td env w cs td' w' :
  handle_transaction_change txn l ev td env w = (Ret (cs, td'), w') ->
  run txn l [ev] (Some td) env w = (Ret (Some ([cs], td')), w').
Proof. intros E. cbn [run]. rewrite M_bind_eq, E. reflexivity. Qed.

(** The request of a whole transaction is the challenger's handler. *)
Lemma run_request txn ip host url jar env w :
  visit txn ip host url jar ->
  exists parts m, holds ip host url jar m /\ parts_of ip host url jar parts /\
    (forall x w', run txn l [TS_EVENT_HTTP_READ_REQUEST_HDR] (Some transaction_data0) env w = (Ret x, w') ->
       exists r w1, Challenger.on_http_request c parts env w = (Ret r, w1)) /\
    forall r w1, Challenger.on_http_request c parts env w = (Ret r, w1) ->
    exists w2, handle_transaction_change txn l TS_EVENT_HTTP_READ_REQUEST_HDR transaction_data0 env w =
      (Ret (match response_type r with
            | GO_AHEAD_NO_COMMENT => [Reenable true]
            | SERVE_IMMIDIATELY_DONT_CACHE => [NoStoreSet; Reenable true]
            | SERVE_FRESH => if env_api env (tick w1) then [NoStoreSet; CacheHttpOff; Reenable true]
                             else [NoStoreSet; Reenable true]
            | I_RESPOND => [Reenable false]
            end,
            Some (MkTransactionData m (answered (plain_response GO_AHEAD_NO_COMMENT) r))), w2) /\
      (response_type r = I_RESPOND -> w2 = w1).
Proof.
  intros Hv. destruct (visit_parts txn ip host url jar Hv _ queue_requests) as (m & Em & Hp & Hz).
  exists (Muncher.cur_trans_parts m), (Muncher.with_parts (Muncher.cur_trans_parts m) m).
  split; [by destruct m|]. split; [done|].
  cbn [run handle_transaction_change transaction_data0 transaction_muncher response_info].
  unfold handle_request. rewrite !M_bind_eq, Em. cbn [lift]. rewrite !M_bind_eq, Hq. cbn [run_filters].
  rewrite M_bind_eq. cbn [on_http_request]. rewrite M_bind_eq. split.
  { intros x w'. destruct (Challenger.on_http_request _ _ _ _) as [[r| |] w1]; [by do 2 eexists|done..]. }
  intros r w1 E. rewrite E. cbn [mret M_ret]. unfold answered.
  destruct (response_type r) eqn:Et; cbv [mbind M_bind]; cbn; rewrite ?Et; try (by eexists).
  destruct (env_api env (tick w1)); by eexists.
Qed.

(** A request the challenger answers: the page it makes is served. *)
Lemma answered_visit txn ip host url jar e env w (P : str -> ExtendedResponse -> Prop) :
  visit txn ip host url jar ->
  (forall parts, parts_of ip host url jar parts -> exists w1 buf e',
     Challenger.on_http_request c parts env w = (Ret (respond e), w1) /\ P buf e' /\
     forall parts', parts_of ip host url jar parts' ->
       exists w2, generate l parts' e (respond e) env w1 = (Ret (buf, e'), w2)) ->
  exists buf e' calls td w', P buf e' /\
    run txn l [TS_EVENT_HTTP_READ_REQUEST_HDR; TS_EVENT_HTTP_SEND_RESPONSE_HDR] (Some transaction_data0) env w
    = (Ret (Some ([[Reenable false]; calls], td)), w') /\ served env buf e' calls.
Proof.
  intros Hv H. destruct (run_request txn ip host url jar env w Hv) as (parts & m & Hm & Hp & _ & Hrun).
  destruct (H parts Hp) as (w1 & buf & e' & E1 & HP & Hg).
  destruct (Hrun _ _ E1) as (w2 & E2 & Hw). rewrite (Hw eq_refl) in E2. clear Hw Hrun.
  destruct (response_shows txn (visit_resp _ _ _ _ _ Hv) l (respond e) e m env w1 buf e' (holds ip host url jar)
    (fun _ => True) (holds_header txn ip host url jar) (holds_response txn ip host url jar))
    as (cs & m' & r' & w4 & n & E3 & _ & Hs); [|done..|].
  { intros m0 Hm0. destruct (Hg _ (proj1 Hm0)) as [w3 E3]. exists m0, w3. split; [by eapply holds_again|done]. }
  exists buf, e', cs, (Some (MkTransactionData m' r')), (with_tick n w4). split; [exact HP|]. split; [|exact Hs].
  cbn [run]. rewrite M_bind_eq, E2. cbn [respond response_type run]. rewrite M_bind_eq. cbn [run]. rewrite M_bind_eq.
  cbn [handle_transaction_change transaction_muncher response_info]. rewrite M_bind_eq.
  unfold answered. cbn [respond response_type]. rewrite bool_decide_true by done. rewrite E3. reflexivity.
Qed.

(** A request the challenger has no comment on is passed on. *)
Definition passed_on (txn : Txn) (env : Env) (w : World) : Prop :=
  exists td w', run txn l [TS_EVENT_HTTP_READ_REQUEST_HDR] (Some transaction_data0) env w
    = (Ret (Some ([[Reenable true]], Some td)), w') /\ response_info td = plain_response GO_AHEAD_NO_COMMENT.

Lemma passed_visit txn ip host url jar env w :
  visit txn ip host url jar ->
  (forall parts, parts_of ip host url jar parts ->
     fst (Challenger.on_http_request c parts env w) = Ret (plain_response GO_AHEAD_NO_COMMENT)) ->
  passed_on txn env w.
Proof.
  intros Hv H. destruct (run_request txn ip host url jar env w Hv) as (parts & m & _ & Hp & _ & Hrun).
  specialize (H parts Hp). destruct (Challenger.on_http_request c parts env w) as [o w1]. cbn in H. subst o.
  destruct (Hrun _ _ eq_refl) as (w2 & E2 & _). do 2 eexists. split; [by apply run_one, E2|reflexivity].
Qed.

(** ** The challenge *)

Context (hn host : str) (ch : HostChallengeSpec).
Hypothesis Hstatic : host_challenges_static c !! host = Some [ch].
Hypothesis Htype : challenge_type ch = CHALLENGE_SHA_INVERSE.

(** An address the challenge applies to. *)
Definition challenged (ip : str) : Prop :=
  is_globally_white_listed c ip = false /\ GlobalWhiteList.first_match ip (white_listed_ips ch) = None.

(** One more failure does not reach the threshold; zero keeps no count. *)
Definition tolerated (ip : str) (w : World) : Prop :=
  fail_tolerance_threshold ch = 0 \/ u64 (count w ip + 1) < fail_tolerance_threshold ch.

(** The response to a first request. *)
Definition challenge_response : ExtendedResponse := append_cookie_header delete_cookie (custom_response ch).

Lemma failure_tolerated ip url jar parts env w : parts_of ip host url jar parts -> tolerated ip w ->
  exists w', failure_response ch parts env w = (Ret (custom_response ch), w').
Proof.
  intros (Hip%part_at_Ret & Hh%part_at_Ret & _) Ht. unfold failure_response.
  destruct (fail_tolerance_threshold ch =? 0) eqn:E0; cbn [negb]; [by eexists|]. boolify.
  destruct Ht as [?|Ht]; [done|]. rewrite M_bind_eq. unfold report_failure.
  rewrite M_bind_eq, Hip. cbn [lift]. rewrite M_bind_eq, Hh. cbn [lift]. rewrite M_bind_eq.
  unfold challenger_db_get. rewrite db_get_eq. destruct (env_lock env (tick w)); [|by eexists].
  unfold count_failure. change (IpDb.view 0 (challenger_ip_db (with_tick _ w)) ip) with (count w ip).
  rewrite (proj2 (Z.leb_gt _ _)) by done. rewrite M_bind_eq. unfold challenger_db_set. rewrite db_set_eq.
  by eexists.
Qed.

Lemma tolerated_report ip env w : tolerated ip w ->
  exists w', report1 c host ip false env w = (Ret tt, w') /\ tolerated ip w'.
Proof.
  intros Ht. pose proof (report1_returns c host ip false env w) as H1.
  assert (Hr : preserves Reports.reports_only (report1 c host ip false)).
  { pose proof Reports.reports_only_pof. unfold report1. frame. }
  destruct (Hr env w) as (_ & Hdb & _). destruct (report1 c host ip false env w) as [o w1].
  cbn in H1, Hdb. subst o. exists w1. split; [done|]. unfold tolerated, count in *. by rewrite Hdb.
Qed.

Lemma first_request ip url jar parts env w :
  parts_of ip host url jar parts -> challenged ip -> tolerated ip w ->
  deflect_cookie (Cookie.cookies jar) = None ->
  exists w', Challenger.on_http_request c parts env w = (Ret (respond challenge_response), w').
Proof.
  intros Hp [Hg Hw] Ht Hd. pose proof Hp as (Hip%part_at_Ret & Hh%part_at_Ret & _ & Hj%part_at_Ret).
  rewrite (static_request c host ip ch jar parts) by done. rewrite M_bind_eq. unfold run_challenge.
  rewrite Hw, Htype. unfold run_sha_inverse. rewrite Hg, M_bind_eq. unfold check_cookie.
  rewrite M_bind_eq, Hj. cbn [lift]. rewrite M_bind_eq, Hip. cbn [lift]. rewrite M_bind_eq, Hh. cbn [lift].
  rewrite Hd. cbn [mret M_ret negb]. rewrite M_bind_eq.
  destruct (tolerated_report ip env w Ht) as (w1 & -> & Hc). rewrite M_bind_eq.
  destruct (failure_tolerated ip url jar parts env w1 Hp Hc) as [w2 ->]. by eexists.
Qed.

(** The page carries the token of the address. *)
Definition token_page (url : str) (t : Z) (tok : str) : str :=
  challenge_page (challenge_stream ch) (format_validity_time_for_cookie t) tok url
    (to_string (number_of_trailing_zeros c)).

(** A response of the challenger that asks for its page. *)
Definition asks (e : ExtendedResponse) : Prop :=
  response_generator e = GEN_CHALLENGER /\ banned_ip e = false /\ responding_challenge e = Some ch /\
  alternative_url e = [].

Lemma generate_asks ip url jar parts e env w :
  parts_of ip host url jar parts -> asks e ->
  generate l parts e (respond e) env w
  = generate_html c ip (s64 (env_sec env (tick w) + challenge_validity_period ch)) url parts e env
      (with_tick (S (tick w)) w).
Proof.
  intros (Hip%part_at_Ret & Hh%part_at_Ret & Hu%part_at_Ret & _) (Hg & Hb & Hch & Ha).
  unfold generate. rewrite Hg, queue_find. unfold generate_response. cbn [response_data respond].
  rewrite Hb, M_bind_eq. cbn [time_now query]. rewrite M_bind_eq. unfold the_challenge. rewrite Hch. cbn [lift].
  rewrite M_bind_eq, Hip. cbn [lift]. rewrite M_bind_eq, Hu. cbn [lift]. rewrite M_bind_eq, Hh.
  cbn [lift]. by rewrite Ha, bool_decide_true.
Qed.

Lemma page_generated ip url jar parts e env w :
  parts_of ip host url jar parts -> asks e -> is_captcha_url url = false -> is_captcha_answer url = false ->
  CookieHash.fits [] ip ->
  let t := s64 (env_sec env (tick w) + challenge_validity_period ch) in
  generate l parts e (respond e) env w = (Ret (token_page url t (token c [] t ip), e), with_tick (S (tick w)) w).
Proof.
  intros Hp He Hc Ha Hf t. rewrite (generate_asks ip url jar) by done. fold t.
  unfold generate_html, the_challenge. rewrite Hc, Ha. destruct He as (_ & _ & -> & _).
  rewrite M_bind_eq. cbn [lift]. rewrite M_bind_eq.
  rewrite CookieHash.generate_ref by (done || by apply Nat.leb_le). cbn [lift]. unfold token_page.
  by rewrite <- (c_str_token c [] t ip).
Qed.

(** A request that is not yet solved shows the page with a token; whatever the
    type of the challenge. *)
Lemma token_visit txn ip url jar e env w :
  visit txn ip host url jar -> asks e -> is_captcha_url url = false -> is_captcha_answer url = false ->
  CookieHash.fits [] ip ->
  (forall parts, parts_of ip host url jar parts -> exists w1,
     Challenger.on_http_request c parts env w = (Ret (respond e), w1)) ->
  exists n calls td w', let t := s64 (env_sec env n + challenge_validity_period ch) in
    run txn l [TS_EVENT_HTTP_READ_REQUEST_HDR; TS_EVENT_HTTP_SEND_RESPONSE_HDR] (Some transaction_data0) env w
    = (Ret (Some ([[Reenable false]; calls], td)), w') /\
    served env (token_page url t (token c [] t ip)) e calls.
Proof.
  intros Hv He Hu1 Hu2 Hf Hreq.
  destruct (answered_visit txn ip host url jar e env w
    (fun buf e' => e' = e /\ exists n, let t := s64 (env_sec env n + challenge_validity_period ch) in
       buf = token_page url t (token c [] t ip)) Hv) as (buf & e' & cs & td & w' & (-> & n & ->) & E & Hs).
  - intros parts Hp. destruct (Hreq parts Hp) as [w1 E1]. do 3 eexists. split; [exact E1|].
    split; [|intros parts' Hp'; eexists; by eapply page_generated]. split; [done|]. by exists (tick w1).
  - by exists n, cs, td, w'.
Qed.

Lemma challenged_visit txn ip url jar env w :
  visit txn ip host url jar -> challenged ip -> tolerated ip w -> CookieHash.fits [] ip ->
  deflect_cookie (Cookie.cookies jar) = None ->
  is_captcha_url url = false -> is_captcha_answer url = false ->
  exists n calls td w', let t := s64 (env_sec env n + challenge_validity_period ch) in
    run txn l [TS_EVENT_HTTP_READ_REQUEST_HDR; TS_EVENT_HTTP_SEND_RESPONSE_HDR] (Some transaction_data0) env w
    = (Ret (Some ([[Reenable false]; calls], td)), w') /\
    served env (token_page url t (token c [] t ip)) challenge_response calls.
Proof.
  intros Hv Hc Ht Hf Hd Hu1 Hu2. eapply (token_visit txn ip url jar challenge_response env w); try done.
  intros parts Hp. by eapply first_request.
Qed.

Lemma solved_visit txn ip url suffix t env w :
  let tok := token c [] t ip in
  banjax c = Some hn ->
  visit txn ip host url (Cookie.print_jar [Cookie.MkCookie (lit "deflect") (tok ++ suffix)]) ->
  GlobalWhiteList.first_match ip (white_listed_ips ch) = None ->
  Cookie.value_ok (tok ++ suffix) = true -> check_sha (number_of_trailing_zeros c) (tok ++ suffix) = true ->
  CookieHash.fits [] ip -> CookieHash.time_ok t -> env_sec env (tick w) <= t ->
  passed_on txn env w.
Proof.
  intros tok Hb Hv Hw Hval Hsha Hf Ht Hnow. eapply passed_visit; [exact Hv|].
  intros parts (Hp1 & Hp2 & _ & Hp4). by eapply sha_solver_passes.
Qed.

(** C2. A whole session, where the challenger [c] is the only filter on requests,
    the host has exactly one challenge on disk, a SHA challenge, and the address
    is on no white list and fits the buffer of a cookie.  A client without cookie
    that has failures left (the threshold is zero, or one more failure stays below
    it) and asks for a URL that is none of the captcha's is answered with the
    challenge page of the host for its address and URL, which carries a token, and
    its old cookie is deleted; when it asks again with the token extended until it
    meets the requirement, before the token expires, the challenger passes the
    request on, whatever other requests did in between to the state, and whatever
    the locks and the Kafka producer do. *)
Theorem sha_session (txn1 : Txn) (ip url1 jar : str) (env1 : Env) (w1 : World) :
  banjax c = Some hn -> visit txn1 ip host url1 jar -> challenged ip -> tolerated ip w1 ->
  CookieHash.fits [] ip -> deflect_cookie (Cookie.cookies jar) = None ->
  is_captcha_url url1 = false -> is_captcha_answer url1 = false ->
  exists n calls td w1',
    let t := s64 (env_sec env1 n + challenge_validity_period ch) in
    let tok := token c [] t ip in
    run txn1 l [TS_EVENT_HTTP_READ_REQUEST_HDR; TS_EVENT_HTTP_SEND_RESPONSE_HDR] (Some transaction_data0) env1 w1
    = (Ret (Some ([[Reenable false]; calls], td)), w1') /\
    served env1 (token_page url1 t tok) challenge_response calls /\
    forall txn2 url2 suffix env2 w2,
      visit txn2 ip host url2 (Cookie.print_jar [Cookie.MkCookie (lit "deflect") (tok ++ suffix)]) ->
      Cookie.value_ok (tok ++ suffix) = true -> check_sha (number_of_trailing_zeros c) (tok ++ suffix) = true ->
      env_sec env2 (tick w2) <= t -> passed_on txn2 env2 w2.
Proof.
  intros Hb Hv Hc Ht Hf Hd Hu1 Hu2.
  destruct (challenged_visit txn1 ip url1 jar env1 w1 Hv Hc Ht Hf Hd Hu1 Hu2) as (n & cs & td & w' & E & Hin).
  exists n, cs, td, w'. split; [exact E|]. split; [exact Hin|].
  intros txn2 url2 suffix env2 w2 Hv2 Hval Hsha Hnow.
  apply (solved_visit txn2 ip url2 suffix _ env2 w2 Hb Hv2 (proj2 Hc) Hval Hsha Hf); [|exact Hnow].
  apply CookieHash.s64_range.
Qed.

End Handlers.

(** ** A sample session *)

Section Sample.
#[local] Existing Instances sample_crypto Util.sample_inet literal_re2 BotSniffer.sample_ssl.

Definition easy_challenger : Challenger :=
  MkChallenger (replicate 32 "k"%char) 0 None (<[lit "h.org" := [sample_sha]]> ∅) None (Some (lit "edge1")).

Definition client_txn (cookies : str) : Txn :=
  MkTxn true (Some (lit "10.0.0.7")) true
    (fun h => Some (match h with Some h => lit "http://" ++ h ++ lit "/x" | None => lit "/x" end))
    (lit "http") true (Some (lit "GET")) (Some (Some (lit "H.org"))) None (Some (Some cookies)) true 200 None.

Lemma client_visit cookies : visit (client_txn cookies) (lit "10.0.0.7") (lit "h.org") (lit "http://h.org/x") cookies.
Proof. split; vm_compute; reflexivity. Qed.

Definition at_time (t : Z) : Env :=
  MkEnv (fun _ => t) (fun _ => 0) (fun _ => true) (fun _ => true) (fun _ => true) (fun _ => []) (fun _ => true).

Lemma zero_zeros s : check_sha 0 s = true.
Proof.
  unfold check_sha. apply Z.leb_le. rewrite count_zeros_spec. lia.
Qed.

Lemma sha_session_witness : exists n,
  let t := s64 (env_sec SwabberOps.sample_env n + challenge_validity_period sample_sha) in
  let tok := token easy_challenger [] t (lit "10.0.0.7") in
  (exists calls td w',
     run (client_txn []) [FBotSniffer; FChallenger easy_challenger]
       [TS_EVENT_HTTP_READ_REQUEST_HDR; TS_EVENT_HTTP_SEND_RESPONSE_HDR] (Some transaction_data0)
       SwabberOps.sample_env (SwabberOps.sample_world 300)
     = (Ret (Some ([[Reenable false]; calls], td)), w')) /\
  exists td w',
    run (client_txn (Cookie.print_jar [Cookie.MkCookie (lit "deflect") (tok ++ [])]))
      [FBotSniffer; FChallenger easy_challenger] [TS_EVENT_HTTP_READ_REQUEST_HDR] (Some transaction_data0)
      (at_time t) (SwabberOps.sample_world 300)
    = (Ret (Some ([[Reenable true]], Some td)), w').
Proof.
  destruct (sha_session [FBotSniffer; FChallenger easy_challenger] easy_challenger eq_refl (lit "edge1")
    (lit "h.org") sample_sha eq_refl eq_refl (client_txn []) (lit "10.0.0.7") (lit "http://h.org/x") []
    SwabberOps.sample_env (SwabberOps.sample_world 300)) as (n & calls & td & w' & E & _ & Hpass).
  - reflexivity.
  - apply client_visit.
  - split; vm_compute; reflexivity.
  - right. vm_compute. reflexivity.
  - apply Nat.leb_le. vm_compute. reflexivity.
  - vm_compute. reflexivity.
  - vm_compute. reflexivity.
  - vm_compute. reflexivity.
  - exists n. cbv zeta. split; [exists calls, td, w'; exact E|].
    destruct (Hpass _ (lit "http://h.org/x") []
      (at_time (s64 (env_sec SwabberOps.sample_env n + challenge_validity_period sample_sha)))
      (SwabberOps.sample_world 300) (client_visit _)) as (td2 & w2 & E2 & _).
    + rewrite app_nil_r. apply token_value_ok.
    + apply zero_zeros.
    + apply Z.le_refl.
    + exists td2, w2. exact E2.
Defined.
End Sample.
End Session.
