(* ===== verification/AuthFlow.v ===== *)
(** * AuthFlow: pages behind a password

    The transactions for a URL that an authentication challenge protects, from
    the header of the request through the filters (src/transaction_data.cpp,
    src/challenger.cpp): only a client that knows the password is passed on, and
    such a client is served a fresh page. *)

From S2P Require Import Prelude Base64 Cookie CookieHash Util Print GmTime WhiteList IpDb Yaml Float World.
From S2P Require Import Swabber BotSniffer WhiteLister Denialator RegexManager Reports ChallengeChecks.
From S2P Require Import Challenger ChallengerFlow Muncher Transaction Lifecycle Session.

Local Open Scope Z_scope.

Module AuthFlow.
Import Print ChallengeChecks Challenger ChallengerFlow Transaction Lifecycle Session.

Section Auth.
Context {crypto : Crypto} {I : Inet} {R2 : Re2} {ssl : OpenSSL}.
Context (l : list filter) (c : Challenger) (Hq : task_queue HTTP_REQUEST l = [FChallenger c]).
Context (hn host : str) (ch : HostChallengeSpec).
Hypothesis Hstatic : host_challenges_static c !! host = Some [ch].
Hypothesis Htype : challenge_type ch = CHALLENGE_AUTH.

(** What the browser sends: the token and a hash over it and the password. *)
Definition password_cookie (tok password_hash : str) : str :=
  tok ++ Base64.b64_ref (SHA256 (tok ++ password_hash)).

(** Proof of the password by a cookie of this address that has not expired. *)
Definition proves (jar ip : str) (now : Z) : Prop :=
  exists ck data t,
    deflect_cookie (Cookie.cookies jar) = Some ck /\ check_auth_validity ck (password_hash ch) = Ret true /\
    Base64.Decode (c_str (take CookieHash.COOKIE_B64_LENGTH ck)) = Ret data /\
    take CookieHash.COOKIE_LENGTH (data ++ [NUL]) = CookieHash.genuine [] (hashed_key c) t ip /\ now <= t.

(** The handler of the challenger on a protected URL. *)
Lemma auth_request ip url jar parts env w :
  parts_of ip host url jar parts -> GlobalWhiteList.first_match ip (white_listed_ips ch) = None ->
  needs_authentication url ch = true ->
  exists o w1, check_cookie c [] parts ch env w = (o, w1) /\
    match o with
    | Ret true => exists w2, Challenger.on_http_request c parts env w = (Ret (plain_response SERVE_FRESH), w2)
    | Ret false => forall r w2, Challenger.on_http_request c parts env w = (Ret r, w2) -> response_type r = I_RESPOND
    | _ => forall r w2, Challenger.on_http_request c parts env w <> (Ret r, w2)
    end.
Proof.
  intros (Hip%part_at_Ret & Hh%part_at_Ret & Hu%part_at_Ret & Hj%part_at_Ret) Hw Hn.
  rewrite (static_request c host ip ch jar parts) by done. rewrite M_bind_eq. unfold run_challenge.
  rewrite Hw, Htype. unfold run_auth. rewrite M_bind_eq.
  destruct (check_cookie c [] parts ch env w) as [o w1]. exists o, w1. split; [done|].
  destruct o as [[]| |]; [| |done..].
  - rewrite M_bind_eq. pose proof (report_success_returns ip env w1) as Hs.
    destruct (report_success ip env w1) as [o w2]. cbn in Hs. subst o. rewrite M_bind_eq.
    pose proof (report1_returns c host ip true env w2) as H1.
    destruct (report1 c host ip true env w2) as [o w3]. cbn in H1. subst o. by eexists.
  - intros r w2. rewrite M_bind_eq. pose proof (report1_returns c host ip false env w1) as H1.
    destruct (report1 c host ip false env w1) as [o w3]. cbn in H1. subst o. rewrite M_bind_eq, Hu.
    cbn [lift]. rewrite Hn, M_bind_eq. destruct (failure_response ch parts env w3) as [[e| |] w4]; [|done..].
    by intros [= <- _].
Qed.

Lemma password_value_ok t ip :
  Cookie.value_ok (password_cookie (token c [] t ip) (password_hash ch)) = true.
Proof.
  pose proof (CookieHash.length_genuine [] (hashed_key c) t ip) as Hl.
  unfold password_cookie, token. destruct (CookieHash.genuine _ _ _ _) as [|a g]; [done|].
  destruct (Base64.b64_ref_head a g) as (x & s & Hs & Hx).
  eapply b64_text_ok; [|by rewrite Hs|exact Hx]. by rewrite forallb_app, !Base64.b64_ref_chars.
Qed.

(** C4. A protected page, where the challenger [c] is the only filter on requests,
    so that no white lister stands in front of it, and the host has exactly one
    challenge on disk, an authentication: a request for a URL that the challenge
    protects, from an address it does not exempt, is passed on only if its cookie
    proves the password with a token of this address that has not expired, and
    then it is served uncached; and a client that sends the token of its page with
    the hash over it and the password is passed on until the token expires,
    whatever the locks and the Kafka producer do. *)
Theorem auth_gate (txn : Txn) (ip url jar : str) (env : Env) (w : World) :
  visit txn ip host url jar -> GlobalWhiteList.first_match ip (white_listed_ips ch) = None ->
  needs_authentication url ch = true ->
  (forall calls td w',
     run txn l [TS_EVENT_HTTP_READ_REQUEST_HDR] (Some transaction_data0) env w = (Ret (Some ([calls], td)), w') ->
     if decide (Reenable true ∈ calls) then NoStoreSet ∈ calls /\ proves jar ip (env_sec env (tick w))
     else calls = [Reenable false]) /\
  (forall t, banjax c = Some hn ->
     jar = Cookie.print_jar [Cookie.MkCookie (lit "deflect") (password_cookie (token c [] t ip) (password_hash ch))] ->
     (length (password_hash ch) <= 44)%nat -> CookieHash.fits [] ip -> CookieHash.time_ok t ->
     env_sec env (tick w) <= t ->
     exists calls td w', run txn l [TS_EVENT_HTTP_READ_REQUEST_HDR] (Some transaction_data0) env w
       = (Ret (Some ([calls], td)), w') /\ Reenable true ∈ calls).
Proof.
  intros Hv Hw Hn. destruct (run_request l c Hq txn ip host url jar env w Hv) as (parts & m & _ & Hp & Hinv & Hrun).
  destruct (auth_request ip url jar parts env w Hp Hw Hn) as (o & w1 & Hc & Ho). split.
  - intros calls td w' E. destruct (Hinv _ _ E) as (r & w2 & Er). destruct (Hrun _ _ Er) as (w3 & E'%run_one & _).
    rewrite E in E'. injection E' as -> _ _. destruct o as [[]| |]; [| |by destruct (Ho r w2)..].
    + destruct Ho as [w4 Ho]. rewrite Ho in Er. injection Er as <- <-.
      cbn [plain_response response_type] in *.
      rewrite decide_True by (destruct (env_api _ _); set_solver). split; [destruct (env_api _ _); set_solver|].
      apply check_cookie_sound in Hc as (jar' & ip' & ck & data & t & Hj & Hi & Hd & Hpr & Hdec & Hg & Ht).
      destruct Hp as (Hi' & _ & _ & Hj'). simplify_eq. exists ck, data, t.
      unfold challenge_prevailed in Hpr. by rewrite Htype in Hpr.
    + rewrite (Ho _ _ Er). rewrite decide_False by set_solver. done.
  - intros t Hb -> Hl Hf Ht Hnow. destruct Hp as (Hi & Hh & _ & Hj).
    destruct (check_cookie_complete c hn [] parts ch env w _ ip host
      (password_cookie (token c [] t ip) (password_hash ch)) t Hb Hj Hi Hh) as (w2 & Hc2 & _); try done.
    + apply deflect_single, password_value_ok.
    + unfold challenge_prevailed. rewrite Htype. apply check_auth_roundtrip; [apply length_token| |done].
      apply Base64.b64_ref_no_nul.
    + unfold password_cookie. rewrite take_app_length'; [done|]. by rewrite length_token.
    + rewrite Hc2 in Hc. injection Hc as <- <-. destruct Ho as [w3 Ho].
      destruct (Hrun _ _ Ho) as (w4 & E%run_one & _). cbn [plain_response response_type] in E.
      do 3 eexists. split; [exact E|]. destruct (env_api _ _); set_solver.
Qed.
End Auth.

(** ** A sample *)

Section Sample.
#[local] Existing Instances sample_crypto Util.sample_inet literal_re2 BotSniffer.sample_ssl.

Definition login : HostChallengeSpec :=
  MkSpec (lit "auth") CHALLENGE_AUTH (lit "page $token") 0 3600 (lit "secret")
    [MkMagicWord MW_substr (lit "h.org/x")] [lit "ajax"] [] 0.

Definition auth_challenger : Challenger :=
  MkChallenger (replicate 32 "k"%char) 0 None (<[lit "h.org" := [login]]> ∅) None (Some (lit "edge1")).

Definition login_jar : str :=
  Cookie.print_jar [Cookie.MkCookie (lit "deflect")
    (password_cookie (token auth_challenger [] 5120 (lit "10.0.0.7")) (password_hash login))].

Lemma auth_gate_witness : exists calls td w',
  run (client_txn login_jar) [FChallenger auth_challenger] [TS_EVENT_HTTP_READ_REQUEST_HDR]
    (Some transaction_data0) SwabberOps.sample_env (SwabberOps.sample_world 300)
  = (Ret (Some ([calls], td)), w') /\ Reenable true ∈ calls.
Proof.
  destruct (auth_gate [FChallenger auth_challenger] auth_challenger eq_refl (lit "edge1") (lit "h.org") login
    eq_refl eq_refl (client_txn login_jar) (lit "10.0.0.7") (lit "http://h.org/x") login_jar
    SwabberOps.sample_env (SwabberOps.sample_world 300)) as [_ H].
  - apply client_visit.
  - vm_compute. reflexivity.
  - vm_compute. reflexivity.
  - apply (H 5120).
    + reflexivity.
    + reflexivity.
    + apply Nat.leb_le. vm_compute. reflexivity.
    + apply Nat.leb_le. vm_compute. reflexivity.
    + unfold CookieHash.time_ok. lia.
    + vm_compute. discriminate.
Defined.
End Sample.
End AuthFlow.
