(* ===== verification/CaptchaSession.v ===== *)
(** * CaptchaSession: a client from the picture to its page

    The four transactions of a client of a host with a captcha challenge, from
    the header of the request through the filters to the response
    (src/transaction_muncher.cpp, src/transaction_data.cpp, src/challenger.cpp):
    the page of the challenge, the picture, the letters, and the page it asked
    for; and the shorter way past the captcha, by the token of another
    challenge's page. *)

From S2P Require Import Prelude Captcha Base64 Cookie CookieHash Util Print GmTime WhiteList IpDb Yaml Float World.
From S2P Require Import Swabber BotSniffer WhiteLister Denialator RegexManager Reports ChallengeChecks.
From S2P Require Import Challenger ChallengerFlow CaptchaFlow Muncher Transaction Lifecycle Session.

Local Open Scope Z_scope.

Module CaptchaSession.
Import Print ChallengeChecks Challenger ChallengerFlow CaptchaFlow Transaction Lifecycle Session.

(** A jar with nothing but a cookie of the challenger. *)
Definition deflect_jar (value : str) : str := Cookie.print_jar [Cookie.MkCookie (lit "deflect") value].

Section Captcha.
Context {crypto : Crypto} {I : Inet} {R2 : Re2} {ssl : OpenSSL}.
Context (l : list filter) (c : Challenger) (Hq : task_queue HTTP_REQUEST l = [FChallenger c]).
Context (hn host : str) (ch : HostChallengeSpec).
Hypothesis Hbanjax : banjax c = Some hn.
Hypothesis Hstatic : host_challenges_static c !! host = Some [ch].
Hypothesis Htype : challenge_type ch = CHALLENGE_CAPTCHA.

Lemma asks_custom : asks ch (custom_response ch).
Proof. done. Qed.

Lemma captcha_first_request ip url jar parts env w :
  parts_of ip host url jar parts -> challenged c ch ip -> tolerated ch ip w ->
  is_captcha_url url = false -> is_captcha_answer url = false -> deflect_cookie (Cookie.cookies jar) = None ->
  exists w', Challenger.on_http_request c parts env w = (Ret (respond (custom_response ch)), w').
Proof.
  intros Hp [Hg Hw] Ht Hu1 Hu2 Hd.
  pose proof Hp as (Hip%part_at_Ret & Hh%part_at_Ret & Hu%part_at_Ret & Hj%part_at_Ret).
  rewrite (static_request c host ip ch jar parts) by done. rewrite M_bind_eq. unfold run_challenge.
  rewrite Hw, Htype. unfold run_captcha. rewrite Hg, M_bind_eq, Hu. cbn [lift]. rewrite Hu1, Hu2. cbn [orb].
  rewrite M_bind_eq. unfold check_cookie.
  rewrite M_bind_eq, Hj. cbn [lift]. rewrite M_bind_eq, Hip. cbn [lift]. rewrite M_bind_eq, Hh. cbn [lift].
  rewrite Hd. cbn [mret M_ret]. rewrite M_bind_eq.
  destruct (tolerated_report c host ch ip env w Ht) as (w1 & -> & Ht1). rewrite M_bind_eq.
  destruct (failure_tolerated host ch ip url jar parts env w1 Hp Ht1) as [w2 ->]. by eexists.
Qed.

(** The pages of the captcha are answered whatever the cookie. *)
Lemma captcha_own_request ip url jar parts env w :
  parts_of ip host url jar parts -> challenged c ch ip -> is_captcha_url url || is_captcha_answer url = true ->
  Challenger.on_http_request c parts env w = (Ret (respond (custom_response ch)), w).
Proof.
  intros (Hip%part_at_Ret & Hh%part_at_Ret & Hu%part_at_Ret & Hj%part_at_Ret) [Hg Hw] Hown.
  rewrite (static_request c host ip ch jar parts) by done. rewrite M_bind_eq. unfold run_challenge.
  rewrite Hw, Htype. unfold run_captcha. rewrite Hg, M_bind_eq, Hu. cbn [lift]. by rewrite Hown.
Qed.

Lemma captcha_token_request ip url t parts env w :
  parts_of ip host url (deflect_jar (token c [] t ip)) parts ->
  GlobalWhiteList.first_match ip (white_listed_ips ch) = None ->
  is_captcha_url url = false -> is_captcha_answer url = false ->
  CookieHash.fits [] ip -> CookieHash.time_ok t -> env_sec env (tick w) <= t ->
  fst (Challenger.on_http_request c parts env w) = Ret (plain_response GO_AHEAD_NO_COMMENT).
Proof.
  intros Hp Hw Hu1 Hu2 Hf Ht Hnow. pose proof Hp as (Hip%part_at_Ret & Hh%part_at_Ret & Hu%part_at_Ret & Hj%part_at_Ret).
  rewrite (static_request c host ip ch (deflect_jar (token c [] t ip)) parts) by done. rewrite M_bind_eq.
  unfold run_challenge. rewrite Hw, Htype. unfold run_captcha.
  destruct (is_globally_white_listed c ip); [apply all_passed|].
  rewrite M_bind_eq, Hu. cbn [lift]. rewrite Hu1, Hu2. cbn [orb]. rewrite M_bind_eq.
  destruct Hp as (Hip' & Hh' & _ & Hj').
  destruct (check_cookie_token c hn [] parts ch env w ip host t) as [w1 H1]; try done. rewrite H1.
  rewrite M_bind_eq. pose proof (report_success_returns ip env w1) as Hs.
  destruct (report_success ip env w1) as [o w2]. cbn in Hs. subst o. rewrite M_bind_eq.
  pose proof (report1_returns c host ip true env w2) as Hr.
  destruct (report1 c host ip true env w2) as [o w3]. cbn in Hr. subst o. apply all_passed.
Qed.

(** ** The transactions *)

Lemma picture_visit txn ip url jar env w :
  let random := env_random env (S (tick w)) in
  let text := captcha_text random in
  let till := env_sec env (S (S (tick w))) + 120 in
  visit txn ip host url jar -> challenged c ch ip -> is_captcha_url url = true ->
  Captcha.letters_fit random = true -> CookieHash.fits text ip ->
  exists im gif e calls td w',
    Captcha.captcha random = Ret (text, im) /\ Captcha.read_gif (map code gif) = Some (Captcha.shown_image im) /\
    response_code e = 200 /\ set_cookie_header e = cookie_header (token c text till ip) /\
    run txn l [TS_EVENT_HTTP_READ_REQUEST_HDR; TS_EVENT_HTTP_SEND_RESPONSE_HDR] (Some transaction_data0) env w
    = (Ret (Some ([[Reenable false]; calls], td)), w') /\ served env gif e calls.
Proof.
  intros random text till Hv Hc Hu Hl Hf.
  destruct (captcha_page_run c ip (custom_response ch) env (with_tick (S (tick w)) w) Hl Hf)
    as (im & gif & Him & Hr & Hpage).
  destruct (answered_visit l c Hq txn ip host url jar (custom_response ch) env w
    (fun buf e => buf = gif /\ response_code e = 200 /\ set_cookie_header e = cookie_header (token c text till ip)) Hv)
    as (buf & e & cs & td & w' & (-> & Hcode & Hck) & E & Hs).
  - intros parts Hp. do 3 eexists. split; [apply (captcha_own_request ip url jar); [done..|by rewrite Hu]|].
    split; [|intros parts' Hp'; eexists; rewrite (generate_asks l c Hq host ch ip url jar) by done].
    2: { unfold generate_html. rewrite Hu. exact Hpage. }
    by split_and!.
  - by exists im, gif, e, cs, td, w'.
Qed.

Lemma answer_visit txn ip x text till env w :
  let t := s64 (env_sec env (tick w) + challenge_validity_period ch) in
  let url := x ++ lit "__validate/" ++ text in
  visit txn ip host url (deflect_jar (token c text till ip)) -> challenged c ch ip ->
  is_captcha_url url = false -> "_"%char ∉ text -> CookieHash.fits text ip -> CookieHash.time_ok till ->
  env_sec env (S (tick w)) <= till ->
  exists e calls td w',
    response_code e = 200 /\ set_cookie_header e = cookie_header (token c [] t ip) /\
    run txn l [TS_EVENT_HTTP_READ_REQUEST_HDR; TS_EVENT_HTTP_SEND_RESPONSE_HDR] (Some transaction_data0) env w
    = (Ret (Some ([[Reenable false]; calls], td)), w') /\ served env (lit "OK") e calls.
Proof.
  intros t url Hv Hc Hu Hno Hf Ht Hnow.
  assert (Ha : is_captcha_answer url = true).
  { unfold is_captcha_answer, url. by rewrite (rfind_app x _ _ _ (rfind_validate text Hno)). }
  destruct (answered_visit l c Hq txn ip host url _ (custom_response ch) env w
    (fun buf e => buf = lit "OK" /\ response_code e = 200 /\ set_cookie_header e = cookie_header (token c [] t ip)) Hv)
    as (buf & e & cs & td & w' & (-> & Hcode & Hck) & E & Hs).
  - intros parts Hp. do 3 eexists. split; [apply (captcha_own_request ip url _ parts env w Hp Hc); by rewrite Ha, orb_true_r|].
    split; [|intros parts' Hp'; rewrite (generate_asks l c Hq host ch ip url _ parts' _ env w Hp' asks_custom)].
    2: { unfold generate_html. rewrite Hu, Ha. destruct Hp' as (Hip & Hh & Hurl & Hj).
         by eapply (answer_page_run c hn ip t parts' (custom_response ch) env _ x text host ch till). }
    by split_and!.
  - by exists e, cs, td, w'.
Qed.

Lemma token_passes txn ip url t env w :
  visit txn ip host url (deflect_jar (token c [] t ip)) ->
  GlobalWhiteList.first_match ip (white_listed_ips ch) = None ->
  is_captcha_url url = false -> is_captcha_answer url = false ->
  CookieHash.fits [] ip -> CookieHash.time_ok t -> env_sec env (tick w) <= t ->
  passed_on l txn env w.
Proof.
  intros Hv Hw Hu1 Hu2 Hf Ht Hnow. eapply passed_visit; [exact Hq|exact Hv|].
  intros parts Hp. by eapply captcha_token_request.
Qed.

(** The letters leave room for the address in the buffer of a cookie. *)
Lemma text_fits random ip : (strlen ip <= 187)%nat -> CookieHash.fits (captcha_text random) ip.
Proof.
  intros Hip. unfold CookieHash.fits, strlen at 2.
  rewrite c_str_no_nul by (by apply captcha_text_no; vm_compute). rewrite length_captcha_text. lia.
Qed.

Lemma empty_fits ip : (strlen ip <= 187)%nat -> CookieHash.fits [] ip.
Proof. unfold CookieHash.fits. cbn. lia. Qed.

(** C3. A whole session with a captcha, where the challenger [c] is the only filter
    on requests, the host has exactly one challenge on disk, a captcha, and the
    address is on no white list and has at most 187 characters.  A client without
    cookie that has failures left is shown the page of the challenge; when the
    letters drawn fit into the picture (which not all do), the picture it asks for
    shows them and comes with a cookie over them; when it sends the letters back
    with that cookie within 120 seconds it is answered OK with a session cookie;
    and its requests with the session cookie, other than those for a picture or
    with an answer, are passed on until that expires, whatever other requests did
    in between to the state, and whatever the locks and the Kafka producer do. *)
Theorem captcha_session (ip : str) :
  challenged c ch ip -> (strlen ip <= 187)%nat ->
  (forall txn1 url1 jar1 env1 w1,
     visit txn1 ip host url1 jar1 -> tolerated ch ip w1 -> deflect_cookie (Cookie.cookies jar1) = None ->
     is_captcha_url url1 = false -> is_captcha_answer url1 = false ->
     exists n calls td w', let t := s64 (env_sec env1 n + challenge_validity_period ch) in
       run txn1 l [TS_EVENT_HTTP_READ_REQUEST_HDR; TS_EVENT_HTTP_SEND_RESPONSE_HDR] (Some transaction_data0) env1 w1
       = (Ret (Some ([[Reenable false]; calls], td)), w') /\
       served env1 (token_page c ch url1 t (token c [] t ip)) (custom_response ch) calls) /\
  (forall txn2 url2 jar2 env2 w2,
     let random := env_random env2 (S (tick w2)) in
     let text := captcha_text random in
     let till := env_sec env2 (S (S (tick w2))) + 120 in
     visit txn2 ip host url2 jar2 -> is_captcha_url url2 = true -> Captcha.letters_fit random = true ->
     (exists im gif e calls td w',
        Captcha.captcha random = Ret (text, im) /\ Captcha.read_gif (map code gif) = Some (Captcha.shown_image im) /\
        response_code e = 200 /\ set_cookie_header e = cookie_header (token c text till ip) /\
        run txn2 l [TS_EVENT_HTTP_READ_REQUEST_HDR; TS_EVENT_HTTP_SEND_RESPONSE_HDR] (Some transaction_data0) env2 w2
        = (Ret (Some ([[Reenable false]; calls], td)), w') /\ served env2 gif e calls) /\
     forall txn3 x env3 w3,
       let url3 := x ++ lit "__validate/" ++ text in
       let t := s64 (env_sec env3 (tick w3) + challenge_validity_period ch) in
       CookieHash.time_ok till -> visit txn3 ip host url3 (deflect_jar (token c text till ip)) ->
       is_captcha_url url3 = false -> env_sec env3 (S (tick w3)) <= till ->
       (exists e calls td w',
          response_code e = 200 /\ set_cookie_header e = cookie_header (token c [] t ip) /\
          run txn3 l [TS_EVENT_HTTP_READ_REQUEST_HDR; TS_EVENT_HTTP_SEND_RESPONSE_HDR] (Some transaction_data0) env3 w3
          = (Ret (Some ([[Reenable false]; calls], td)), w') /\ served env3 (lit "OK") e calls) /\
       forall txn4 url4 env4 w4,
         visit txn4 ip host url4 (deflect_jar (token c [] t ip)) ->
         is_captcha_url url4 = false -> is_captcha_answer url4 = false -> env_sec env4 (tick w4) <= t ->
         passed_on l txn4 env4 w4).
Proof.
  intros Hc Hip. split.
  - intros txn1 url1 jar1 env1 w1 Hv Ht Hd Hu1 Hu2.
    eapply token_visit; [done..|by apply empty_fits|]. intros parts Hp. by eapply captcha_first_request.
  - intros txn2 url2 jar2 env2 w2 random text till Hv2 Hu2 Hl.
    split; [by apply (picture_visit txn2 ip url2 jar2); [..|apply text_fits]|].
    intros txn3 x env3 w3 url3 t Ht Hv3 Hu3 Hnow3. split.
    + apply (answer_visit txn3 ip x text till); try done; [by apply captcha_text_no; vm_compute|by apply text_fits].
    + intros txn4 url4 env4 w4 Hv4 Hu4 Ha4 Hnow4. destruct Hc as [_ Hw].
      eapply (token_passes txn4 ip url4 t); try done; [by apply empty_fits|apply CookieHash.s64_range].
Qed.

End Captcha.

(** ** Two hosts of one challenger *)

Section Bypass.
Context {crypto : Crypto} {I : Inet} {R2 : Re2} {ssl : OpenSSL}.
Context (l : list filter) (c : Challenger) (Hq : task_queue HTTP_REQUEST l = [FChallenger c]).
Context (hn host host' : str) (sha captcha : HostChallengeSpec).

(** C8. A captcha is no barrier beside a SHA challenge: the token on the page of
    a SHA challenge is, as it stands and whatever the difficulty, the session
    cookie of a solved captcha.  Where the challenger is the only filter on
    requests, a client with failures left that asked once for a host with one SHA
    challenge is passed on, until the token expires, by every host of this
    challenger that has one captcha, without having solved either. *)
Theorem unsolved_token_passes_captcha (txn1 txn2 : Txn) (ip url1 url2 jar : str) (env1 : Env) (w1 : World) :
  banjax c = Some hn ->
  host_challenges_static c !! host = Some [sha] -> challenge_type sha = CHALLENGE_SHA_INVERSE ->
  host_challenges_static c !! host' = Some [captcha] -> challenge_type captcha = CHALLENGE_CAPTCHA ->
  challenged c sha ip -> challenged c captcha ip -> tolerated sha ip w1 -> CookieHash.fits [] ip ->
  visit txn1 ip host url1 jar -> deflect_cookie (Cookie.cookies jar) = None ->
  is_captcha_url url1 = false -> is_captcha_answer url1 = false ->
  is_captcha_url url2 = false -> is_captcha_answer url2 = false ->
  exists n calls td w',
    let t := s64 (env_sec env1 n + challenge_validity_period sha) in
    let tok := token c [] t ip in
    run txn1 l [TS_EVENT_HTTP_READ_REQUEST_HDR; TS_EVENT_HTTP_SEND_RESPONSE_HDR] (Some transaction_data0) env1 w1
    = (Ret (Some ([[Reenable false]; calls], td)), w') /\
    served env1 (token_page c sha url1 t tok) (challenge_response sha) calls /\
    forall env2 w2, visit txn2 ip host' url2 (deflect_jar tok) -> env_sec env2 (tick w2) <= t ->
      passed_on l txn2 env2 w2.
Proof.
  intros Hb Hs Hst Hc Hct Hcs [_ Hw] Ht Hf Hv Hd Hu1 Ha1 Hu2 Ha2.
  destruct (challenged_visit l c Hq host sha Hs Hst txn1 ip url1 jar env1 w1 Hv Hcs Ht Hf Hd Hu1 Ha1)
    as (n & cs & td & w' & E & Hsv).
  exists n, cs, td, w'. split; [exact E|]. split; [exact Hsv|]. intros env2 w2 Hv2 Hnow.
  eapply (token_passes l c Hq hn host' captcha); try done. apply CookieHash.s64_range.
Qed.
End Bypass.

(** ** A sample: a host with a captcha beside one with a SHA challenge *)

Section Sample.
#[local] Existing Instances sample_crypto Util.sample_inet literal_re2 BotSniffer.sample_ssl.

Definition two_hosts : Challenger :=
  MkChallenger (replicate 32 "k"%char) 20 None
    (<[lit "h.org" := [sample_sha]]> (<[lit "c.org" := [sample_captcha_challenge]]> ∅)) None (Some (lit "edge1")).

Definition path_txn (host path cookies : str) : Txn :=
  MkTxn true (Some (lit "10.0.0.7")) true
    (fun h => Some (match h with Some h => lit "http://" ++ h ++ path | None => path end))
    (lit "http") true (Some (lit "GET")) (Some (Some host)) None (Some (Some cookies)) true 200 None.

Abbreviation client := (lit "10.0.0.7").
Abbreviation filters := [FBotSniffer; FChallenger two_hosts].

Lemma path_visit host path cookies : Util.to_lower host = host ->
  visit (path_txn host path cookies) client host (lit "http://" ++ host ++ path) cookies.
Proof. intros Hh. by split. Qed.

Lemma captcha_session_witness :
  (exists calls td w',
     run (path_txn (lit "c.org") (lit "/__validate/aaaaa") (deflect_jar (token two_hosts (lit "aaaaa") 1120 client)))
       filters [TS_EVENT_HTTP_READ_REQUEST_HDR; TS_EVENT_HTTP_SEND_RESPONSE_HDR] (Some transaction_data0)
       (at_time 1100) (SwabberOps.sample_world 0)
     = (Ret (Some ([[Reenable false]; calls], td)), w')) /\
  passed_on filters (path_txn (lit "c.org") (lit "/x") (deflect_jar (token two_hosts [] 4700 client)))
    (at_time 4700) (SwabberOps.sample_world 0).
Proof.
  destruct (captcha_session filters two_hosts eq_refl (lit "edge1") (lit "c.org") sample_captcha_challenge
    eq_refl eq_refl eq_refl client) as [_ H].
  - split; vm_compute; reflexivity.
  - apply Nat.leb_le. vm_compute. reflexivity.
  - destruct (H (path_txn (lit "c.org") (lit "/__captcha") []) (lit "http://c.org/__captcha") []
      (at_time 1000) (SwabberOps.sample_world 0)) as [_ H3].
    + by apply (path_visit (lit "c.org") (lit "/__captcha")).
    + vm_compute. reflexivity.
    + vm_compute. reflexivity.
    + destruct (H3 (path_txn (lit "c.org") (lit "/__validate/aaaaa") (deflect_jar (token two_hosts (lit "aaaaa") 1120 client)))
        (lit "http://c.org/") (at_time 1100) (SwabberOps.sample_world 0)) as [(e & cs & td & w' & _ & _ & E & _) H4].
      * by vm_compute.
      * by apply (path_visit (lit "c.org") (lit "/__validate/aaaaa")).
      * vm_compute. reflexivity.
      * vm_compute. discriminate.
      * split; [by exists cs, td, w'|]. apply (H4 _ (lit "http://c.org/x")).
        -- by apply (path_visit (lit "c.org") (lit "/x")).
        -- vm_compute. reflexivity.
        -- vm_compute. reflexivity.
        -- vm_compute. discriminate.
Defined.

Lemma unsolved_token_passes_captcha_witness : exists n,
  let t := s64 (env_sec (at_time 1000) n + challenge_validity_period sample_sha) in
  passed_on filters (path_txn (lit "c.org") (lit "/x") (deflect_jar (token two_hosts [] 4600 client)))
    (at_time t) (SwabberOps.sample_world 0).
Proof.
  destruct (unsolved_token_passes_captcha filters two_hosts eq_refl (lit "edge1") (lit "h.org") (lit "c.org")
    sample_sha sample_captcha_challenge (path_txn (lit "h.org") (lit "/") [])
    (path_txn (lit "c.org") (lit "/x") (deflect_jar (token two_hosts [] 4600 client)))
    client (lit "http://h.org/") (lit "http://c.org/x") [] (at_time 1000) (SwabberOps.sample_world 0))
    as (n & cs & td & w' & _ & _ & H); try reflexivity.
  - split; vm_compute; reflexivity.
  - split; vm_compute; reflexivity.
  - right. vm_compute. reflexivity.
  - apply Nat.leb_le. vm_compute. reflexivity.
  - by apply (path_visit (lit "h.org") (lit "/")).
  - exists n. cbv zeta. apply (H (at_time (s64 (env_sec (at_time 1000) n + challenge_validity_period sample_sha)))).
    + by apply (path_visit (lit "c.org") (lit "/x")).
    + apply Z.le_refl.
Defined.
End Sample.
End CaptchaSession.
