(* ===== verification/Quarantine.v ===== *)
(** * Quarantine: from a report to the ban

    An address one filter reports to the swabber is turned away by another, the
    denialator, until the grace period is over; its first request after that is
    what bans it (src/swabber.cpp, src/denialator.cpp, src/transaction_data.cpp).
    Here the two are put together over whole transactions. *)

From S2P Require Import Prelude Base64 Cookie CookieHash Util Print GmTime WhiteList IpDb Yaml Float World.
From S2P Require Import Swabber BotSniffer WhiteLister Denialator RegexManager Reports ChallengeChecks.
From S2P Require Import Challenger ChallengerFlow Muncher Transaction Lifecycle Session.

Local Open Scope Z_scope.

Module Quarantine.
Import Print SwabberOps Transaction Lifecycle Session.

(** The clock of a run: it does not go back, and it is not 1970. *)
Definition running (env : Env) : Prop :=
  (forall n n', (n <= n')%nat -> env_sec env n <= env_sec env n') /\ forall n, env_sec env n <> 0.

(** What a request of a flagged address does to its status. *)
Definition abs_denied (grace now since : Z) : status * verdict :=
  if now - since <? grace then (Flagged since, Ignore) else (Clear, Ban).

Section Denial.
Context {crypto : Crypto} {I : Inet} {R2 : Re2} {ssl : OpenSSL}.

(** The handler of the denialator on a flagged address. *)
Lemma denial_request d parts ip env w since :
  parts !! Part.IP = Some ip -> Denialator.white_listed d ip = false -> status_of w ip = Flagged since ->
  uncontended env -> running env -> connected w ->
  Denialator.banning_grace_period d = grace_period (swabber w) -> 0 < grace_period (swabber w) ->
  let '(st, v) := abs_denied (grace_period (swabber w)) (env_sec env (S (tick w))) since in
  exists w' evs, Denialator.on_http_request d parts env w = (Ret (generator_response GEN_DENIALATOR), w') /\
    status_of w' ip = st /\ trace w' = trace w ++ evs /\ observed ip (Denialator.report_reason since) v evs.
Proof.
  intros Hip%part_at_Ret Hwl Hst Hl [Hmono Hpos] Hc Hd Hg. unfold status_of in Hst.
  destruct (Z.eqb_spec (IpDb.view 0 (swabber_ip_db w) ip) 0) as [|Hne]; [done|]. injection Hst as Hst.
  unfold Denialator.on_http_request. rewrite M_bind_eq, Hip. cbn [lift]. rewrite Hwl, M_bind_eq.
  unfold swabber_db_get. rewrite db_get_eq, Hl. cbn [swabber_ip_db with_tick]. rewrite (proj2 (Z.eqb_neq _ _) Hne).
  cbn [negb]. rewrite M_bind_eq. cbn [gettimeofday query tick with_tick]. rewrite M_bind_eq, Hst, Hd.
  unfold abs_denied. destruct (Z.ltb_spec (env_sec env (S (tick w)) - since) (grace_period (swabber w))) as [Hlt|Hge].
  - rewrite (proj2 (Z.leb_gt _ _)) by done. exists (with_tick (S (S (tick w))) w), [].
    split; [reflexivity|]. rewrite app_nil_r. split; [|by split; [|constructor]].
    unfold status_of. cbn. rewrite (proj2 (Z.eqb_neq _ _) Hne). by rewrite Hst.
  - rewrite (proj2 (Z.leb_le _ _)) by done. set (w1 := with_tick (S (S (tick w))) (with_tick (S (tick w)) w)).
    pose proof (ban_run env w1 ip (Denialator.report_reason since) Hl Hc (Hpos _)) as H.
    assert (Es : status_of w1 ip = Flagged since)
      by (unfold status_of; cbn; rewrite (proj2 (Z.eqb_neq _ _) Hne); by rewrite Hst).
    rewrite Es in H. unfold abs_ban in H. change (swabber w1) with (swabber w) in H.
    rewrite (proj2 (Z.ltb_lt _ _) Hg), (proj2 (Z.ltb_ge _ _)) in H.
    2: { pose proof (Hmono (S (tick w)) (tick w1) ltac:(cbn; lia)). lia. }
    destruct H as (w' & evs & E & H). exists w', evs. by rewrite E.
Qed.

(** A filter chain led by a denialator. *)
Context (l rest : list filter) (d : Denialator.Denialator).
Hypothesis Hq : task_queue HTTP_REQUEST l = FDenialator d :: rest.

Lemma queue_requests_ip : Muncher.has (all_filters_requested_part l) Part.IP = true.
Proof. destruct l as [|f l']; [done|]. apply all_request_ip. Qed.

(** C5. Quarantine, where the denialator is the first filter on requests, its grace
    period is positive and the same as the swabber's, the locks are free, the
    swabber's socket is bound and the clock runs forward: while an address is
    flagged and no white list exempts it, each of its requests is answered with the
    denial page, whatever the filters behind the denialator would say; the requests
    during the grace period leave the flag as it is, and the first one after it
    bans the address and clears the flag. *)
Theorem quarantine (txn : Txn) (ip : str) (env : Env) (w : World) (since : Z) :
  client_req_ok txn = true -> client_resp_ok txn = true -> client_addr txn = Some ip ->
  Denialator.white_listed d ip = false -> status_of w ip = Flagged since ->
  uncontended env -> running env -> connected w ->
  Denialator.banning_grace_period d = grace_period (swabber w) -> 0 < grace_period (swabber w) ->
  let '(st, v) := abs_denied (grace_period (swabber w)) (env_sec env (S (tick w))) since in
  exists calls td w' evs,
    run txn l [TS_EVENT_HTTP_READ_REQUEST_HDR; TS_EVENT_HTTP_SEND_RESPONSE_HDR] (Some transaction_data0) env w
    = (Ret (Some ([[Reenable false]; calls], td)), w') /\
    ErrorBodySet Denialator.denied_message None ∈ calls /\
    status_of w' ip = st /\ trace w' = trace w ++ evs /\ observed ip (Denialator.report_reason since) v evs.
Proof.
  intros Hreq Hresp Hip Hwl Hst Hl Hrun Hc Hd Hg.
  destruct (Muncher.retrieve_parts_returns txn (all_filters_requested_part l) Muncher.init Hreq) as [m Em].
  pose proof (Muncher.retrieve_parts_ip txn _ Muncher.init _ ip Hip queue_requests_ip eq_refl Em) as Hp.
  pose proof (denial_request d _ ip env w since Hp Hwl Hst Hl Hrun Hc Hd Hg) as H.
  destruct (abs_denied _ _ _) as [st v]. destruct H as (w1 & evs & E1 & Hst1 & Htr & Ho).
  set (r := generator_response GEN_DENIALATOR) in *.
  set (m1 := Muncher.with_parts (Muncher.cur_trans_parts m) m).
  assert (E2 : handle_transaction_change txn l TS_EVENT_HTTP_READ_REQUEST_HDR transaction_data0 env w
    = (Ret ([Reenable false], Some (MkTransactionData m1 r)), w1)).
  { cbn [handle_transaction_change transaction_data0 transaction_muncher response_info].
    unfold handle_request. rewrite !M_bind_eq, Em. cbn [lift]. rewrite !M_bind_eq, Hq. cbn [run_filters].
    rewrite M_bind_eq. cbn [on_http_request]. rewrite M_bind_eq, E1. reflexivity. }
  destruct (response_shows txn Hresp l r (extended_response GEN_DENIALATOR None) m1 env w1
    Denialator.denied_message (extended_response GEN_DENIALATOR None) (fun _ => True) (fun w2 => w2 = w1))
    as (cs & m' & r' & w2 & n & E3 & -> & _ & Hbody & _); [done|done| |done|reflexivity|reflexivity|].
  { intros m0 _. destruct (Muncher.retrieve_parts_returns txn (all_filters_requested_part l) m0 Hreq) as [m2 E].
    by exists m2, w1. }
  exists cs. do 2 eexists. exists evs. split.
  - cbn [run]. rewrite M_bind_eq, E2, M_bind_eq. cbn [run]. rewrite M_bind_eq.
    cbn [handle_transaction_change transaction_muncher response_info]. rewrite M_bind_eq, E3. reflexivity.
  - split; [exact Hbody|]. by split_and!.
Qed.
End Denial.

(** ** A sample: flagged at 1000, with a grace period of 300 seconds *)

Section Sample.
#[local] Existing Instances sample_crypto Util.sample_inet literal_re2 BotSniffer.sample_ssl.

Abbreviation flagged := (with_swabber_ip_db (<[lit "10.0.0.7" := 1000]> ∅) (sample_world 300)).
Abbreviation chain := [FDenialator Denialator.sample_denialator; FRegexManager RegexManager.sample_manager].

Lemma at_time_running t : t <> 0 -> running (at_time t).
Proof. intros Ht. split; [done|]. by intros n. Qed.

Lemma quarantine_witness :
  (exists calls td w' evs,
     run (client_txn []) chain [TS_EVENT_HTTP_READ_REQUEST_HDR; TS_EVENT_HTTP_SEND_RESPONSE_HDR]
       (Some transaction_data0) (at_time 1200) flagged = (Ret (Some ([[Reenable false]; calls], td)), w') /\
     ErrorBodySet Denialator.denied_message None ∈ calls /\ status_of w' (lit "10.0.0.7") = Flagged 1000 /\
     trace w' = [] ++ evs /\ observed (lit "10.0.0.7") (Denialator.report_reason 1000) Ignore evs) /\
  (exists calls td w' evs,
     run (client_txn []) chain [TS_EVENT_HTTP_READ_REQUEST_HDR; TS_EVENT_HTTP_SEND_RESPONSE_HDR]
       (Some transaction_data0) (at_time 1300) flagged = (Ret (Some ([[Reenable false]; calls], td)), w') /\
     ErrorBodySet Denialator.denied_message None ∈ calls /\ status_of w' (lit "10.0.0.7") = Clear /\
     trace w' = [] ++ evs /\ observed (lit "10.0.0.7") (Denialator.report_reason 1000) Ban evs).
Proof.
  split.
  - apply (quarantine chain [FRegexManager RegexManager.sample_manager] Denialator.sample_denialator eq_refl
      (client_txn []) (lit "10.0.0.7") (at_time 1200) flagged 1000); try (vm_compute; reflexivity).
    + by apply at_time_running.
    + by eexists.
  - apply (quarantine chain [FRegexManager RegexManager.sample_manager] Denialator.sample_denialator eq_refl
      (client_txn []) (lit "10.0.0.7") (at_time 1300) flagged 1000); try (vm_compute; reflexivity).
    + by apply at_time_running.
    + by eexists.
Defined.
End Sample.
End Quarantine.
