(* ===== verification/Banjax.v ===== *)
(** * Banjax: configuration and Kafka commands (src/banjax.cpp)

    Reading the configuration with its included files, giving the filters their
    priorities; the commands that arrive over Kafka; and the periodic reports.
    [Startup] builds the filters from the result. *)

From Stdlib Require Import Sorted.
From S2P Require Import Prelude Base64 Cookie CookieHash Util WhiteList IpDb Yaml Float World.
From S2P Require Import Swabber WhiteLister Denialator RegexManager Reports ChallengeChecks.
From S2P Require Import Challenger ChallengerConfig Muncher Transaction.

Local Open Scope Z_scope.

Module Banjax.

(** ** Filter names (src/filter_list.h) *)

Definition REGEX_BANNER_FILTER_NAME : str := lit "regex_banner".
Definition CHALLENGER_FILTER_NAME : str := lit "challenger".
Definition BOT_SNIFFER_FILTER_NAME : str := lit "bot_sniffer".
Definition WHITE_LISTER_FILTER_NAME : str := lit "white_lister".
Definition DENIALATOR_FILTER_NAME : str := lit "denialator".

Definition all_filters_names : list str :=
  [REGEX_BANNER_FILTER_NAME; CHALLENGER_FILTER_NAME; BOT_SNIFFER_FILTER_NAME;
   WHITE_LISTER_FILTER_NAME; DENIALATOR_FILTER_NAME].

Definition is_filter (s : str) : bool := bool_decide (s ∈ all_filters_names).

(** The order in which [std::map<std::string, FilterConfig>] goes through them. *)
Definition sorted_filter_names : list str :=
  [BOT_SNIFFER_FILTER_NAME; CHALLENGER_FILTER_NAME; DENIALATOR_FILTER_NAME;
   REGEX_BANNER_FILTER_NAME; WHITE_LISTER_FILTER_NAME].

Section WithYaml.
Context `{Yaml}.

Record FilterConfig := MkFilterConfig { config_node_list : list node; priority : Z }.

Record Config := MkConfig {
  filter_config_map : gmap str FilterConfig;
  swabber_conf : list node;
  priorities : node;
  kafka_conf : node;
  report_status_interval_seconds : Z;
  remove_expired_challenges_interval_seconds : Z
}.

Definition config0 : Config := MkConfig ∅ [] node_null node_null 0 0.

(** [catch (YAML::RepresentationException&) { abort_traffic_server(); }]. *)
Definition or_abort {A} (m : outcome A) : outcome A :=
  try_catch (fun e => bool_decide (e = YAML_RepresentationException)) m abort_traffic_server.

(** The handlers of [YAML::BadFile] and [YAML::ParserException]. *)
Definition file_or_abort {A} (m : outcome A) : outcome A :=
  try_catch (fun e => bool_decide (e = YAML_BadFile \/ e = YAML_ParserException)) m abort_traffic_server.

Definition with_filters (m : gmap str FilterConfig) (c : Config) : Config :=
  MkConfig m (swabber_conf c) (priorities c) (kafka_conf c) (report_status_interval_seconds c)
    (remove_expired_challenges_interval_seconds c).
Definition with_swabber_conf (l : list node) (c : Config) : Config :=
  MkConfig (filter_config_map c) l (priorities c) (kafka_conf c) (report_status_interval_seconds c)
    (remove_expired_challenges_interval_seconds c).
Definition with_priorities (n : node) (c : Config) : Config :=
  MkConfig (filter_config_map c) (swabber_conf c) n (kafka_conf c) (report_status_interval_seconds c)
    (remove_expired_challenges_interval_seconds c).
Definition with_kafka (n : node) (c : Config) : Config :=
  MkConfig (filter_config_map c) (swabber_conf c) (priorities c) n (report_status_interval_seconds c)
    (remove_expired_challenges_interval_seconds c).
Definition with_report (z : Z) (c : Config) : Config :=
  MkConfig (filter_config_map c) (swabber_conf c) (priorities c) (kafka_conf c) z
    (remove_expired_challenges_interval_seconds c).
Definition with_remove (z : Z) (c : Config) : Config :=
  MkConfig (filter_config_map c) (swabber_conf c) (priorities c) (kafka_conf c)
    (report_status_interval_seconds c) z.

(** A filter node: the first one of its name takes the next number. *)
Definition add_filter_node (node_name : str) (n : node) (seq : Z) (c : Config) : Z * Config :=
  match filter_config_map c !! node_name with
  | None => (seq + 1, with_filters (<[node_name := MkFilterConfig [n] seq]> (filter_config_map c)) c)
  | Some fc =>
      (seq, with_filters (<[node_name := MkFilterConfig (config_node_list fc ++ [n]) (priority fc)]>
                            (filter_config_map c)) c)
  end.

Context (banjax_config_dir : str) (LoadFile : str -> outcome node).

(** The included files, in order; [rec] is [process_config]. *)
Fixpoint include_files (rec : node -> Config -> outcome Config) (subs : list node) (c : Config)
    : outcome Config :=
  match subs with
  | [] => mret c
  | sub :: rest =>
      s ← as_string sub;
      c' ← file_or_abort (n ← LoadFile (banjax_config_dir ++ lit "/" ++ s); rec n c);
      include_files rec rest c'
  end.

(** One entry of the configuration, with the next sequential priority. *)
Definition process_entry (rec : node -> Config -> outcome Config) (key value : node)
    (seq : Z) (c : Config) : outcome (Z * Config) :=
  or_abort
    (node_name ← as_string key;
     if is_filter node_name then mret (add_filter_node node_name value seq c)
     else if bool_decide (node_name = lit "swabber") then
       mret (seq, with_swabber_conf (swabber_conf c ++ [value]) c)
     else if bool_decide (node_name = lit "priority") then
       n ← y_size (priorities c);
       if negb (n =? 0)%nat then abort_traffic_server else mret (seq, with_priorities value c)
     else if bool_decide (node_name = lit "include") then
       c' ← include_files rec (y_iter value) c; mret (seq, c')
     else if bool_decide (node_name = lit "kafka") then mret (seq, with_kafka value c)
     else if bool_decide (node_name = lit "report_status_interval_seconds") then
       z ← as_int value; mret (seq, with_report z c)
     else if bool_decide (node_name = lit "remove_expired_challenges_interval_seconds") then
       z ← as_int value; mret (seq, with_remove z c)
     else abort_traffic_server).

Fixpoint process_entries (rec : node -> Config -> outcome Config) (l : list (node * node))
    (seq : Z) (c : Config) : outcome Config :=
  match l with
  | [] => mret c
  | (k, v) :: rest =>
      '(seq', c') ← process_entry rec k v seq c;
      process_entries rec rest seq' c'
  end.

(** The fuel bounds the depth of inclusion; files that include each other make
    the calls nest without end.  A nested call starts numbering at zero and forgets the Kafka node
    and the intervals read so far. *)
Fixpoint process_config (fuel : nat) (cfg : node) (c : Config) : outcome Config :=
  match fuel with
  | O => Fault StackOverflow
  | S fuel' =>
      process_entries (process_config fuel') (y_items cfg) 0
        (with_remove 0 (with_report 0 (with_kafka node_null c)))
  end.

(** ** Priorities *)

(** The greatest entry of the "priority" node. *)
Fixpoint max_of (l : list (node * node)) (acc : Z) : outcome Z :=
  match l with
  | [] => mret acc
  | (_, v) :: rest => z ← as_int v; max_of rest (if acc <? z then z else acc)
  end.

Definition max_priority (c : Config) : outcome Z :=
  n ← y_size (priorities c);
  if (n =? 0)%nat then mret 0
  else
    match y_items (priorities c) with
    | [] => mret 0
    | (k, v) :: rest => z ← or_abort (as_int v); max_of ((k, v) :: rest) z
    end.

(** The priority of a filter: the configured one, or its number after all of
    them. *)
Definition priority_of (c : Config) (mx : Z) (nm : str) (fc : FilterConfig) : outcome Z :=
  p ← y_get (priorities c) nm;
  if y_defined p then as_int p else mret (s32 (priority fc + (mx + 1))).

(** [priority_map]: a map from priorities to names, kept in ascending order. *)
Fixpoint pm_insert (p : Z) (nm : str) (pm : list (Z * str)) : list (Z * str) :=
  match pm with
  | [] => [(p, nm)]
  | (q, m) :: rest => if p <? q then (p, nm) :: pm else (q, m) :: pm_insert p nm rest
  end.

Definition pm_count (p : Z) (pm : list (Z * str)) : bool := existsb (fun e => fst e =? p) pm.

(** [for (auto& p : filter_config_map)]: two filters of one priority abort. *)
Fixpoint assign_priorities (c : Config) (mx : Z) (names : list str) (pm : list (Z * str))
    : outcome (list (Z * str)) :=
  match names with
  | [] => mret pm
  | nm :: rest =>
      match filter_config_map c !! nm with
      | None => assign_priorities c mx rest pm
      | Some fc =>
          p ← priority_of c mx nm fc;
          if pm_count p pm then abort_traffic_server
          else assign_priorities c mx rest (pm_insert p nm pm)
      end
  end.

Definition priority_map (c : Config) : outcome (list (Z * str)) :=
  mx ← max_priority c;
  assign_priorities c mx sorted_filter_names [].

(** The part of [read_configuration] up to the building of the filters. *)
Definition read_configuration (fuel : nat) : outcome (Config * list (Z * str)) :=
  c ← file_or_abort
        (n ← LoadFile (banjax_config_dir ++ lit "/" ++ lit "banjax.conf"); process_config fuel n config0);
  pm ← priority_map c;
  mret (c, pm).

(** ** The order of the filters *)

Definition pm_lt (a b : Z * str) : Prop := fst a < fst b.

Lemma pm_insert_perm p nm pm : pm_insert p nm pm ≡ₚ (p, nm) :: pm.
Proof.
  induction pm as [|[q m] pm IH]; cbn [pm_insert]; [done|]. destruct (p <? q); [done|].
  rewrite IH. constructor.
Qed.

Lemma pm_insert_sorted p nm pm :
  pm_count p pm = false -> StronglySorted pm_lt pm -> StronglySorted pm_lt (pm_insert p nm pm).
Proof.
  induction pm as [|[q m] pm IH]; intros Hc Hs; cbn [pm_insert]; [repeat constructor|].
  cbn [pm_count existsb fst] in Hc. apply orb_false_iff in Hc as [Hq Hc].
  inversion Hs as [|? ? Hs' Hall]; subst. destruct (Z.ltb_spec p q) as [Hlt|Hge].
  - constructor; [done|]. constructor; [done|]. eapply Forall_impl; [exact Hall|].
    intros [r ?]. unfold pm_lt. cbn. lia.
  - apply Z.eqb_neq in Hq. constructor; [by apply IH|]. rewrite pm_insert_perm.
    constructor; [unfold pm_lt; cbn; lia|done].
Qed.

Lemma assign_priorities_spec c mx names pm pm' :
  StronglySorted pm_lt pm -> assign_priorities c mx names pm = Ret pm' ->
  StronglySorted pm_lt pm' /\
  map snd pm' ≡ₚ map snd pm ++ filter (fun nm => is_Some (filter_config_map c !! nm)) names.
Proof.
  revert pm; induction names as [|nm names IH]; intros pm Hs; cbn [assign_priorities].
  - intros [= <-]. split; [done|]. by rewrite app_nil_r.
  - rewrite filter_cons. destruct (filter_config_map c !! nm) as [fc|] eqn:Ef.
    2: { rewrite decide_False by (by intros []). by apply IH. }
    rewrite decide_True by done. run_outcome.
    destruct (priority_of c mx nm fc) as [p| |]; [|done..].
    destruct (pm_count p pm) eqn:Ec; [done|]. intros Hrun.
    destruct (IH _ (pm_insert_sorted _ _ _ Ec Hs) Hrun) as [Hs' Hp]. split; [done|].
    rewrite Hp, pm_insert_perm. cbn [map snd app]. apply Permutation_middle.
Qed.

(** The filters that are configured. *)
Definition configured (c : Config) : list str :=
  filter (fun nm => is_Some (filter_config_map c !! nm)) sorted_filter_names.

(** The order of the filters: when a configuration is accepted, every
    configured filter occurs in the priority map exactly once and nothing else
    does, in strictly increasing priority, which is the order in which the
    filters are built and run. *)
Lemma read_configuration_order (fuel : nat) (c : Config) (pm : list (Z * str)) :
  read_configuration fuel = Ret (c, pm) ->
  StronglySorted pm_lt pm /\ map snd pm ≡ₚ configured c /\ NoDup (map snd pm).
Proof.
  unfold read_configuration. run_outcome.
  destruct (file_or_abort _) as [c0| |]; [|done..]. unfold priority_map. run_outcome.
  destruct (max_priority c0) as [mx| |]; [|done..].
  destruct (assign_priorities c0 mx sorted_filter_names []) as [pm0| |] eqn:Ea; [|done..].
  intros [= -> ->]. destruct (assign_priorities_spec c mx _ [] pm (SSorted_nil _) Ea) as [Hs Hp].
  cbn [map app] in Hp. split; [done|]. split; [done|]. rewrite Hp. apply NoDup_filter.
  apply (bool_decide_unpack _). vm_compute. exact Logic.I.
Qed.

(** ** What the files say

    The entries of a file in the order of reading, an inclusion replaced by the
    entries of the included files. *)

Definition included (rec : node -> list (str * node)) (subs : list node) : list (str * node) :=
  concat (map (fun sub =>
    match as_string sub with
    | Ret s => match LoadFile (banjax_config_dir ++ lit "/" ++ s) with Ret n => rec n | _ => [] end
    | _ => []
    end) subs).

Definition entry (rec : node -> list (str * node)) (kv : node * node) : list (str * node) :=
  match as_string (fst kv) with
  | Ret nm => if bool_decide (nm = lit "include") then included rec (y_iter (snd kv)) else [(nm, snd kv)]
  | _ => []
  end.

Fixpoint entries (fuel : nat) (cfg : node) : list (str * node) :=
  match fuel with
  | O => []
  | S fuel' => concat (map (entry (entries fuel')) (y_items cfg))
  end.

(** The nodes of one name. *)
Definition named (nm : str) (l : list (str * node)) : list node :=
  map snd (filter (fun e => fst e = nm) l).

Definition nodes (c : Config) (nm : str) : list node :=
  match filter_config_map c !! nm with Some fc => config_node_list fc | None => [] end.

(** The configuration of every filter has grown by its entries in [l], and none
    is empty. *)
Definition grown (l : list (str * node)) (c c' : Config) : Prop :=
  (forall nm, is_filter nm = true -> nodes c' nm = nodes c nm ++ named nm l) /\
  ((forall nm fc, filter_config_map c !! nm = Some fc -> config_node_list fc <> []) ->
   forall nm fc, filter_config_map c' !! nm = Some fc -> config_node_list fc <> []).

Lemma named_app nm l l' : named nm (l ++ l') = named nm l ++ named nm l'.
Proof. unfold named. by rewrite filter_app, map_app. Qed.

Lemma grown_app l l' c1 c2 c3 : grown l c1 c2 -> grown l' c2 c3 -> grown (l ++ l') c1 c3.
Proof.
  intros [H1 F1] [H2 F2]. split; [|intros Hc; by apply F2, F1]. intros nm Hnm. by rewrite H2, H1, named_app, app_assoc.
Qed.

Lemma grown_other nm v c c' : is_filter nm = false -> filter_config_map c' = filter_config_map c ->
  grown [(nm, v)] c c'.
Proof.
  intros Hnm E. split; unfold nodes; rewrite E; [|done]. intros nm' Hnm'. unfold named.
  rewrite filter_cons_False; [by rewrite app_nil_r|]. cbn. intros ->. congruence.
Qed.

Lemma try_catch_Ret {A} p (m h : outcome A) a : try_catch p m h = Ret a -> m = Ret a \/ h = Ret a.
Proof. unfold try_catch. destruct m; [by left| |done]. destruct (p e); auto. Qed.

Lemma bind_Ret {A B} (m : outcome A) (k : A -> outcome B) b : m ≫= k = Ret b -> exists a, m = Ret a /\ k a = Ret b.
Proof. destruct m as [a| |]; cbn; [eauto|done..]. Qed.

Lemma add_filter_node_grown nm v seq c : grown [(nm, v)] c (snd (add_filter_node nm v seq c)).
Proof.
  unfold grown, nodes, add_filter_node, named. split.
  - intros nm' _. destruct (filter_config_map c !! nm) as [fc|] eqn:E; cbn [snd filter_config_map with_filters].
    all: destruct (decide (nm = nm')) as [<-|Hne]; [by rewrite lookup_insert_eq, E, filter_cons_True|].
    all: by rewrite lookup_insert_ne, filter_cons_False, app_nil_r.
  - intros Hf nm' fc'.
    destruct (filter_config_map c !! nm) as [fc|] eqn:E; cbn [snd filter_config_map with_filters];
      (intros [[<- <-]|[_ E']]%lookup_insert_Some; [|by eapply Hf]); cbn.
    + by intros [_ ?]%app_nil.
    + done.
Qed.

Lemma include_files_grown (rec : node -> Config -> outcome Config) (e : node -> list (str * node)) subs :
  (forall n c c', rec n c = Ret c' -> grown (e n) c c') ->
  forall c c', include_files rec subs c = Ret c' -> grown (included e subs) c c'.
Proof.
  intros He. induction subs as [|sub subs IH]; intros c c'; cbn [include_files].
  - intros [= <-]. split; [|done]. intros nm _. by rewrite app_nil_r.
  - intros (s & Es & (c1 & E1 & E2)%bind_Ret)%bind_Ret. apply try_catch_Ret in E1 as [E1|E1]; [|done].
    apply bind_Ret in E1 as (n & En & E1). unfold included. cbn [map concat]. rewrite Es, En.
    eapply grown_app; [by apply He|]. by apply IH.
Qed.

Lemma process_entry_grown rec e k v seq c seq' c' :
  (forall n c c', rec n c = Ret c' -> grown (e n) c c') ->
  process_entry rec k v seq c = Ret (seq', c') -> grown (entry e (k, v)) c c'.
Proof.
  intros He. unfold process_entry, entry. intros [E|E]%try_catch_Ret; [|done].
  apply bind_Ret in E as (nm & Ek & E). cbn [fst snd]. rewrite Ek.
  destruct (is_filter nm) eqn:Ef.
  { rewrite bool_decide_false by (by intros ->). injection E as E.
    pose proof (add_filter_node_grown nm v seq c) as Hg. by rewrite E in Hg. }
  destruct (bool_decide_reflect (nm = lit "swabber")) as [->|_].
  { injection E as <- <-. by apply grown_other. }
  destruct (bool_decide_reflect (nm = lit "priority")) as [->|_].
  { apply bind_Ret in E as (z & _ & E). destruct (negb _); [done|]. injection E as <- <-. by apply grown_other. }
  destruct (bool_decide_reflect (nm = lit "include")) as [->|_].
  { apply bind_Ret in E as (c1 & E1 & E). injection E as <- <-. by eapply include_files_grown. }
  destruct (bool_decide (nm = lit "kafka")).
  { injection E as <- <-. by apply grown_other. }
  do 2 (destruct (bool_decide (nm = _)); [apply bind_Ret in E as (z & _ & E); injection E as <- <-; by apply grown_other|]).
  done.
Qed.

(** What is read of the filters is what the files say. *)
Lemma process_config_grown fuel : forall cfg c c',
  process_config fuel cfg c = Ret c' -> grown (entries fuel cfg) c c'.
Proof.
  induction fuel as [|fuel IH]; intros cfg c c'; cbn [process_config entries]; [done|].
  set (c0 := with_remove _ _). assert (H0 : filter_config_map c0 = filter_config_map c) by done.
  generalize 0 at 1. revert H0. generalize c0. clear c0. revert c.
  induction (y_items cfg) as [|[k v] l IHl]; intros c c0 H0 seq; cbn [process_entries map concat].
  - intros [= <-]. split; unfold nodes; rewrite H0; [|done]. intros nm _. by rewrite app_nil_r.
  - intros ([seq1 c1] & E1 & E2)%bind_Ret. eapply grown_app; [|by eapply (IHl c1 c1)].
    apply (process_entry_grown _ (entries fuel)) in E1; [|done]. destruct E1 as [H1 F1].
    split; unfold nodes in *; rewrite <- H0; done.
Qed.

(** A filter is configured when a file names it. *)
Lemma configured_named fuel cfg c nm : process_config fuel cfg config0 = Ret c ->
  nm ∈ configured c <-> is_filter nm = true /\ nm ∈ map fst (entries fuel cfg).
Proof.
  intros [Hn Hf]%process_config_grown. unfold configured. rewrite list_elem_of_filter.
  assert (Hs : nm ∈ sorted_filter_names <-> is_filter nm = true).
  { unfold is_filter. rewrite bool_decide_eq_true. unfold sorted_filter_names, all_filters_names.
    rewrite !elem_of_cons. tauto. }
  rewrite Hs. split; (intros [H1 H2]; split; try done).
  - specialize (Hn nm H2). destruct H1 as [fc E]. specialize (Hf ltac:(done) nm fc E).
    unfold nodes in Hn. rewrite E in Hn. cbn in Hn. rewrite Hn in Hf. unfold named in Hf.
    destruct (filter _ _) as [|[nm' v] l] eqn:El; [done|].
    assert (Hin : (nm', v) ∈ filter (fun e => fst e = nm) (entries fuel cfg)) by (rewrite El; constructor).
    apply list_elem_of_filter in Hin as [<- Hin]. apply list_elem_of_fmap. by exists (nm', v).
  - specialize (Hn nm H1). apply list_elem_of_fmap in H2 as ([nm' v] & -> & Hin). cbn in *.
    unfold nodes in Hn. destruct (filter_config_map c !! nm') as [fc|]; [by eexists|].
    change (filter_config_map config0 !! nm') with (None : option FilterConfig) in Hn. cbn [app] in Hn.
    assert (Hv : v ∈ named nm' (entries fuel cfg)).
    { apply list_elem_of_fmap. exists (nm', v). split; [done|]. by apply list_elem_of_filter. }
    rewrite <- Hn in Hv. by apply elem_of_nil in Hv.
Qed.

End WithYaml.

(** ** Kafka commands *)

(** [from_json]: both fields, as strings; [None] for any exception. *)
Definition name_value (message : option json_object) : option (str * str) :=
  match message with
  | None => None
  | Some j =>
      match j !! lit "name", j !! lit "value" with
      | Some (JString n), Some (JString v) => Some (n, v)
      | _, _ => None
      end
  end.

Section Commands.
Context {I : Inet} `{Yaml} (read_file : str -> str) (banjax_dir : str).

(** [challenger] is the configuration of the challenger, [None] when there is
    none. *)
Definition kafka_message_consume (challenger : option node) (message : option json_object) : M unit :=
  match name_value message with
  | None => mret tt
  | Some (nm, value) =>
      match challenger with
      | None => mret tt
      | Some cfg =>
          if bool_decide (nm = lit "challenge_host") then
            ChallengerConfig.load_single_host_challenge read_file banjax_dir cfg value
          else if bool_decide (nm = lit "challenge_ip") then
            _ ← Reports.report_if_ip_in_database value;
            ChallengerConfig.load_single_ip_challenge read_file banjax_dir cfg value
          else mret tt
      end
  end.

(** [KafkaConsumer::msg_consume]: [None] is a timeout or an error of the
    consumer, [Some None] a payload that is not JSON. *)
Definition msg_consume (challenger : option node) (message : option (option (option json_object)))
    : M unit :=
  locked ← TSMutexLockTry;
  if negb locked then mret tt
  else
    match message with
    | None => mret tt
    | Some None => mret tt
    | Some (Some m) => kafka_message_consume challenger m
    end.
End Commands.

(** ** Status reports *)

Section Status.
Context `{Yaml} (host_name : str) (restart_time reload_time : Z) (metric : str -> option json).

Definition add_metrics (names : list str) (m : json_object) : json_object :=
  fold_left (fun acc nm => match metric (c_str nm) with Some v => <[nm := v]> acc | None => acc end)
    names m.

(** [challenger] is dereferenced without a test. *)
Definition report_status (challenger : bool) (kafka_conf : node) : M Z :=
  producer ← gets kafka_producer;
  if negb producer then mret (-1)
  else
    now ← time_now;
    if negb challenger then lift (Fault NullDeref)
    else
      hosts ← ChallengerConfig.dynamic_host_challenges_size;
      ips ← ChallengerConfig.dynamic_ip_challenges_size;
      s1 ← gets (fun w => IpDb.db_size (swabber_ip_db w));
      s2 ← gets (fun w => IpDb.db_size (challenger_ip_db w));
      s3 ← gets (fun w => IpDb.db_size (regex_manager_ip_db w));
      let message :=
        <[lit "regex_manager_ip_db_size" := JInt (Z.of_nat s3)]>
        (<[lit "challenger_ip_db_size" := JInt (Z.of_nat s2)]>
        (<[lit "swabber_ip_db_size" := JInt (Z.of_nat s1)]>
        (<[lit "reload_time" := JInt reload_time]>
        (<[lit "restart_time" := JInt restart_time]>
        (<[lit "timestamp" := JInt now]>
        (<[lit "num_of_ip_challenges" := JInt (Z.of_nat ips)]>
        (<[lit "num_of_host_challenges" := JInt (Z.of_nat hosts)]>
        (<[lit "name" := JString (lit "status")]>
        (<[lit "id" := JString host_name]> ∅))))))))) in
      has ← lift (y_has kafka_conf (lit "ats_metrics_to_report"));
      names ← lift (if (has : bool) then y_field as_strings kafka_conf (lit "ats_metrics_to_report")
                    else mret []);
      Reports.send_message (add_metrics names message).

Definition remove_expired (challenger : option Challenger.Challenger) : M Z :=
  match challenger with
  | None => mret (-1)
  | Some c => ChallengerConfig.remove_expired_challenges c
  end.
End Status.

(** ** What commands do *)

(** A command takes effect: once "challenge_host" was consumed for a host
    that has no challenge of its own on disk, the next request for the host
    meets the challenge of the template, stamped with the time of the command. *)
Lemma challenge_host_takes_effect {I : Inet} `{Yaml} (read_file : str -> str) (dir : str)
    (cfg template : node) (message : json_object) (domain ip : str) (spec : HostChallengeSpec)
    (c : Challenger.Challenger) (env : Env) (w : World) :
  name_value (Some message) = Some (lit "challenge_host", domain) ->
  y_get cfg (lit "dynamic_challenger_config") = Ret template ->
  ChallengerConfig.parse_fields read_file dir template (env_sec env (tick w)) = Ret spec ->
  Challenger.host_challenges_static c !! domain = None -> uncontended env ->
  exists w1 w2,
    kafka_message_consume read_file dir (Some cfg) (Some message) env w = (Ret tt, w1) /\
    Challenger.challenges_to_run c domain ip env w1 = (Ret (Some [spec]), w2) /\
    time_added spec = env_sec env (tick w).
Proof.
  intros Hm Ht Hp Hs Hl. unfold kafka_message_consume. rewrite Hm, bool_decide_true by done.
  unfold ChallengerConfig.load_single_host_challenge, ChallengerConfig.parse_single_challenge.
  rewrite M_bind_eq. cbn [lift]. rewrite Ht, M_bind_eq, M_bind_eq. cbn [time_now query lift].
  rewrite Hp, M_bind_eq. cbn [gets modify]. do 2 eexists. split; [reflexivity|].
  unfold Challenger.challenges_to_run. rewrite Hs. rewrite M_bind_eq. cbn [TSMutexLockTry query].
  rewrite Hl. cbn [negb]. rewrite M_bind_eq. cbn [gets host_to_challenge_dynamic with_tick with_host_dynamic].
  rewrite lookup_insert_eq. split; [reflexivity|].
  unfold ChallengerConfig.parse_fields in Hp. run_outcome in Hp. by repeat (case_match; try done); simplify_eq.
Qed.

Definition template_config : tree :=
  TMap [(lit "dynamic_challenger_config",
    TMap [(lit "name", TScalar (lit "dyn")); (lit "challenge_type", TScalar (lit "sha_inverse"));
          (lit "validity_period", TScalar (lit "60"))])].

Definition sample_message : json_object :=
  <[lit "name" := JString (lit "challenge_host")]> (<[lit "value" := JString (lit "x.org")]> ∅).

Lemma challenge_host_takes_effect_witness :
  exists w1 w2,
    kafka_message_consume (I := Util.sample_inet) (H := tree_yaml) (fun _ => lit "page") (lit "/etc")
      (Some template_config) (Some sample_message) SwabberOps.sample_env (SwabberOps.sample_world 0)
    = (Ret tt, w1) /\
    Challenger.challenges_to_run (Challenger.MkChallenger [] 0 (Some 50) ∅ None None) (lit "x.org")
      (lit "10.0.0.1") SwabberOps.sample_env w1
    = (Ret (Some [MkSpec (lit "dyn") CHALLENGE_SHA_INVERSE (lit "page") 0 60 [] [] [] [] 1000]), w2) /\
    1000 = env_sec SwabberOps.sample_env (tick (SwabberOps.sample_world 0)).
Proof.
  apply (challenge_host_takes_effect (I := Util.sample_inet) (H := tree_yaml) (fun _ => lit "page")
    (lit "/etc") template_config
    (assoc (lit "dynamic_challenger_config") (match template_config with TMap l => l | _ => [] end))
    sample_message); try (vm_compute; reflexivity).
Defined.

End Banjax.
