(* ===== verification/Frames.v ===== *)
(** * Frames: what the handlers of a transaction can touch

    A relation between stores that the basic updates of the filters respect is
    respected by every event of a transaction, by the commands and by the
    periodic work.  [Plugin] uses it for the life of the sockets. *)

From S2P Require Import Prelude Base64 Cookie CookieHash Util Print GmTime WhiteList IpDb Yaml Float World.
From S2P Require Import Swabber BotSniffer WhiteLister Denialator RegexManager Reports ChallengeChecks.
From S2P Require Import Challenger ChallengerConfig Muncher Transaction Lifecycle Banjax.

Local Open Scope Z_scope.

Module Frames.
Import Print Transaction Lifecycle.

(** The updates of the store that the handlers are made of, besides bans, the
    records of the bot sniffer and the walk through the rules of a regex manager,
    which is an assumption on the filters. *)
Class Respects (R : World -> World -> Prop) : Prop := {
  respects_preorder :: PreOrder R;
  respects_tick : forall w n, R w (with_tick n w);
  respects_swabber_db : forall w d, R w (with_swabber_ip_db d w);
  respects_challenger_db : forall w d, R w (with_challenger_ip_db d w);
  respects_kafka : forall w j, R w (with_trace (trace w ++ [KafkaSend j]) w);
  respects_ban : forall ip reason, preserves R (SwabberOps.ban ip reason);
  respects_sniffer : forall (ssl : OpenSSL) parts, preserves R (BotSniffer.on_http_close parts)
}.

(** Commands and sweeps also change the run-time challenges. *)
Class RespectsTables (R : World -> World -> Prop) : Prop := {
  tables_respects :: Respects R;
  respects_hosts : forall w d, R w (with_host_dynamic d w);
  respects_ips : forall w d, R w (with_ip_dynamic d w)
}.

Section Frame.
Context (R : World -> World -> Prop) `{!Respects R}.

Lemma handler_query {A} (f : Env -> nat -> A) : preserves R (query f).
Proof. intros env w. apply respects_tick. Qed.
Lemma handler_db_get {V} (d : V) get ip : preserves R (db_get d get ip).
Proof. intros env w. apply respects_tick. Qed.
Lemma frame_challenger_set ip v : preserves R (challenger_db_set ip v).
Proof.
  intros env w. unfold challenger_db_set. rewrite db_set_eq.
  etransitivity; [apply respects_tick|apply respects_challenger_db].
Qed.
Lemma frame_challenger_drop ip : preserves R (challenger_db_drop ip).
Proof.
  intros env w. unfold challenger_db_drop. rewrite db_drop_eq.
  etransitivity; [apply respects_tick|apply respects_challenger_db].
Qed.
Lemma frame_ban ip reason : preserves R (SwabberOps.ban ip reason).
Proof. apply respects_ban. Qed.
Lemma frame_sniffer {ssl : OpenSSL} parts : preserves R (BotSniffer.on_http_close parts).
Proof. apply respects_sniffer. Qed.
Lemma frame_kafka j : preserves R (emit (KafkaSend j)).
Proof. intros env w. apply respects_kafka. Qed.
Hint Resolve handler_query handler_db_get frame_challenger_set frame_challenger_drop
  frame_ban frame_sniffer frame_kafka : frame.

Lemma frame_send m : preserves R (Reports.send_message m).
Proof. unfold Reports.send_message. frame. Qed.
Hint Resolve frame_send : frame.

Lemma frame_if_in_db ip : preserves R (Reports.report_if_ip_in_database ip).
Proof. unfold Reports.report_if_ip_in_database. frame. Qed.
Hint Resolve frame_if_in_db : frame.

Section Filters.
Context {crypto : Crypto} {I : Inet} {R2 : Re2} {ssl : OpenSSL}.

Lemma frame_report1 c host ip b : preserves R (Challenger.report1 c host ip b).
Proof. unfold Challenger.report1, Reports.report_pass_or_failure. frame. Qed.
Lemma frame_check_cookie c answer parts ch : preserves R (Challenger.check_cookie c answer parts ch).
Proof. unfold Challenger.check_cookie, Challenger.report2, Reports.report_pass_or_failure2. frame. Qed.
Lemma frame_report_failure ch parts : preserves R (Challenger.report_failure ch parts).
Proof. unfold Challenger.report_failure, Challenger.count_failure. frame. Qed.
Lemma frame_report_success ip : preserves R (Challenger.report_success ip).
Proof. unfold Challenger.report_success. frame. Qed.
Hint Resolve frame_report1 frame_check_cookie frame_report_failure frame_report_success : frame.

Lemma frame_run_challenge c ch host ip parts : preserves R (Challenger.run_challenge c ch host ip parts).
Proof.
  unfold Challenger.run_challenge, Challenger.run_captcha, Challenger.run_sha_inverse,
    Challenger.run_auth, Challenger.failure_response. frame.
Qed.
Hint Resolve frame_run_challenge : frame.

Lemma frame_run_challenges c l host ip parts : preserves R (Challenger.run_challenges c l host ip parts).
Proof. induction l as [|ch l IH]; cbn [Challenger.run_challenges]; frame. Qed.
Hint Resolve frame_run_challenges : frame.

Lemma frame_challenger c parts : preserves R (Challenger.on_http_request c parts).
Proof. unfold Challenger.on_http_request, Challenger.challenges_to_run. frame. Qed.

Hint Resolve frame_challenger : frame.

(** The walk through the rules of a filter that has rules. *)
Definition rules_respect (f : filter) : Prop :=
  match f with
  | FRegexManager m => forall ip ats host, preserves R (RegexManager.try_match m ip ats host)
  | _ => True
  end.

Lemma frame_filter f parts : rules_respect f -> preserves R (on_http_request f parts).
Proof.
  intros Hf. destruct f; cbn [on_http_request]; [|frame..|unfold Denialator.on_http_request; frame|frame].
  cbn [rules_respect] in Hf. unfold RegexManager.on_http_request. frame.
Qed.
Hint Resolve frame_filter : frame.

Lemma frame_run_filters l : Forall rules_respect l ->
  forall parts made, preserves R (run_filters l parts made).
Proof. induction 1 as [|f l Hf _ IH]; intros parts made; cbn [run_filters]; frame. Qed.
Hint Resolve frame_run_filters : frame.

Lemma queue_respects q l : Forall rules_respect l -> Forall rules_respect (task_queue q l).
Proof.
  rewrite !Forall_forall. intros Hl f Hin. apply Hl. by apply list_elem_of_filter in Hin as [_ Hin].
Qed.
Hint Resolve queue_respects : frame.

Lemma frame_request txn l m : Forall rules_respect l -> preserves R (handle_request txn l m).
Proof. intros Hl. unfold handle_request. frame. Qed.

Lemma frame_generate_response c parts r : preserves R (Challenger.generate_response c parts r).
Proof.
  unfold Challenger.generate_response, Challenger.generate_html, Challenger.captcha_page,
    Challenger.answer_page. frame.
Qed.
Hint Resolve frame_generate_response : frame.

Lemma frame_generate l parts e r : preserves R (generate l parts e r).
Proof. unfold generate. frame. Qed.

Lemma frame_append_headers txn hs : forall m, preserves R (append_headers txn hs m).
Proof. induction hs as [|h hs IH]; intros m; cbn [append_headers]; unfold append_header; frame. Qed.
Hint Resolve frame_generate frame_append_headers : frame.

Lemma frame_response txn l r m : preserves R (handle_response txn l r m).
Proof. unfold handle_response, set_status, append_header. frame. Qed.

Lemma frame_run_close l parts : preserves R (run_close l parts).
Proof. induction l as [|f l IH]; cbn [run_close]; unfold on_http_close; frame. Qed.
Hint Resolve frame_request frame_response frame_run_close : frame.

(** Every event of a transaction. *)
Lemma frame_change txn l ev td : Forall rules_respect l -> preserves R (handle_transaction_change txn l ev td).
Proof. intros Hl. destruct ev; unfold handle_transaction_change, handle_http_close; frame. Qed.
End Filters.

Lemma frame_status `{Yaml} host restart reload metric b conf :
  preserves R (Banjax.report_status host restart reload metric b conf).
Proof.
  unfold Banjax.report_status, ChallengerConfig.dynamic_host_challenges_size,
    ChallengerConfig.dynamic_ip_challenges_size. frame.
Qed.
End Frame.

(** Commands and sweeps. *)
Section Tables.
Context (R : World -> World -> Prop) `{!RespectsTables R}.

Lemma frame_hosts d : preserves R (modify (with_host_dynamic d)).
Proof. intros env w. apply respects_hosts. Qed.
Lemma frame_ips d : preserves R (modify (with_ip_dynamic d)).
Proof. intros env w. apply respects_ips. Qed.
Ltac frame_tables :=
  pose proof (@handler_query R _); pose proof (@frame_if_in_db R _);
  pose proof frame_hosts; pose proof frame_ips; frame.

Lemma frame_consume {I : Inet} `{Yaml} read_file dir cfg message :
  preserves R (Banjax.kafka_message_consume read_file dir cfg message).
Proof.
  unfold Banjax.kafka_message_consume, ChallengerConfig.load_single_host_challenge,
    ChallengerConfig.load_single_ip_challenge, ChallengerConfig.parse_single_challenge. frame_tables.
Qed.

Lemma frame_msg_consume {I : Inet} `{Yaml} read_file dir cfg message :
  preserves R (Banjax.msg_consume read_file dir cfg message).
Proof. unfold Banjax.msg_consume. pose proof (@frame_consume I H). frame_tables. Qed.

Lemma frame_expired c : preserves R (Banjax.remove_expired c).
Proof. unfold Banjax.remove_expired, ChallengerConfig.remove_expired_challenges. frame_tables. Qed.
End Tables.

(** A relation that ignores the rates. *)
Lemma ignores_rates {R2 : Re2} R `{!Respects R} :
  (forall w d, R w (with_regex_manager_ip_db d w)) -> forall l, Forall (rules_respect R) l.
Proof.
  intros Hr l. apply Forall_forall. intros [m| | | |] _; cbn [rules_respect]; try done.
  intros ip ats host. unfold RegexManager.try_match.
  assert (Hs : forall v, preserves R (regex_db_set ip v)).
  { intros v env w. unfold regex_db_set. rewrite db_set_eq.
    etransitivity; [apply respects_tick|apply Hr]. }
  pose proof (@handler_query R _). pose proof (@handler_db_get R _).
  generalize (None (A := list RegexState)) as st.
  induction (RegexManager.rated_banning_regexes m) as [|r rules IH]; intros st; cbn [RegexManager.try_rules];
    unfold RegexManager.retrieve; frame.
Qed.

End Frames.
