(* ===== verification/Leases.v ===== *)
(** * Leases: challenges that come over Kafka and expire

    A command on the Kafka topic puts a host or an address under a challenge, and
    a periodic sweep ends the challenges that are too old (src/banjax.cpp,
    src/challenger.cpp).  The tables of the challenger are a table of leases: a
    command starts one or renews it, a sweep ends those that are overdue, and
    nothing else touches them, least of all the transactions in between. *)

From S2P Require Import Prelude Base64 Cookie CookieHash Util Print GmTime WhiteList IpDb Yaml Float World.
From S2P Require Import Swabber BotSniffer WhiteLister Denialator RegexManager Reports ChallengeChecks.
From S2P Require Import Challenger ChallengerConfig Muncher Transaction Lifecycle Banjax Frames.

Local Open Scope Z_scope.

Module Leases.
Import Print Challenger ChallengerConfig Banjax Transaction Lifecycle.

(** ** Leases *)

(** Since when each host and each address is under a challenge. *)
Record leases := MkLeases { hosts : gmap str Z; ips : gmap str Z }.

Inductive operation := ChallengeHost (domain : str) | ChallengeIp (ip : str) | Sweep.

Definition in_time (now expiry : Z) (l : gmap str Z) : gmap str Z :=
  base.filter (fun kv => now - snd kv <= expiry) l.

Definition perform (expiry now : Z) (o : operation) (a : leases) : leases :=
  match o with
  | ChallengeHost d => MkLeases (<[d := now]> (hosts a)) (ips a)
  | ChallengeIp ip => MkLeases (hosts a) (<[ip := now]> (ips a))
  | Sweep => MkLeases (in_time now expiry (hosts a)) (in_time now expiry (ips a))
  end.

(** ** Tables *)

(** The clock during one operation. *)
Definition moment (env : Env) (now : Z) : Prop := 0 <= now < 2 ^ 62 /\ forall n, env_sec env n = now.

Definition same_tables (w w' : World) : Prop :=
  host_to_challenge_dynamic w' = host_to_challenge_dynamic w /\
  ip_to_challenge_dynamic w' = ip_to_challenge_dynamic w.

#[global] Instance same_tables_preorder : PreOrder same_tables.
Proof. split; [done|]. intros w1 w2 w3 [? ?] [? ?]. split; congruence. Qed.

#[global] Instance same_tables_respects : Frames.Respects same_tables.
Proof.
  split; try done; [apply _|intros ip reason; by apply SwabberOps.ban_frame; [apply _|..]|].
  intros ssl' parts.
  assert (Hq : forall A (f : Env -> nat -> A), preserves same_tables (query f)) by (by intros A f env w).
  assert (Hs : forall s, preserves same_tables (BotSniffer.set_socket s)) by (by intros s env w).
  assert (He : forall e, preserves same_tables (emit e)) by (by intros e env w).
  unfold BotSniffer.on_http_close, BotSniffer.ensure_bound, BotSniffer.send_zmq_mess,
    BotSniffer.send_zmq_encrypted_message, BotSniffer.gcm_encrypt, BotSniffer.check_api. frame.
Qed.

Section Challenges.
Context {crypto : Crypto} {I : Inet} {R2 : Re2} {ssl : OpenSSL} `{Yaml}.
Context (read_file : str -> str) (dir : str) (cfg template : node) (c : Challenger).
Context (expiry : Z) (spec : Z -> HostChallengeSpec).

(** The configuration has a template that can be read, and an expiry time. *)
Hypothesis template_of : y_get cfg (lit "dynamic_challenger_config") = Ret template.
Hypothesis template_ok : forall now, parse_fields read_file dir template now = Ret (spec now).
Hypothesis expiry_of : dynamic_expiry_seconds c = Some expiry.

Definition command (nm value : str) : json_object :=
  <[lit "name" := JString nm]> (<[lit "value" := JString value]> ∅).

(** What the plugin runs. *)
Definition execute (o : operation) : M unit :=
  match o with
  | ChallengeHost d =>
      kafka_message_consume read_file dir (Some cfg) (Some (command (lit "challenge_host") d))
  | ChallengeIp ip => kafka_message_consume read_file dir (Some cfg) (Some (command (lit "challenge_ip") ip))
  | Sweep => _ ← remove_expired (Some c); mret tt
  end.

(** The tables hold the leases, each with the challenge of the template. *)
Definition holds (a : leases) (w : World) : Prop :=
  (forall k, host_to_challenge_dynamic w !! k = spec <$> hosts a !! k) /\
  (forall k, ip_to_challenge_dynamic w !! k = spec <$> ips a !! k) /\
  map_Forall (fun _ t => 0 <= t < 2 ^ 62) (hosts a) /\ map_Forall (fun _ t => 0 <= t < 2 ^ 62) (ips a).

Lemma time_of_spec now : time_added (spec now) = now.
Proof.
  pose proof (template_ok now) as Hp. unfold parse_fields in Hp. run_outcome in Hp.
  repeat (case_match; try done); by injection Hp as <-.
Qed.

Lemma name_value_command nm value : name_value (Some (command nm value)) = Some (nm, value).
Proof. unfold name_value, command. by rewrite lookup_insert_eq, lookup_insert_ne, lookup_insert_eq. Qed.

Lemma insert_leases (now : Z) (m : gmap str HostChallengeSpec) (l : gmap str Z) (k : str) :
  (forall k, m !! k = spec <$> l !! k) ->
  forall k', <[k := spec now]> m !! k' = spec <$> (<[k := now]> l : gmap str Z) !! k'.
Proof. intros Hm k'. rewrite !lookup_insert, Hm. by case_decide. Qed.

Lemma fresh_leases (now : Z) (m : gmap str HostChallengeSpec) (l : gmap str Z) (k : str) :
  0 <= now < 2 ^ 62 -> map_Forall (fun _ t => 0 <= t < 2 ^ 62) l ->
  m !! k = spec <$> l !! k -> keep_fresh now expiry (m !! k) = spec <$> in_time now expiry l !! k.
Proof.
  intros Hnow Hl ->. unfold in_time. rewrite map_lookup_filter. destruct (l !! k) as [t|] eqn:E; [|done].
  assert (Ht : 0 <= t < 2 ^ 62) by exact (Hl k t E). cbn. unfold expired. rewrite time_of_spec.
  assert (Hs : s64 (now - t) = now - t) by (unfold s64; rewrite Z.mod_small; lia). rewrite Hs.
  destruct (Z.ltb_spec expiry (now - t)); [by rewrite option_guard_False by lia|].
  by rewrite option_guard_True by lia.
Qed.

Lemma in_time_bounds (now : Z) (l : gmap str Z) : map_Forall (fun _ t => 0 <= t < 2 ^ 62) l ->
  map_Forall (fun _ t => 0 <= t < 2 ^ 62) (in_time now expiry l).
Proof. intros Hl k t [Hk _]%map_lookup_filter_Some. by apply (Hl k). Qed.

(** An operation of the plugin does to the tables what it does to the leases. *)
Lemma execute_holds o a env w (now : Z) : moment env now -> holds a w ->
  exists w', execute o env w = (Ret tt, w') /\ holds (perform expiry now o a) w'.
Proof.
  intros [Hnow Ht] (Hh & Hi & Bh & Bi). destruct o as [d|ip|]; cbn [execute perform].
  - unfold kafka_message_consume. rewrite name_value_command, bool_decide_true by done.
    unfold load_single_host_challenge, parse_single_challenge. rewrite M_bind_eq. cbn [lift].
    rewrite template_of, M_bind_eq, M_bind_eq. cbn [time_now query lift]. rewrite Ht, template_ok, M_bind_eq.
    cbn [gets modify]. eexists. split; [reflexivity|]. split_and!; try done; cbn [hosts ips].
    + by apply insert_leases.
    + by apply map_Forall_insert_2.
  - unfold kafka_message_consume. rewrite name_value_command, bool_decide_false, bool_decide_true by done.
    rewrite M_bind_eq. pose proof (Frames.frame_if_in_db same_tables ip env w) as [Fh Fi].
    destruct (Reports.if_in_db_returns ip env w) as [r Hr].
    destruct (Reports.report_if_ip_in_database ip env w) as [o1 w1]. cbn in Hr, Fh, Fi. subst o1.
    unfold load_single_ip_challenge, parse_single_challenge. rewrite M_bind_eq. cbn [lift].
    rewrite template_of, M_bind_eq, M_bind_eq. cbn [time_now query lift]. rewrite Ht, template_ok, M_bind_eq.
    cbn [gets modify]. eexists. split; [reflexivity|]. split_and!; try done; cbn [hosts ips].
    + intros k. cbn. by rewrite Fh.
    + apply insert_leases. intros k. cbn. by rewrite Fi.
    + by apply map_Forall_insert_2.
  - rewrite M_bind_eq. unfold remove_expired.
    destruct (remove_expired_exact c expiry env w [] expiry_of) as (w' & E & _). rewrite E.
    exists w'. split; [reflexivity|].
    split_and!; cbn [hosts ips]; try by apply in_time_bounds.
    all: intros k; destruct (remove_expired_exact c expiry env w k expiry_of) as (w2 & E2 & L1 & L2);
      rewrite E in E2; injection E2 as <-; rewrite ?L1, ?L2, Ht; by apply fresh_leases.
Qed.

(** The plugin starts with empty tables; it takes commands, sweeps, and handles
    the events of transactions. *)
Inductive reachable : leases -> World -> Prop :=
  | reach_start w : host_to_challenge_dynamic w = ∅ -> ip_to_challenge_dynamic w = ∅ -> reachable (MkLeases ∅ ∅) w
  | reach_operation a w o env now w' :
      reachable a w -> moment env now -> execute o env w = (Ret tt, w') -> reachable (perform expiry now o a) w'
  | reach_event a w txn l ev td env r w' :
      reachable a w -> handle_transaction_change txn l ev td env w = (r, w') -> reachable a w'.

Lemma reachable_holds a w : reachable a w -> holds a w.
Proof.
  induction 1 as [w Hh Hi|a w o env now w' _ IH Hm E|a w txn l ev td env r w' _ IH E].
  - split_and!; [intros k; rewrite ?Hh, ?Hi, !lookup_empty; done..|apply map_Forall_empty|apply map_Forall_empty].
  - destruct (execute_holds o a env w now Hm IH) as (w2 & E2 & H2). rewrite E in E2. by injection E2 as <-.
  - pose proof (Frames.frame_change same_tables txn l ev td (Frames.ignores_rates same_tables ltac:(done) l) env w)
      as [Fh Fi]. rewrite E in Fh, Fi. cbn in Fh, Fi. destruct IH as (Hh & Hi & B). split_and!.
    + intros k. by rewrite Fh.
    + intros k. by rewrite Fi.
    + apply B.
    + apply B.
Qed.

(** The challenges of a request for a host without challenges of its own: that
    of the lease of the host or, if there is none, that of the address, which is
    put into the list twice. *)
Definition leased (a : leases) (host ip : str) : option (list HostChallengeSpec) :=
  match hosts a !! host, ips a !! ip with
  | Some t, _ => Some [spec t]
  | None, Some t => Some [spec t; spec t]
  | None, None => None
  end.

(** C7. Challenges at run time are leases: for a configuration with a template
    that can be read and an expiry time, over every order of commands, sweeps
    and events of transactions, a request for a host without challenges on disk,
    on free locks, meets exactly the challenges of the leases: of its host, or
    else of its address, since the last command that named it, unless a sweep
    found the lease older than the expiry time. *)
Theorem challenges_are_leases (a : leases) (w : World) (host ip : str) (env : Env) :
  reachable a w -> host_challenges_static c !! host = None -> uncontended env ->
  fst (challenges_to_run c host ip env w) = Ret (leased a host ip) /\
  forall o env' now, moment env' now ->
    exists w', execute o env' w = (Ret tt, w') /\ reachable (perform expiry now o a) w'.
Proof.
  intros Hr Hs Hl. pose proof (reachable_holds a w Hr) as Ha. split.
  - destruct Ha as (Hh & Hi & _). unfold challenges_to_run, leased. rewrite Hs, M_bind_eq.
    cbn [TSMutexLockTry query]. rewrite Hl. cbn [negb]. rewrite M_bind_eq.
    cbn [gets host_to_challenge_dynamic with_tick]. rewrite Hh. destruct (hosts a !! host) as [t|]; [done|].
    cbn [fmap option_fmap option_map]. rewrite M_bind_eq. cbn [TSMutexLockTry query]. rewrite Hl. cbn [negb].
    rewrite M_bind_eq. cbn [gets ip_to_challenge_dynamic with_tick]. rewrite Hi. by destruct (ips a !! ip).
  - intros o env' now Hm. destruct (execute_holds o a env' w now Hm Ha) as (w' & E & _).
    exists w'. split; [done|]. by eapply reach_operation.
Qed.

End Challenges.

(** ** A sample: a host that is challenged at 1000, for fifty seconds *)

Section Sample.
#[local] Existing Instances sample_crypto Util.sample_inet literal_re2 BotSniffer.sample_ssl.

Definition page_file (name : str) : str := lit "page".
Definition fifty_seconds : Challenger := MkChallenger [] 0 (Some 50) ∅ None None.
Definition dynamic_spec (now : Z) : HostChallengeSpec :=
  MkSpec (lit "dyn") CHALLENGE_SHA_INVERSE (lit "page") 0 60 [] [] [] [] now.

Definition still (t : Z) : Env :=
  MkEnv (fun _ => t) (fun _ => 0) (fun _ => true) (fun _ => true) (fun _ => true) (fun _ => []) (fun _ => true).

Abbreviation challenged_once :=
  (snd (execute (H := tree_yaml) page_file (lit "/etc") template_config fifty_seconds (ChallengeHost (lit "x.org")) (still 1000)
     (SwabberOps.sample_world 0))).

Lemma challenges_are_leases_witness :
  fst (challenges_to_run fifty_seconds (lit "x.org") (lit "10.0.0.1") (still 1050) challenged_once)
  = Ret (Some [dynamic_spec 1000]) /\
  exists w', execute (H := tree_yaml) page_file (lit "/etc") template_config fifty_seconds Sweep (still 1051) challenged_once
    = (Ret tt, w') /\
    reachable (H := tree_yaml) page_file (lit "/etc") template_config fifty_seconds 50
      (perform 50 1051 Sweep (perform 50 1000 (ChallengeHost (lit "x.org")) (MkLeases ∅ ∅))) w'.
Proof.
  destruct (challenges_are_leases (H := tree_yaml) page_file (lit "/etc") template_config
    (assoc (lit "dynamic_challenger_config") (match template_config with TMap l => l | _ => [] end))
    fifty_seconds 50 dynamic_spec eq_refl ltac:(by intros now; vm_compute) eq_refl
    (perform 50 1000 (ChallengeHost (lit "x.org")) (MkLeases ∅ ∅)) challenged_once
    (lit "x.org") (lit "10.0.0.1") (still 1050)) as [H1 H2].
  - eapply (reach_operation _ _ _ _ _ _ (SwabberOps.sample_world 0) _ (still 1000)).
    + by apply reach_start.
    + split; [lia|done].
    + vm_compute. reflexivity.
  - reflexivity.
  - done.
  - split.
    + rewrite H1. vm_compute. reflexivity.
    + apply (H2 Sweep (still 1051) 1051). split; [lia|done].
Defined.
End Sample.
End Leases.
