(* ===== verification/Startup.v ===== *)
(** * Startup: building the filters, and the reload (src/banjax.cpp, src/banjax_filter.h)

    A filter's configuration may be spread over several files: its nodes are
    merged into one.  The filters are built in the order of their priorities and
    share one white list; then the Kafka producer is made.  A reload builds all
    of it anew, on the sockets of the old state. *)

From Stdlib Require Import Sorted.
From S2P Require Import Prelude Base64 Cookie CookieHash Util GmTime WhiteList IpDb Yaml Float World.
From S2P Require Import Swabber BotSniffer WhiteLister Denialator RegexManager Reports Kafka.
From S2P Require Import ChallengeChecks Challenger ChallengerConfig Muncher Transaction Banjax.

Local Open Scope Z_scope.

Module Startup.
Import Banjax Transaction.

(** ** Merging configuration nodes

    A [YAML::Node] is a handle: [result = a] makes [result] another name of the
    node [a], which is then changed in place.  Nothing reads the nodes of the
    files again once they are merged, so the value of the result is what counts. *)

Section Merge.
Context `{Yaml}.

(** [for (auto n0 : b) result[key] = merge_nodes(result[key], n0.second)]. *)
Fixpoint merge_items (rec : node -> node -> outcome node) (l : list (node * node)) (result : node)
    : outcome node :=
  match l with
  | [] => Ret result
  | (k, v) :: rest =>
      cur ← y_get result (y_scalar k);
      v' ← rec cur v;
      result' ← y_set result (y_scalar k) v';
      merge_items rec rest result'
  end.

Fixpoint push_all (l : list node) (result : node) : outcome node :=
  match l with
  | [] => Ret result
  | v :: rest => result' ← y_push result v; push_all rest result'
  end.

(** The fuel bounds the depth of [b]. *)
Fixpoint merge_nodes (fuel : nat) (a b : node) : outcome node :=
  match fuel with
  | O => Fault StackOverflow
  | S fuel' =>
      if IsMap b then merge_items (merge_nodes fuel') (y_items b) a
      else if IsSequence a && IsSequence b then push_all (y_iter b) a
      else Ret b
  end.

(** The loop of the constructor of [BanjaxFilter], from an empty node. *)
Fixpoint merge_all (fuel : nat) (l : list node) (cfg : node) : outcome node :=
  match l with
  | [] => Ret cfg
  | n :: rest => cfg' ← merge_nodes fuel cfg n; merge_all fuel rest cfg'
  end.

Definition filter_cfg (fuel : nat) (fc : FilterConfig) : outcome node :=
  merge_all fuel (config_node_list fc) node_null.

(** *** What merging keeps *)

Lemma push_all_iter l : forall a r, IsSequence a = true -> push_all l a = Ret r ->
  IsSequence r = true /\ y_iter r = y_iter a ++ l.
Proof.
  induction l as [|v l IH]; intros a r Ha; cbn [push_all]; [intros [= <-]; by rewrite app_nil_r|].
  cbv [mbind outcome_bind]. destruct (y_push a v) as [a'| |] eqn:E; [|done..]. intros Hr.
  destruct (y_push_iter _ _ _ Ha E) as [Ha' Hi]. destruct (IH _ _ Ha' Hr) as [? ->].
  by rewrite Hi, <- app_assoc.
Qed.

(** The keys of a map, as text. *)
Definition keys (b : node) : list str := map (fun kv => y_scalar (fst kv)) (y_items b).

Lemma merge_items_other rec l : forall a r k, IsSequence a = false ->
  merge_items rec l a = Ret r -> k ∉ map (fun kv => y_scalar (fst kv)) l -> y_get r k = y_get a k.
Proof.
  induction l as [|[k' v] l IH]; intros a r k Ha; cbn [merge_items]; [by intros [= <-]|].
  cbv [mbind outcome_bind]. destruct (y_get a _) as [cur| |]; [|done..].
  destruct (rec cur v) as [v'| |]; [|done..]. destruct (y_set a _ v') as [a'| |] eqn:Es; [|done..].
  intros Hr Hk. cbn [map fst] in Hk. apply not_elem_of_cons in Hk as [Hk Hl].
  rewrite (IH a' r k (y_set_map _ _ _ _ Es) Hr Hl). by eapply y_set_other.
Qed.

Lemma merge_items_at rec l : forall a r k v, IsSequence a = false ->
  NoDup (map (fun kv => y_scalar (fst kv)) l) ->
  merge_items rec l a = Ret r -> (k, v) ∈ l ->
  exists cur x, y_get a (y_scalar k) = Ret cur /\ rec cur v = Ret x /\ y_get r (y_scalar k) = Ret x.
Proof.
  induction l as [|[k' v'] l IH]; intros a r k v Ha Hnd Hr Hin; [by apply elem_of_nil in Hin|].
  cbn [map fst] in Hnd. apply NoDup_cons in Hnd as [Hk' Hnd].
  cbn [merge_items] in Hr. revert Hr. cbv [mbind outcome_bind].
  destruct (y_get a _) as [cur| |] eqn:Eg; [|done..].
  destruct (rec cur v') as [x| |] eqn:Er; [|done..]. destruct (y_set a _ x) as [a'| |] eqn:Es; [|done..].
  intros Hr. pose proof (y_set_map _ _ _ _ Es) as Ha'.
  apply elem_of_cons in Hin as [[= -> ->]|Hin].
  - exists cur, x. split; [done|]. split; [done|].
    rewrite (merge_items_other rec l a' r _ Ha' Hr Hk'). by eapply y_set_get.
  - destruct (IH a' r k v Ha' Hnd Hr Hin) as (cur' & x' & Hg & Hx & Hr').
    exists cur', x'. split; [|done]. rewrite <- Hg. symmetry. eapply y_set_other; [done|done|].
    intros E. apply Hk'. rewrite <- E. apply list_elem_of_fmap. by exists (k, v).
Qed.

(** Merging two configurations of a filter: the entries of the second map
    are merged into those of the first under the same key, all other entries of
    the first stay; a sequence is appended to a sequence; anything else is
    replaced. *)
Lemma merge_nodes_spec (fuel : nat) (a b r : node) :
  merge_nodes (S fuel) a b = Ret r ->
  (IsMap b = true -> IsSequence a = false -> NoDup (keys b) ->
     (forall k, k ∉ keys b -> y_get r k = y_get a k) /\
     (forall k v, (k, v) ∈ y_items b -> exists cur x,
        y_get a (y_scalar k) = Ret cur /\ merge_nodes fuel cur v = Ret x /\ y_get r (y_scalar k) = Ret x)) /\
  (IsMap b = false -> IsSequence b = true -> IsSequence a = true -> y_iter r = y_iter a ++ y_iter b) /\
  (IsMap b = false -> IsSequence a && IsSequence b = false -> r = b).
Proof.
  intros Hr. cbn [merge_nodes] in Hr. split_and!.
  - intros Hb Ha Hnd. rewrite Hb in Hr. split.
    + intros k Hk. by eapply merge_items_other.
    + intros k v Hin. by eapply merge_items_at.
  - intros Hb Hsb Ha. rewrite Hb, Ha, Hsb in Hr. by eapply push_all_iter.
  - intros Hb Hs. rewrite Hb, Hs in Hr. congruence.
Qed.

(** The rules of several sequences, one after the other. *)
Lemma merge_all_iter fuel l : forall cfg r, IsSequence cfg = true ->
  Forall (fun n => IsMap n = false /\ IsSequence n = true) l ->
  merge_all (S fuel) l cfg = Ret r -> y_iter r = y_iter cfg ++ concat (map y_iter l).
Proof.
  induction l as [|n l IH]; intros cfg r Hc Hf; cbn [merge_all].
  - intros [= <-]. by rewrite app_nil_r.
  - inversion Hf as [|? ? [Hm Hs] Hf']; subst. cbn [merge_nodes]. rewrite Hm, Hc, Hs. cbn [andb].
    cbv [mbind outcome_bind]. destruct (push_all _ cfg) as [cfg'| |] eqn:E; [|done..].
    apply push_all_iter in E as [Hc' Hi]; [|done]. intros Hr. rewrite (IH _ _ Hc' Hf' Hr), Hi.
    cbn [map concat]. by rewrite <- app_assoc.
Qed.

End Merge.

(** *** The depth of a tree is fuel enough *)

Fixpoint depth (t : tree) : nat :=
  match t with
  | TMap l => S (fold_right (fun kv n => Nat.max (depth (snd kv)) n) 0%nat l)
  | _ => 1%nat
  end.

Lemma depth_entry (l : list (str * tree)) k v : (k, v) ∈ l ->
  (depth v <= fold_right (fun kv n => Nat.max (depth (snd kv)) n) 0 l)%nat.
Proof.
  induction l as [|[k' v'] l IH]; [by intros ?%elem_of_nil|].
  intros [[= -> ->]|Hin]%elem_of_cons; cbn [fold_right snd]; [lia|]. specialize (IH Hin). lia.
Qed.

Lemma merge_items_ext `{Yaml} (rec rec' : node -> node -> outcome node) l :
  (forall a k v, (k, v) ∈ l -> rec a v = rec' a v) ->
  forall a, merge_items rec l a = merge_items rec' l a.
Proof.
  induction l as [|[k v] l IH]; intros He a; cbn [merge_items]; [done|].
  cbv [mbind outcome_bind]. destruct (y_get a _) as [cur| |]; [|done..].
  rewrite (He cur k v) by constructor. destruct (rec' cur v) as [x| |]; [|done..].
  destruct (y_set a _ x) as [a'| |]; [|done..]. apply IH. intros b k' v' Hin. eapply He. by right.
Qed.

Lemma merge_tree_fuel n : forall m (a b : tree), (depth b <= n)%nat -> (depth b <= m)%nat ->
  merge_nodes (H := tree_yaml) n a b = merge_nodes (H := tree_yaml) m a b.
Proof.
  induction n as [|n IH]; intros m a b Hn Hm.
  - destruct b; cbn in Hn; lia.
  - destruct m as [|m]; [destruct b; cbn in Hm; lia|]. cbn [merge_nodes].
    destruct b as [| | |l]; try done. cbn [IsMap tree_yaml].
    apply (merge_items_ext (H := tree_yaml)). intros a' k v Hin.
    cbn [y_items tree_yaml] in Hin. apply list_elem_of_fmap in Hin as ([k' v'] & [= -> ->] & Hin).
    apply depth_entry in Hin. cbn [depth] in Hn, Hm. cbn [snd]. apply IH; lia.
Qed.

(** ** Files that include files *)

Section Include.
Context `{Yaml} (banjax_config_dir : str) (LoadFile : str -> outcome node).

(** The files a configuration includes directly. *)
Definition includes (n : node) (path : str) : Prop :=
  exists key value sub s, (key, value) ∈ y_items n /\ as_string key = Ret (lit "include") /\
    sub ∈ y_iter value /\ as_string sub = Ret s /\ path = banjax_config_dir ++ lit "/" ++ s.

Lemma include_files_ext rec rec' subs :
  (forall sub s n c, sub ∈ subs -> as_string sub = Ret s ->
     LoadFile (banjax_config_dir ++ lit "/" ++ s) = Ret n -> rec n c = rec' n c) ->
  forall c, include_files banjax_config_dir LoadFile rec subs c
            = include_files banjax_config_dir LoadFile rec' subs c.
Proof.
  induction subs as [|sub subs IH]; intros He c; cbn [include_files]; [done|].
  cbv [mbind outcome_bind]. destruct (as_string sub) as [s| |] eqn:Es; [|done..].
  destruct (LoadFile _) as [n| |] eqn:El.
  - rewrite (He sub s n c) by (done || constructor).
    destruct (file_or_abort (rec' n c)) as [c'| |]; [|done..].
    apply IH. intros sub' s' n' c'' Hin. apply He. by right.
  - destruct (file_or_abort _) as [c'| |]; [|done..].
    apply IH. intros sub' s' n' c'' Hin. apply He. by right.
  - destruct (file_or_abort _) as [c'| |]; [|done..].
    apply IH. intros sub' s' n' c'' Hin. apply He. by right.
Qed.

Lemma process_entries_ext rec rec' n l :
  (forall path n' c, includes n path -> LoadFile path = Ret n' -> rec n' c = rec' n' c) ->
  (forall kv, kv ∈ l -> kv ∈ y_items n) ->
  forall seq c, process_entries banjax_config_dir LoadFile rec l seq c
                = process_entries banjax_config_dir LoadFile rec' l seq c.
Proof.
  intros He. induction l as [|[k v] l IH]; intros Hsub seq c; cbn [process_entries]; [done|].
  assert (E : process_entry banjax_config_dir LoadFile rec k v seq c
              = process_entry banjax_config_dir LoadFile rec' k v seq c).
  { unfold process_entry. f_equal. cbv [mbind outcome_bind].
    destruct (as_string k) as [nm| |] eqn:Ek; [|done..].
    destruct (is_filter nm); [reflexivity|].
    destruct (bool_decide (nm = lit "swabber")); [reflexivity|].
    destruct (bool_decide (nm = lit "priority")); [reflexivity|].
    destruct (bool_decide_reflect (nm = lit "include")) as [->|_]; [|reflexivity].
    rewrite (include_files_ext rec rec'); [done|]. intros sub s n' c' Hin Hs.
    apply He. exists k, v, sub, s. split_and!; try done. apply Hsub. constructor. }
  rewrite E. cbv [mbind outcome_bind].
  destruct (process_entry _ _ rec' _ _ _ _) as [[seq' c']| |]; [|reflexivity..].
  apply IH. intros kv Hin. apply Hsub. by right.
Qed.

Lemma more_fuel (rank : str -> nat) (path : str) (n : node) (c : Config) (fuel fuel' : nat) :
  (forall p q n, LoadFile p = Ret n -> includes n q -> (rank q < rank p)%nat) ->
  LoadFile path = Ret n -> (rank path < fuel)%nat -> (rank path < fuel')%nat ->
  process_config banjax_config_dir LoadFile fuel n c = process_config banjax_config_dir LoadFile fuel' n c.
Proof.
  intros Hrank. revert path n c fuel'. induction fuel as [|fuel IH]; intros path n c fuel' Hl Hf Hf'; [lia|].
  destruct fuel' as [|fuel']; [lia|]. cbn [process_config].
  apply (process_entries_ext _ _ n); [|done]. intros q n' c' Hi Hq.
  pose proof (Hrank path q n Hl Hi). apply (IH q); [done|lia|lia].
Qed.

(** The calls do not nest too deep. *)
Definition deep {A} (m : outcome A) : Prop := m = Fault StackOverflow.

Lemma deep_bind {A B} (m : outcome A) (k : A -> outcome B) :
  deep (m ≫= k) -> deep m \/ exists a, m = Ret a /\ deep (k a).
Proof. unfold deep. destruct m as [a| |]; cbn; [eauto|done|]. intros [= ->]. by left. Qed.

Lemma deep_try {A} p (m h : outcome A) : deep (try_catch p m h) -> deep m \/ deep h.
Proof. unfold deep, try_catch. destruct m; [by left| |by left]. destruct (p e); auto. Qed.

Hypothesis LoadFile_no_fault : forall p f, LoadFile p <> Fault f.

Lemma include_files_deep rec subs : forall c, deep (include_files banjax_config_dir LoadFile rec subs c) ->
  exists sub s n c', sub ∈ subs /\ as_string sub = Ret s /\
    LoadFile (banjax_config_dir ++ lit "/" ++ s) = Ret n /\ deep (rec n c').
Proof.
  induction subs as [|sub subs IH]; intros c; cbn [include_files]; [done|].
  intros [E|(s & Es & E)]%deep_bind; [by destruct (as_string_no_fault sub StackOverflow)|].
  apply deep_bind in E as [E|(c' & _ & E)].
  - apply deep_try in E as [E|E]; [|done].
    apply deep_bind in E as [E|(n & En & E)]; [by apply LoadFile_no_fault in E|].
    exists sub, s, n, c. split_and!; try done. constructor.
  - destruct (IH _ E) as (sub' & s' & n' & c'' & Hin & H'). exists sub', s', n', c''. split; [by right|done].
Qed.

Lemma process_entry_deep rec k v seq c : deep (process_entry banjax_config_dir LoadFile rec k v seq c) ->
  as_string k = Ret (lit "include") /\ exists sub s n c', sub ∈ y_iter v /\ as_string sub = Ret s /\
    LoadFile (banjax_config_dir ++ lit "/" ++ s) = Ret n /\ deep (rec n c').
Proof.
  unfold process_entry. intros [E|E]%deep_try; [|done].
  apply deep_bind in E as [E|(nm & Ek & E)]; [by destruct (as_string_no_fault k StackOverflow)|].
  destruct (is_filter nm); [done|]. destruct (bool_decide (nm = lit "swabber")); [done|].
  destruct (bool_decide (nm = lit "priority")).
  { apply deep_bind in E as [E|(z & _ & E)]; [by destruct (y_size_no_fault (priorities c) StackOverflow)|].
    by destruct (negb _). }
  destruct (bool_decide_reflect (nm = lit "include")) as [->|_].
  { apply deep_bind in E as [E|(c' & _ & E)]; [|done]. split; [done|]. by eapply include_files_deep. }
  destruct (bool_decide (nm = lit "kafka")); [done|].
  destruct (bool_decide (nm = _)).
  { apply deep_bind in E as [E|(z & _ & E)]; [by destruct (as_int_no_fault v StackOverflow)|done]. }
  destruct (bool_decide (nm = _)); [|done].
  apply deep_bind in E as [E|(z & _ & E)]; [by destruct (as_int_no_fault v StackOverflow)|done].
Qed.

Lemma process_entries_deep rec l : forall seq c, deep (process_entries banjax_config_dir LoadFile rec l seq c) ->
  exists k v sub s n c', (k, v) ∈ l /\ as_string k = Ret (lit "include") /\ sub ∈ y_iter v /\
    as_string sub = Ret s /\ LoadFile (banjax_config_dir ++ lit "/" ++ s) = Ret n /\ deep (rec n c').
Proof.
  induction l as [|[k v] l IH]; intros seq c; cbn [process_entries]; [done|].
  intros [E|([seq' c'] & _ & E)]%deep_bind.
  - apply process_entry_deep in E as (Ek & sub & s & n & c' & Hin & H'). exists k, v, sub, s, n, c'.
    split; [by left|done].
  - destruct (IH _ _ E) as (k' & v' & sub & s & n & c'' & Hin & H'). exists k', v', sub, s, n, c''.
    split; [by right|done].
Qed.

(** C31. Reading the configuration ends: when no file includes itself through
    others, that is when files can be ranked so that each includes only files of
    lower rank, reading a file never nests deeper than one more than its rank:
    with that much fuel the result is a configuration, an exception or an abort
    and never the end of the fuel, and more fuel does not change it.  Opening a
    file may throw, but not run into undefined behaviour. *)
Theorem include_fuel_enough (rank : str -> nat) (path : str) (n : node) (c : Config) (fuel : nat) :
  (forall p q n, LoadFile p = Ret n -> includes n q -> (rank q < rank p)%nat) ->
  LoadFile path = Ret n -> (rank path < fuel)%nat ->
  process_config banjax_config_dir LoadFile fuel n c <> Fault StackOverflow /\
  forall fuel', (rank path < fuel')%nat ->
    process_config banjax_config_dir LoadFile fuel n c = process_config banjax_config_dir LoadFile fuel' n c.
Proof.
  intros Hrank Hl Hf. split; [|intros fuel' Hf'; by eapply more_fuel].
  revert path n c Hl Hf. induction fuel as [|fuel IH]; intros path n c Hl Hf; [lia|]. cbn [process_config].
  intros (k & v & sub & s & n' & c' & Hin & Hk & Hsub & Hs & Hn & Hd)%process_entries_deep.
  assert (Hi : includes n (banjax_config_dir ++ lit "/" ++ s)) by (by exists k, v, sub, s).
  pose proof (Hrank path _ n Hl Hi). eapply (IH (banjax_config_dir ++ lit "/" ++ s)); [exact Hn|lia|exact Hd].
Qed.

End Include.

(** ** Building the filters *)

Definition filter_name (f : filter) : str :=
  match f with
  | FRegexManager _ => REGEX_BANNER_FILTER_NAME
  | FChallenger _ => CHALLENGER_FILTER_NAME
  | FWhiteLister _ => WHITE_LISTER_FILTER_NAME
  | FDenialator _ => DENIALATOR_FILTER_NAME
  | FBotSniffer => BOT_SNIFFER_FILTER_NAME
  end.

(** A filter holds a pointer to a white list, or a null pointer.  There is one
    list; what a filter sees through its pointer when it runs is what that list
    holds once all filters are built. *)
Definition seen_through (p : option GlobalWhiteList.GlobalWhiteList) (wl : GlobalWhiteList.GlobalWhiteList)
    : option GlobalWhiteList.GlobalWhiteList := (fun _ => wl) <$> p.

Definition share (wl : GlobalWhiteList.GlobalWhiteList) (f : filter) : filter :=
  match f with
  | FChallenger c =>
      FChallenger (Challenger.MkChallenger (Challenger.hashed_key c)
        (Challenger.number_of_trailing_zeros c) (Challenger.dynamic_expiry_seconds c)
        (Challenger.host_challenges_static c) (seen_through (Challenger.global_white_list c) wl)
        (Challenger.banjax c))
  | FWhiteLister _ => FWhiteLister wl
  | FDenialator d =>
      FDenialator (Denialator.MkDenialator (seen_through (Denialator.global_white_list d) wl)
                     (Denialator.banning_grace_period d))
  | _ => f
  end.

(** The list a filter consults, if it consults one. *)
Definition white_list_of (f : filter) : option (option GlobalWhiteList.GlobalWhiteList) :=
  match f with
  | FChallenger c => Some (Challenger.global_white_list c)
  | FWhiteLister wl => Some (Some wl)
  | FDenialator d => Some (Denialator.global_white_list d)
  | _ => None
  end.

(** [catch (YAML::Exception& e) { abort_traffic_server(); }]: other exceptions
    pass. *)
Definition is_yaml (e : exn) : bool :=
  bool_decide (e ∈ [YAML_RepresentationException; YAML_Exception; YAML_BadFile; YAML_ParserException]).

Definition catch_yaml {A} (m : M A) : M A := fun env w =>
  match m env w with
  | (Throw e, w') => if is_yaml e then (abort_traffic_server, w') else (Throw e, w')
  | r => r
  end.

Section Build.
Context {crypto : Crypto} {I : Inet} `{Yaml} (read_file : str -> str) (banjax_config_dir : str).
Context (host_name : str) (LoadFile : str -> outcome node) (conf_set : str -> str -> bool) (fuel : nat).

(** One constructor; the white lister fills the shared list. *)
Definition construct_filter (nm : str) (cfg : node) (wl : GlobalWhiteList.GlobalWhiteList)
    (botsniffer_socket_reuse : option Socket) : M (filter * GlobalWhiteList.GlobalWhiteList) :=
  if bool_decide (nm = REGEX_BANNER_FILTER_NAME) then
    m ← lift (RegexManager.load_config cfg); mret (FRegexManager m, wl)
  else if bool_decide (nm = CHALLENGER_FILTER_NAME) then
    c ← ChallengerConfig.load_config read_file banjax_config_dir cfg (Some wl) (Some host_name);
    mret (FChallenger c, wl)
  else if bool_decide (nm = WHITE_LISTER_FILTER_NAME) then
    wl' ← lift (WhiteLister.load_config cfg wl); mret (FWhiteLister wl', wl')
  else if bool_decide (nm = BOT_SNIFFER_FILTER_NAME) then
    _ ← BotSniffer.construct botsniffer_socket_reuse cfg; mret (FBotSniffer, wl)
  else if bool_decide (nm = DENIALATOR_FILTER_NAME) then
    sw ← gets swabber; mret (FDenialator (Denialator.make sw (Some wl)), wl)
  else lift abort_traffic_server.

(** The node list of a filter; the base class merges it before anything else of
    the constructor runs. *)
Definition make_filter (c : Config) (nm : str) (wl : GlobalWhiteList.GlobalWhiteList)
    (botsniffer_socket_reuse : option Socket) : M (filter * node * GlobalWhiteList.GlobalWhiteList) :=
  catch_yaml
    (cfg ← lift (filter_cfg fuel (default (MkFilterConfig [] 0) (filter_config_map c !! nm)));
     '(f, wl') ← construct_filter nm cfg wl botsniffer_socket_reuse;
     mret (f, cfg, wl')).

(** The filters in order, the list, and the configuration the challenger keeps
    for the commands that arrive later. *)
Fixpoint build_loop (c : Config) (pm : list (Z * str)) (wl : GlobalWhiteList.GlobalWhiteList)
    (botsniffer_socket_reuse : option Socket)
    : M (list filter * GlobalWhiteList.GlobalWhiteList * option node) :=
  match pm with
  | [] => mret ([], wl, None)
  | (_, nm) :: rest =>
      '(f, cfg, wl1) ← make_filter c nm wl botsniffer_socket_reuse;
      '(fs, wl2, ch) ← build_loop c rest wl1
         (if bool_decide (nm = BOT_SNIFFER_FILTER_NAME) then None else botsniffer_socket_reuse);
      mret (f :: fs, wl2, if bool_decide (nm = CHALLENGER_FILTER_NAME) then Some cfg else ch)
  end.

Definition build_filters (c : Config) (pm : list (Z * str)) (botsniffer_socket_reuse : option Socket)
    : M (list filter * option node) :=
  '(fs, wl, ch) ← build_loop c pm GlobalWhiteList.empty botsniffer_socket_reuse;
  mret (map (share wl) fs, ch).

(** What a [Banjax] object keeps besides the shared store.  The consumer is
    started or reloaded on [kafka], or shut down. *)
Record Banjax := MkBanjax {
  config : Config;
  filters : list filter;
  challenger_cfg : option node;
  kafka : option node;
  report_status_action : option TSAction;        (* None: nullptr *)
  remove_expired_challenges_action : option TSAction
}.

Definition make_kafka (kafka_conf : node) : M (option node) :=
  has ← lift (y_has kafka_conf (lit "metadata.broker.list"));
  if (has : bool) then
    created ← query env_api;
    _ ← lift (Kafka.KafkaProducer conf_set created kafka_conf);
    _ ← modify (with_kafka_producer true);
    mret (Some kafka_conf)
  else _ ← modify (with_kafka_producer false); mret None.

(** [TSContScheduleEvery], which may give no action. *)
Definition TSContScheduleEvery (a : TSAction) : M (option TSAction) :=
  ok ← query env_api;
  if (ok : bool) then _ ← emit (Scheduled a); mret (Some a) else mret None.

(** A period of 0 seconds in the configuration stands for the default. *)
Definition schedule (task : periodic) (secs dflt : Z) : M (option TSAction) :=
  TSContScheduleEvery (MkAction task ((if secs =? 0 then dflt else secs) * 1000)).

Definition read_configuration (botsniffer_socket_reuse : option Socket) : M Banjax :=
  '(c, pm) ← lift (Banjax.read_configuration banjax_config_dir LoadFile fuel);
  _ ← SwabberOps.load_config (swabber_conf c);
  '(fs, ch) ← build_filters c pm botsniffer_socket_reuse;
  k ← make_kafka (kafka_conf c);
  report ← schedule ReportStatus (report_status_interval_seconds c) 15;
  remove ← schedule RemoveExpired (remove_expired_challenges_interval_seconds c) 16;
  mret (MkBanjax c fs ch k report remove).

(** The destructor: the actions it cancels. *)
Definition destroy (b : Banjax) : list TSAction :=
  match report_status_action b with Some a => [a] | None => [] end
  ++ match remove_expired_challenges_action b with Some a => [a] | None => [] end.

(** The plugin: the current object, when the plugin started and when it was
    last reloaded. *)
Record BanjaxPlugin := MkPlugin { current_state : Banjax; restart_time : Z; reload_time : Z }.

(** ** Reload *)

(** The members of a new [Banjax]: new databases, the swabber on the socket
    handed over. *)
Definition fresh_world (s : option Socket) (w : World) : World :=
  MkWorld (tick w) ∅ ∅ ∅ (SwabberOps.init s) bot_sniffer0 ∅ ∅ false (trace w).

(** What the old object gives up. *)
Definition release_sockets : M (option Socket * option Socket) :=
  swab_s ← SwabberOps.release_socket;
  snif_s ← BotSniffer.release_socket;
  mret (swab_s, snif_s).

(** The constructor of [Banjax]: the members are initialised, then the
    configuration is read. *)
Definition new_banjax (swabber_socket botsniffer_socket : option Socket) : M Banjax :=
  _ ← modify (fresh_world swabber_socket);
  read_configuration botsniffer_socket.

(** [BanjaxPlugin::reload_config]: the old object gives up its sockets, the new
    one is configured on them. *)
Definition reload_config (p : BanjaxPlugin) : M BanjaxPlugin :=
  now ← time_now;
  '(swab_s, snif_s) ← release_sockets;
  b ← new_banjax swab_s snif_s;
  mret (MkPlugin b (restart_time p) now).

(** The constructor of [BanjaxPlugin]: the first [Banjax] has no sockets to take
    over, and the times are recorded after it is made. *)
Definition start_plugin : M BanjaxPlugin :=
  b ← new_banjax None None;
  restart ← time_now;
  reload ← time_now;
  mret (MkPlugin b restart reload).

(** [TSPluginInit]: the version is checked, a directory given as argument must be
    one, the plugin is registered; then the plugin starts from that directory.
    [stat]: [None] when the path cannot be examined, else whether it is a
    directory. *)
Definition plugin_dir (ts_version : option str) (default_dir : str) (argv : list str)
    (stat : str -> option bool) (registered : bool) : outcome str :=
  if Util.check_ts_version ts_version =? 0 then abort_traffic_server
  else
    dir ← match argv with
          | _ :: d :: _ =>
              match stat d with
              | None | Some false => abort_traffic_server
              | Some true => Ret d
              end
          | _ => Ret default_dir
          end;
    if (registered : bool) then Ret dir else abort_traffic_server.

(** [handle_management]: any other event aborts. *)
Definition handle_management (mgmt_update : bool) (p : BanjaxPlugin) : M BanjaxPlugin :=
  if mgmt_update then reload_config p else lift abort_traffic_server.

(** The periodic actions: they act on the plugin's current object, and on none
    while the plugin is not there. *)
Definition report_status_g (metric : str -> option json) (g_banjax_plugin : option BanjaxPlugin) : M Z :=
  match g_banjax_plugin with
  | None => mret (-1)
  | Some p =>
      let b := current_state p in
      Banjax.report_status host_name (restart_time p) (reload_time p) metric
        (bool_decide (is_Some (find_challenger (filters b)))) (kafka_conf (config b))
  end.

Definition remove_expired_challenges_g (g_banjax_plugin : option BanjaxPlugin) : M Z :=
  match g_banjax_plugin with
  | None => mret (-1)
  | Some p => Banjax.remove_expired (find_challenger (filters (current_state p)))
  end.

(** ** What was built *)

Lemma catch_yaml_Ret {A} (m : M A) env w a w' :
  catch_yaml m env w = (Ret a, w') -> m env w = (Ret a, w').
Proof. unfold catch_yaml. destruct (m env w) as [[x|e|f] w1]; [done| |done]. by case_match. Qed.

(** The nodes of a filter, merged. *)
Definition merged (c : Config) (nm : str) : outcome node :=
  filter_cfg fuel (default (MkFilterConfig [] 0) (filter_config_map c !! nm)).

Lemma make_filter_Ret c nm wl sock env w f cfg wl' w' :
  make_filter c nm wl sock env w = (Ret (f, cfg, wl'), w') ->
  merged c nm = Ret cfg /\ construct_filter nm cfg wl sock env w = (Ret (f, wl'), w').
Proof.
  intros E%catch_yaml_Ret. revert E. rewrite M_bind_eq. cbn [lift]. unfold merged.
  destruct (filter_cfg _ _) as [cfg'| |]; [|done..]. rewrite M_bind_eq.
  destruct (construct_filter _ _ _ _ _ _) as [[[f' wl'']| |] w1] eqn:E; [|done..].
  intros [= <- <- <- <-]. done.
Qed.

Lemma challenger_pointer cfg wl env w c w' :
  ChallengerConfig.load_config read_file banjax_config_dir cfg wl (Some host_name) env w = (Ret c, w') ->
  Challenger.global_white_list c = wl.
Proof.
  unfold ChallengerConfig.load_config. rewrite M_bind_eq. cbn [lift]. destruct (y_get cfg _); [|done..].
  rewrite M_bind_eq. destruct (ChallengerConfig.load_challenges _ _ _ _ _ _) as [[m| |] w1]; [|done..].
  rewrite M_bind_eq. cbn [lift]. destruct (y_field as_string cfg _); [|done..].
  rewrite M_bind_eq. cbn [lift]. destruct (y_field as_uint cfg _); [|done..].
  rewrite M_bind_eq. cbn [lift]. destruct (ChallengerConfig.load_dynamic cfg); [|done..]. by intros [= <- _].
Qed.

(** A constructor makes the filter of that name with a pointer to the list, if
    it consults one; the list changes only by the white lister, which fills it. *)
Lemma construct_filter_spec nm cfg wl sock env w f wl' w' :
  construct_filter nm cfg wl sock env w = (Ret (f, wl'), w') ->
  filter_name f = nm /\ (forall x, white_list_of f = Some x -> is_Some x) /\
  (if bool_decide (nm = WHITE_LISTER_FILTER_NAME) then WhiteLister.load_config cfg wl = Ret wl' else wl' = wl).
Proof.
  unfold construct_filter.
  destruct (bool_decide_reflect (nm = REGEX_BANNER_FILTER_NAME)) as [->|_].
  { rewrite M_bind_eq. cbn [lift]. destruct (RegexManager.load_config cfg); [|done..].
    by intros [= <- <- <-]. }
  destruct (bool_decide_reflect (nm = CHALLENGER_FILTER_NAME)) as [->|_].
  { rewrite M_bind_eq. destruct (ChallengerConfig.load_config _ _ _ _ _ _ _) as [[ch| |] w1] eqn:E; [|done..].
    apply challenger_pointer in E. intros [= <- <- <-]. split; [done|]. split; [|done].
    cbn. rewrite E. by intros x [= <-]. }
  destruct (bool_decide_reflect (nm = WHITE_LISTER_FILTER_NAME)) as [->|_].
  { rewrite M_bind_eq. cbn [lift]. destruct (WhiteLister.load_config cfg wl) as [x| |] eqn:E; [|done..].
    intros [= <- <- <-]. split; [done|]. split; [|done]. by intros y [= <-]. }
  destruct (bool_decide_reflect (nm = BOT_SNIFFER_FILTER_NAME)) as [->|_].
  { rewrite M_bind_eq. destruct (BotSniffer.construct _ _ _ _) as [[[]| |] w1]; [|done..].
    by intros [= <- <- <-]. }
  destruct (bool_decide_reflect (nm = DENIALATOR_FILTER_NAME)) as [->|_]; [|done].
  rewrite M_bind_eq. cbn [gets]. intros [= <- <- <-]. split; [done|]. split; [|done]. by intros x [= <-].
Qed.

(** A filter comes from the constructor of its name, run on its merged nodes. *)
Definition built_from (c : Config) (f : filter) : Prop :=
  exists cfg wl sock env w wl' w',
    merged c (filter_name f) = Ret cfg /\ construct_filter (filter_name f) cfg wl sock env w = (Ret (f, wl'), w').

Lemma build_loop_spec c pm : forall wl sock env w fs wl' ch w',
  NoDup (map snd pm) -> build_loop c pm wl sock env w = (Ret (fs, wl', ch), w') ->
  map filter_name fs = map snd pm /\ Forall (built_from c) fs /\
  (if bool_decide (WHITE_LISTER_FILTER_NAME ∈ map snd pm)
   then exists cfg, merged c WHITE_LISTER_FILTER_NAME = Ret cfg /\ WhiteLister.load_config cfg wl = Ret wl'
   else wl' = wl).
Proof.
  induction pm as [|[p nm] pm IH]; intros wl sock env w fs wl' ch w' Hnd; cbn [build_loop].
  - by intros [= <- <- _ _].
  - cbn [map snd] in Hnd. apply NoDup_cons in Hnd as [Hnm Hnd]. rewrite M_bind_eq.
    destruct (make_filter _ _ _ _ _ _) as [[[[f cfg] wl1]| |] w1] eqn:E1; [|done..].
    apply make_filter_Ret in E1 as [Hm E1]. pose proof (construct_filter_spec _ _ _ _ _ _ _ _ _ E1) as (Hf & _ & Hwl).
    rewrite M_bind_eq.
    destruct (build_loop _ _ _ _ _ _) as [[[[fs' wl2] ch']| |] w2] eqn:E2; [|done..].
    apply IH in E2 as (Hfs & Hb & Hwl2); [|done]. intros [= <- <- _ _].
    cbn [map snd]. split; [by rewrite Hf, Hfs|]. split.
    { constructor; [|done]. rewrite <- Hf in Hm, E1. by exists cfg, wl, sock, env, w, wl1, w1. }
    destruct (bool_decide_reflect (nm = WHITE_LISTER_FILTER_NAME)) as [->|Hne].
    + rewrite bool_decide_true by constructor. rewrite bool_decide_false in Hwl2 by done. subst wl2. by exists cfg.
    + subst wl1. destruct (bool_decide_reflect (WHITE_LISTER_FILTER_NAME ∈ map snd pm)) as [Hin|Hin].
      * rewrite bool_decide_true by (by right). done.
      * rewrite bool_decide_false; [done|]. by intros [?|?]%elem_of_cons.
Qed.

(** Scheduling only talks to Traffic Server. *)
Definition scheduled_as (o : option TSAction) : list event := map Scheduled (option_list o).

Lemma schedule_run task secs dflt env w :
  exists o, schedule task secs dflt env w
  = (Ret o, with_trace (trace w ++ scheduled_as o) (with_tick (S (tick w)) w)).
Proof.
  unfold schedule, TSContScheduleEvery. run_M. destruct (env_api env (tick w)); run_M.
  - by eexists (Some _).
  - exists None. cbn. by rewrite app_nil_r.
Qed.

Lemma share_name wl f : filter_name (share wl f) = filter_name f.
Proof. by destruct f. Qed.

(** What a filter that consults a list sees through its pointer. *)
Lemma share_white_list c wl f x : built_from c f -> white_list_of (share wl f) = Some x -> x = Some wl.
Proof.
  intros (cfg & wl0 & sock & env & w & wl' & w' & _ & (_ & Hp & _)%construct_filter_spec).
  destruct f as [m|ch|wl1|d|]; cbn in *; try done; intros [= <-]; try done.
  - by destruct (Hp _ eq_refl) as [y ->].
  - by destruct (Hp _ eq_refl) as [y ->].
Qed.

(** The main file. *)
Definition main_path : str := banjax_config_dir ++ lit "/" ++ lit "banjax.conf".

(** C29. The filters of an accepted configuration: each filter that the main file
    names, or a file it includes, is built exactly once, and no other, in strictly
    ascending priority; each by the constructor of its name from all the nodes the
    files have for it, merged in the order of reading; and all that consult a white
    list have a pointer to one and the same list, which holds what the white
    lister put there from its nodes, wherever it stands in the order, or nothing
    if there is no white lister. *)
Theorem filters_built (sock : option Socket) (env : Env) (w w' : World) (b : Banjax) :
  read_configuration sock env w = (Ret b, w') ->
  exists main c pm wl,
    LoadFile main_path = Ret main /\ Banjax.read_configuration banjax_config_dir LoadFile fuel = Ret (c, pm) /\
    StronglySorted pm_lt pm /\ map filter_name (filters b) = map snd pm /\ NoDup (map filter_name (filters b)) /\
    (forall nm, nm ∈ map filter_name (filters b) <->
       is_filter nm = true /\ nm ∈ map fst (entries banjax_config_dir LoadFile fuel main)) /\
    (forall nm, is_filter nm = true ->
       nodes c nm = named nm (entries banjax_config_dir LoadFile fuel main)) /\
    (exists fs, filters b = map (share wl) fs /\ Forall (built_from c) fs) /\
    (forall f x, f ∈ filters b -> white_list_of f = Some x -> x = Some wl) /\
    (if bool_decide (WHITE_LISTER_FILTER_NAME ∈ map filter_name (filters b))
     then exists cfg, merged c WHITE_LISTER_FILTER_NAME = Ret cfg /\
            WhiteLister.load_config cfg GlobalWhiteList.empty = Ret wl
     else wl = GlobalWhiteList.empty).
Proof.
  unfold read_configuration, build_filters. rewrite M_bind_eq. cbn [lift].
  destruct (Banjax.read_configuration _ _ _) as [[c pm]| |] eqn:Ec; [|done..].
  apply read_configuration_order in Ec as Ho. destruct Ho as (Hs & Hp & Hnd). rewrite M_bind_eq.
  destruct (SwabberOps.load_config _ _ _) as [[[]| |] w1]; [|done..]. do 2 rewrite M_bind_eq.
  destruct (build_loop _ _ _ _ _ _) as [[[[fs wl] ch]| |] w2] eqn:E; [|done..]. cbn [mret M_ret]. rewrite M_bind_eq.
  destruct (make_kafka _ _ _) as [[k| |] w3]; [|done..]. rewrite M_bind_eq.
  edestruct schedule_run as [o1 ->]. rewrite M_bind_eq. edestruct schedule_run as [o2 ->]. intros [= <- _].
  destruct (build_loop_spec _ _ _ _ _ _ _ _ _ _ Hnd E) as (Hn & Hb & Hwl). cbn [filters].
  assert (Hm : map filter_name (map (share wl) fs) = map snd pm).
  { rewrite <- Hn, map_map. apply map_ext, share_name. }
  assert (exists main, LoadFile main_path = Ret main /\
            process_config banjax_config_dir LoadFile fuel main config0 = Ret c) as (main & El & Epc).
  { unfold Banjax.read_configuration in Ec. apply bind_Ret in Ec as (c1 & E1 & Ec).
    apply bind_Ret in Ec as (pm1 & _ & [= -> _]). apply try_catch_Ret in E1 as [E1|E1]; [|done].
    apply bind_Ret in E1 as (n & En & E1). by exists n. }
  exists main, c, pm, wl. rewrite Hm. split_and!; try done.
  - intros nm. by rewrite <- (configured_named _ _ _ _ _ _ Epc), Hp.
  - intros nm Hnm. by apply process_config_grown in Epc as [-> _].
  - by exists fs.
  - intros f x (f0 & -> & Hf0)%list_elem_of_fmap. rewrite Forall_forall in Hb.
    by eapply share_white_list, Hb.
Qed.

(** ** What a reload keeps *)

(** Constructing a filter other than the bot sniffer only asks for the time. *)
Section Quiet.
Context (R : World -> World -> Prop) `{!PreOrder R} (R_tick : forall n w, R w (with_tick n w)).

Lemma quiet_query {A} (f : Env -> nat -> A) : preserves R (query f).
Proof. intros env w. apply R_tick. Qed.
Hint Resolve quiet_query : frame.

Lemma quiet_catch {A} (m : M A) : preserves R m -> preserves R (catch_yaml m).
Proof.
  intros Hm env w. specialize (Hm env w). unfold catch_yaml.
  destruct (m env w) as [[a|e|f] w1]; [done| |done]. by destruct (is_yaml e).
Qed.

Lemma quiet_challenges l : forall m,
  preserves R (ChallengerConfig.load_challenges read_file banjax_config_dir l m).
Proof.
  induction l as [|ch l IH]; intros m; cbn [ChallengerConfig.load_challenges];
    unfold ChallengerConfig.parse_single_challenge; frame.
Qed.
Hint Resolve quiet_challenges : frame.

Lemma quiet_construct nm cfg wl sock :
  (nm = BOT_SNIFFER_FILTER_NAME -> preserves R (BotSniffer.construct sock cfg)) ->
  preserves R (construct_filter nm cfg wl sock).
Proof.
  intros Hb. unfold construct_filter, ChallengerConfig.load_config.
  destruct (bool_decide_reflect (nm = BOT_SNIFFER_FILTER_NAME)) as [->|_]; [|frame].
  specialize (Hb eq_refl). frame.
Qed.

Lemma quiet_build c pm : forall wl sock,
  (BOT_SNIFFER_FILTER_NAME ∈ map snd pm -> forall sock cfg, preserves R (BotSniffer.construct sock cfg)) ->
  preserves R (build_loop c pm wl sock).
Proof.
  induction pm as [|[p nm] pm IH]; intros wl sock Hb; cbn [build_loop]; [frame|].
  unfold make_filter. apply preserves_bind; [done| |intros [[f cfg] wl1]].
  - apply quiet_catch. apply preserves_bind; [done|frame|intros cfg].
    apply preserves_bind; [done| |intros [f wl']; frame].
    apply quiet_construct. intros ->. apply Hb. constructor.
  - apply preserves_bind; [done| |intros [[fs wl2] ch]; frame]. apply IH. intros Hin. apply Hb. by right.
Qed.
End Quiet.

(** Everything the filters record, and the swabber. *)
Definition same_records (w w' : World) : Prop :=
  swabber_ip_db w' = swabber_ip_db w /\ challenger_ip_db w' = challenger_ip_db w /\
  regex_manager_ip_db w' = regex_manager_ip_db w /\
  host_to_challenge_dynamic w' = host_to_challenge_dynamic w /\
  ip_to_challenge_dynamic w' = ip_to_challenge_dynamic w.

Definition same_swabber (w w' : World) : Prop := same_records w w' /\ swabber w' = swabber w.

Definition same_sniffer (w w' : World) : Prop := bot_sniffer w' = bot_sniffer w.

#[local] Instance same_records_preorder : PreOrder same_records.
Proof.
  split; unfold same_records; [done|]. intros w1 w2 w3 (?&?&?&?&?) (?&?&?&?&?).
  repeat split; congruence.
Qed.

#[local] Instance same_swabber_preorder : PreOrder same_swabber.
Proof.
  split; [done|]. intros w1 w2 w3 [H1 E1] [H2 E2]. split; [by etransitivity|congruence].
Qed.

#[local] Instance same_sniffer_preorder : PreOrder same_sniffer.
Proof. split; unfold same_sniffer; [done|]. intros w1 w2 w3 ? ?. congruence. Qed.

Lemma sniffer_construct_swabber sock cfg : preserves same_swabber (BotSniffer.construct sock cfg).
Proof.
  unfold BotSniffer.construct, BotSniffer.load_config, BotSniffer.set_members, BotSniffer.rebind,
    BotSniffer.set_socket.
  assert (Hq : forall A (f : Env -> nat -> A), preserves same_swabber (query f)) by (intros A f env w; done).
  assert (Hm : forall b, preserves same_swabber (modify (with_bot_sniffer b))) by (intros b env w; done).
  frame.
Qed.

Lemma build_same_swabber c pm wl sock : preserves same_swabber (build_loop c pm wl sock).
Proof. apply quiet_build; [apply _|done|]. intros _. apply sniffer_construct_swabber. Qed.

(** The bot sniffer keeps a socket with the endpoint it is configured to. *)
Lemma sniffer_construct_keeps s cfg env w w' :
  BotSniffer.construct (Some s) cfg env w = (Ret tt, w') ->
  local_endpoint_ s = bs_local_endpoint (bot_sniffer w') -> bs_socket (bot_sniffer w') = Some s.
Proof.
  unfold BotSniffer.construct, BotSniffer.load_config, BotSniffer.set_members. rewrite M_bind_eq.
  cbn [modify]. rewrite M_bind_eq. cbn [gets]. rewrite M_bind_eq. cbn [lift].
  destruct (y_field as_uint cfg _) as [port| |]; [|done..]. rewrite M_bind_eq.
  rewrite M_bind_eq. cbn [gets modify]. rewrite M_bind_eq. cbn [lift].
  destruct (y_field as_string cfg _) as [key| |]; [|done..]. rewrite M_bind_eq.
  rewrite M_bind_eq. cbn [gets modify]. unfold BotSniffer.rebind. rewrite M_bind_eq. cbn [gets].
  cbn -[lit to_string SHA256 SocketOps.bind].
  case_bool_decide as E; [by intros [= <-]|].
  rewrite M_bind_eq. cbn [query]. unfold BotSniffer.set_socket. rewrite M_bind_eq. cbn [gets modify].
  intros [= <-]. cbn -[lit to_string SHA256 SocketOps.bind]. intros He. by destruct E.
Qed.

Lemma build_keeps_sniffer c pm : forall wl s env w fs wl' ch w',
  NoDup (map snd pm) -> BOT_SNIFFER_FILTER_NAME ∈ map snd pm ->
  build_loop c pm wl (Some s) env w = (Ret (fs, wl', ch), w') ->
  local_endpoint_ s = bs_local_endpoint (bot_sniffer w') -> bs_socket (bot_sniffer w') = Some s.
Proof.
  induction pm as [|[p nm] pm IH]; intros wl s env w fs wl' ch w' Hnd Hin; [by apply elem_of_nil in Hin|].
  cbn [build_loop map snd] in *. apply NoDup_cons in Hnd as [Hnm Hnd]. rewrite M_bind_eq.
  destruct (make_filter _ _ _ _ _ _) as [[[[f cfg] wl1]| |] w1] eqn:E1; [|done..]. rewrite M_bind_eq.
  destruct (build_loop _ _ _ _ _ _) as [[[[fs' wl2] ch']| |] w2] eqn:E2; [|done..].
  intros [= _ _ _ <-]. destruct (bool_decide_reflect (nm = BOT_SNIFFER_FILTER_NAME)) as [->|Hne].
  - assert (Hs : same_sniffer w1 w2).
    { pose proof (quiet_build same_sniffer ltac:(done) c pm wl1 None) as Hq.
      specialize (Hq ltac:(by intros ?) env w1). by rewrite E2 in Hq. }
    rewrite Hs. apply make_filter_Ret in E1 as [_ E1]. unfold construct_filter in E1.
    rewrite !bool_decide_false, bool_decide_true, M_bind_eq in E1 by done.
    destruct (BotSniffer.construct _ _ _ _) as [[[]| |] w3] eqn:E3; [|done..].
    injection E1 as <- <- <-. by eapply sniffer_construct_keeps.
  - eapply IH; [done| |exact E2]. by apply elem_of_cons in Hin as [?|?].
Qed.

Lemma make_kafka_store conf : preserves (fun w w' => same_swabber w w' /\ same_sniffer w w') (make_kafka conf).
Proof.
  intros env w. unfold make_kafka. rewrite M_bind_eq. cbn [lift].
  destruct (y_has conf _) as [[]| |]; [|done..]. rewrite M_bind_eq. cbn [query]. rewrite M_bind_eq.
  cbn [lift]. by destruct (Kafka.KafkaProducer _ _ _) as [x| |].
Qed.

(** An object that gave up its sockets. *)
Definition without_sockets (w : World) : World :=
  let sw := swabber w in
  let b := bot_sniffer w in
  with_bot_sniffer (MkBotSniffer None (botbanger_port b) (botbanger_server b) (encryption_key b)
                      (bs_local_endpoint b))
    (with_swabber (MkSwabber (local_endpoint sw) None (swabber_server sw) (swabber_port sw) (grace_period sw)) w).

Lemma release_sockets_run env w :
  release_sockets env w = (Ret (socket (swabber w), bs_socket (bot_sniffer w)), without_sockets w).
Proof. reflexivity. Qed.

(** The stages of making a [Banjax]. *)
Lemma new_banjax_stages s n b env w w' : new_banjax s n env w = (Ret b, w') ->
  exists c pm w1 w2 w3 fs wl ch k,
    NoDup (map snd pm) /\
    SwabberOps.load_config (swabber_conf c) env (fresh_world s w) = (Ret tt, w1) /\
    build_loop c pm GlobalWhiteList.empty n env w1 = (Ret (fs, wl, ch), w2) /\
    make_kafka (kafka_conf c) env w2 = (Ret k, w3) /\
    w' = with_trace (trace w3 ++ scheduled_as (report_status_action b)
                     ++ scheduled_as (remove_expired_challenges_action b)) (with_tick (S (S (tick w3))) w3) /\
    config b = c /\ filters b = map (share wl) fs.
Proof.
  unfold new_banjax, read_configuration, build_filters. rewrite M_bind_eq. cbn [modify]. rewrite M_bind_eq. cbn [lift].
  destruct (Banjax.read_configuration _ _ _) as [[c pm]| |] eqn:Ec; [|done..].
  apply read_configuration_order in Ec as (_ & _ & Hnd). rewrite M_bind_eq.
  destruct (SwabberOps.load_config _ _ _) as [[[]| |] w1] eqn:E1; [|done..]. do 2 rewrite M_bind_eq.
  destruct (build_loop _ _ _ _ _ _) as [[[[fs wl] ch]| |] w2] eqn:E2; [|done..].
  cbn [mret M_ret]. rewrite M_bind_eq.
  destruct (make_kafka _ _ _) as [[k| |] w3] eqn:E3; [|done..]. rewrite M_bind_eq.
  edestruct schedule_run as [o1 ->]. rewrite M_bind_eq. edestruct schedule_run as [o2 ->]. intros [= <- <-].
  exists c, pm, w1, w2, w3, fs, wl, ch, k. split_and!; try done. cbn. by rewrite <- app_assoc.
Qed.

(** The records of a new [Banjax] are empty. *)
Lemma new_banjax_records s n b env w w' : new_banjax s n env w = (Ret b, w') ->
  same_records (fresh_world s w) w'.
Proof.
  intros (c & pm & w1 & w2 & w3 & fs & wl & ch & k & _ & E1 & E2 & E3 & -> & _)%new_banjax_stages.
  assert (H1 : preserves same_records (SwabberOps.load_config (swabber_conf c)))
    by (by apply SwabberOps.load_config_frame; [apply _|..]).
  specialize (H1 env (fresh_world s w)). rewrite E1 in H1.
  pose proof (build_same_swabber c pm GlobalWhiteList.empty n env w1) as [H2 _]. rewrite E2 in H2.
  pose proof (make_kafka_store (kafka_conf c) env w2) as [[H3 _] _]. rewrite E3 in H3.
  transitivity w1; [done|]. transitivity w2; [done|]. by transitivity w3.
Qed.

(** Making a [Banjax] shows the outside nothing but its actions. *)
Definition same_trace (w w' : World) : Prop := trace w' = trace w.

#[local] Instance same_trace_preorder : PreOrder same_trace.
Proof. split; unfold same_trace; [done|]. intros w1 w2 w3 ? ?. congruence. Qed.

Lemma swabber_config_trace l : preserves same_trace (SwabberOps.load_config l).
Proof.
  assert (Hq : forall A (f : Env -> nat -> A), preserves same_trace (query f)) by (by intros A f env w).
  assert (Hm : forall s, preserves same_trace (modify (with_swabber s))) by (by intros s env w).
  assert (Hn : forall l, preserves same_trace (SwabberOps.load_nodes l)).
  { clear l. intros l. induction l as [|n l IH]; cbn [SwabberOps.load_nodes];
      unfold SwabberOps.load_node, SwabberOps.set_settings; frame. }
  unfold SwabberOps.load_config, SwabberOps.set_settings, SwabberOps.set_endpoint, SwabberOps.bind_endpoint,
    SwabberOps.set_socket. frame.
Qed.

Lemma sniffer_construct_trace sock cfg : preserves same_trace (BotSniffer.construct sock cfg).
Proof.
  unfold BotSniffer.construct, BotSniffer.load_config, BotSniffer.set_members, BotSniffer.rebind,
    BotSniffer.set_socket.
  assert (Hq : forall A (f : Env -> nat -> A), preserves same_trace (query f)) by (by intros A f env w).
  assert (Hm : forall b, preserves same_trace (modify (with_bot_sniffer b))) by (by intros b env w).
  frame.
Qed.

Lemma new_banjax_trace s n b env w w' : new_banjax s n env w = (Ret b, w') ->
  trace w' = trace w ++ scheduled_as (report_status_action b) ++ scheduled_as (remove_expired_challenges_action b).
Proof.
  intros (c & pm & w1 & w2 & w3 & fs & wl & ch & k & _ & E1 & E2 & E3 & -> & _)%new_banjax_stages.
  pose proof (swabber_config_trace (swabber_conf c) env (fresh_world s w)) as H1. rewrite E1 in H1.
  pose proof (quiet_build same_trace ltac:(done) c pm GlobalWhiteList.empty n
    ltac:(intros _; apply sniffer_construct_trace) env w1) as H2. rewrite E2 in H2.
  assert (H3 : trace w3 = trace w2).
  { revert E3. unfold make_kafka. rewrite M_bind_eq. cbn [lift]. destruct (y_has _ _) as [[]| |]; [| |done..].
    - rewrite M_bind_eq. cbn [query]. rewrite M_bind_eq. cbn [lift].
      destruct (Kafka.KafkaProducer _ _ _); [|done..]. by intros [= _ <-].
    - by intros [= _ <-]. }
  unfold same_trace in *. cbn in *. by rewrite H3, H2, H1.
Qed.

(** The regex manager of a new [Banjax], if there is one, was read from its
    configuration, and there is one at most. *)
Lemma build_managers c pm : forall wl sock env w fs wl' ch w' m,
  build_loop c pm wl sock env w = (Ret (fs, wl', ch), w') -> FRegexManager m ∈ fs ->
  exists cfg, RegexManager.load_config cfg = Ret m.
Proof.
  induction pm as [|[p nm] pm IH]; intros wl sock env w fs wl' ch w' m; cbn [build_loop].
  - intros [= <- _ _ _] Hin. by apply elem_of_nil in Hin.
  - rewrite M_bind_eq. destruct (make_filter _ _ _ _ _ _) as [[[[f cfg] wl1]| |] w1] eqn:E1; [|done..].
    rewrite M_bind_eq. destruct (build_loop _ _ _ _ _ _) as [[[[fs' wl2] ch']| |] w2] eqn:E2; [|done..].
    intros [= <- _ _ _] [<-|Hin]%elem_of_cons; [|by eapply IH].
    apply make_filter_Ret in E1 as [_ E1]. pose proof (construct_filter_spec _ _ _ _ _ _ _ _ _ E1) as [Hnm _].
    cbn in Hnm. subst nm. unfold construct_filter in E1.
    rewrite bool_decide_true, M_bind_eq in E1 by done. cbn [lift] in E1.
    destruct (RegexManager.load_config cfg) as [m'| |] eqn:El; [|done..]. exists cfg.
    by injection E1 as -> _ _.
Qed.

Lemma NoDup_map_inj {A B} (f : A -> B) l x y : NoDup (map f l) -> x ∈ l -> y ∈ l -> f x = f y -> x = y.
Proof.
  induction l as [|z l IH]; intros Hnd Hx Hy E; [by apply elem_of_nil in Hx|].
  cbn [map] in Hnd. apply NoDup_cons in Hnd as [Hz Hnd].
  apply elem_of_cons in Hx as [->|Hx], Hy as [->|Hy]; [done| | |by apply IH].
  - destruct Hz. rewrite E. apply list_elem_of_fmap. by exists y.
  - destruct Hz. rewrite <- E. apply list_elem_of_fmap. by exists x.
Qed.

Lemma new_banjax_managers s n b env w w' : new_banjax s n env w = (Ret b, w') ->
  exists total, forall m, FRegexManager m ∈ filters b ->
    (exists cfg, RegexManager.load_config cfg = Ret m) /\ RegexManager.total_no_of_rules m = total.
Proof.
  intros (c & pm & w1 & w2 & w3 & fs & wl & ch & k & Hnd & _ & E2 & _ & _ & _ & ->)%new_banjax_stages.
  apply build_loop_spec in E2 as Hn; [|done]. destruct Hn as [Hn _]. rewrite <- Hn in Hnd.
  assert (Hin : forall m, FRegexManager m ∈ map (share wl) fs -> FRegexManager m ∈ fs).
  { intros m (f & Ef & Hf)%list_elem_of_fmap. destruct f; try discriminate Ef. by injection Ef as ->. }
  destruct (decide (REGEX_BANNER_FILTER_NAME ∈ map filter_name fs)) as [Hr|Hr].
  - apply list_elem_of_fmap in Hr as (f & Ef & Hf). destruct f as [m0| | | |]; try discriminate Ef.
    exists (RegexManager.total_no_of_rules m0). intros m Hm%Hin. split; [by eapply build_managers|].
    by injection (NoDup_map_inj filter_name fs _ _ Hnd Hm Hf eq_refl) as ->.
  - exists 0%nat. intros m Hm%Hin. destruct Hr. apply list_elem_of_fmap. by exists (FRegexManager m).
Qed.

(** The stages of a reload. *)
Lemma reload_stages p p' env w w' : reload_config p env w = (Ret p', w') ->
  restart_time p' = restart_time p /\ reload_time p' = env_sec env (tick w) /\
  new_banjax (socket (swabber w)) (bs_socket (bot_sniffer w)) env (with_tick (S (tick w)) w)
  = (Ret (current_state p'), w').
Proof.
  unfold reload_config. rewrite M_bind_eq. cbn [time_now query]. rewrite M_bind_eq, release_sockets_run.
  cbn [swabber bot_sniffer with_tick]. rewrite M_bind_eq.
  change (new_banjax ?s ?n env (without_sockets ?x)) with (new_banjax s n env x).
  destruct (new_banjax _ _ _ _) as [[b| |] w1]; [|done..]. by intros [= <- <-].
Qed.

(** C30. A reload starts anew and hands its sockets over: no address is flagged,
    no failure and no hit is counted and no run-time challenge is left
    afterwards, while the sockets of the swabber and of the bot sniffer are kept
    as they are when their configured endpoints have not changed, and the times
    the status reports name are the start of the plugin and the reload. *)
Theorem reload_starts_anew (p p' : BanjaxPlugin) (env : Env) (w w' : World) (ip : str) :
  reload_config p env w = (Ret p', w') ->
  (SwabberOps.status_of w' ip = SwabberOps.Clear /\ Challenger.count w' ip = 0 /\
   IpDb.view [] (regex_manager_ip_db w') ip = [] /\
   host_to_challenge_dynamic w' = ∅ /\ ip_to_challenge_dynamic w' = ∅) /\
  (forall s, socket (swabber w) = Some s -> local_endpoint_ s = local_endpoint (swabber w') ->
     socket (swabber w') = Some s) /\
  (forall s, bs_socket (bot_sniffer w) = Some s -> FBotSniffer ∈ filters (current_state p') ->
     local_endpoint_ s = bs_local_endpoint (bot_sniffer w') -> bs_socket (bot_sniffer w') = Some s) /\
  restart_time p' = restart_time p /\ reload_time p' = env_sec env (tick w).
Proof.
  intros (Hr & Ht & E)%reload_stages. pose proof (new_banjax_records _ _ _ _ _ _ E) as Hrec.
  apply new_banjax_stages in E as (c & pm & w1 & w2 & w3 & fs & wl & ch & k & Hnd & E1 & E2 & E3 & -> & _ & Hfs).
  pose proof (make_kafka_store (kafka_conf c) env w2) as [[_ Hs3] Hn3]. rewrite E3 in Hs3, Hn3.
  pose proof (build_same_swabber c pm GlobalWhiteList.empty (bs_socket (bot_sniffer w)) env w1) as [_ Hs2].
  rewrite E2 in Hs2. cbn [snd] in Hs2, Hs3, Hn3.
  split; [|split; [|split; [|done]]].
  - destruct Hrec as (Ha & Hb & Hc & Hd & He).
    unfold SwabberOps.status_of, Challenger.count. by rewrite Ha, Hb, Hc, Hd, He.
  - intros s Hs He. cbn in He |- *. rewrite Hs3, Hs2 in *. rewrite Hs in E1.
    exact (SwabberOps.load_config_keeps_socket env (fresh_world (Some s) (with_tick (S (tick w)) w)) w1
      (swabber_conf c) s E1 He).
  - intros s Hs Hin He. cbn in He |- *. rewrite Hn3 in *. rewrite Hs in E2.
    eapply build_keeps_sniffer; [done| |exact E2|done].
    apply build_loop_spec in E2 as [Hn _]; [|done]. rewrite <- Hn.
    rewrite Hfs in Hin. apply list_elem_of_fmap in Hin as (f & Hf & Hin).
    apply list_elem_of_fmap. exists f. split; [|done]. by destruct f.
Qed.

End Build.

(** ** Samples *)

Definition rules1 : tree := TMap [(lit "difficulty", TScalar (lit "2")); (lit "challenges", TSeq [TScalar (lit "a")])].
Definition rules2 : tree := TMap [(lit "key", TScalar (lit "k")); (lit "challenges", TSeq [TScalar (lit "b")])].
Definition rules12 : tree :=
  TMap [(lit "difficulty", TScalar (lit "2"));
        (lit "challenges", TSeq [TScalar (lit "a"); TScalar (lit "b")]); (lit "key", TScalar (lit "k"))].

Lemma merge_nodes_spec_witness :
  tree_get rules12 (lit "difficulty") = tree_get rules1 (lit "difficulty") /\
  exists cur x, tree_get rules1 (lit "challenges") = Ret cur /\
    merge_nodes (H := tree_yaml) 2 cur (TSeq [TScalar (lit "b")]) = Ret x /\
    tree_get rules12 (lit "challenges") = Ret x.
Proof.
  destruct (merge_nodes_spec (H := tree_yaml) 2 rules1 rules2 rules12 eq_refl) as [H _].
  destruct (H eq_refl eq_refl) as [Hother Hat].
  { apply (bool_decide_unpack _). vm_compute. exact Logic.I. }
  split.
  - apply Hother. apply (bool_decide_unpack _). vm_compute. exact Logic.I.
  - apply (Hat (TScalar (lit "challenges"))). right. left.
Defined.

(** A main file that includes one other. *)
Definition sample_files (path : str) : outcome tree :=
  if bool_decide (path = lit "/etc/banjax.conf") then
    Ret (TMap [(lit "include", TSeq [TScalar (lit "more.conf")]); (lit "white_lister", TMap []);
               (lit "priority", TMap [(lit "white_lister", TScalar (lit "1"))])])
  else if bool_decide (path = lit "/etc/more.conf") then
    Ret (TMap [(lit "denialator", TMap []);
               (lit "bot_sniffer", TMap [(lit "botbanger_port", TScalar (lit "22621"));
                                         (lit "key", TScalar (lit "k"))])])
  else Throw YAML_BadFile.

Definition sample_rank (path : str) : nat := if bool_decide (path = lit "/etc/banjax.conf") then 1 else 0.

Definition main_file : tree :=
  match sample_files (lit "/etc/banjax.conf") with Ret t => t | _ => TUndefined end.

Lemma include_fuel_enough_witness :
  process_config (H := tree_yaml) (lit "/etc") sample_files 2 main_file config0 <> Fault StackOverflow /\
  process_config (H := tree_yaml) (lit "/etc") sample_files 2 main_file config0
  = process_config (H := tree_yaml) (lit "/etc") sample_files 100 main_file config0.
Proof.
  destruct (include_fuel_enough (H := tree_yaml) (lit "/etc") sample_files) with (rank := sample_rank)
    (path := lit "/etc/banjax.conf") (n := main_file) (c := config0 (H := tree_yaml)) (fuel := 2%nat) as [H1 H2].
  - intros p f. unfold sample_files. by repeat case_match.
  - intros p q n Hn (key & value & sub & s & Hin & Hkey & Hsub & Hs & ->). unfold sample_files in Hn.
    destruct (bool_decide_reflect (p = lit "/etc/banjax.conf")) as [->|].
    + injection Hn as <-. cbn in Hin. rewrite !elem_of_cons, elem_of_nil in Hin.
      destruct Hin as [[= -> ->]|[[= -> ->]|[[= -> ->]|[]]]]; [|discriminate Hkey..].
      cbn in Hsub. apply list_elem_of_singleton in Hsub as ->. injection Hs as <-. vm_compute. lia.
    + destruct (bool_decide (p = lit "/etc/more.conf")); [|discriminate].
      injection Hn as <-. cbn in Hin. rewrite !elem_of_cons, elem_of_nil in Hin.
      destruct Hin as [[= -> ->]|[[= -> ->]|[]]]; discriminate Hkey.
  - reflexivity.
  - vm_compute. lia.
  - split; [exact H1|]. apply H2. vm_compute. lia.
Defined.

Abbreviation sample_build :=
  (read_configuration (crypto := sample_crypto) (I := Util.sample_inet) (H := tree_yaml) (fun _ => [])
    (lit "/etc") (lit "edge1") sample_files (fun _ _ => true) 10 None
    SwabberOps.sample_env (SwabberOps.sample_world 300)).

Lemma filters_built_witness : exists b pm,
  fst sample_build = Ret b /\ StronglySorted pm_lt pm /\ map filter_name (filters b) = map snd pm /\
  pm = [(1, WHITE_LISTER_FILTER_NAME); (2, DENIALATOR_FILTER_NAME); (3, BOT_SNIFFER_FILTER_NAME)].
Proof.
  assert (Hr : match fst sample_build with Ret _ => True | _ => False end) by (vm_compute; exact Logic.I).
  destruct sample_build as [[b| |] w'] eqn:E; [|destruct Hr..].
  destruct (filters_built (crypto := sample_crypto) (I := Util.sample_inet) (H := tree_yaml) (fun _ => [])
    (lit "/etc") (lit "edge1") sample_files (fun _ _ => true) 10 None SwabberOps.sample_env
    (SwabberOps.sample_world 300) w' b E) as (main & c & pm & wl & _ & Hread & Hs & Hn & _).
  exists b, pm. split; [reflexivity|]. split; [exact Hs|]. split; [exact Hn|].
  assert (Hpm : (match Banjax.read_configuration (H := tree_yaml) (lit "/etc") sample_files 10 with
                 | Ret (_, pm) => pm | _ => [] end)
    = [(1, WHITE_LISTER_FILTER_NAME); (2, DENIALATOR_FILTER_NAME); (3, BOT_SNIFFER_FILTER_NAME)])
    by (vm_compute; reflexivity).
  rewrite Hread in Hpm. exact Hpm.
Defined.

Definition old_world : World :=
  with_bot_sniffer (MkBotSniffer (Some (MkSocket (lit "tcp://*:22621") [lit "tcp://*:22621"])) 22621
    (lit "*") [] (lit "tcp://*:22621"))
    (with_swabber_ip_db (<[lit "10.0.0.1" := 900]> ∅) (SwabberOps.sample_world 300)).

Definition sample_plugin : BanjaxPlugin := MkPlugin (MkBanjax config0 [] None None None None) 50 50.

Abbreviation sample_reload :=
  (reload_config (crypto := sample_crypto) (I := Util.sample_inet) (H := tree_yaml) (fun _ => [])
    (lit "/etc") (lit "edge1") sample_files (fun _ _ => true) 10 sample_plugin SwabberOps.sample_env
    old_world).

Lemma reload_starts_anew_witness :
  SwabberOps.status_of (snd sample_reload) (lit "10.0.0.1") = SwabberOps.Clear /\
  bs_socket (bot_sniffer (snd sample_reload)) = bs_socket (bot_sniffer old_world).
Proof.
  assert (Hr : match fst sample_reload with
               | Ret p => bool_decide (BOT_SNIFFER_FILTER_NAME ∈ map filter_name (filters (current_state p))) = true
               | _ => False end) by (vm_compute; reflexivity).
  assert (He : bs_local_endpoint (bot_sniffer (snd sample_reload)) = lit "tcp://*:22621")
    by (vm_compute; reflexivity).
  destruct sample_reload as [[p| |] w'] eqn:E; [|destruct Hr..]. cbn [fst snd] in *.
  destruct (reload_starts_anew (crypto := sample_crypto) (I := Util.sample_inet) (H := tree_yaml)
    (fun _ => []) (lit "/etc") (lit "edge1") sample_files (fun _ _ => true) 10 sample_plugin p
    SwabberOps.sample_env old_world w' (lit "10.0.0.1") E) as ((Hc & _) & _ & Hs & _).
  split; [exact Hc|]. refine (Hs (MkSocket (lit "tcp://*:22621") [lit "tcp://*:22621"]) eq_refl _ (eq_sym He)).
  apply bool_decide_eq_true, list_elem_of_fmap in Hr as (f & Hf & Hin). by destruct f.
Defined.

End Startup.
