(* ===== verification/Plugin.v ===== *)
(** * Plugin: the objects of a running plugin (src/banjax.cpp)

    A reload makes a new [Banjax] object while transactions that started before
    it still use the old one through their shared pointers.  The machine keeps
    every live object with its own store; its steps are the calls of Traffic
    Server, of the Kafka consumer and of the scheduled actions, each taken whole.
    An object goes away with the last shared pointer to it; the consumer has a
    plain pointer. *)

From S2P Require Import Prelude Base64 Cookie CookieHash Util Print GmTime WhiteList IpDb Yaml Float World.
From S2P Require Import Swabber BotSniffer WhiteLister Denialator RegexManager Reports Kafka.
From S2P Require Import ChallengeChecks Challenger ChallengerConfig Muncher Transaction Lifecycle.
From S2P Require Import Banjax Frames Startup.

Local Open Scope Z_scope.

Module Plugin.
Import Print Transaction Lifecycle Startup.

Section Machine.
Context {crypto : Crypto} {I : Inet} {R2 : Re2} {ssl : OpenSSL} `{Yaml}.
Context (read_file : str -> str) (config_dir host_name : str) (LoadFile : str -> outcome node).
Context (conf_set : str -> str -> bool) (fuel : nat).

Abbreviation new_banjax := (Startup.new_banjax read_file config_dir host_name LoadFile conf_set fuel).
Abbreviation start_plugin := (Startup.start_plugin read_file config_dir host_name LoadFile conf_set fuel).
Abbreviation reload_config := (Startup.reload_config read_file config_dir host_name LoadFile conf_set fuel).

Record Object := MkObject { banjax : Banjax; store : World }.

(** [clock] and [log] are what all objects share: the outside's answers and the
    outside.  A transaction has the object it started with. *)
Record Machine := MkMachine {
  clock : nat;
  log : list event;
  objects : gmap nat Object;
  current : nat;
  transactions : gmap nat (nat * TransactionData);
  consumer : option nat;
  scheduled : list (nat * TSAction);
  restart : Z;
  reload_at : Z;
  next : nat
}.

(** ** Shared pointers *)

(** The objects that [current_state] or a transaction points to. *)
Definition refs (m : Machine) : gset nat :=
  {[ current m ]} ∪ list_to_set (map (fun x => fst (snd x)) (map_to_list (transactions m))).

(** Objects without a pointer are destroyed; what their destructors cancel. *)
Definition cancelled (m : Machine) (x : nat * TSAction) : bool :=
  bool_decide (fst x ∉ refs m) &&
  match objects m !! fst x with
  | Some o => bool_decide (snd x ∈ destroy (banjax o))
  | None => false
  end.

Definition collect (m : Machine) : Machine :=
  MkMachine (clock m) (log m) (base.filter (fun x => fst x ∈ refs m) (objects m)) (current m) (transactions m)
    (consumer m) (base.filter (fun x => cancelled m x = false) (scheduled m)) (restart m) (reload_at m) (next m).

Definition with_transactions (t : gmap nat (nat * TransactionData)) (m : Machine) : Machine :=
  MkMachine (clock m) (log m) (objects m) (current m) t (consumer m) (scheduled m) (restart m)
    (reload_at m) (next m).

(** The store of an object at its turn. *)
Definition seen (m : Machine) (o : Object) : World := with_trace (log m) (with_tick (clock m) (store o)).

Definition put (id : nat) (o : Object) (m : Machine) : Machine :=
  MkMachine (tick (store o)) (trace (store o)) (<[id := o]> (objects m)) (current m) (transactions m)
    (consumer m) (scheduled m) (restart m) (reload_at m) (next m).

(** A call on an object. *)
Definition run_on {A} (id : nat) (f : Banjax -> M A) (env : Env) (m : Machine) : outcome (A * Machine) :=
  match objects m !! id with
  | None => Fault Dangling
  | Some o =>
      match f (banjax o) env (seen m o) with
      | (Ret a, w) => Ret (a, put id (MkObject (banjax o) w) m)
      | (Throw e, _) => Throw e
      | (Fault x, _) => Fault x
      end
  end.

(** ** The calls *)

(** [handle_transaction_start]. *)
Definition txn_start (id : nat) (event : TSEvent) (m : Machine) : Machine :=
  match handle_transaction_start event with
  | None => m
  | Some (_, td) => with_transactions (<[id := (current m, td)]> (transactions m)) m
  end.

(** [TransactionData::handle_transaction_change]; the close destroys the data
    and with it the pointer to the object. *)
Definition txn_event (txn : Txn) (id : nat) (ev : TSEvent) (env : Env) (m : Machine)
    : outcome (list ats_call * Machine) :=
  match transactions m !! id with
  | None => Fault Dangling
  | Some (o, td) =>
      '((c, td'), m1) ← run_on o (fun b => handle_transaction_change txn (filters b) ev td) env m;
      Ret (c, match td' with
              | Some td' => with_transactions (<[id := (o, td')]> (transactions m1)) m1
              | None => collect (with_transactions (delete id (transactions m1)) m1)
              end)
  end.

(** The consumer of a new object: a configuration without brokers shuts it down. *)
Definition consumer_of (id : nat) (b : Banjax) : option nat := (fun _ => id) <$> kafka b.

(** [BanjaxPlugin::reload_config]: the time is taken and the old object gives up
    its sockets; then the new one is made on them. *)
Definition hand_over : M (Z * (option Socket * option Socket)) :=
  now ← time_now; s ← release_sockets; mret (now, s).

(** The actions that were scheduled. *)
Definition actions (evs : list event) : list TSAction :=
  omap (fun e => match e with Scheduled a => Some a | _ => None end) evs.

Definition reload (env : Env) (m : Machine) : outcome Machine :=
  match objects m !! current m with
  | None => Fault Dangling
  | Some o =>
      match hand_over env (seen m o) with
      | (Ret (now, (swab_s, snif_s)), w1) =>
          match new_banjax swab_s snif_s env w1 with
          | (Ret b, w2) =>
              Ret (collect (MkMachine (tick w2) (trace w2)
                     (<[next m := MkObject b w2]> (<[current m := MkObject (banjax o) w1]> (objects m)))
                     (next m) (transactions m) (consumer_of (next m) b)
                     (scheduled m ++ map (pair (next m)) (actions (drop (length (trace w1)) (trace w2))))
                     (restart m) now (S (next m))))
          | (Throw e, _) => Throw e
          | (Fault x, _) => Fault x
          end
      | (Throw e, _) => Throw e
      | (Fault x, _) => Fault x
      end
  end.

(** A message of the Kafka consumer, for the object it points to. *)
Definition command (message : option (option (option json_object))) (env : Env) (m : Machine) : outcome Machine :=
  match consumer m with
  | None => Ret m
  | Some id =>
      '(_, m') ← run_on id (fun b => Banjax.msg_consume read_file config_dir
                              (challenger_cfg b) message) env m;
      Ret m'
  end.

(** The scheduled actions work on the plugin's current object. *)
Definition report (metric : str -> option json) (env : Env) (m : Machine) : outcome Machine :=
  '(_, m') ← run_on (current m) (fun b => report_status_g host_name metric
                                   (Some (MkPlugin b (restart m) (reload_at m)))) env m;
  Ret m'.

Definition sweep (env : Env) (m : Machine) : outcome Machine :=
  '(_, m') ← run_on (current m) (fun b => remove_expired_challenges_g
                                   (Some (MkPlugin b (restart m) (reload_at m)))) env m;
  Ret m'.

(** [TSPluginInit]. *)
Definition init (env : Env) (w : World) : outcome Machine :=
  match start_plugin env w with
  | (Ret p, w') =>
      let b := current_state p in
      Ret (MkMachine (tick w') (trace w') {[ 0%nat := MkObject b w' ]} 0 ∅ (consumer_of 0 b)
             (map (pair 0%nat) (actions (drop (length (trace w)) (trace w'))))
             (restart_time p) (reload_time p) 1)
  | (Throw e, _) => Throw e
  | (Fault x, _) => Fault x
  end.

(** A running plugin: any order of calls, under any answers of the outside. *)
Inductive step (m : Machine) : Machine -> Prop :=
  | step_start id event : transactions m !! id = None -> step m (txn_start id event m)
  | step_event txn id ev env c m' : txn_event txn id ev env m = Ret (c, m') -> step m m'
  | step_reload env m' : reload env m = Ret m' -> step m m'
  | step_command message env m' : command message env m = Ret m' -> step m m'
  | step_report metric env m' : report metric env m = Ret m' -> step m m'
  | step_sweep env m' : sweep env m = Ret m' -> step m m'.

Inductive reachable : Machine -> Prop :=
  | reach_init env w m : init env w = Ret m -> reachable m
  | reach_step m m' : reachable m -> step m m' -> reachable m'.

(** ** Sockets *)

(** An object that was replaced has no socket, and with none it sends nothing. *)
Definition no_sockets (w : World) : Prop :=
  socket (swabber w) = None /\ bs_socket (bot_sniffer w) = None.

Definition is_send (e : event) : bool :=
  match e with ZmqSend _ _ | SnifferSend _ _ => true | _ => false end.

Definition mute (w w' : World) : Prop :=
  no_sockets w -> no_sockets w' /\ exists evs, trace w' = trace w ++ evs /\ Forall (fun e => is_send e = false) evs.

#[local] Instance mute_preorder : PreOrder mute.
Proof.
  split.
  - intros w Hw. split; [done|]. exists []. by rewrite app_nil_r.
  - intros w1 w2 w3 H12 H23 H1. destruct (H12 H1) as (H2 & evs & E & Hq).
    destruct (H23 H2) as (H3 & evs' & E' & Hq'). split; [done|]. exists (evs ++ evs').
    rewrite E', E, app_assoc. split; [done|]. by apply Forall_app.
Qed.

(** Updates that leave the sockets and the outside alone. *)
Lemma mute_same w w' : swabber w' = swabber w -> bot_sniffer w' = bot_sniffer w -> trace w' = trace w ->
  mute w w'.
Proof.
  intros Hs Hb Ht Hw. unfold no_sockets in *. rewrite Hs, Hb, Ht. split; [done|].
  exists []. by rewrite app_nil_r.
Qed.

Lemma mute_trace w e : is_send e = false -> mute w (with_trace (trace w ++ [e]) w).
Proof. intros He Hw. split; [done|]. exists [e]. split; [done|]. by constructor. Qed.

Lemma mute_send_ban ip reason : preserves mute (SwabberOps.send_ban ip reason).
Proof.
  intros env w Hw. destruct Hw as [Hs Hb]. unfold SwabberOps.send_ban. rewrite M_bind_eq.
  cbn [TSMutexLockTry query]. destruct (env_lock env (tick w)); cbn [negb]; [|by apply mute_same].
  rewrite M_bind_eq. cbn [gets swabber with_tick]. rewrite Hs. by apply mute_same.
Qed.

Lemma mute_past_grace t ip reason : preserves mute (SwabberOps.past_grace t ip reason).
Proof.
  assert (Hq : forall A (f : Env -> nat -> A), preserves mute (query f)) by (intros A f env w; by apply mute_same).
  assert (Hg : forall V (d : V) get ip, preserves mute (db_get d get ip)) by (intros V d get ip' env w; by apply mute_same).
  assert (Hd : forall v, preserves mute (swabber_db_set ip v)).
  { intros v env w. unfold swabber_db_set. rewrite db_set_eq. by apply mute_same. }
  assert (He : forall t v, preserves mute (emit (BanLog ip t reason v))) by (intros t' v env w; by apply mute_trace).
  unfold SwabberOps.past_grace, SwabberOps.after_read, SwabberOps.log_line. frame.
Qed.

Lemma mute_ban ip reason : preserves mute (SwabberOps.ban ip reason).
Proof.
  assert (Hq : forall A (f : Env -> nat -> A), preserves mute (query f)) by (intros A f env w; by apply mute_same).
  assert (Hd : preserves mute (swabber_db_drop ip)).
  { intros env w. unfold swabber_db_drop. rewrite db_drop_eq. by apply mute_same. }
  pose proof mute_past_grace. pose proof mute_send_ban. unfold SwabberOps.ban. frame.
Qed.

Lemma mute_sniffer (ssl' : OpenSSL) parts : preserves mute (BotSniffer.on_http_close parts).
Proof.
  intros env w [Hs Hb]. unfold BotSniffer.on_http_close. rewrite M_bind_eq. cbn [time_now query].
  rewrite M_bind_eq. cbn [lift]. destruct (part_at _ _); [|by apply mute_same..]. rewrite M_bind_eq.
  cbn [TSMutexLockTry query tick with_tick]. destruct (env_lock env _); cbn [negb]; [|by apply mute_same].
  rewrite M_bind_eq. cbn [gets bot_sniffer with_tick]. rewrite Hb. by apply mute_same.
Qed.

#[local] Instance mute_respects : Frames.Respects mute.
Proof.
  split; try (intros; by apply mute_same).
  - apply _.
  - intros w j. by apply mute_trace.
  - intros ip reason. apply mute_ban.
  - intros ssl' parts. apply mute_sniffer.
Qed.

#[local] Instance wf_respects : Frames.Respects SwabberOps.keeps_wf.
Proof.
  split; try (intros; intros Hw; exact Hw); [apply _|apply SwabberOps.keeps_wf_ban|].
  intros ssl' parts.
  assert (Hs : forall s, preserves SwabberOps.keeps_wf (BotSniffer.set_socket s))
    by (intros s env w Hw; exact Hw).
  assert (He : forall e, preserves SwabberOps.keeps_wf (emit e)) by (intros e env w Hw; exact Hw).
  unfold BotSniffer.on_http_close, BotSniffer.ensure_bound, BotSniffer.send_zmq_mess,
    BotSniffer.send_zmq_encrypted_message, BotSniffer.gcm_encrypt, BotSniffer.check_api. frame.
Qed.

#[local] Existing Instance Frames.tables_respects.

#[local] Instance mute_tables : Frames.RespectsTables mute.
Proof. split; [apply _|intros; by apply mute_same..]. Qed.

#[local] Instance wf_tables : Frames.RespectsTables SwabberOps.keeps_wf.
Proof. split; [apply _|intros; intros Hw; exact Hw..]. Qed.

(** ** Rates *)

(** The managers of an object index the vectors of its database. *)
Definition managers_fit (total : nat) (l : list filter) : Prop :=
  forall m, FRegexManager m ∈ l -> RegexManager.total_no_of_rules m = total /\
    Forall (fun r => (RegexManager.id r < total)%nat /\ 0 <= RegexManager.interval r)
      (RegexManager.rated_banning_regexes m).

Definition keeps_rates (total : nat) (w w' : World) : Prop :=
  RegexManager.db_ok total w -> RegexManager.db_ok total w'.

#[local] Instance keeps_rates_preorder total : PreOrder (keeps_rates total).
Proof. split; unfold keeps_rates; [by intros w|]. intros w1 w2 w3; auto. Qed.

Lemma keeps_rates_same total w w' : RegexManager.same_rates w w' -> keeps_rates total w w'.
Proof. unfold keeps_rates, RegexManager.db_ok. by intros ->. Qed.

Lemma same_rates_sniffer (ssl' : OpenSSL) parts : preserves RegexManager.same_rates (BotSniffer.on_http_close parts).
Proof.
  assert (Hq : forall A (f : Env -> nat -> A), preserves RegexManager.same_rates (query f)) by (by intros A f env w).
  assert (Hs : forall s, preserves RegexManager.same_rates (BotSniffer.set_socket s)) by (by intros s env w).
  assert (He : forall e, preserves RegexManager.same_rates (emit e)) by (by intros e env w).
  unfold BotSniffer.on_http_close, BotSniffer.ensure_bound, BotSniffer.send_zmq_mess,
    BotSniffer.send_zmq_encrypted_message, BotSniffer.gcm_encrypt, BotSniffer.check_api. frame.
Qed.

#[local] Instance rates_respects total : Frames.Respects (keeps_rates total).
Proof.
  split; try (intros; by apply keeps_rates_same).
  - apply _.
  - intros ip reason env w. apply keeps_rates_same, RegexManager.same_rates_ban.
  - intros ssl' parts env w. apply keeps_rates_same, same_rates_sniffer.
Qed.

#[local] Instance rates_tables total : Frames.RespectsTables (keeps_rates total).
Proof. split; [apply _|intros; by apply keeps_rates_same..]. Qed.

Lemma managers_respect total l : managers_fit total l -> Forall (Frames.rules_respect (keeps_rates total)) l.
Proof.
  intros Hl. apply Forall_forall. intros [m| | | |] Hin; cbn [Frames.rules_respect]; try done.
  intros ip ats host env w Hw. destruct (Hl m Hin) as [Ht Hr]. unfold RegexManager.try_match. rewrite Ht.
  destruct (RegexManager.try_rules_ok _ total ip ats host None env w Hr Hw ltac:(done)) as (r & w' & -> & Hw').
  done.
Qed.

(** ** Invariant *)

Definition live_refs (m : Machine) : Prop := forall id, is_Some (objects m !! id) <-> id ∈ refs m.

Definition object_ok (cur id : nat) (o : Object) : Prop :=
  SwabberOps.swabber_wf (swabber (store o)) /\ (id <> cur -> no_sockets (store o)) /\
  exists total, managers_fit total (filters (banjax o)) /\ RegexManager.db_ok total (store o).

(** What a call on an object may do. *)
Definition call_ok {A} (f : Banjax -> M A) : Prop :=
  forall b, preserves SwabberOps.keeps_wf (f b) /\ preserves mute (f b) /\
    forall total, managers_fit total (filters b) -> preserves (keeps_rates total) (f b).

(** The actions an object has started. *)
Definition started (b : Banjax) (a : TSAction) : Prop :=
  report_status_action b = Some a \/ remove_expired_challenges_action b = Some a.

Definition actions_ok (objs : gmap nat Object) (sch : list (nat * TSAction)) : Prop :=
  forall id z, (id, z) ∈ sch <-> exists o, objs !! id = Some o /\ started (banjax o) z.

(** The destructor cancels all of them. *)
Lemma destroy_started b a : a ∈ destroy b <-> started b a.
Proof.
  unfold destroy, started. rewrite elem_of_app.
  destruct (report_status_action b), (remove_expired_challenges_action b);
    rewrite ?list_elem_of_singleton, ?elem_of_nil; intuition congruence.
Qed.

(** Making an object schedules its actions. *)
Lemma new_banjax_actions s n b env w w' : new_banjax s n env w = (Ret b, w') ->
  forall a, a ∈ actions (drop (length (trace w)) (trace w')) <-> started b a.
Proof.
  intros E a. apply new_banjax_trace in E. rewrite E, drop_app_length. unfold started, scheduled_as.
  destruct (report_status_action b), (remove_expired_challenges_action b); cbn;
    rewrite ?elem_of_cons, ?elem_of_nil; intuition congruence.
Qed.

Record machine_ok (m : Machine) : Prop := {
  ok_refs : live_refs m;
  ok_consumer : forall id, consumer m = Some id -> id = current m;
  ok_objects : forall id o, objects m !! id = Some o -> object_ok (current m) id o;
  ok_actions : actions_ok (objects m) (scheduled m);
  ok_next : forall id, id ∈ refs m -> (id < next m)%nat
}.

Lemma elem_of_refs m id : id ∈ refs m <-> id = current m \/ exists t td, transactions m !! t = Some (id, td).
Proof.
  unfold refs. rewrite elem_of_union, elem_of_singleton, elem_of_list_to_set, list_elem_of_fmap.
  split; (intros [E|E]; [by left|right]).
  - destruct E as ([t [id' td]] & -> & Hin). exists t, td. by apply elem_of_map_to_list in Hin.
  - destruct E as (t & td & E). exists (t, (id, td)). split; [done|]. by apply elem_of_map_to_list.
Qed.

(** Collecting restores the references. *)
Lemma collect_ok m :
  (forall id, id ∈ refs m -> is_Some (objects m !! id)) ->
  (forall id, consumer m = Some id -> id = current m) ->
  (forall id o, objects m !! id = Some o -> object_ok (current m) id o) ->
  actions_ok (objects m) (scheduled m) ->
  (forall id, id ∈ refs m -> (id < next m)%nat) -> machine_ok (collect m).
Proof.
  intros Hr Hc Ho Ha Hn.
  assert (Hl : forall id o, objects (collect m) !! id = Some o <-> objects m !! id = Some o /\ id ∈ refs m).
  { intros id o. cbn [collect objects]. by rewrite map_lookup_filter_Some. }
  split; [|exact Hc| | |exact Hn].
  - intros id. change (refs (collect m)) with (refs m). split.
    + intros [o [_ Hin]%Hl]. done.
    + intros Hin. destruct (Hr id Hin) as [o Eo]. exists o. by apply Hl.
  - intros id o [Eo _]%Hl. by apply Ho.
  - intros id z. cbn [collect scheduled]. rewrite list_elem_of_filter, (Ha id z).
    unfold cancelled. cbn [fst snd]. split.
    + intros (Hin & o & Eo & Hz). exists o. split; [|done]. apply Hl. split; [done|].
      destruct (decide (id ∈ refs m)) as [|Hd]; [done|]. rewrite bool_decide_true, Eo in Hin by done.
      rewrite bool_decide_true in Hin by (by rewrite destroy_started). done.
    + intros (o & [Eo Hin]%Hl & Hz). rewrite bool_decide_false by (intros Hd; by apply Hd). split; [done|]. by exists o.
Qed.

(** An object after its turn. *)
Lemma run_on_ok {A} id (f : Banjax -> M A) env m a m' :
  machine_ok m -> call_ok f -> run_on id f env m = Ret (a, m') ->
  machine_ok m' /\ transactions m' = transactions m /\ current m' = current m /\
  (id <> current m -> exists evs, log m' = log m ++ evs /\ Forall (fun e => is_send e = false) evs).
Proof.
  intros [Hr Hc Ho Ha Hn] Hf. unfold run_on. destruct (objects m !! id) as [o|] eqn:Eo; [|done].
  destruct (Hf (banjax o)) as (Hwf & Hm & Hrt).
  specialize (Hwf env (seen m o)). specialize (Hm env (seen m o)).
  destruct (f (banjax o) env (seen m o)) as [[a'| |] w] eqn:E; [|done..]. intros [= <- <-].
  cbn [snd] in Hwf, Hm. destruct (Ho _ _ Eo) as (Hw & Hs & total & Hfit & Hdb).
  specialize (Hrt total Hfit env (seen m o)). rewrite E in Hrt. split; [split|split; [done|split; [done|]]].
  - intros id'. cbn [put objects]. change (refs (put _ _ m)) with (refs m). rewrite <- (Hr id'), lookup_insert_is_Some.
    split; [intros [<-|[_ ?]]; [by exists o|done]|]. intros ?. destruct (decide (id = id')); [by left|by right].
  - exact Hc.
  - intros id' o' E'. cbn [put objects current] in *. apply lookup_insert_Some in E' as [[<- <-]|[_ E']]; [|by apply Ho].
    split; [by apply Hwf|]. split; [intros Hne; by apply Hm, Hs|]. exists total. split; [done|]. by apply Hrt.
  - intros id' z. cbn [put objects scheduled]. rewrite (Ha id' z). split.
    + intros (o' & E' & Hz). destruct (decide (id = id')) as [<-|Hne].
      * exists (MkObject (banjax o) w). rewrite lookup_insert_eq. split; [done|]. cbn. congruence.
      * exists o'. by rewrite lookup_insert_ne.
    + intros (o' & [[<- <-]|[_ E']]%lookup_insert_Some & Hz); [by exists o|by exists o'].
  - exact Hn.
  - intros Hne. apply Hm, Hs, Hne.
Qed.

(** The rates of a new object. *)
Lemma new_banjax_rates s n b env w w' : new_banjax s n env w = (Ret b, w') ->
  exists total, managers_fit total (filters b) /\ RegexManager.db_ok total w'.
Proof.
  intros E. destruct (new_banjax_managers _ _ _ _ _ _ _ _ _ _ _ _ E) as [total Hm]. exists total. split.
  - intros m [[cfg Hcfg] <-]%Hm. split; [done|]. by eapply RegexManager.load_config_ok.
  - apply new_banjax_records in E as (_ & _ & Hdb & _). unfold RegexManager.db_ok. rewrite Hdb.
    apply map_Forall_empty.
Qed.

(** A new object is well formed on the socket it is given. *)
Lemma new_banjax_wf s n b env w w' :
  (forall x, s = Some x -> SocketOps.sock_ok x) ->
  new_banjax s n env w = (Ret b, w') -> SwabberOps.swabber_wf (swabber w').
Proof.
  intros Hs E. apply new_banjax_stages in E as (c & pm & w1 & w2 & w3 & fs & wl & ch & k & _ & E1 & E2 & E3 & -> & _).
  assert (Hx : SocketOps.sock_ok (default new_socket s)).
  { destruct s as [x|]; [by apply Hs|apply SocketOps.new_socket_ok]. }
  pose proof (SwabberOps.load_config_wf env (fresh_world s w) (Banjax.swabber_conf c) w1 (default new_socket s) eq_refl Hx E1) as Hw.
  pose proof (build_same_swabber read_file config_dir host_name fuel c pm GlobalWhiteList.empty n env w1) as [_ H2].
  pose proof (make_kafka_store conf_set (Banjax.kafka_conf c) env w2) as [[_ H3] _].
  rewrite E2 in H2. rewrite E3 in H3. cbn [snd] in H2, H3. cbn [swabber with_tick with_trace]. by rewrite H3, H2.
Qed.

Lemma machine_init_ok env w m : init env w = Ret m -> machine_ok m.
Proof.
  unfold init, Startup.start_plugin. rewrite M_bind_eq.
  destruct (new_banjax None None env w) as [[b| |] w1] eqn:E; [|done..].
  pose proof (new_banjax_rates _ _ _ _ _ _ E) as Hrt. pose proof (new_banjax_actions _ _ _ _ _ _ E) as Hact.
  apply new_banjax_wf in E; [|done]. rewrite M_bind_eq. cbn [time_now query]. rewrite M_bind_eq.
  cbn [time_now query mret M_ret current_state]. intros [= <-]. split; cbn [objects current consumer scheduled next].
  - intros id. rewrite elem_of_refs. cbn [objects current transactions]. split.
    + intros [o [<- _]%lookup_singleton_Some]. by left.
    + intros [->|(t & td & E')]; [by rewrite lookup_singleton_eq|by rewrite lookup_empty in E'].
  - intros id. unfold consumer_of. by destruct (kafka b); intros [= <-].
  - intros id o [<- <-]%lookup_singleton_Some. by split_and!.
  - intros id z. rewrite list_elem_of_fmap. split.
    + intros (z' & [= -> ->] & Hz%Hact). eexists. by rewrite lookup_singleton_eq.
    + intros (o & [<- <-]%lookup_singleton_Some & Hz%Hact). by exists z.
  - intros id [->|(t & td & E')]%elem_of_refs; [cbn; lia|]. cbn in E'. by rewrite lookup_empty in E'.
Qed.

(** A transaction that starts gets the current object, one that goes on keeps its own. *)
Lemma set_txn_ok id o td m :
  machine_ok m -> match transactions m !! id with Some (o', _) => o = o' | None => o = current m end ->
  machine_ok (with_transactions (<[id := (o, td)]> (transactions m)) m).
Proof.
  intros [Hr Hc Ho Ha Hn] Et.
  assert (E : forall x, x ∈ refs (with_transactions (<[id := (o, td)]> (transactions m)) m) <-> x ∈ refs m).
  { intros x. rewrite !elem_of_refs. cbn [with_transactions current transactions].
    split; (intros [?|(t & d & E)]; [by left|]).
    - apply lookup_insert_Some in E as [[<- [= <- <-]]|[_ E]]; [|eauto].
      destruct (transactions m !! id) as [[o' d']|] eqn:E'; [subst; eauto|by left].
    - right. destruct (decide (t = id)) as [->|Hne]; [exists id, td|exists t, d].
      + rewrite lookup_insert_eq. rewrite E in Et. congruence.
      + by rewrite lookup_insert_ne. }
  split; [|exact Hc|exact Ho|exact Ha|].
  - intros x. rewrite E. apply Hr.
  - intros x Hx. by apply Hn, E.
Qed.

(** The end of a transaction may destroy its object. *)
Lemma end_txn_ok id m : machine_ok m ->
  machine_ok (collect (with_transactions (delete id (transactions m)) m)).
Proof.
  intros [Hr Hc Ho Ha Hn].
  assert (E : forall x, x ∈ refs (with_transactions (delete id (transactions m)) m) -> x ∈ refs m).
  { intros x. rewrite !elem_of_refs. cbn [with_transactions current transactions].
    intros [?|(t & d & [_ E]%lookup_delete_Some)]; [by left|right; eauto]. }
  apply collect_ok; [|exact Hc|exact Ho|exact Ha|]; intros x Hx%E; [by apply Hr|by apply Hn].
Qed.

Lemma event_ok txn id ev env m c m' : machine_ok m -> txn_event txn id ev env m = Ret (c, m') ->
  machine_ok m' /\
  (forall o td, transactions m !! id = Some (o, td) -> o <> current m ->
     exists evs, log m' = log m ++ evs /\ Forall (fun e => is_send e = false) evs).
Proof.
  intros Hm. unfold txn_event. destruct (transactions m !! id) as [[o td]|] eqn:Et; [|done].
  cbv [mbind outcome_bind]. destruct (run_on _ _ _ _) as [[[c' td'] m1]| |] eqn:E; [|done..].
  apply run_on_ok in E as (Hm1 & Ht & Hcur & Hq); [|done|].
  2: { intros b. split_and!; [..|intros total Hfit]; apply (Frames.frame_change _).
       - apply Frames.ignores_rates; [apply _|]. intros w d Hw. exact Hw.
       - apply Frames.ignores_rates; [apply _|]. intros w d. by apply mute_same.
       - by apply managers_respect. }
  intros [= <- <-]. split.
  - destruct td' as [td'|]; [|by apply end_txn_ok]. apply set_txn_ok; [done|]. by rewrite Ht, Et.
  - intros o' td0 [= <- <-] Hne. destruct (Hq Hne) as (evs & E & Hf). exists evs. split; [|done].
    by destruct td'.
Qed.

Lemma released_store env m o now s n w1 :
  hand_over env (seen m o) = (Ret (now, (s, n)), w1) ->
  s = socket (swabber (store o)) /\ no_sockets w1 /\
  (SwabberOps.swabber_wf (swabber (store o)) -> SwabberOps.swabber_wf (swabber w1)) /\
  RegexManager.same_rates (store o) w1.
Proof.
  unfold hand_over. rewrite M_bind_eq. cbn [time_now query]. rewrite M_bind_eq, release_sockets_run.
  intros [= <- <- <- <-]. split; [done|]. split; [done|]. split; [by intros [He _]|done].
Qed.

Lemma reload_ok env m m' : machine_ok m -> reload env m = Ret m' -> machine_ok m'.
Proof.
  intros [Hr Hc Ho Ha Hn]. unfold reload. destruct (objects m !! current m) as [o|] eqn:Eo; [|done].
  destruct (hand_over env (seen m o)) as [[[now [s n]]| |] w1] eqn:E1; [|done..].
  destruct (new_banjax s n env w1) as [[b| |] w2] eqn:E2; [|done..]. intros [= <-].
  destruct (Ho _ _ Eo) as (Hwf & _ & Hrt). apply released_store in E1 as (-> & Hno & Hw1 & Hsame).
  pose proof (new_banjax_rates _ _ _ _ _ _ E2) as Hrt2. pose proof (new_banjax_actions _ _ _ _ _ _ E2) as Hact.
  apply new_banjax_wf in E2.
  2: { intros x Hx. destruct Hwf as [_ Hwf]. rewrite Hx in Hwf. apply Hwf. }
  assert (Hcur : (current m < next m)%nat) by (apply Hn, elem_of_refs; by left).
  assert (Hdom : forall id o', objects m !! id = Some o' -> (id < next m)%nat).
  { intros id o' E. apply Hn, Hr. eauto. }
  apply collect_ok; cbn [objects current transactions consumer scheduled next].
  - intros id [->|(t & td & E)]%elem_of_refs; cbn [current transactions] in *.
    + rewrite lookup_insert_eq. by eexists.
    + rewrite !lookup_insert_is_Some. destruct (decide (next m = id)); [by left|right; split; [done|]].
      destruct (decide (current m = id)); [by left|right; split; [done|]].
      apply Hr, elem_of_refs. right; eauto.
  - intros id. unfold consumer_of. by destruct (kafka b); intros [= <-].
  - intros id o' [[<- <-]|[Hne E]]%lookup_insert_Some; [by split_and!|].
    apply lookup_insert_Some in E as [[<- <-]|[Hne' E]].
    + split; [by apply Hw1|]. split; [done|]. destruct Hrt as (total & Hfit & Hdb). exists total.
      split; [done|]. by apply (keeps_rates_same total _ _ Hsame).
    + destruct (Ho _ _ E) as (Hw & Hs & Hrest). split; [done|]. split; [|done]. intros _. by apply Hs, not_eq_sym.
  - intros id z. rewrite elem_of_app, (Ha id z), list_elem_of_fmap. split.
    + intros [(o' & E & Hz)|(z' & [= -> ->] & Hz%Hact)].
      * pose proof (Hdom _ _ E). rewrite lookup_insert_ne by lia.
        destruct (decide (current m = id)) as [<-|Hne].
        -- rewrite lookup_insert_eq. eexists. split; [done|]. cbn. congruence.
        -- rewrite lookup_insert_ne by done. eauto.
      * eexists. rewrite lookup_insert_eq. by split.
    + intros (o' & [[<- <-]|[Hne E]]%lookup_insert_Some & Hz); [right; exists z; by rewrite Hact|left].
      apply lookup_insert_Some in E as [[<- <-]|[_ E]]; eauto.
  - intros id [->|(t & td & E)]%elem_of_refs; cbn [current transactions] in *; [lia|].
    assert (id < next m)%nat; [|lia]. apply Hn, elem_of_refs. right; eauto.
Qed.

Lemma run_on_only {A} id (f : Banjax -> M A) env m m' :
  machine_ok m -> (forall b R, Frames.RespectsTables R -> preserves R (f b)) ->
  ('(_, m') ← run_on id f env m; Ret m') = Ret m' -> machine_ok m'.
Proof.
  intros Hm Hf. cbv [mbind outcome_bind]. destruct (run_on id f env m) as [[a m1]| |] eqn:E; [|done..].
  intros [= <-]. apply run_on_ok in E as [? _]; [done|done|].
  intros b. split_and!; [..|intros total _]; apply (Hf b); apply _.
Qed.

Lemma step_ok m m' : machine_ok m -> step m m' -> machine_ok m'.
Proof.
  intros Hm. destruct 1 as [id event Hid|txn id ev env c m' E|env m' E|message env m' E|metric env m' E|env m' E].
  - unfold txn_start. destruct (handle_transaction_start event) as [[c td]|]; [|done].
    apply set_txn_ok; [done|]. by rewrite Hid.
  - by eapply event_ok.
  - by eapply reload_ok.
  - unfold command in E. destruct (consumer m) as [id|]; [|congruence].
    eapply run_on_only; [done| |exact E]. intros b R HR. apply (Frames.frame_msg_consume _).
  - eapply run_on_only; [done| |exact E]. intros b R HR. apply (Frames.frame_status _).
  - eapply run_on_only; [done| |exact E]. intros b R HR. apply (Frames.frame_expired _).
Qed.

Lemma reachable_ok m : reachable m -> machine_ok m.
Proof.
  induction 1 as [env w m E|m m' _ IH Hs]; [by eapply machine_init_ok|by eapply step_ok].
Qed.


(** C22. A transaction that outlives a reload is handled to its end by the
    object it started with, but neither the ban daemon nor the receiver of the
    bot sniffer's records hears of it any more. *)
Theorem outlived_is_silent (m m' : Machine) (txn : Txn) (id o : nat) (td : TransactionData)
    (ev : TSEvent) (env : Env) (c : list ats_call) :
  reachable m -> transactions m !! id = Some (o, td) -> o <> current m ->
  txn_event txn id ev env m = Ret (c, m') ->
  exists evs, log m' = log m ++ evs /\ Forall (fun e => is_send e = false) evs.
Proof. intros Hm%reachable_ok Et Hne E. eapply event_ok; eauto. Qed.

(** The object a reload makes is the one [Startup.reload_config] makes. *)
Lemma reload_object env m m' o : objects m !! current m = Some o -> reload env m = Ret m' ->
  exists p w, reload_config (MkPlugin (banjax o) (restart m) (reload_at m)) env (seen m o) = (Ret p, w) /\
    objects m' !! current m' = Some (MkObject (current_state p) w) /\
    restart m' = restart_time p /\ reload_at m' = reload_time p.
Proof.
  intros Eo. unfold reload. rewrite Eo. unfold Startup.reload_config, hand_over. rewrite !M_bind_eq.
  cbn [time_now query]. rewrite !M_bind_eq, release_sockets_run. cbn [mret M_ret].
  rewrite M_bind_eq. destruct (new_banjax _ _ _ _) as [[b| |] w2]; [|done..]. intros [= <-].
  do 2 eexists. split; [reflexivity|]. split; [|done]. cbn [collect objects current].
  apply map_lookup_filter_Some. split; [by rewrite lookup_insert_eq|].
  apply elem_of_refs. by left.
Qed.

End Machine.

(** ** A sample: a transaction that a reload overtakes *)

Section Sample.
#[local] Existing Instances sample_crypto Util.sample_inet literal_re2 BotSniffer.sample_ssl tree_yaml.

Abbreviation sample_init :=
  (init (fun _ => []) (lit "/etc") (lit "edge1") sample_files (fun _ _ => true) 10 SwabberOps.sample_env
    (SwabberOps.sample_world 300)).
Abbreviation sample_reload :=
  (reload (fun _ => []) (lit "/etc") (lit "edge1") sample_files (fun _ _ => true) 10 SwabberOps.sample_env).
Abbreviation sample_reachable :=
  (reachable (fun _ => []) (lit "/etc") (lit "edge1") sample_files (fun _ _ => true) 10).

Definition get_machine (r : outcome Machine) : Machine :=
  match r with Ret m => m | _ => MkMachine 0 [] ∅ 0 ∅ None [] 0 0 0 end.

Definition returned {A} (r : outcome A) : bool := match r with Ret _ => true | _ => false end.

Lemma returned_machine r : returned r = true -> r = Ret (get_machine r).
Proof. by destruct r. Qed.

Definition machine1 : Machine := get_machine sample_init.
Definition machine2 : Machine := txn_start 7 TS_EVENT_HTTP_TXN_START machine1.
Definition machine3 : Machine := get_machine (sample_reload machine2).

Abbreviation close3 :=
  (txn_event (Muncher.sample_txn true) 7 TS_EVENT_HTTP_TXN_CLOSE SwabberOps.sample_env machine3).
Definition machine4 : Machine := match close3 with Ret (_, m) => m | _ => machine3 end.

Lemma init_returns : sample_init = Ret machine1.
Proof. apply returned_machine. vm_compute. reflexivity. Qed.

Lemma reload_returns : sample_reload machine2 = Ret machine3.
Proof. apply returned_machine. vm_compute. reflexivity. Qed.

Lemma machine3_reachable : sample_reachable machine3.
Proof.
  apply (reach_step _ _ _ _ _ _ machine2).
  - apply (reach_step _ _ _ _ _ _ machine1).
    + exact (reach_init _ _ _ _ _ _ SwabberOps.sample_env (SwabberOps.sample_world 300) machine1 init_returns).
    + apply step_start. vm_compute. reflexivity.
  - apply (step_reload _ _ _ _ _ _ _ SwabberOps.sample_env). exact reload_returns.
Qed.

(** Two objects while the transaction lasts, one after it. *)
Example sample_lives :
  elements (dom (objects machine3)) = [1; 0]%nat /\ elements (dom (objects machine4)) = [1]%nat /\
  length (scheduled machine3) = 4%nat /\ length (scheduled machine4) = 2%nat.
Proof. vm_compute. repeat split. Qed.


Lemma outlived_is_silent_witness :
  exists evs, log machine4 = log machine3 ++ evs /\ Forall (fun e => is_send e = false) evs.
Proof.
  assert (Hr : returned close3 = true) by (vm_compute; reflexivity).
  unfold machine4. destruct close3 as [[c m]| |] eqn:E; [|discriminate Hr..].
  refine (outlived_is_silent (fun _ => []) (lit "/etc") (lit "edge1") sample_files (fun _ _ => true) 10 machine3
    m (Muncher.sample_txn true) 7 0 transaction_data0 TS_EVENT_HTTP_TXN_CLOSE SwabberOps.sample_env
    c machine3_reachable _ _ E); vm_compute; [reflexivity|discriminate].
Defined.
End Sample.
End Plugin.
